(* ===== verification/_CoqProject ===== *)
-Q . S2P
Prelude.v
Strs.v
Host.v
HostSim.v
Json.v
Types.v
NetTypes.v
Ipv6Text.v
Instances.v
Numa.v
NumaSysfs.v
Hugepages.v
PortForwards.v
Ipv6.v
Bridge.v
NdpProxy.v
NftRules.v
Nft.v
Crypto.v
Http.v
X509.v
SevCerts.v
Tee.v
SevVerify.v
Agent.v
AgentFacts.v
Client.v
ClientFacts.v
CryptoSim.v
AttestProps.v
Verity.v
Qemu.v
Qmp.v
Persistence.v
StateDir.v
Manager.v
ManagerFrame.v
ManagerSpec.v
ManagerOps.v
ManagerInv.v
ManagerSafety.v
ManagerProps.v
ManagerRecover.v
ManagerDurable.v
ManagerConc.v
ManagerPhases.v
ManagerOverlap.v
ManagerRaces.v
Startup.v
NodeStart.v
Grpc.v
Messages.v
Volumes.v
VolumesOverlap.v
Allocations.v
NodeHash.v
Adapter.v
Scheduler.v
SchedulerFacts.v
SchedulerReady.v
SchedulerNode.v
SchedulerProps.v
SchedulerOverlap.v
AgentLifetime.v
CvmCli.v
FibService.v
Testing.v
NumaTests.v
NetworkTests.v
TeeTests.v
NodeTests.v
SchedulerTests.v
