(* ===== verification/Prelude.v ===== *)
(** * A verified model of aleph-cvm

    aleph-cvm runs confidential virtual machines. A compute node
    ([src/crates/aleph-compute-node]) keeps a table of VMs and drives QEMU, systemd,
    nftables, dnsmasq, ndppd and the kernel's NUMA and huge page interfaces; its
    networking half is a crate of its own ([src/crates/aleph-network]), the TEE types
    and backends another ([src/crates/aleph-tee]). A scheduler agent turns messages of
    the Aleph network into requests to the node, an agent inside the guest and a client
    outside prove to each other what runs there.

    ** How the code is modelled

    A Rust function becomes a Rocq function. Code that may fail returns [result]: [Ok],
    [Err] with an [anyhow] chain, or [Panic]. Code with state is in the monad [M S E A],
    a function from a state to a result and a state; a failure keeps the changes made
    before it, as in Rust. [wp m Q s] says that running [m] from [s] ends in an outcome
    and a state that satisfy [Q]; it is total: no statement here is conditional on
    termination, since all definitions are total functions. Loops of the source over a
    finite sequence are structural recursions; the one with a bound (100 attempts of
    [Ipv6.random_loop]) has the source's bound as fuel.

    The operating system is the class [Host] of [Host.v], over a type [W] of states of
    the machine: each primitive may change [W] and may fail, and nothing else is assumed
    about it. What is proved against [Host] holds on every machine, whatever commands
    answer and whichever calls fail. A child process that is fed on its standard input
    ([host_feed]) fails where it is spawned, written to or waited for. [HostFs] adds what a
    file system promises to the processes that use it, also after one has died, and is used
    for the state files and the volume cache. [HostDisk] adds what a disk promises after a
    power loss: a file then has one of several contents ([after_loss]), and only [sync]
    narrows them down; it is used for [save_vm]. [StateDir] adds a directory
    that commands leave alone and whose operations succeed on a machine that works; it is
    used for the life of a node across restarts and crashes. Third-party crates are
    classes: [SerdeJson], [Hex], [IpNet] with their documented laws; for attestation
    [SevCrate] (the parsed report), [Sha2], [OpenSsl] (certificates and ECDSA), [DerOctets],
    [X509Parser], [Rcgen], [SevGuest] (the guest's device), [Web] and [Reqwest] (HTTP),
    [RustlsServer]; for the scheduler agent [Hmac], [Sha256], [AlephTypes],
    [AlephPostClient], [Actix], [Server]; [HttpClient] behind the proxy; [Tonic] and [NodeServer] for gRPC over a Unix
    socket; [Qapi] for QEMU's monitor. [HostSim] (with [cached], a machine whose disk
    writes late), [Instances] and [CryptoSim] give concrete instances, which satisfy the laws and on which the witnesses run; the smaller
    ones stand beside the witnesses that use them.

    Integers are [Z] within the width of their Rust type; casts and unchecked arithmetic
    wrap explicitly ([wrap], the behaviour of release builds). Strings are byte strings;
    Unicode case mapping and white space are those of ASCII.

    ** Files

    - [Prelude]: results, the monad and its [wp] rules, machine integers, lists, [btree_iter],
      [map_pairwise], the hint database [cvm]. [Strs]: the string functions of the
      standard library, decimal printing and parsing, paths. [Host], [HostSim]: the
      machine. [Json]: JSON values and serde's conventions. [Types]: [aleph-tee/types.rs].
      [NetTypes]: IP addresses, [aleph-network/types.rs]. [Ipv6Text]: [Ipv6Addr::from_str].
      [Instances]: instances of the third-party classes.
    - [Numa]: [compute-node/numa.rs]; the allocator is shown to implement a ledger of
      leases ([ledger_step], [ledger_inv]). [NumaSysfs]: what the topology read from sysfs
      satisfies. [Hugepages]: [hugepages.rs].
    - [PortForwards]: [network/ipv4/port_forward.rs]. [Ipv6]: [network/ipv6/range_allocator.rs].
      [Bridge]: [compute-node/network/tap.rs] and [network/bridge.rs]. [NdpProxy]:
      [network/ndp_proxy.rs]. [NftRules], [Nft]: [network/nftables/]. Each operation of
      nft lists the ruleset, computes a batch by a pure function, and sends it.
    - [Tee]: the trait [TeeBackend] as a record, [none.rs], [sev_snp/qemu.rs]. [Verity]:
      [verity.rs]. [Qemu]: [qemu/args.rs], [qemu/process.rs], [systemd.rs].
      [Persistence]: [persistence.rs]. [StateDir]: the state directory as an interface, and
      which calls leave it alone ([quiet]).
    - [Manager]: [vm/manager.rs]. The record [VmManager] has the fields of the struct;
      [create_vm] is composed of phases in the order of the source ([allocate_offset],
      [allocate_ipv6], [write_reservations], [setup_network], [prepare_boot], [place],
      [launch], [record_vm], which is [persist_vm] and [insert_vm]), [delete_vm] and
      [recover_vms] likewise. Whether [try_lock] finds the IPv6 allocator free is an answer of
      the machine ([host_lock_free]).
    - [ManagerFrame]: what each phase may change ([frame]). [ManagerSpec]: what each phase
      does ([boot_run], with the root hashes of the images, [root_hash_of]). [ManagerOps]: [create_vm] and [delete_vm] as relations between
      states ([created], [create_failed], [create_panicked], [without]). [ManagerInv],
      [ManagerSafety]: the invariant [mgr_inv], the step relation [mgr_step] of a manager
      that serves requests, NUMA accounting. [ManagerProps], [ManagerRecover]: the
      properties and recovery after a restart. [ManagerDurable]: the state files through
      requests and restarts ([tracked], [node_step]). [ManagerConc]: the phases of several
      creations interleaved with each other and with other requests ([conc_step]); writing the
      state file and inserting into the table are phases of their own ([AtRecord],
      [AtInsert]), since the table's lock is not held over both.
      [ManagerPhases]: the phases of all operations that change the manager ([advance_pc];
      [run_whole] says that in a row they are the operations). [ManagerOverlap]: those
      phases interleaved ([op_step]), what an operation in flight claims ([shared_inv]) and
      who owns the forwards ([owned_inv]). [ManagerRaces]: orders that go wrong.
    - [Grpc]: [grpc/service.rs], validation and handlers over the messages of
      [src/proto/compute.proto]. [Startup]: [compute-node/main.rs] and the server around
      the handlers. [NodeStart]: the start joined to the manager and its state files: the
      life of a node over processes that start, serve, end and die ([life_step]).
      [Qmp]: [qemu/qmp.rs].
    - [Crypto]: the third-party classes of attestation, DER and hashing conventions.
      [Http]: responses of an HTTP handler. [X509]: [tee/x509.rs], the certificate
      extension that carries a report. [SevCerts]: [sev_snp/certs.rs], AMD's key service
      with its cache of files. [SevVerify]: [sev_snp/verify.rs], [report.rs], [backend.rs].
    - [Agent], [AgentFacts]: the attestation agent ([aleph-attest-agent]): its identity,
      the endpoint, the proxy, and the injection of secrets under a mutex that a panic
      poisons. [Client], [ClientFacts]: the attestation client ([aleph-attest-cli]).
      [AttestProps]: both ends together.
    - [Messages], [Allocations], [Volumes], [NodeHash], [Adapter]: the files of the same
      names of [aleph-scheduler-agent]; [VolumesOverlap]: downloads that interleave.
      [Scheduler]: its [main.rs] and [client.rs], on the class [ComputeNode].
      [ComputeNodeLaws] is what the agent relies on: a set of running VMs on which calls act
      as named. Running means what [list_vms] reports, every VM the node has, whatever the
      state of its process, since that is what the agent compares an allocation with.
      [SchedulerFacts]: the two loops of an allocation against that class; [SchedulerReady]:
      the same when every call succeeds ([meets]). [SchedulerNode]: the service of [Grpc] is an instance of it.
      [SchedulerProps]: the properties, on any node and on that one. [SchedulerOverlap]: the
      phases of [handle_allocation], as long as the client's lock is held, and allocations
      that interleave between them. [AgentLifetime]: the agent joined to [NodeStart]; its
      calls are steps of the node's life.
    - [CvmCli]: the command-line client on the same class. [FibService]: the service of
      the demonstration guest ([src/nix/fib-service]).
    - [Testing]: a monad for tests and their assertions. [NumaTests], [NetworkTests],
      [TeeTests], [NodeTests], [SchedulerTests]: the tests of the repository as programs
      over the model, each file ending in a lemma that they pass.

    ** What the theorems show

    - Safety of the node: [overlapping_operations] (addresses, IPv6 ranges, forwards and
      NUMA counters stay consistent in every reachable state, operations interleaved, two
      creations of one id and forwards to a VM being deleted apart;
      [manager_reachable_inv] is the case of one request at a time, [overlapping_creations]
      that of creations alone), [numa_accounting] (from a new manager,
      one request at a time) and [ledger_no_overcommit] (no node is overcommitted by
      confidential VMs),
      [ipv6_allocate_disjoint].
    - Behaviour of operations on every branch: [create_vm_outcomes], [create_vm_checked],
      [delete_undoes_create], [add_port_forward_atomic], [prepare_boot_verified],
      [qemu_drives_exact], [allocate_first_fit], [parse_size_mb_exact], the nft batches.
    - Crashes and restarts: [save_vm_atomic], a power loss included,
      [overlapping_downloads] for references without a dot (of which
      [volume_cache_atomic] is one call), [restart_restores] (recovery alone), and
      [node_lifetime], which joins the start, the manager, its state files and its
      recovery, and lets the process die in any request, on a machine whose state directory
      works while a process serves ([node_history] is the manager's part of it).
    - Round trips: [cpulist_round_trip], [message_round_trip].
    - Attestation: [verify_exact] says which reports are accepted,
      [attested_handshake_completes] that agent and client fit together,
      [client_success_means] what a success implies and [relayed_report_accepted] what it
      does not; [inject_one_shot] that secrets are injected once.
    - The scheduler agent and the node together: [allocation_converges],
      [allocation_succeeds], [api_keeps_state] on every node that keeps the interface's
      promises, and [overlapping_allocations] when several are applied at once;
      [long_hash_never_runs], [programs_never_start],
      [plain_message_confidential], [item_ref_escapes] on the node of this repository.
      [discovery_terminates] and [operator_hash_overridden] are about the interleaving of
      the discovery task with the signal handler and the operator.
    - The agent and the node over restarts: [allocation_outlasts_process], where the agent,
      the handlers, the manager, its state files and the start are composed.
    - The operator and the node together: [commands_effect].
    - The definitions behave as the code on the inputs its authors chose: the tests of the
      repository pass on the model ([numa_tests_pass], [network_tests_pass],
      [tee_tests_pass], [node_tests_pass], [scheduler_tests_pass]).
    - Defects the model exposed, each a theorem about the code as it is:
      [failed_create_keeps_offset], [delete_of_stopped_undercounts],
      [plain_release_overcommits], [relayed_report_accepted], [long_hash_never_runs],
      [programs_never_start], [plain_message_confidential], [item_ref_escapes],
      [operator_hash_overridden], [same_id_race], [forward_outlives_vm],
      [state_file_races], [superseded_allocation_applies],
      [download_truncated], [temporary_shared], parts of [remove_selects_added_dnat],
      [message_round_trip] and [commands_effect]; and the lemmas
      [remove_port_forward_forgets], [ports_truncated], [policy_adds_options],
      [bad_vcek_persists], [allocation_counts], [pid_file_left_behind].

    ** Bounds and fuel

    [Ipv6.random_loop] has the source's 100 attempts. [print_dec] has one unit of fuel per
    binary digit, which [parse_print_dec] shows to be enough. [Qmp.connect_attempts] runs
    over the source's range of attempts ([connect_bounded]). The discovery task, which the source
    runs for ever, is a step function, and [discovery_terminates] bounds its steps.

    ** Not modelled

    Logging; the parsing of command lines by clap, beyond the value parsers of the source;
    the transports (tonic, hyper, TLS records and signatures); routing (actix); generated
    code. Locks: the phases of the manager's operations interleave in [ManagerPhases] and
    [ManagerOverlap], a phase being one access to a locked part or to the state file with
    the calls that belong to it; what one phase does to several parts (the error path of
    [launch]) is not split further. In [Manager] itself an operation runs alone. In [Scheduler] each handler of the agent runs alone; [SchedulerOverlap] splits
    allocations at the client's lock, where the translation of one message is one phase,
    and [VolumesOverlap] splits the downloads of translations. A file that is open is its
    name: what a process writes to a file that another has renamed meanwhile is not
    modelled, and no theorem speaks of it. The mutex of the attestation agent, which orders injections,
    is modelled.
    JSON: a struct is read from an object; serde also reads one from an array of its fields
    in order, which the model refuses. Of two entries of one key [json_get] takes the first,
    [serde_json] the last; the decoders of structs refuse both, so the two differ only for a
    [Value] whose text repeats a key. What nft does with a batch is not code of
    the repository: [apply_deletes] states what its manual says of [delete rule] by handle
    and [delete chain], for the theorems that speak of rules that are left.
    The text of operating system errors below the contexts
    the code adds is abstract. The iteration order of hash maps is that of [map_to_list];
    no theorem depends on it.
    Of the tests, [tests/tier2_attestation.rs], whose bodies are [todo!], and
    [test_wait_for_port_timeout], which waits on a socket, are not translated.

    ** Plan

    Every part of the program but the above is modelled. What is left is finer: files by
    inode, for the writes to a renamed file, and the parts of [launch]'s error path. *)

From stdpp Require Export base tactics list gmap strings fin_maps sets sorting.
From Stdlib Require Export ZArith Lia.

#[global] Open Scope Z_scope.

(** ** Results *)

(** An [anyhow::Error]: the message [to_string] prints, and the chain below it. *)
Record error := mk_error { err_msg : string; err_causes : list string }.

(** What a Rust function returns: [Ok], [Err], or an unwinding panic. *)
Inductive result (E A : Type) : Type :=
| Ok (a : A)
| Err (e : E)
| Panic (msg : string).
Arguments Ok {E A} a.
Arguments Err {E A} e.
Arguments Panic {E A} msg.

(** [anyhow::bail!]. *)
Definition bail {A} (msg : string) : result error A := Err (mk_error msg []).

(** [anyhow::Context::context] on an error that is already an [anyhow::Error]. *)
Definition add_context (msg : string) (e : error) : error :=
  mk_error msg (err_msg e :: err_causes e).

(** [result.context(msg)]. *)
Definition context {A} (msg : string) (r : result error A) : result error A :=
  match r with Ok a => Ok a | Err e => Err (add_context msg e) | Panic p => Panic p end.

Definition map_err {E E' A} (f : E → E') (r : result E A) : result E' A :=
  match r with Ok a => Ok a | Err e => Err (f e) | Panic p => Panic p end.

(** [Option::context] / [Option::ok_or_else]. *)
Definition ok_or {E A} (e : E) (o : option A) : result E A :=
  match o with Some a => Ok a | None => Err e end.

#[global] Instance result_ret E : MRet (result E) := λ A a, Ok a.
#[global] Instance result_bind E : MBind (result E) := λ A B f r,
  match r with Ok a => f a | Err e => Err e | Panic p => Panic p end.
#[global] Instance result_fmap E : FMap (result E) := λ A B f r,
  match r with Ok a => Ok (f a) | Err e => Err e | Panic p => Panic p end.

Definition is_ok {E A} (r : result E A) : bool :=
  match r with Ok _ => true | _ => false end.

Definition is_err {E A} (r : result E A) : bool :=
  match r with Err _ => true | _ => false end.

(** The loop [for x in l { f(x)?; }] with an accumulator. *)
Fixpoint foldM {E A B} (f : B → A → result E B) (b : B) (l : list A) : result E B :=
  match l with
  | [] => Ok b
  | x :: l' => b' ← f b x; foldM f b' l'
  end.

(** ** Stateful code *)

(** A function that may change a state [S] and return or fail. A failure keeps
    the changes made before it, as in Rust. *)
Definition M (S E A : Type) : Type := S → result E A * S.

#[global] Instance M_ret S E : MRet (M S E) := λ A a s, (Ok a, s).
#[global] Instance M_bind S E : MBind (M S E) := λ A B f m s,
  match m s with
  | (Ok a, s') => f a s'
  | (Err e, s') => (Err e, s')
  | (Panic p, s') => (Panic p, s')
  end.

Definition get {S E} : M S E S := λ s, (Ok s, s).
Definition put {S E} (s : S) : M S E unit := λ _, (Ok tt, s).
Definition modify {S E} (f : S → S) : M S E unit := λ s, (Ok tt, f s).
Definition throw {S E A} (e : E) : M S E A := λ s, (Err e, s).
Definition lift {S E A} (r : result E A) : M S E A := λ s, (r, s).

(** The value of a call whose error the caller handles ([match], [if let Err],
    [let _ =]): a panic still unwinds. *)
Definition attempt {S E E' A} (m : M S E A) : M S E' (result E A) := λ s,
  match m s with
  | (Panic p, s') => (Panic p, s')
  | (r, s') => (Ok r, s')
  end.

Definition with_context {S A} (msg : string) (m : M S error A) : M S error A := λ s,
  let '(r, s') := m s in (map_err (add_context msg) r, s').

Definition map_errM {S E E' A} (f : E → E') (m : M S E A) : M S E' A := λ s,
  let '(r, s') := m s in (map_err f r, s').

(** Run a function that only touches one half of the state. *)
Definition on_fst {S T E A} (m : M S E A) : M (S * T) E A := λ '(s, t),
  let '(r, s') := m s in (r, (s', t)).
Definition on_snd {S T E A} (m : M T E A) : M (S * T) E A := λ '(s, t),
  let '(r, t') := m t in (r, (s, t')).

(** [for x in l { f(x)?; }]. *)
Fixpoint forM_ {S E A} (l : list A) (f : A → M S E unit) : M S E unit :=
  match l with
  | [] => mret tt
  | x :: l' => f x;; forM_ l' f
  end.

(** ** Reasoning about stateful code *)

(** [wp m Q s]: running [m] from [s] ends in an outcome and a state that satisfy [Q]. *)
Definition wp {S E A} (m : M S E A) (Q : result E A → S → Prop) (s : S) : Prop :=
  Q (m s).1 (m s).2.

Section wp.
Context {S E : Type}.

Lemma wp_bind {A B} (m : M S E A) (f : A → M S E B) Q s :
  wp m (λ r s', match r with
                | Ok a => wp (f a) Q s'
                | Err e => Q (Err e) s'
                | Panic p => Q (Panic p) s'
                end) s →
  wp (m ≫= f) Q s.
Proof.
  unfold wp, mbind, M_bind. destruct (m s) as [[a|e|p] s'] eqn:Em; simpl; auto.
Qed.

Lemma wp_mono {A} (m : M S E A) (Q Q' : result E A → S → Prop) s :
  wp m Q s → (∀ r s', Q r s' → Q' r s') → wp m Q' s.
Proof. unfold wp. auto. Qed.

Lemma wp_ret {A} (a : A) (Q : result E A → S → Prop) s : Q (Ok a) s → wp (mret a) Q s.
Proof. done. Qed.

Lemma wp_throw {A} (e : E) (Q : result E A → S → Prop) s : Q (Err e) s → wp (throw e) Q s.
Proof. done. Qed.

Lemma wp_lift {A} (r : result E A) (Q : result E A → S → Prop) s : Q r s → wp (lift r) Q s.
Proof. done. Qed.

Lemma wp_get (Q : result E S → S → Prop) s : Q (Ok s) s → wp get Q s.
Proof. done. Qed.

Lemma wp_modify f (Q : result E unit → S → Prop) s : Q (Ok tt) (f s) → wp (modify f) Q s.
Proof. done. Qed.

Lemma wp_attempt {E' A} (m : M S E' A) (Q : result E (result E' A) → S → Prop) s :
  wp m (λ r s', match r with
                | Panic p => Q (Panic p) s'
                | r => Q (Ok r) s'
                end) s →
  wp (attempt m) Q s.
Proof. unfold wp, attempt. by destruct (m s) as [[a|e|p] s']. Qed.

Lemma wp_unfold {A} (m : M S E A) Q s r s' : m s = (r, s') → wp m Q s ↔ Q r s'.
Proof. unfold wp. by intros ->. Qed.

(** The same steps as equations between runs. *)
Lemma bind_Ok {A B} (m : M S E A) (f : A → M S E B) s a s' :
  m s = (Ok a, s') → (m ≫= f) s = f a s'.
Proof. intros Hm. unfold mbind, M_bind. by rewrite Hm. Qed.

Lemma bind_Err {A B} (m : M S E A) (f : A → M S E B) s e s' :
  m s = (Err e, s') → (m ≫= f) s = (Err e, s').
Proof. intros Hm. unfold mbind, M_bind. by rewrite Hm. Qed.

Lemma bind_Ok_inv {A B} (m : M S E A) (f : A → M S E B) s b s' :
  (m ≫= f) s = (Ok b, s') → ∃ a s1, m s = (Ok a, s1) ∧ f a s1 = (Ok b, s').
Proof. unfold mbind, M_bind. destruct (m s) as [[a|e|p] s1]; naive_solver. Qed.
End wp.

Lemma wp_with_context {S A} msg (m : M S error A) Q s :
  wp m (λ r s', Q (map_err (add_context msg) r) s') s → wp (with_context msg m) Q s.
Proof. unfold wp, with_context. by destruct (m s). Qed.

Lemma wp_map_errM {S E E' A} (f : E → E') (m : M S E A) Q s :
  wp m (λ r s', Q (map_err f r) s') s → wp (map_errM f m) Q s.
Proof. unfold wp, map_errM. by destruct (m s). Qed.

Lemma wp_on_snd {S T E A} (m : M T E A) (Q : result E A → S * T → Prop) s t :
  (∀ r t', m t = (r, t') → Q r (s, t')) → wp (on_snd m) Q (s, t).
Proof. unfold wp, on_snd. intros H. destruct (m t) eqn:Em. simpl. by apply H. Qed.

Lemma wp_on_snd' {S T E A} (m : M T E A) (Q : result E A → S * T → Prop) s t :
  wp m (λ r t', Q r (s, t')) t → wp (on_snd m) Q (s, t).
Proof. unfold wp, on_snd. by destruct (m t). Qed.

Lemma wp_on_fst {S T E A} (m : M S E A) (Q : result E A → S * T → Prop) s t :
  wp m (λ r s', Q r (s', t)) s → wp (on_fst m) Q (s, t).
Proof. unfold wp, on_fst. by destruct (m s). Qed.

(** ** Machine integers *)

(** A [w]-bit unsigned integer is a [Z] in [0 .. 2^w - 1]. *)
Definition u8_max : Z := 255.
Definition u16_max : Z := 65535.
Definition u32_max : Z := 4294967295.
Definition u64_max : Z := 18446744073709551615.

(** Wrap-around at width [w]: an [as] cast, [wrapping_add], and an unchecked
    operation of a release build. *)
Definition wrap (w x : Z) : Z := x mod 2 ^ w.

(** [saturating_sub] on unsigned integers. *)
Definition saturating_sub (a b : Z) : Z := Z.max 0 (a - b).

(** [div_ceil] on unsigned integers. *)
Definition div_ceil (a b : Z) : Z := (a + b - 1) / b.

(** [checked_mul] at an upper bound. *)
Definition checked_mul (max a b : Z) : option Z :=
  if decide (a * b ≤ max) then Some (a * b) else None.

Definition in_width (w x : Z) : Prop := 0 ≤ x < 2 ^ w.

Lemma wrap_small w x : in_width w x → wrap w x = x.
Proof. intros. by apply Z.mod_small. Qed.

Lemma wrap_range w x : 0 ≤ w → in_width w (wrap w x).
Proof. intros. apply Z.mod_pos_bound. by apply Z.pow_pos_nonneg. Qed.

Lemma div_ceil_2_bounds a : 0 ≤ a → a ≤ 2 * div_ceil a 2 ≤ a + 1.
Proof.
  intros. unfold div_ceil.
  pose proof (Z.div_mod (a + 2 - 1) 2 ltac:(lia)).
  pose proof (Z.mod_pos_bound (a + 2 - 1) 2 ltac:(lia)). lia.
Qed.

(** ** Lists *)

(** [iter().position(p)]. *)
Fixpoint position {A} (p : A → bool) (l : list A) : option nat :=
  match l with
  | [] => None
  | x :: l' => if p x then Some 0%nat else S <$> position p l'
  end.

Lemma position_Some {A} (p : A → bool) l i :
  position p l = Some i →
  ∃ x, l !! i = Some x ∧ p x = true ∧ ∀ j y, (j < i)%nat → l !! j = Some y → p y = false.
Proof.
  revert i. induction l as [|x l IH]; intros i; simpl; [done|].
  destruct (p x) eqn:Hp.
  - intros [= <-]. exists x. repeat split; [done..|]. lia.
  - destruct (position p l) as [k|]; [|done]. intros [= <-].
    destruct (IH k eq_refl) as (y & Hy & Hpy & Hmin).
    exists y. repeat split; [done..|].
    intros [|j] z Hj; simpl; [by intros [= <-]|]. apply Hmin. lia.
Qed.

Lemma position_None {A} (p : A → bool) l :
  position p l = None ↔ Forall (λ x, p x = false) l.
Proof.
  induction l as [|x l IH]; simpl; [split; auto|].
  rewrite Forall_cons, <-IH. destruct (p x); [split; [done|by intros [? _]]|].
  destruct (position p l); simpl; [split; [done|by intros [_ ?]]|done].
Qed.

(** The indices [i], [i+1], ... of a Rust range over [Z]. *)
Definition range (lo hi : Z) : list Z := seqZ lo (hi - lo).

(** Stable insertion sort by key: [sort_by_key]. *)
Fixpoint insert_by_key {A} (key : A → Z) (x : A) (l : list A) : list A :=
  match l with
  | [] => [x]
  | y :: l' => if decide (key x ≤ key y) then x :: l else y :: insert_by_key key x l'
  end.
Fixpoint sort_by_key {A} (key : A → Z) (l : list A) : list A :=
  match l with
  | [] => []
  | x :: l' => insert_by_key key x (sort_by_key key l')
  end.

Lemma insert_by_key_perm {A} key (x : A) l : insert_by_key key x l ≡ₚ x :: l.
Proof.
  induction l as [|y l IH]; simpl; [done|]. case_decide; [done|].
  rewrite IH. by constructor.
Qed.

Lemma sort_by_key_perm {A} key (l : list A) : sort_by_key key l ≡ₚ l.
Proof. induction l as [|x l IH]; simpl; [done|]. by rewrite insert_by_key_perm, IH. Qed.

(** A [BTreeSet<u32>] iterates its elements in ascending order. *)
Definition btree_iter (s : gset Z) : list Z := merge_sort Z.le (elements s).

Lemma btree_iter_perm s : btree_iter s ≡ₚ elements s.
Proof. apply merge_sort_Permutation. Qed.

Lemma elem_of_btree_iter s x : x ∈ btree_iter s ↔ x ∈ s.
Proof. rewrite (btree_iter_perm s). apply elem_of_elements. Qed.

Lemma btree_iter_sorted s : StronglySorted Z.lt (btree_iter s).
Proof.
  assert (StronglySorted Z.le (btree_iter s)) as Hs.
  { apply Sorted_StronglySorted; [intros ???; lia|].
    apply Sorted_merge_sort. intros ??; lia. }
  assert (NoDup (btree_iter s)) as Hn by (rewrite btree_iter_perm; apply NoDup_elements).
  induction Hs as [|x l Hl IH Hx]; [constructor|].
  apply NoDup_cons in Hn as [Hxl Hn]. constructor; [auto|].
  rewrite Forall_forall in Hx |- *. intros y Hy.
  assert (x ≠ y) by (intros ->; done). specialize (Hx y Hy). lia.
Qed.

(** [Vec::get], as an index that panics out of range. *)
Definition index {E A} (l : list A) (i : nat) : result E A :=
  match l !! i with Some x => Ok x | None => Panic "index out of bounds" end.

(** Every pair of distinct entries of a map satisfies [R]. *)
Definition map_pairwise {K A} `{Countable K} (R : A → A → Prop) (m : gmap K A) : Prop :=
  ∀ i j x y, m !! i = Some x → m !! j = Some y → i ≠ j → R x y.

Section map_pairwise.
Context {K A : Type} `{Countable K} (R : A → A → Prop).

Lemma map_pairwise_empty : map_pairwise R (∅ : gmap K A).
Proof. intros i j x y Hi. by rewrite lookup_empty in Hi. Qed.

Lemma map_pairwise_insert (m : gmap K A) i x :
  map_pairwise R m →
  (∀ j y, m !! j = Some y → j ≠ i → R x y ∧ R y x) →
  map_pairwise R (<[i := x]> m).
Proof.
  intros Hm Hx a b u v Ha Hb Hab.
  destruct (decide (a = i)) as [->|Hai], (decide (b = i)) as [->|Hbi].
  - done.
  - simplify_map_eq. by apply (Hx b).
  - simplify_map_eq. by apply (Hx a).
  - simplify_map_eq. by apply (Hm a b).
Qed.

Lemma map_pairwise_delete (m : gmap K A) i :
  map_pairwise R m → map_pairwise R (delete i m).
Proof.
  intros Hm a b u v Ha Hb Hab.
  apply lookup_delete_Some in Ha as [_ Ha]. apply lookup_delete_Some in Hb as [_ Hb].
  by eapply Hm.
Qed.
End map_pairwise.

(** ** Automation *)

Create HintDb cvm discriminated.
Create Rewrite HintDb cvm.
#[export] Hint Resolve map_pairwise_empty map_pairwise_delete : cvm.
#[export] Hint Resolve wrap_range : cvm.

(** One step of a [wp] goal along the program's own structure. *)
Ltac wp_step :=
  lazymatch goal with
  | |- wp (mbind _ _) _ _ => apply wp_bind
  | |- wp (mret _) _ _ => apply wp_ret
  | |- wp (throw _) _ _ => apply wp_throw
  | |- wp (lift _) _ _ => apply wp_lift
  | |- wp get _ _ => apply wp_get
  | |- wp (modify _) _ _ => apply wp_modify
  | |- wp (attempt _) _ _ => apply wp_attempt
  | |- wp (with_context _ _) _ _ => apply wp_with_context
  | |- wp (map_errM _ _) _ _ => apply wp_map_errM
  | |- wp (on_snd _) _ (_, _) => apply wp_on_snd; intros
  | |- wp (on_fst _) _ (_, _) => apply wp_on_fst
  | |- wp (match ?x with _ => _ end) _ _ => destruct x eqn:?
  | |- wp (let '(_, _) := ?x in _) _ _ => destruct x eqn:?
  end.

Ltac wp_steps := repeat (wp_step; simpl).

(** Split every [match] in the hypotheses and the goal. *)
Ltac split_matches :=
  repeat (case_match; simplify_eq/=).
