(* ===== verification/Strs.v ===== *)
(** * Strings

    The parts of Rust's [str], [String], [u32::from_str], [fmt] and [Path] that the
    repository uses, on byte strings. A [string] is the UTF-8 encoding of a Rust
    string, so [String.length] is [str::len]. Case folding and white space are those
    of ASCII: [to_lowercase] and [trim] differ from Rust on non-ASCII input only. *)

From Stdlib Require Export Ascii.
From S2P Require Import Prelude.

Declare Scope str_scope.
Delimit Scope str_scope with str.
Infix "++" := String.append (right associativity, at level 60) : str_scope.
#[local] Open Scope str_scope.

Definition nl : string := String (Ascii.ascii_of_nat 10) "".
Definition dquote : string := String (Ascii.ascii_of_nat 34) "".

(** [str::len]. *)
Definition str_len (s : string) : Z := Z.of_nat (String.length s).

Definition is_empty (s : string) : bool :=
  match s with EmptyString => true | _ => false end.

(** ** Characters *)

Definition char_code (c : Ascii.ascii) : Z := Z.of_N (Ascii.N_of_ascii c).
Definition char_in (lo hi : Ascii.ascii) (c : Ascii.ascii) : bool :=
  (char_code lo <=? char_code c) && (char_code c <=? char_code hi).
Definition is_ascii_digit (c : Ascii.ascii) : bool := char_in "0"%char "9"%char c.
Definition is_ascii_lowercase (c : Ascii.ascii) : bool := char_in "a"%char "z"%char c.
Definition is_ascii_uppercase (c : Ascii.ascii) : bool := char_in "A"%char "Z"%char c.
Definition is_ascii_alphanumeric (c : Ascii.ascii) : bool :=
  is_ascii_digit c || is_ascii_lowercase c || is_ascii_uppercase c.
Definition to_lower_char (c : Ascii.ascii) : Ascii.ascii :=
  if is_ascii_uppercase c then Ascii.ascii_of_N (Z.to_N (char_code c + 32)) else c.
Definition to_upper_char (c : Ascii.ascii) : Ascii.ascii :=
  if is_ascii_lowercase c then Ascii.ascii_of_N (Z.to_N (char_code c - 32)) else c.

(** [chars().all(p)]. *)
Fixpoint all_chars (p : Ascii.ascii → bool) (s : string) : bool :=
  match s with EmptyString => true | String c s' => p c && all_chars p s' end.

(** [contains(c)]. *)
Definition contains_char (c : Ascii.ascii) (s : string) : bool :=
  negb (all_chars (λ d, negb (Ascii.eqb d c)) s).

Fixpoint map_chars (f : Ascii.ascii → Ascii.ascii) (s : string) : string :=
  match s with EmptyString => "" | String c s' => String (f c) (map_chars f s') end.
Definition to_lowercase : string → string := map_chars to_lower_char.
Definition to_uppercase : string → string := map_chars to_upper_char.

(** ** Prefixes, suffixes and pieces *)

Definition starts_with (p s : string) : bool := String.prefix p s.

Fixpoint strip_prefix (p s : string) : option string :=
  match p, s with
  | EmptyString, _ => Some s
  | String a p', String b s' => if Ascii.eqb a b then strip_prefix p' s' else None
  | _, EmptyString => None
  end.

Fixpoint strip_suffix (p s : string) : option string :=
  if String.eqb s p then Some ""
  else match s with
       | EmptyString => None
       | String c s' => String c <$> strip_suffix p s'
       end.

Definition ends_with (p s : string) : bool :=
  match strip_suffix p s with Some _ => true | None => false end.

(** [contains(p)] for a string pattern. *)
Fixpoint contains_str (p s : string) : bool :=
  starts_with p s ||
  match s with EmptyString => false | String _ s' => contains_str p s' end.

(** [split(c)]: always at least one piece. *)
Fixpoint split_char (c : Ascii.ascii) (s : string) : list string :=
  match s with
  | EmptyString => [""]
  | String d s' =>
      if Ascii.eqb d c then "" :: split_char c s'
      else match split_char c s' with
           | [] => [String d ""]
           | w :: ws => String d w :: ws
           end
  end.

(** [split_once(c)]. *)
Fixpoint split_once (c : Ascii.ascii) (s : string) : option (string * string) :=
  match s with
  | EmptyString => None
  | String d s' =>
      if Ascii.eqb d c then Some ("", s')
      else prod_map (String d) id <$> split_once c s'
  end.

(** [trim_start], [trim_end] and [trim_end_matches(c)]. *)
Fixpoint trim_start_by (p : Ascii.ascii → bool) (s : string) : string :=
  match s with
  | EmptyString => ""
  | String c s' => if p c then trim_start_by p s' else s
  end.
Fixpoint trim_end_by (p : Ascii.ascii → bool) (s : string) : string :=
  match s with
  | EmptyString => ""
  | String c s' =>
      match trim_end_by p s' with
      | EmptyString => if p c then "" else String c ""
      | t => String c t
      end
  end.
Definition trim (s : string) : string :=
  trim_end_by Ascii.is_space (trim_start_by Ascii.is_space s).
Definition trim_end_matches (c : Ascii.ascii) (s : string) : string :=
  trim_end_by (λ d, Ascii.eqb d c) s.

(** [split_whitespace]. *)
Definition split_whitespace (s : string) : list string := String.words s.

(** [lines]: pieces between newlines, a final empty piece dropped, a trailing
    carriage return of each piece dropped. *)
Definition lines (s : string) : list string :=
  let strip_cr l := default l (strip_suffix (String (Ascii.ascii_of_nat 13) "") l) in
  let ps := split_char (Ascii.ascii_of_nat 10) s in
  strip_cr <$> match last ps with Some EmptyString => removelast ps | _ => ps end.

(** [join(sep)]. *)
Fixpoint join (sep : string) (l : list string) : string :=
  match l with
  | [] => ""
  | [x] => x
  | x :: l' => x ++ sep ++ join sep l'
  end.

(** ** Numbers *)

Definition digit (n : Z) : Ascii.ascii := Ascii.ascii_of_N (Z.to_N (48 + n)).

Fixpoint dec_digits (fuel : nat) (n : Z) (acc : string) : string :=
  match fuel with
  | O => acc
  | S f =>
      let acc' := String (digit (n mod 10)) acc in
      if n / 10 =? 0 then acc' else dec_digits f (n / 10) acc'
  end.

(** [to_string] / [{}] of an unsigned integer; [log2 n + 1] digits are enough. *)
Definition print_dec (n : Z) : string := dec_digits (S (Z.to_nat (Z.log2 n))) n "".

Fixpoint parse_digits (max acc : Z) (s : string) : option Z :=
  match s with
  | EmptyString => Some acc
  | String c s' =>
      if is_ascii_digit c then
        let acc' := acc * 10 + (char_code c - 48) in
        if acc' <=? max then parse_digits max acc' s' else None
      else None
  end.

(** [str::parse] to an unsigned integer with the given maximum: digits only, an
    optional leading plus sign, not empty, no overflow. *)
Definition parse_uint (max : Z) (s : string) : option Z :=
  match s with
  | EmptyString => None
  | String c s' =>
      if Ascii.eqb c "+"%char then
        match s' with EmptyString => None | _ => parse_digits max 0 s' end
      else parse_digits max 0 s
  end.

(** The text of the [ParseIntError]: the first character that fails decides. *)
Definition too_large : string := "number too large to fit in target type".
Fixpoint digits_error (max acc : Z) (s : string) : string :=
  match s with
  | EmptyString => ""
  | String c s' =>
      if is_ascii_digit c then
        let acc' := acc * 10 + (char_code c - 48) in
        if acc' <=? max then digits_error max acc' s'
        else too_large
      else "invalid digit found in string"
  end.
Definition parse_int_error (max : Z) (s : string) : string :=
  match s with
  | EmptyString => "cannot parse integer from empty string"
  | String c s' =>
      if Ascii.eqb c "+"%char then
        match s' with
        | EmptyString => "invalid digit found in string"
        | _ => digits_error max 0 s'
        end
      else digits_error max 0 s
  end.

(** [parse::<uN>] as a fallible call. *)
Definition parse_int (max : Z) (s : string) : result error Z :=
  ok_or (mk_error (parse_int_error max s) []) (parse_uint max s).

Definition hex_digit (n : Z) : Ascii.ascii :=
  Ascii.ascii_of_N (Z.to_N (if n <? 10 then 48 + n else 87 + n)).

(** [{:02x}] of a [u8]. *)
Definition hex2 (n : Z) : string := String (hex_digit (n / 16)) (String (hex_digit (n mod 16)) "").

Fixpoint hex_digits (fuel : nat) (n : Z) (acc : string) : string :=
  match fuel with
  | O => acc
  | S f =>
      let acc' := String (hex_digit (n mod 16)) acc in
      if n / 16 =? 0 then acc' else hex_digits f (n / 16) acc'
  end.

(** [{:x}] of an unsigned integer. *)
Definition print_hex (n : Z) : string := hex_digits (S (Z.to_nat (Z.log2 n))) n "".

(** ** Paths *)

(** [Path::join]. *)
Definition path_join (a b : string) : string :=
  if starts_with "/" b then b
  else if is_empty a then b
  else if ends_with "/" a then a ++ b
  else a ++ "/" ++ b.

(** [Path::is_absolute]. *)
Definition is_absolute (p : string) : bool := starts_with "/" p.

Fixpoint strip_tail (r : string) : string :=
  match r with
  | String "/"%char EmptyString => r
  | String "/"%char r' => strip_tail r'
  | String "."%char (String "/"%char _ as r') => strip_tail r'
  | _ => r
  end.
Fixpoint drop_component (r : string) : string :=
  match r with
  | EmptyString => ""
  | String "/"%char _ => r
  | String _ r' => drop_component r'
  end.

(** [Path::parent]: the path without its last component; [None] for the root and
    the empty path. Trailing separators and [.] components are not components. *)
Definition path_parent (p : string) : option string :=
  let r := strip_tail (String.rev p) in
  match r with
  | EmptyString => None
  | String "/"%char EmptyString => None
  | _ => Some (String.rev (strip_tail (drop_component r)))
  end.

Fixpoint before_dot (r : string) (acc : string) : option (string * string) :=
  match r with
  | EmptyString => None
  | String c r' => if Ascii.eqb c "."%char then Some (acc, r') else before_dot r' (String c acc)
  end.

(** [Path::extension] of a file name with no separator: what follows the last dot,
    unless the name starts with its only dot. *)
Definition extension (name : string) : option string :=
  match before_dot (String.rev name) "" with
  | Some (ext, EmptyString) => None
  | Some (ext, _) => Some ext
  | None => None
  end.

Fixpoint component_of (r : string) : string :=
  match r with
  | EmptyString => ""
  | String c r' => if Ascii.eqb c "/"%char then "" else String c (component_of r')
  end.

(** [Path::with_extension]: the last component up to its last dot, and the new extension; a
    path without a file name stays. *)
Definition with_extension (p ext : string) : string :=
  let r := strip_tail (String.rev p) in
  let name := component_of r in
  if is_empty name || String.eqb name ".." then p
  else
    let stem := match before_dot name "" with
                | Some (_, EmptyString) | None => name
                | Some (_, s) => s
                end in
    String.rev (drop_component r) ++ String.rev stem ++ "." ++ ext.

(** ** Lemmas *)

#[local] Arguments String.append : simpl nomatch.

(** [s] has no character [c]. *)
Definition lacks (c : ascii) (s : string) : Prop := contains_char c s = false.

Section chars.
Implicit Types (c d : ascii) (s t : string).

Lemma char_code_inj c d : char_code c = char_code d → c = d.
Proof.
  unfold char_code. intros H.
  apply Z2N.inj_iff in H; [|lia..]. rewrite !N2Z.id in H.
  apply (f_equal ascii_of_N) in H. by rewrite !ascii_N_embedding in H.
Qed.

Lemma all_chars_app p s t : all_chars p (s ++ t) = all_chars p s && all_chars p t.
Proof. induction s as [|c s IH]; simpl; [done|]. by rewrite IH, andb_assoc. Qed.

Lemma all_chars_impl p q s :
  (∀ c, p c = true → q c = true) → all_chars p s = true → all_chars q s = true.
Proof.
  intros Hpq. induction s as [|c s IH]; simpl; [done|].
  rewrite !andb_true_iff. intros []; auto.
Qed.

Lemma lacks_all_chars c p s : p c = false → all_chars p s = true → lacks c s.
Proof.
  intros Hc Hs. unfold lacks, contains_char. apply negb_false_iff.
  revert Hs. apply all_chars_impl. intros d Hd. apply negb_true_iff, Ascii.eqb_neq.
  congruence.
Qed.

Lemma lacks_cons c d s : lacks c (String d s) ↔ d ≠ c ∧ lacks c s.
Proof.
  unfold lacks, contains_char. simpl.
  rewrite !negb_false_iff, andb_true_iff, negb_true_iff, Ascii.eqb_neq. done.
Qed.

Lemma lacks_app c s t : lacks c (s ++ t) ↔ lacks c s ∧ lacks c t.
Proof.
  unfold lacks, contains_char.
  by rewrite !negb_false_iff, all_chars_app, andb_true_iff.
Qed.

Lemma str_app_assoc s t u : ((s ++ t) ++ u = s ++ t ++ u)%str.
Proof. induction s; simpl; congruence. Qed.

Lemma str_app_inj_l s t u : (s ++ t = s ++ u → t = u)%str.
Proof. induction s as [|c s IH]; [done|]. intros [= Heq]. by apply IH. Qed.

Lemma str_app_nil_l s : ("" ++ s = s)%str.
Proof. done. Qed.

Lemma str_app_nil_r s : (s ++ "" = s)%str.
Proof. induction s; simpl; congruence. Qed.

Lemma str_length_app s t :
  String.length (s ++ t) = (String.length s + String.length t)%nat.
Proof. induction s; simpl; lia. Qed.

Lemma strip_prefix_app p s : strip_prefix p (p ++ s) = Some s.
Proof. induction p as [|c p IH]; simpl; [done|]. by rewrite Ascii.eqb_refl. Qed.

Lemma strip_prefix_Some p s r : strip_prefix p s = Some r ↔ s = (p ++ r)%str.
Proof.
  split; [|intros ->; apply strip_prefix_app].
  revert s. induction p as [|c p IH]; intros s; simpl; [congruence|].
  destruct s as [|d s].
  - done.
  - destruct (Ascii.eqb_spec c d) as [->|]; [|done]. intros H. by rewrite (IH s).
Qed.

Lemma strip_suffix_app p s : strip_suffix p (s ++ p) = Some s.
Proof.
  induction s as [|c s IH].
  - change ("" ++ p)%str with p. destruct p; cbn -[String.eqb]; by rewrite String.eqb_refl.
  - cbn -[String.eqb]. destruct (String.eqb_spec (String c (s ++ p)) p) as [H|_]; [|by rewrite IH].
    apply (f_equal String.length) in H. simpl in H. rewrite str_length_app in H. lia.
Qed.

Lemma strip_suffix_Some p s r : strip_suffix p s = Some r ↔ s = (r ++ p)%str.
Proof.
  split; [|intros ->; apply strip_suffix_app].
  revert r. induction s as [|c s IH]; intros r; cbn -[String.eqb].
  - destruct (String.eqb_spec "" p) as [<-|]; [|done]. by intros [= <-].
  - destruct (String.eqb_spec (String c s) p) as [<-|]; [by intros [= <-]|].
    destruct (strip_suffix p s) as [r'|] eqn:Hr; [|done].
    intros [= <-]. simpl. f_equal. by apply IH.
Qed.

Lemma starts_with_char c d s : starts_with (String c "") (String d s) = Ascii.eqb c d.
Proof.
  unfold starts_with. simpl. destruct (ascii_dec c d) as [->|Hne].
  - rewrite Ascii.eqb_refl. by destruct s.
  - symmetry. by apply Ascii.eqb_neq.
Qed.

Lemma starts_with_app p s : starts_with p (p ++ s) = true.
Proof. induction p as [|c p IH]; simpl; [by destruct s|]. destruct (ascii_dec c c); [done|congruence]. Qed.

Lemma starts_with_strip p s : starts_with p s = true → ∃ t, s = (p ++ t)%str.
Proof.
  unfold starts_with. revert s. induction p as [|c p IH]; intros s; [by exists s|].
  destruct s as [|d s]; simpl; [done|]. destruct (ascii_dec c d) as [->|]; [|done].
  intros [t ->]%IH. by exists t.
Qed.
End chars.

(** Splitting. *)
Section split.
Implicit Types (c d : ascii) (s t : string).

Lemma split_char_cons c s : ∃ w ws, split_char c s = w :: ws.
Proof.
  induction s as [|d s (w & ws & IH)]; simpl; [by eauto|].
  rewrite IH. destruct (Ascii.eqb d c); eauto.
Qed.

Lemma split_char_app c s t : lacks c s → split_char c (s ++ String c t) = s :: split_char c t.
Proof.
  induction s as [|d s IH]; simpl; intros Hs; [by rewrite Ascii.eqb_refl|].
  apply lacks_cons in Hs as [Hd Hs]. rewrite (IH Hs).
  by rewrite (proj2 (Ascii.eqb_neq d c) Hd).
Qed.

Lemma split_char_lacks c s : lacks c s → split_char c s = [s].
Proof.
  induction s as [|d s IH]; simpl; intros Hs; [done|].
  apply lacks_cons in Hs as [Hd Hs]. rewrite (IH Hs).
  by rewrite (proj2 (Ascii.eqb_neq d c) Hd).
Qed.

Lemma split_char_join c l :
  l ≠ [] → Forall (lacks c) l → split_char c (join (String c "") l) = l.
Proof.
  intros Hl HF. induction HF as [|x l Hx HF IH]; [done|].
  destruct l as [|y l]; [by apply split_char_lacks|].
  change (join (String c "") (x :: y :: l))
    with (x ++ String c (join (String c "") (y :: l)))%str.
  rewrite split_char_app by done. by rewrite IH.
Qed.

Lemma split_once_app c s t : lacks c s → split_once c (s ++ String c t) = Some (s, t).
Proof.
  induction s as [|d s IH]; simpl; intros Hs; [by rewrite Ascii.eqb_refl|].
  apply lacks_cons in Hs as [Hd Hs].
  by rewrite (proj2 (Ascii.eqb_neq d c) Hd), (IH Hs).
Qed.

Lemma split_once_lacks c s : lacks c s → split_once c s = None.
Proof.
  induction s as [|d s IH]; simpl; intros Hs; [done|].
  apply lacks_cons in Hs as [Hd Hs].
  by rewrite (proj2 (Ascii.eqb_neq d c) Hd), (IH Hs).
Qed.

Lemma split_once_Some c s a b : split_once c s = Some (a, b) → lacks c a ∧ s = (a ++ String c b)%str.
Proof.
  revert a b. induction s as [|d s IH]; intros a b; simpl; [done|].
  destruct (Ascii.eqb_spec d c) as [->|Hd]; [by intros [= <- <-]|].
  destruct (split_once c s) as [[x y]|]; [|done]. intros [= <- <-].
  destruct (IH x y eq_refl) as [Hx ->]. by rewrite lacks_cons.
Qed.
End split.

(** Trimming. *)
Lemma trim_end_by_app p s t :
  trim_end_by p t ≠ "" → trim_end_by p (s ++ t) = (s ++ trim_end_by p t)%str.
Proof.
  intros Ht. induction s as [|c s IH]; simpl; [done|]. rewrite IH.
  by destruct (s ++ trim_end_by p t)%str eqn:E; [destruct s; simpl in *|].
Qed.

Lemma trim_end_by_idemp p s : trim_end_by p (trim_end_by p s) = trim_end_by p s.
Proof.
  induction s as [|c s IH]; simpl; [done|].
  destruct (trim_end_by p s) as [|d t] eqn:Hs.
  - destruct (p c) eqn:Hc; simpl; [done|]. by rewrite Hc.
  - cbn [trim_end_by] in IH |- *. by rewrite IH.
Qed.

Lemma trim_end_by_id p s : all_chars (λ c, negb (p c)) s = true → trim_end_by p s = s.
Proof.
  induction s as [|c s IH]; simpl; [done|].
  rewrite andb_true_iff, negb_true_iff. intros [Hc Hs]. rewrite (IH Hs), Hc. by destruct s.
Qed.

Lemma trim_start_by_id p s : all_chars (λ c, negb (p c)) s = true → trim_start_by p s = s.
Proof.
  destruct s as [|c s]; simpl; [done|].
  rewrite andb_true_iff, negb_true_iff. by intros [-> _].
Qed.

Lemma trim_id s : all_chars (λ c, negb (Ascii.is_space c)) s = true → trim s = s.
Proof. intros Hs. unfold trim. by rewrite trim_start_by_id, trim_end_by_id. Qed.

(** Case folding. *)
Lemma to_lower_char_idemp c : to_lower_char (to_lower_char c) = to_lower_char c.
Proof. by destruct c as [[] [] [] [] [] [] [] []]. Qed.

Lemma map_chars_idemp f s :
  (∀ c, f (f c) = f c) → map_chars f (map_chars f s) = map_chars f s.
Proof. intros Hf. induction s; simpl; congruence. Qed.

(** Decimal numbers. *)
Lemma digit_spec n :
  0 ≤ n ≤ 9 → is_ascii_digit (digit n) = true ∧ char_code (digit n) = 48 + n.
Proof.
  intros. assert (n = 0 ∨ n = 1 ∨ n = 2 ∨ n = 3 ∨ n = 4 ∨ n = 5 ∨ n = 6 ∨ n = 7
    ∨ n = 8 ∨ n = 9) as Hn by lia.
  by repeat (destruct Hn as [->|Hn]; [done|]); subst.
Qed.

Lemma dec_digits_digits f n acc :
  0 ≤ n → all_chars is_ascii_digit acc = true →
  all_chars is_ascii_digit (dec_digits f n acc) = true.
Proof.
  revert n acc. induction f as [|f IH]; intros n acc Hn Hacc; simpl; [done|].
  pose proof (Z.mod_pos_bound n 10 ltac:(lia)).
  destruct (digit_spec (n mod 10)) as [Hd _]; [lia|].
  destruct (n / 10 =? 0); [simpl; by rewrite Hd|].
  apply IH; [by apply Z.div_pos|]. simpl. by rewrite Hd.
Qed.

Lemma print_dec_digits n : 0 ≤ n → all_chars is_ascii_digit (print_dec n) = true.
Proof. intros. by apply dec_digits_digits. Qed.

Lemma dec_digits_cons f n c acc : ∃ d t, dec_digits f n (String c acc) = String d t.
Proof.
  revert n c acc. induction f as [|f IH]; intros n c acc; simpl; [by eauto|].
  destruct (n / 10 =? 0); eauto.
Qed.

Lemma print_dec_cons n : ∃ d t, print_dec n = String d t.
Proof. unfold print_dec. simpl. destruct (n / 10 =? 0); eauto using dec_digits_cons. Qed.

Lemma parse_dec_digits max f n acc :
  0 ≤ n ≤ max → n < 2 ^ Z.of_nat f →
  parse_digits max 0 (dec_digits f n acc) = parse_digits max n acc.
Proof.
  revert n acc. induction f as [|f IH]; intros n acc Hn Hf; cbn [dec_digits].
  { simpl in Hf. by replace n with 0 by lia. }
  pose proof (Z.mod_pos_bound n 10 ltac:(lia)).
  pose proof (Z.div_mod n 10 ltac:(lia)) as Hdm.
  destruct (digit_spec (n mod 10)) as [Hd Hc]; [lia|].
  assert (∀ a, a = n / 10 →
    parse_digits max a (String (digit (n mod 10)) acc) = parse_digits max n acc) as Hstep.
  { intros a ->. cbn [parse_digits]. rewrite Hd, Hc.
    replace (n / 10 * 10 + (48 + n mod 10 - 48)) with n by lia.
    by rewrite (proj2 (Z.leb_le n max)) by lia. }
  destruct (Z.eqb_spec (n / 10) 0) as [H0|H0]; [by apply Hstep|].
  rewrite IH; [by apply Hstep|lia|].
  rewrite Nat2Z.inj_succ, Z.pow_succ_r in Hf by lia. lia.
Qed.

(** [to_string] then [parse]. *)
Lemma parse_print_dec max n : 0 ≤ n ≤ max → parse_uint max (print_dec n) = Some n.
Proof.
  intros Hn. destruct (print_dec_cons n) as (d & t & Hp).
  pose proof (print_dec_digits n ltac:(lia)) as Hd. rewrite Hp in Hd.
  unfold parse_uint. rewrite Hp. simpl in Hd. apply andb_true_iff in Hd as [Hd _].
  destruct (Ascii.eqb_spec d "+"%char) as [->|_]; [done|].
  rewrite <-Hp. unfold print_dec. rewrite parse_dec_digits; [done|done|].
  rewrite Nat2Z.inj_succ, Z2Nat.id by apply Z.log2_nonneg.
  destruct (decide (n = 0)) as [->|]; [done|]. apply Z.log2_spec. lia.
Qed.

Lemma error_dec_digits max f n acc :
  0 ≤ n ≤ max → n < 2 ^ Z.of_nat f →
  digits_error max 0 (dec_digits f n acc) = digits_error max n acc.
Proof.
  revert n acc. induction f as [|f IH]; intros n acc Hn Hf; cbn [dec_digits].
  { simpl in Hf. by replace n with 0 by lia. }
  pose proof (Z.mod_pos_bound n 10 ltac:(lia)).
  pose proof (Z.div_mod n 10 ltac:(lia)) as Hdm.
  destruct (digit_spec (n mod 10)) as [Hd Hc]; [lia|].
  assert (∀ a, a = n / 10 →
    digits_error max a (String (digit (n mod 10)) acc) = digits_error max n acc) as Hstep.
  { intros a ->. cbn [digits_error]. rewrite Hd, Hc.
    replace (n / 10 * 10 + (48 + n mod 10 - 48)) with n by lia.
    by rewrite (proj2 (Z.leb_le n max)) by lia. }
  destruct (Z.eqb_spec (n / 10) 0) as [H0|H0]; [by apply Hstep|].
  rewrite IH; [by apply Hstep|lia|].
  rewrite Nat2Z.inj_succ, Z.pow_succ_r in Hf by lia. lia.
Qed.

(** The digits of a number above the maximum do not parse. *)
Lemma dec_digits_too_large max f n acc :
  0 ≤ max < n → n < 2 ^ Z.of_nat f →
  parse_digits max 0 (dec_digits f n acc) = None ∧ digits_error max 0 (dec_digits f n acc) = too_large.
Proof.
  revert n acc. induction f as [|f IH]; intros n acc Hn Hf; cbn [dec_digits].
  { simpl in Hf. lia. }
  rewrite Nat2Z.inj_succ, Z.pow_succ_r in Hf by lia.
  pose proof (Z.mod_pos_bound n 10 ltac:(lia)).
  pose proof (Z.div_mod n 10 ltac:(lia)) as Hdm.
  destruct (digit_spec (n mod 10)) as [Hd Hc]; [lia|].
  assert (∀ a, a = n / 10 →
    parse_digits max a (String (digit (n mod 10)) acc) = None ∧
    digits_error max a (String (digit (n mod 10)) acc) = too_large) as Hstep.
  { intros a ->. cbn [parse_digits digits_error]. rewrite Hd, Hc.
    replace (n / 10 * 10 + (48 + n mod 10 - 48)) with n by lia.
    by rewrite (proj2 (Z.leb_gt n max)) by lia. }
  destruct (Z.eqb_spec (n / 10) 0) as [H0|H0]; [by apply Hstep|].
  destruct (decide (n / 10 ≤ max)).
  - rewrite parse_dec_digits, error_dec_digits by lia. by apply Hstep.
  - apply IH; lia.
Qed.

(** [to_string] then [parse], of a number of any size. *)
Lemma parse_int_print_dec max n : 0 ≤ max → 0 ≤ n →
  parse_int max (print_dec n) = if n <=? max then Ok n else Err (mk_error too_large []).
Proof.
  intros Hmax Hn. unfold parse_int. destruct (Z.leb_spec n max) as [Hle|Hgt].
  { by rewrite parse_print_dec. }
  destruct (print_dec_cons n) as (d & t & Hp).
  pose proof (print_dec_digits n ltac:(lia)) as Hd. rewrite Hp in Hd.
  simpl in Hd. apply andb_true_iff in Hd as [Hd _].
  destruct (dec_digits_too_large max (S (Z.to_nat (Z.log2 n))) n "" ltac:(lia)) as [Hnone Herr].
  { rewrite Nat2Z.inj_succ, Z2Nat.id by apply Z.log2_nonneg. apply Z.log2_spec. lia. }
  fold (print_dec n) in Hnone, Herr. unfold parse_uint, parse_int_error. rewrite Hp in *.
  destruct (Ascii.eqb_spec d "+"%char) as [->|_]; [done|]. by rewrite Hnone, Herr.
Qed.

Lemma print_dec_inj n m : 0 ≤ n → 0 ≤ m → print_dec n = print_dec m → n = m.
Proof.
  intros Hn Hm Heq.
  pose proof (parse_print_dec (Z.max n m) n ltac:(lia)) as H1.
  pose proof (parse_print_dec (Z.max n m) m ltac:(lia)) as H2. congruence.
Qed.

Lemma print_dec_lacks c n : is_ascii_digit c = false → 0 ≤ n → lacks c (print_dec n).
Proof. intros Hc Hn. eapply lacks_all_chars; [done|]. by apply print_dec_digits. Qed.

Lemma parse_digits_bounds max acc s n :
  0 ≤ acc ≤ max → parse_digits max acc s = Some n → 0 ≤ n ≤ max.
Proof.
  revert acc. induction s as [|c s IH]; intros acc Hacc; simpl; [by intros [= <-]|].
  destruct (is_ascii_digit c) eqn:Hc; [|done].
  destruct (Z.leb_spec (acc * 10 + (char_code c - 48)) max); [|done]. apply IH.
  unfold is_ascii_digit, char_in in Hc. apply andb_true_iff in Hc as [Hc _].
  apply Z.leb_le in Hc. assert (char_code "0"%char = 48) by done. lia.
Qed.

Lemma parse_uint_bounds max s n : 0 ≤ max → parse_uint max s = Some n → 0 ≤ n ≤ max.
Proof.
  intros Hmax. unfold parse_uint. destruct s as [|c s]; [done|].
  destruct (Ascii.eqb c "+"%char); [destruct s; [done|]|]; apply parse_digits_bounds; lia.
Qed.

Lemma parse_int_bounds max s n : 0 ≤ max → parse_int max s = Ok n → 0 ≤ n ≤ max.
Proof.
  intros Hmax. unfold parse_int. destruct (parse_uint max s) eqn:Hp; [|done].
  intros [= <-]. by eapply parse_uint_bounds.
Qed.

Lemma parse_int_no_panic max s p : parse_int max s ≠ Panic p.
Proof. unfold parse_int. by destruct (parse_uint max s). Qed.

(** Reversal. *)
Lemma rev_app_app s t u : (String.rev_app s t ++ u = String.rev_app s (t ++ u))%str.
Proof. revert t. induction s as [|c s IH]; intros t; simpl; [done|]. by rewrite IH. Qed.

Lemma str_rev_app s t : (String.rev (s ++ t) = String.rev t ++ String.rev s)%str.
Proof.
  unfold String.rev. assert (∀ u, String.rev_app (s ++ t) u = String.rev_app t (String.rev_app s u)) as ->.
  { induction s as [|c s IH]; intros u; [done|]. apply IH. }
  by rewrite rev_app_app.
Qed.

Lemma str_rev_cons c s : (String.rev (String c s) = String.rev s ++ String c "")%str.
Proof. change (String c s) with (String c "" ++ s)%str. by rewrite str_rev_app. Qed.

Lemma str_rev_involutive s : String.rev (String.rev s) = s.
Proof. induction s as [|c s IH]; [done|]. by rewrite str_rev_cons, str_rev_app, IH. Qed.

Lemma lacks_rev c s : lacks c s → lacks c (String.rev s).
Proof.
  induction s as [|d s IH]; [done|]. intros [Hd Hs]%lacks_cons.
  rewrite str_rev_cons. apply lacks_app. split; [by apply IH|]. by apply lacks_cons.
Qed.

#[export] Hint Resolve print_dec_lacks : cvm.
#[export] Hint Rewrite strip_prefix_app strip_suffix_app : cvm.

(** ** Extensions *)

Section extensions.
Implicit Types (r x : string).

Lemma strip_tail_stays c r : c ≠ "/"%char → c ≠ "."%char → strip_tail (String c r) = String c r.
Proof.
  intros Hs Hd. destruct c as [[] [] [] [] [] [] [] []]; try done; by destruct r as [|[[] [] [] [] [] [] [] []]].
Qed.

Lemma component_of_app r x : lacks "/"%char r → component_of (r ++ String "/"%char x)%str = r.
Proof.
  induction r as [|c r IH]; [done|]. intros [Hc Hr]%lacks_cons. simpl.
  rewrite (proj2 (Ascii.eqb_neq _ _)) by done. by rewrite IH.
Qed.

Lemma drop_component_app r x :
  lacks "/"%char r → drop_component (r ++ String "/"%char x)%str = String "/"%char x.
Proof.
  induction r as [|c r IH]; [done|]. intros [Hc Hr]%lacks_cons. etransitivity; [|by apply IH].
  change (String c r ++ String "/"%char x)%str with (String c (r ++ String "/"%char x)%str).
  by destruct c as [[] [] [] [] [] [] [] []].
Qed.

Lemma before_dot_lacks r acc : lacks "."%char r → before_dot r acc = None.
Proof.
  revert acc. induction r as [|c r IH]; intros acc; [done|]. intros [Hc Hr]%lacks_cons. simpl.
  rewrite (proj2 (Ascii.eqb_neq _ _)) by done. by apply IH.
Qed.

(** A plain file name gets the extension appended. *)
Lemma with_extension_plain d h ext :
  h ≠ "" → lacks "/"%char h → lacks "."%char h →
  with_extension (d ++ "/" ++ h)%str ext = (d ++ "/" ++ h ++ "." ++ ext)%str.
Proof.
  intros Hne Hs Hd. unfold with_extension.
  assert (String.rev (d ++ "/" ++ h) = String.rev h ++ "/" ++ String.rev d)%str as ->.
  { rewrite !str_rev_app. by rewrite str_app_assoc. }
  pose proof (lacks_rev _ _ Hs) as Hs'. pose proof (lacks_rev _ _ Hd) as Hd'.
  assert (String.rev h ≠ "") as Hne'.
  { intros Hr. apply Hne. by rewrite <-(str_rev_involutive h), Hr. }
  assert (strip_tail (String.rev h ++ "/" ++ String.rev d)%str =
          (String.rev h ++ "/" ++ String.rev d)%str) as ->.
  { destruct (String.rev h) as [|c g]; [done|].
    apply lacks_cons in Hs' as [? _], Hd' as [? _]. by apply strip_tail_stays. }
  change ("/" ++ String.rev d)%str with (String "/"%char (String.rev d)).
  rewrite component_of_app, drop_component_app by done.
  rewrite before_dot_lacks by done. rewrite str_rev_involutive.
  assert (is_empty (String.rev h) || String.eqb (String.rev h) ".." = false) as ->.
  { apply orb_false_iff. split; [by destruct (String.rev h)|].
    apply String.eqb_neq. intros Hr. rewrite Hr in Hd'. by apply lacks_cons in Hd' as []. }
  rewrite str_rev_cons, str_rev_involutive. by rewrite !str_app_assoc.
Qed.
End extensions.
