(* ===== verification/Host.v ===== *)
(** * The host

    What the code asks of the operating system, as one interface. [W] is the state
    of the machine outside the process: a primitive may change it and may fail with
    an [io_error], and nothing else is assumed of it. [HostFs] adds what the file
    system promises; the proofs about files that survive a crash are made against
    that class. *)

From S2P Require Import Prelude Strs.

(** [std::io::ErrorKind], as far as the code looks at it. *)
Inductive io_kind := IoNotFound | IoPermissionDenied | IoOther.
#[global] Instance io_kind_eq_dec : EqDecision io_kind.
Proof. solve_decision. Defined.

Record io_error := mk_io_error { ioe_kind : io_kind; ioe_msg : string }.

(** An operation of the host. *)
Definition IO (W A : Type) : Type := W → (io_error + A) * W.

(** [std::process::Output]. *)
Record Output := mk_output { out_success : bool; out_stdout : string; out_stderr : string }.

(** What goes wrong with a child that is given its input: it is not spawned, the input is not
    written, or it is not waited for. *)
Inductive feed_error := NotSpawned (e : io_error) | NotWritten (e : io_error) | NotWaited (e : io_error).

Class Host (W : Type) := {
  (** [Command::output]: spawn [program] with [args] and wait for it *)
  host_command : string → list string → IO W Output;
  (** [Command::spawn], [write_all] to its input, [wait_with_output] *)
  host_feed : string → list string → string → W → (feed_error + Output) * W;
  host_read : string → IO W string;
  host_write : string → string → IO W unit;
  (** [File::create], then [write_all] and [sync_all] on the open file *)
  host_create : string → IO W unit;
  (** open for writing with [create] and [truncate], a new file getting the mode *)
  host_open_truncate : string → Z → IO W unit;
  host_append : string → string → IO W unit;
  (** [flush] of an open file *)
  host_flush : string → IO W unit;
  host_sync : string → IO W unit;
  host_rename : string → string → IO W unit;
  host_remove_file : string → IO W unit;
  host_create_dir_all : string → IO W unit;
  host_set_mode : string → Z → IO W unit;
  (** file names of the entries; an entry itself may fail *)
  host_read_dir : string → IO W (list (io_error + string));
  host_exists : string → W → bool;
  (** modification time, if the file has one *)
  host_mtime : string → W → option Z;
  (** seconds since the UNIX epoch *)
  host_now : W → Z;
  (** whether a lock that is only tried is free: a matter of the other threads *)
  host_lock_free : W → bool;
  (** a number of [lo .. hi - 1] *)
  host_random_range : Z → Z → W → Z * W;
}.

(** An [io::Error] turned into an [anyhow::Error] by [?]. *)
Definition from_io (e : io_error) : error := mk_error (ioe_msg e) [].

Section io.
Context {W : Type}.

(** Run an operation of the host, keeping its [io_error]. *)
Definition run_io {A} (op : IO W A) : M W io_error A := λ w,
  match op w with
  | (inl e, w') => (Err e, w')
  | (inr a, w') => (Ok a, w')
  end.

(** [op?] and [op.context(msg)?]. *)
Definition io {A} (op : IO W A) : M W error A := map_errM from_io (run_io op).
Definition io_ctx {A} (msg : string) (op : IO W A) : M W error A :=
  with_context msg (io op).

(** [spawn().context(spawn)?], [write_all(..)?] and [wait_with_output().context(wait)?]. *)
Definition feed (spawn wait : string) (op : W → (feed_error + Output) * W) : M W error Output := λ w,
  match op w with
  | (inl (NotSpawned e), w') => (Err (add_context spawn (from_io e)), w')
  | (inl (NotWritten e), w') => (Err (from_io e), w')
  | (inl (NotWaited e), w') => (Err (add_context wait (from_io e)), w')
  | (inr output, w') => (Ok output, w')
  end.

(** Read the host's state without changing it. *)
Definition observe {E A} (f : W → A) : M W E A := λ w, (Ok (f w), w).

Lemma wp_io {A} (op : IO W A) (Q : result error A → W → Prop) w :
  (∀ a w', op w = (inr a, w') → Q (Ok a) w') →
  (∀ e w', op w = (inl e, w') → Q (Err (from_io e)) w') →
  wp (io op) Q w.
Proof.
  intros Ha He. unfold io, wp, map_errM, run_io.
  destruct (op w) as [[e|a] w'] eqn:Ho; simpl; eauto.
Qed.

Lemma wp_io_ctx {A} msg (op : IO W A) (Q : result error A → W → Prop) w :
  (∀ a w', op w = (inr a, w') → Q (Ok a) w') →
  (∀ e w', op w = (inl e, w') → Q (Err (add_context msg (from_io e))) w') →
  wp (io_ctx msg op) Q w.
Proof. intros. apply wp_with_context, wp_io; eauto. Qed.

Lemma wp_run_io {A} (op : IO W A) (Q : result io_error A → W → Prop) w :
  (∀ a w', op w = (inr a, w') → Q (Ok a) w') →
  (∀ e w', op w = (inl e, w') → Q (Err e) w') →
  wp (run_io op) Q w.
Proof.
  intros Ha He. unfold wp, run_io. destruct (op w) as [[e|a] w'] eqn:Ho; simpl; eauto.
Qed.

Lemma wp_feed spawn wait op (Q : result error Output → W → Prop) w :
  (∀ a w', op w = (inr a, w') → Q (Ok a) w') →
  (∀ e x w', op w = (inl x, w') → Q (Err e) w') →
  wp (feed spawn wait op) Q w.
Proof.
  intros Ha He. unfold wp, feed. destruct (op w) as [[[e|e|e]|a] w'] eqn:Ho; simpl; eauto.
Qed.

Lemma wp_observe {E A} (f : W → A) (Q : result E A → W → Prop) w :
  Q (Ok (f w)) w → wp (observe f) Q w.
Proof. done. Qed.
End io.

(** A call that ends in success or in an error, never in a panic, and one that cannot
    even fail. *)
Definition total {S E A} (m : M S E A) : Prop := ∀ s p, (m s).1 ≠ Panic p.
Definition never_fails {S E A} (m : M S E A) : Prop := ∀ s, ∃ a, (m s).1 = Ok a.

Section total.
Context {S E : Type}.

Lemma total_ret {A} (a : A) : total (mret a : M S E A).
Proof. by intros s p. Qed.

Lemma total_throw {A} e : total (throw e : M S E A).
Proof. by intros s p. Qed.

Lemma total_lift {A} (r : result E A) : (∀ p, r ≠ Panic p) → total (lift r : M S E A).
Proof. intros Hr s p. apply Hr. Qed.

Lemma total_bind {A B} (m : M S E A) (f : A → M S E B) :
  total m → (∀ a, total (f a)) → total (m ≫= f).
Proof.
  intros Hm Hf s p. unfold mbind, M_bind. specialize (Hm s).
  destruct (m s) as [[a|e|q] s'] eqn:Ems; simpl in *; [apply Hf|done|by destruct (Hm q)].
Qed.

Lemma total_attempt {E' A} (m : M S E A) : total m → total (attempt m : M S E' _).
Proof.
  intros Hm s p. unfold attempt. specialize (Hm s).
  destruct (m s) as [[a|e|q] s']; simpl in *; try done. by destruct (Hm q).
Qed.

Lemma total_ok_or {A} (e : E) (o : option A) : total (lift (ok_or e o) : M S E A).
Proof. apply total_lift. by destruct o. Qed.

(** A total call under [wp]: two outcomes. *)
Lemma wp_total {A} (m : M S E A) (Q : result E A → S → Prop) s :
  total m → (∀ a s', Q (Ok a) s') → (∀ e s', Q (Err e) s') → wp m Q s.
Proof.
  intros Hm Hok Herr. unfold wp. specialize (Hm s).
  destruct (m s) as [[a|e|p] s']; simpl in *; [apply Hok|apply Herr|by destruct (Hm p)].
Qed.
End total.

Lemma total_with_context {S A} msg (m : M S error A) : total m → total (with_context msg m).
Proof.
  intros Hm s p. unfold with_context. specialize (Hm s).
  destruct (m s) as [[a|e|q] s']; simpl in *; [done..|]. by destruct (Hm q).
Qed.

Lemma total_run_io {W A} (op : IO W A) : total (run_io op).
Proof. intros w p. unfold run_io. by destruct (op w) as [[]]. Qed.

Lemma total_io {W A} (op : IO W A) : total (io op).
Proof. intros w p. unfold io, map_errM, run_io. by destruct (op w) as [[]]. Qed.

Lemma total_io_ctx {W A} msg (op : IO W A) : total (io_ctx msg op).
Proof. apply total_with_context, total_io. Qed.

Lemma total_feed {W} spawn wait (op : W → (feed_error + Output) * W) : total (feed spawn wait op).
Proof. intros w p. unfold feed. by destruct (op w) as [[[]|] ?]. Qed.

Lemma never_fails_remove `{Host W} p :
  never_fails (attempt (run_io (host_remove_file p));; mret tt : M W error unit).
Proof.
  intros w. unfold mbind, M_bind, attempt, run_io. by destruct (host_remove_file p w) as [[]]; exists tt.
Qed.

(** Prove [total] along the structure of the program. *)
Ltac total_tac :=
  repeat first
    [ apply total_ret | apply total_throw | apply total_io_ctx | apply total_io
    | apply total_run_io | apply total_feed | apply total_ok_or | apply total_with_context | apply total_attempt
    | apply total_bind; [|intros] | progress case_match ].

(** What a file system promises: [host_files] is what a reader of the machine finds, also
    after the process has died. A failed [host_write], [host_create], [host_open_truncate] or [host_append] may
    leave anything in the file it was writing, and in no other; a failed [host_rename] changes nothing. *)
Class HostFs (W : Type) `{Host W} := {
  host_files : W → gmap string string;
  files_read p w : host_files (host_read p w).2 = host_files w;
  files_read_ok p w s : (host_read p w).1 = inr s → host_files w !! p = Some s;
  files_create_frame p w q : q ≠ p → host_files (host_create p w).2 !! q = host_files w !! q;
  files_create_ok p w u : (host_create p w).1 = inr u →
    host_files (host_create p w).2 !! p = Some "";
  files_write_frame p s w q : q ≠ p → host_files (host_write p s w).2 !! q = host_files w !! q;
  files_write_ok p s w u : (host_write p s w).1 = inr u →
    host_files (host_write p s w).2 !! p = Some s;
  files_open_frame p m w q :
    q ≠ p → host_files (host_open_truncate p m w).2 !! q = host_files w !! q;
  files_open_ok p m w u : (host_open_truncate p m w).1 = inr u →
    host_files (host_open_truncate p m w).2 !! p = Some "";
  files_append_frame p s w q :
    q ≠ p → host_files (host_append p s w).2 !! q = host_files w !! q;
  files_append_ok p s w u t : (host_append p s w).1 = inr u → host_files w !! p = Some t →
    host_files (host_append p s w).2 !! p = Some (t ++ s)%str;
  files_flush p w : host_files (host_flush p w).2 = host_files w;
  files_sync p w : host_files (host_sync p w).2 = host_files w;
  files_rename_ok a b w u : (host_rename a b w).1 = inr u →
    ∃ s, host_files w !! a = Some s ∧
      host_files (host_rename a b w).2 = <[b := s]> (delete a (host_files w));
  files_rename_err a b w e : (host_rename a b w).1 = inl e →
    host_files (host_rename a b w).2 = host_files w;
  files_mkdir p w : host_files (host_create_dir_all p w).2 = host_files w;
  files_remove_ok p w u : (host_remove_file p w).1 = inr u →
    host_files (host_remove_file p w).2 = delete p (host_files w);
  files_remove_err p w e : (host_remove_file p w).1 = inl e →
    host_files (host_remove_file p w).2 = host_files w;
  files_read_dir p w : host_files (host_read_dir p w).2 = host_files w;
}.

(** What a file system promises when the power fails. [after_loss w p x]: if it fails now, the
    file [p] may then have the content [x], or not be there. Nothing is promised for a file
    that is being written. A rename is atomic: the name may still be what it was, or it is
    the renamed file, which is whole once its data have been synced. No operation touches
    what becomes of other files. *)
Class HostDisk (W : Type) `{HostFs W} := {
  after_loss : W → string → option string → Prop;
  data_synced : W → string → Prop;
  synced_sync p w u : (host_sync p w).1 = inr u → data_synced (host_sync p w).2 p;
  loss_rename a b w u x : (host_rename a b w).1 = inr u → data_synced w a →
    after_loss (host_rename a b w).2 b x → after_loss w b x ∨ x = host_files w !! a;
  loss_rename_err a b w e q x : (host_rename a b w).1 = inl e →
    after_loss (host_rename a b w).2 q x → after_loss w q x;
  loss_rename_frame a b w q x : q ≠ a → q ≠ b →
    after_loss (host_rename a b w).2 q x → after_loss w q x;
  loss_create_frame p w q x : q ≠ p → after_loss (host_create p w).2 q x → after_loss w q x;
  loss_append_frame p s w q x : q ≠ p → after_loss (host_append p s w).2 q x → after_loss w q x;
  loss_sync_frame p w q x : q ≠ p → after_loss (host_sync p w).2 q x → after_loss w q x;
  loss_mkdir p w q x : after_loss (host_create_dir_all p w).2 q x → after_loss w q x;
}.

(** One step through an operation of the host, two cases. *)
Ltac io_step :=
  lazymatch goal with
  | |- wp (io _) _ _ => apply wp_io; intros
  | |- wp (io_ctx _ _) _ _ => apply wp_io_ctx; intros
  | |- wp (run_io _) _ _ => apply wp_run_io; intros
  | |- wp (observe _) _ _ => apply wp_observe
  | _ => wp_step
  end.
Ltac io_steps := repeat (io_step; simpl).
