(* ===== verification/HostSim.v ===== *)
(** * A simulated host

    A concrete host: files in a map, an oracle that makes operations fail, a queue
    of answers for commands, and a log of the commands run. It satisfies [HostFs], so
    the theorems stated against the interfaces have instances to be evaluated on. *)

From S2P Require Import Prelude Strs Host.

Record sim := mk_sim {
  sim_files : gmap string string;
  sim_fail : list bool;                     (** which of the next operations fail *)
  sim_outputs : list Output;                (** what the next commands answer *)
  sim_rand : list Z;
  sim_clock : Z;
  sim_log : list (string * list string);
}.

Definition empty_sim : sim := mk_sim ∅ [] [] [] 0 [].

Definition set_files (f : gmap string string) (w : sim) : sim :=
  mk_sim f (sim_fail w) (sim_outputs w) (sim_rand w) (sim_clock w) (sim_log w).

Definition other_error : io_error := mk_io_error IoOther "Input/output error".
Definition not_found : io_error := mk_io_error IoNotFound "No such file or directory".

(** Consult the oracle: does this operation fail? *)
Definition sim_try {A} (op : IO sim A) : IO sim A := λ w,
  let w' := mk_sim (sim_files w) (tail (sim_fail w)) (sim_outputs w) (sim_rand w)
              (sim_clock w) (sim_log w) in
  match sim_fail w with
  | true :: _ => (inl other_error, w')
  | _ => op w'
  end.

Definition sim_command (prog : string) (args : list string) : IO sim Output := λ w,
  (inr (default (mk_output true "" "") (head (sim_outputs w))),
   mk_sim (sim_files w) (sim_fail w) (tail (sim_outputs w)) (sim_rand w) (sim_clock w)
     (sim_log w ++ [(prog, args)])).

(** A child with input: when the oracle says so it is not spawned. *)
Definition sim_feed (prog : string) (args : list string) (w : sim) : (feed_error + Output) * sim :=
  match sim_try (sim_command prog args) w with
  | (inl e, w') => (inl (NotSpawned e), w')
  | (inr o, w') => (inr o, w')
  end.

Definition sim_read (p : string) : IO sim string := λ w,
  match sim_files w !! p with Some s => (inr s, w) | None => (inl not_found, w) end.

Definition sim_update (f : gmap string string → gmap string string) : IO sim unit := λ w,
  (inr tt, set_files (f (sim_files w)) w).

Definition sim_append (p s : string) : IO sim unit := λ w,
  match sim_files w !! p with
  | Some t => (inr tt, set_files (<[p := (t ++ s)%str]> (sim_files w)) w)
  | None => (inl not_found, w)
  end.

Definition sim_rename (a b : string) : IO sim unit := λ w,
  match sim_files w !! a with
  | Some s => (inr tt, set_files (<[b := s]> (delete a (sim_files w))) w)
  | None => (inl not_found, w)
  end.

Definition sim_remove (p : string) : IO sim unit := λ w,
  match sim_files w !! p with
  | Some _ => (inr tt, set_files (delete p (sim_files w)) w)
  | None => (inl not_found, w)
  end.

(** The files directly inside a directory. *)
Definition sim_read_dir (dir : string) : IO sim (list (io_error + string)) := λ w,
  (inr (omap (λ kv : string * string,
          match strip_prefix (dir ++ "/")%str kv.1 with
          | Some n => if contains_char "/"%char n then None else Some (inr n)
          | None => None
          end) (map_to_list (sim_files w))), w).

Definition sim_random (lo hi : Z) (w : sim) : Z * sim :=
  (lo + default 0 (head (sim_rand w)) mod (hi - lo),
   mk_sim (sim_files w) (sim_fail w) (sim_outputs w) (tail (sim_rand w)) (sim_clock w)
     (sim_log w)).

#[export] Instance sim_host : Host sim := {
  host_command prog args := sim_try (sim_command prog args);
  host_feed prog args stdin := sim_feed prog args;
  host_read p := sim_try (sim_read p);
  host_write p s := sim_try (sim_update (<[p := s]>));
  host_create p := sim_try (sim_update (<[p := ""%string]>));
  host_open_truncate p m := sim_try (sim_update (<[p := ""%string]>));
  host_append p s := sim_try (sim_append p s);
  host_flush p := sim_try (λ w, (inr tt, w));
  host_sync p := sim_try (λ w, (inr tt, w));
  host_rename a b := sim_try (sim_rename a b);
  host_remove_file p := sim_try (sim_remove p);
  host_create_dir_all p := sim_try (λ w, (inr tt, w));
  host_set_mode p m := sim_try (λ w, (inr tt, w));
  host_read_dir p := sim_try (sim_read_dir p);
  host_exists p w := match sim_files w !! p with Some _ => true | None => false end;
  host_mtime p w := match sim_files w !! p with Some _ => Some 0 | None => None end;
  host_now := sim_clock;
  host_lock_free _ := true;
  host_random_range := sim_random;
}.

#[export] Instance sim_host_fs : HostFs sim.
Proof.
  refine {| host_files := sim_files |}.
  all: unfold host_read, host_write, host_create, host_open_truncate, host_append, host_flush, host_sync, host_rename,
    host_create_dir_all, host_remove_file, host_read_dir; simpl.
  all: unfold sim_try, sim_read, sim_update, sim_append, sim_rename, sim_remove, sim_read_dir; simpl.
  - intros p w. destruct (sim_fail w) as [|[]]; simpl; repeat case_match; done.
  - intros p w s. destruct (sim_fail w) as [|[]]; simpl; repeat case_match; naive_solver.
  - intros p w q Hq. destruct (sim_fail w) as [|[]]; simpl; by rewrite ?lookup_insert_ne by done.
  - intros p w []. destruct (sim_fail w) as [|[]]; simpl; rewrite ?lookup_insert_eq; done.
  - intros p s w q Hq. destruct (sim_fail w) as [|[]]; simpl; by rewrite ?lookup_insert_ne by done.
  - intros p s w []. destruct (sim_fail w) as [|[]]; simpl; rewrite ?lookup_insert_eq; done.
  - intros p m w q Hq. destruct (sim_fail w) as [|[]]; simpl; by rewrite ?lookup_insert_ne by done.
  - intros p m w []. destruct (sim_fail w) as [|[]]; simpl; rewrite ?lookup_insert_eq; done.
  - intros p s w q Hq. destruct (sim_fail w) as [|[]]; simpl; repeat case_match; simpl;
      by rewrite ?lookup_insert_ne by done.
  - intros p s w [] t. destruct (sim_fail w) as [|[]]; simpl; repeat case_match; simpl;
      rewrite ?lookup_insert_eq; intros; by simplify_eq.
  - intros p w. by destruct (sim_fail w) as [|[]].
  - intros p w. by destruct (sim_fail w) as [|[]].
  - intros a b w []. destruct (sim_fail w) as [|[]]; simpl; repeat case_match; simpl; naive_solver.
  - intros a b w e. destruct (sim_fail w) as [|[]]; simpl; repeat case_match; simpl; naive_solver.
  - intros p w. by destruct (sim_fail w) as [|[]].
  - intros p w []. destruct (sim_fail w) as [|[]]; simpl; repeat case_match; simpl; naive_solver.
  - intros p w e. destruct (sim_fail w) as [|[]]; simpl; repeat case_match; simpl; naive_solver.
  - intros p w. by destruct (sim_fail w) as [|[]].
Defined.

(** ** Power *)

(** The same host with a disk that writes late: the files with data that were not synced, and
    what names stood for when they were created or renamed, which the disk may still have. *)
Record cached := mk_cached {
  c_sim : sim;
  c_dirty : gset string;
  c_names : list (string * option string);
}.

(** An operation that, when it succeeds, changes the set of dirty files and touches names. *)
Definition cached_op {R A} (op : sim → (R + A) * sim) (dirty : gset string → gset string)
    (names : list string) : cached → (R + A) * cached := λ w,
  match op (c_sim w) with
  | (inr a, s) =>
      (inr a, mk_cached s (dirty (c_dirty w)) (((λ p, (p, sim_files (c_sim w) !! p)) <$> names) ++ c_names w))
  | (inl e, s) => (inl e, mk_cached s (c_dirty w) (c_names w))
  end.
Definition moved (a b : string) (dirty : gset string) : gset string :=
  if decide (a ∈ dirty) then {[b]} ∪ dirty else dirty ∖ {[b]}.

#[export] Instance cached_host : Host cached := {
  host_command prog args := cached_op (host_command prog args) id [];
  host_feed prog args stdin := cached_op (host_feed prog args stdin) id [];
  host_read p := cached_op (host_read p) id [];
  host_write p s := cached_op (host_write p s) (λ d, {[p]} ∪ d) [p];
  host_create p := cached_op (host_create p) (λ d, {[p]} ∪ d) [p];
  host_open_truncate p m := cached_op (host_open_truncate p m) (λ d, {[p]} ∪ d) [p];
  host_append p s := cached_op (host_append p s) (λ d, {[p]} ∪ d) [];
  host_flush p := cached_op (host_flush p) id [];
  host_sync p := cached_op (host_sync p) (λ d, d ∖ {[p]}) [];
  host_rename a b := cached_op (host_rename a b) (moved a b) [a; b];
  host_remove_file p := cached_op (host_remove_file p) (λ d, d ∖ {[p]}) [p];
  host_create_dir_all p := cached_op (host_create_dir_all p) id [];
  host_set_mode p m := cached_op (host_set_mode p m) id [];
  host_read_dir p := cached_op (host_read_dir p) id [];
  host_exists p w := host_exists p (c_sim w);
  host_mtime p w := host_mtime p (c_sim w);
  host_now w := host_now (c_sim w);
  host_lock_free w := host_lock_free (c_sim w);
  host_random_range lo hi w :=
    let '(n, s) := host_random_range lo hi (c_sim w) in (n, mk_cached s (c_dirty w) (c_names w));
}.

Definition cached_files (w : cached) : gmap string string := sim_files (c_sim w).
Lemma cached_op_files {R A} (op : sim → (R + A) * sim) f ps w :
  (cached_op op f ps w).1 = (op (c_sim w)).1 ∧ c_sim (cached_op op f ps w).2 = (op (c_sim w)).2.
Proof. unfold cached_op. by destruct (op (c_sim w)) as [[e|a] s]. Qed.

#[export] Instance cached_host_fs : HostFs cached.
Proof.
  refine {| host_files w := host_files (c_sim w) |}.
  all: unfold host_read, host_write, host_create, host_open_truncate, host_append, host_flush, host_sync,
    host_rename, host_create_dir_all, host_remove_file, host_read_dir, cached_host.
  all: intros *; match goal with
    | |- context [cached_op ?op ?f ?ps ?w] => destruct (cached_op_files op f ps w) as [E1 E2]; rewrite ?E1, ?E2 end.
  - apply files_read.
  - apply files_read_ok.
  - apply files_create_frame.
  - apply files_create_ok.
  - apply files_write_frame.
  - apply files_write_ok.
  - apply files_open_frame.
  - apply files_open_ok.
  - apply files_append_frame.
  - apply files_append_ok.
  - apply files_flush.
  - apply files_sync.
  - apply files_rename_ok.
  - apply files_rename_err.
  - apply files_mkdir.
  - apply files_remove_ok.
  - apply files_remove_err.
  - apply files_read_dir.
Defined.

(** What the disk may show: any data where they were not synced, the file as it is, or what
    its name stood for before. *)
Definition cached_loss (w : cached) (p : string) (x : option string) : Prop :=
  (p ∈ c_dirty w ∧ is_Some x) ∨ x = cached_files w !! p ∨ (p, x) ∈ c_names w.

(** An operation that leaves a file and its name alone leaves what becomes of it alone. *)
Lemma cached_loss_frame {R A} (op : sim → (R + A) * sim) f ps w q x :
  (∀ s, sim_files (op s).2 !! q = sim_files s !! q) → (∀ d, q ∈ f d → q ∈ d) → q ∉ ps →
  cached_loss (cached_op op f ps w).2 q x → cached_loss w q x.
Proof.
  intros Hfiles Hf Hps. specialize (Hfiles (c_sim w)). unfold cached_loss, cached_op, cached_files.
  destruct (op (c_sim w)) as [[e|a] s]; simpl in *; rewrite Hfiles; [by auto|].
  intros [[Hd Hx]|[Hx|Hx]]; [left; auto|right; by left|].
  apply elem_of_app in Hx as [(p & Heq & Hp)%list_elem_of_fmap|Hx]; [|right; by right].
  injection Heq as <- _. done.
Qed.

#[export] Instance cached_disk : HostDisk cached.
Proof.
  refine {| after_loss := cached_loss; data_synced w p := p ∉ c_dirty w |}.
  - intros p w u. unfold host_sync, cached_host, cached_op.
    destruct (host_sync p (c_sim w)) as [[e|a] s]; simpl; [done|set_solver].
  - intros a b w u x. pose proof (files_rename_ok a b (c_sim w)) as Hok.
    unfold host_rename, cached_host, cached_op, cached_loss, cached_files.
    destruct (host_rename a b (c_sim w)) as [[e|u'] s]; simpl in *; [done|]. intros _ Ha.
    destruct (Hok _ eq_refl) as (t & Ht & Hs). unfold host_files, sim_host_fs in Hs. rewrite Hs.
    unfold moved. rewrite decide_False by done. rewrite lookup_insert_eq.
    intros [[Hd _]|[->|Hx]]; [set_solver|by right|].
    rewrite !elem_of_cons in Hx. destruct Hx as [[= -> ->]|[[= ->]|Hx]]; [by right|left..]; [right; by left|right; by right].
  - intros a b w e q x. pose proof (files_rename_err a b (c_sim w)) as Herr.
    unfold host_rename, cached_host, cached_op, cached_loss, cached_files.
    destruct (host_rename a b (c_sim w)) as [[e'|u'] s]; simpl in *; [|done]. intros _.
    specialize (Herr _ eq_refl). unfold host_files, sim_host_fs in Herr. by rewrite Herr.
  - intros a b w q x Ha Hb. apply cached_loss_frame; [| |set_solver].
    + intros s. pose proof (files_rename_ok a b s) as Hok. pose proof (files_rename_err a b s) as Herr.
      unfold host_files, sim_host_fs in Hok, Herr.
      destruct (host_rename a b s) as [[e|u] s']; simpl in *; [by rewrite (Herr _ eq_refl)|].
      destruct (Hok _ eq_refl) as (t & _ & ->). by rewrite lookup_insert_ne, lookup_delete_ne.
    + intros dirty. unfold moved. case_decide; set_solver.
  - intros p w q x Hq. apply cached_loss_frame; [intros s; exact (files_create_frame p s q Hq)|set_solver|set_solver].
  - intros p t w q x Hq. apply cached_loss_frame; [intros s; exact (files_append_frame p t s q Hq)|set_solver|set_solver].
  - intros p w q x Hq. apply cached_loss_frame; [|set_solver|set_solver].
    intros s. pose proof (files_sync p s) as Hs. unfold host_files, sim_host_fs in Hs. by rewrite Hs.
  - intros p w q x. apply cached_loss_frame; [|done|set_solver].
    intros s. pose proof (files_mkdir p s) as Hs. unfold host_files, sim_host_fs in Hs. by rewrite Hs.
Defined.
