(* ===== verification/Json.v ===== *)
(** * JSON values

    [serde_json::Value] with the accessors the code uses, and the derived
    (de)serialisation of a struct as an object. The text syntax of JSON belongs to
    serde_json, so printing and parsing a value are the operations of a class whose
    law is that parsing inverts printing. *)

From S2P Require Import Prelude Strs.

(** [serde_json::Value]. Numbers are the integers the code reads and writes; an
    object keeps its entries in order. *)
Inductive json :=
| JNull
| JBool (b : bool)
| JNum (n : Z)
| JStr (s : string)
| JArr (l : list json)
| JObj (fields : list (string * json)).

Class SerdeJson := {
  json_print : json → string;
  json_print_pretty : json → string;
  json_parse : string → option json;
  json_parse_print v : json_parse (json_print v) = Some v;
  json_parse_print_pretty v : json_parse (json_print_pretty v) = Some v;
}.

Fixpoint assoc {A} (k : string) (l : list (string * A)) : option A :=
  match l with
  | [] => None
  | (k', a) :: l' => if String.eqb k k' then Some a else assoc k l'
  end.

(** [value.get(k)]: [None] on anything but an object. *)
Definition json_get (k : string) (v : json) : option json :=
  match v with JObj l => assoc k l | _ => None end.
Definition as_str (v : json) : option string :=
  match v with JStr s => Some s | _ => None end.
(** [as_u64]: only for a number of that range. *)
Definition as_u64 (v : json) : option Z :=
  match v with JNum n => if (0 <=? n) && (n <=? u64_max) then Some n else None | _ => None end.
Definition as_array (v : json) : option (list json) :=
  match v with JArr l => Some l | _ => None end.
Definition as_bool (v : json) : option bool :=
  match v with JBool b => Some b | _ => None end.

(** ** Derived deserialisation *)

(** A field of a derived struct: required, optional, or with a default. Unknown
    fields are ignored. *)
Definition field {A} (dec : json → option A) (k : string) (v : json) : option A :=
  json_get k v ≫= dec.
Definition field_default {A} (dec : json → option A) (d : A) (k : string) (v : json) : option A :=
  match json_get k v with None => Some d | Some j => dec j end.

(** An [Option<T>] value: null is [None]. *)
Definition of_option {A} (dec : json → option A) (v : json) : option (option A) :=
  match v with JNull => Some None | _ => Some <$> dec v end.
Definition to_option {A} (enc : A → json) (o : option A) : json :=
  match o with None => JNull | Some a => enc a end.
(** A field of type [Option<T>] may be missing. *)
Definition field_option {A} (dec : json → option A) (k : string) (v : json) : option (option A) :=
  field_default (of_option dec) None k v.

(** A [Vec<T>] value. *)
Definition of_list {A} (dec : json → option A) (v : json) : option (list A) :=
  match v with JArr l => mapM dec l | _ => None end.

(** An unsigned integer of the given maximum. *)
Definition of_uint (max : Z) (v : json) : option Z :=
  match v with JNum n => if (0 <=? n) && (n <=? max) then Some n else None | _ => None end.

(** A derived [Deserialize] refuses an object in which a field it knows occurs twice. *)
Definition count_key (k : string) (l : list (string * json)) : nat :=
  length (filter (λ e, e.1 = k) l).
Definition no_duplicate_field (ks : list string) (v : json) : bool :=
  match v with
  | JObj l => forallb (λ k, (count_key k l <=? 1)%nat) ks
  | _ => false
  end.

(** ** Lemmas *)

Section fields.
Context {A : Type} (dec : json → option A) (d : A) (k : string) (v j : json).
Hypothesis Hj : json_get k v = Some j.

Lemma field_lookup : field dec k v = dec j.
Proof. unfold field. by rewrite Hj. Qed.

Lemma field_default_lookup : field_default dec d k v = dec j.
Proof. unfold field_default. by rewrite Hj. Qed.

Lemma field_option_lookup : field_option dec k v = of_option dec j.
Proof. unfold field_option, field_default. by rewrite Hj. Qed.
End fields.

Lemma of_uint_ok max n : 0 ≤ n ≤ max → of_uint max (JNum n) = Some n.
Proof. intros. unfold of_uint. by rewrite !(proj2 (Z.leb_le _ _)) by lia. Qed.

Lemma of_to_option {A} (dec : json → option A) (enc : A → json) o :
  (∀ a, o = Some a → dec (enc a) = Some a ∧ enc a ≠ JNull) → of_option dec (to_option enc o) = Some o.
Proof.
  destruct o as [a|]; [|done]. intros H. destruct (H a eq_refl) as [Ha Hn].
  unfold of_option, to_option. destruct (enc a); by rewrite ?Ha.
Qed.

Lemma of_list_fmap {A} (dec : json → option A) (enc : A → json) l :
  Forall (λ a, dec (enc a) = Some a) l → of_list dec (JArr (enc <$> l)) = Some l.
Proof.
  intros Hl. unfold of_list. apply mapM_Some. induction Hl; simpl; constructor; auto.
Qed.

(** A property of every value a decoder gives holds of every field read with it. *)
Section decoded.
Context {A : Type} (P : A → Prop) (dec : json → option A).
Hypothesis Hdec : ∀ j a, dec j = Some a → P a.

Lemma field_decoded k v a : field dec k v = Some a → P a.
Proof. unfold field. destruct (json_get k v) as [j|]; [apply Hdec|done]. Qed.

Lemma field_default_decoded d k v a : P d → field_default dec d k v = Some a → P a.
Proof. intros Hd. unfold field_default. destruct (json_get k v) as [j|]; [apply Hdec|naive_solver]. Qed.

Lemma field_option_decoded k v o a : field_option dec k v = Some o → o = Some a → P a.
Proof.
  unfold field_option, field_default, of_option. intros Ho ->.
  destruct (json_get k v) as [j|]; [|done].
  destruct j; try done; destruct (dec _) eqn:Hd; simplify_eq/=; by eapply Hdec.
Qed.

Lemma of_list_decoded v l : of_list dec v = Some l → Forall P l.
Proof.
  unfold of_list. destruct v; try done. intros Hl%mapM_Some.
  induction Hl; constructor; eauto.
Qed.
End decoded.

Lemma of_uint_bounds max v n : of_uint max v = Some n → 0 ≤ n ≤ max.
Proof.
  unfold of_uint. destruct v; try done. destruct (_ && _) eqn:Hb; [|done]. intros [= <-].
  apply andb_true_iff in Hb as [?%Z.leb_le ?%Z.leb_le]. lia.
Qed.
