(* ===== verification/Types.v ===== *)
(** * Data types of the aleph-tee crate

    [src/crates/aleph-tee/src/types.rs]: the TEE types, VM and disk configurations,
    attestation reports, and their derived JSON encodings. Paths are strings. The
    [hex] crate is a parameter with its round-trip law. *)

From Stdlib Require Export Strings.Byte.
From S2P Require Import Prelude Strs Json.

Definition bytes : Type := list byte.
#[global] Instance byte_eq_dec : EqDecision byte := Byte.byte_eq_dec.

(** The value of a byte. *)
Definition u8 (b : byte) : Z := Z.of_N (Byte.to_N b).

Class Hex := {
  hex_encode : bytes → string;
  hex_decode : string → option bytes;
  hex_decode_encode b : hex_decode (hex_encode b) = Some b;
}.

Inductive TeeType := SevSnp | Tdx | NvidiaCc | TeeNone.
#[global] Instance TeeType_eq_dec : EqDecision TeeType.
Proof. solve_decision. Defined.
#[global] Instance TeeType_countable : Countable TeeType.
Proof.
  refine (inj_countable' (λ t, match t with SevSnp => 0%nat | Tdx => 1%nat
    | NvidiaCc => 2%nat | TeeNone => 3%nat end)
    (λ n, match n with 0%nat => SevSnp | 1%nat => Tdx | 2%nat => NvidiaCc | _ => TeeNone end) _).
  by intros [].
Defined.

(** [rename_all = kebab-case]. *)
Definition tee_type_json (t : TeeType) : json :=
  JStr match t with
       | SevSnp => "sev-snp" | Tdx => "tdx" | NvidiaCc => "nvidia-cc" | TeeNone => "none"
       end.
Definition tee_type_of_json (v : json) : option TeeType :=
  match v with
  | JStr s =>
      if String.eqb s "sev-snp" then Some SevSnp
      else if String.eqb s "tdx" then Some Tdx
      else if String.eqb s "nvidia-cc" then Some NvidiaCc
      else if String.eqb s "none" then Some TeeNone
      else None
  | _ => None
  end.

(** The derived [Debug] of a TEE type. *)
Definition tee_type_debug (t : TeeType) : string :=
  match t with
  | SevSnp => "SevSnp" | Tdx => "Tdx" | NvidiaCc => "NvidiaCc" | TeeNone => "None"
  end.

Record AttestationReport := mk_report {
  ar_tee_type : TeeType;
  ar_data : bytes;
  ar_report_data : bytes; (** 64 bytes *)
  ar_measurement : bytes;
}.

Record VerificationResult := mk_verification {
  vr_valid : bool;
  vr_tee_type : TeeType;
  vr_summary : string;
  vr_measurement : bytes;
  vr_details : json;
}.

Record DiskConfig := mk_disk {
  d_path : string;
  d_readonly : bool;
  d_format : string;
}.
#[global] Instance DiskConfig_eq_dec : EqDecision DiskConfig.
Proof. solve_decision. Defined.

Definition default_true : bool := true.
Definition default_raw : string := "raw".

Inductive HugePageSize := Size2M | Size1G.
#[global] Instance HugePageSize_eq_dec : EqDecision HugePageSize.
Proof. solve_decision. Defined.

Record TeeConfig := mk_tee { t_backend : TeeType; t_policy : option string }.
#[global] Instance TeeConfig_eq_dec : EqDecision TeeConfig.
Proof. solve_decision. Defined.

Record VmConfig := mk_config {
  vm_id : string;
  kernel : option string;
  initrd : option string;
  disks : list DiskConfig;
  vcpus : Z;      (** u32 *)
  memory_mb : Z;  (** u32 *)
  tee : TeeConfig;
  encrypted : bool;
  numa_node : option Z;
  hugepage_size : option HugePageSize;
}.
#[global] Instance VmConfig_eq_dec : EqDecision VmConfig.
Proof. solve_decision. Defined.

Definition set_disks (ds : list DiskConfig) (c : VmConfig) : VmConfig :=
  mk_config (vm_id c) (kernel c) (initrd c) ds (vcpus c) (memory_mb c) (tee c)
    (encrypted c) (numa_node c) (hugepage_size c).
Definition set_numa_node (n : option Z) (c : VmConfig) : VmConfig :=
  mk_config (vm_id c) (kernel c) (initrd c) (disks c) (vcpus c) (memory_mb c) (tee c)
    (encrypted c) n (hugepage_size c).
Definition set_hugepage_size (h : option HugePageSize) (c : VmConfig) : VmConfig :=
  mk_config (vm_id c) (kernel c) (initrd c) (disks c) (vcpus c) (memory_mb c) (tee c)
    (encrypted c) (numa_node c) h.

(** The integers of a configuration are within their width. *)
Definition config_wf (c : VmConfig) : Prop :=
  0 ≤ vcpus c ≤ u32_max ∧ 0 ≤ memory_mb c ≤ u32_max ∧
  match numa_node c with Some n => 0 ≤ n ≤ u32_max | None => True end.

(** ** JSON encodings *)

Definition of_str (v : json) : option string := as_str v.

Definition disk_json (d : DiskConfig) : json :=
  JObj [("path", JStr (d_path d)); ("readonly", JBool (d_readonly d));
        ("format", JStr (d_format d))].
Definition disk_of_json (v : json) : option DiskConfig :=
  if no_duplicate_field ["path"; "readonly"; "format"] v then
    p ← field of_str "path" v;
    ro ← field_default as_bool default_true "readonly" v;
    f ← field_default of_str default_raw "format" v;
    Some (mk_disk p ro f)
  else None.

Definition hugepage_json (h : HugePageSize) : json :=
  JStr match h with Size2M => "2m" | Size1G => "1g" end.
Definition hugepage_of_json (v : json) : option HugePageSize :=
  match v with
  | JStr s =>
      if String.eqb s "2m" then Some Size2M
      else if String.eqb s "1g" then Some Size1G else None
  | _ => None
  end.

Definition tee_json (t : TeeConfig) : json :=
  JObj [("backend", tee_type_json (t_backend t)); ("policy", to_option JStr (t_policy t))].
Definition tee_of_json (v : json) : option TeeConfig :=
  if no_duplicate_field ["backend"; "policy"] v then
    b ← field tee_type_of_json "backend" v;
    p ← field_option of_str "policy" v;
    Some (mk_tee b p)
  else None.

Definition config_fields : list string :=
  ["vm_id"; "kernel"; "initrd"; "disks"; "vcpus"; "memory_mb"; "tee"; "encrypted";
   "numa_node"; "hugepage_size"].
Definition config_json (c : VmConfig) : json :=
  JObj [("vm_id", JStr (vm_id c)); ("kernel", to_option JStr (kernel c));
        ("initrd", to_option JStr (initrd c)); ("disks", JArr (disk_json <$> disks c));
        ("vcpus", JNum (vcpus c)); ("memory_mb", JNum (memory_mb c));
        ("tee", tee_json (tee c)); ("encrypted", JBool (encrypted c));
        ("numa_node", to_option JNum (numa_node c));
        ("hugepage_size", to_option hugepage_json (hugepage_size c))].
Definition config_of_json (v : json) : option VmConfig :=
  if no_duplicate_field config_fields v then
    i ← field of_str "vm_id" v;
    k ← field_option of_str "kernel" v;
    r ← field_option of_str "initrd" v;
    ds ← field_default (of_list disk_of_json) [] "disks" v;
    n ← field (of_uint u32_max) "vcpus" v;
    m ← field (of_uint u32_max) "memory_mb" v;
    t ← field tee_of_json "tee" v;
    e ← field_default as_bool false "encrypted" v;
    nn ← field_option (of_uint u32_max) "numa_node" v;
    h ← field_option hugepage_of_json "hugepage_size" v;
    Some (mk_config i k r ds n m t e nn h)
  else None.

Section hex_serde.
Context `{Hex}.

(** [hex_serde]. *)
Definition hex_serialize (b : bytes) : json := JStr (hex_encode b).
Definition hex_deserialize (v : json) : option bytes := as_str v ≫= hex_decode.

(** [hex_serde_array]. *)
Definition hex_array_serialize (b : bytes) : json := JStr (hex_encode b).
Definition hex_array_deserialize (v : json) : option bytes :=
  s ← as_str v;
  b ← hex_decode s;
  if (length b =? 64)%nat then Some b else None.

Definition report_json (r : AttestationReport) : json :=
  JObj [("tee_type", tee_type_json (ar_tee_type r)); ("data", hex_serialize (ar_data r));
        ("report_data", hex_array_serialize (ar_report_data r));
        ("measurement", hex_serialize (ar_measurement r))].
Definition report_of_json (v : json) : option AttestationReport :=
  if no_duplicate_field ["tee_type"; "data"; "report_data"; "measurement"] v then
    t ← field tee_type_of_json "tee_type" v;
    d ← field hex_deserialize "data" v;
    rd ← field hex_array_deserialize "report_data" v;
    m ← field hex_deserialize "measurement" v;
    Some (mk_report t d rd m)
  else None.

(** Reading back an attestation report gives the report, and only 64 bytes of report
    data are ever read. *)
Lemma report_of_to_json r :
  length (ar_report_data r) = 64%nat → report_of_json (report_json r) = Some r.
Proof.
  intros Hl. destruct r as [t d rd m]; simpl in *.
  unfold report_of_json, report_json; simpl. unfold field, hex_deserialize, hex_array_deserialize.
  simpl. rewrite !hex_decode_encode; simpl. rewrite Hl. by destruct t.
Qed.

Lemma report_of_json_length v r :
  report_of_json v = Some r → length (ar_report_data r) = 64%nat.
Proof.
  unfold report_of_json, field, hex_array_deserialize. intros Hr.
  destruct (no_duplicate_field _ _); [|done].
  repeat (apply bind_Some in Hr as (? & ? & Hr)). simplify_eq/=.
  repeat match goal with H : mbind _ _ = Some _ |- _ => apply bind_Some in H as (? & ? & ?) end.
  repeat case_match; simplify_eq. by apply Nat.eqb_eq.
Qed.
End hex_serde.

(** ** Lemmas *)

Lemma tee_type_of_to_json t : tee_type_of_json (tee_type_json t) = Some t.
Proof. by destruct t. Qed.

Lemma disk_of_to_json d : disk_of_json (disk_json d) = Some d.
Proof. by destruct d. Qed.

Lemma tee_of_to_json t : tee_of_json (tee_json t) = Some t.
Proof. by destruct t as [[] []]. Qed.

Lemma disks_of_to_json ds : of_list disk_of_json (JArr (disk_json <$> ds)) = Some ds.
Proof. apply of_list_fmap, Forall_forall. intros. apply disk_of_to_json. Qed.

Lemma no_duplicate_config c : no_duplicate_field config_fields (config_json c) = true.
Proof. reflexivity. Qed.

Lemma config_of_to_json c : config_wf c → config_of_json (config_json c) = Some c.
Proof.
  destruct c as [i k r ds n m t e nn h]. unfold config_wf. cbn [vcpus memory_mb numa_node].
  intros (Hn & Hm & Hnn). unfold config_of_json.
  rewrite no_duplicate_config. set (v := config_json _).
  rewrite (field_lookup of_str "vm_id" v (JStr i) eq_refl).
  rewrite (field_option_lookup of_str "kernel" v (to_option JStr k) eq_refl).
  rewrite (field_option_lookup of_str "initrd" v (to_option JStr r) eq_refl).
  rewrite (field_default_lookup _ _ "disks" v (JArr (disk_json <$> ds)) eq_refl).
  rewrite (field_lookup _ "vcpus" v (JNum n) eq_refl).
  rewrite (field_lookup _ "memory_mb" v (JNum m) eq_refl).
  rewrite (field_lookup _ "tee" v (tee_json t) eq_refl).
  rewrite (field_default_lookup _ _ "encrypted" v (JBool e) eq_refl).
  rewrite (field_option_lookup _ "numa_node" v (to_option JNum nn) eq_refl).
  rewrite (field_option_lookup _ "hugepage_size" v (to_option hugepage_json h) eq_refl).
  rewrite disks_of_to_json, tee_of_to_json, !of_uint_ok by done.
  by rewrite !of_to_option; [|intros a ->; rewrite ?of_uint_ok by done; by try destruct a..].
Qed.
