(* ===== verification/NetTypes.v ===== *)
(** * Addresses, protocols and port forwards

    [Ipv4Addr] and [Ipv6Addr] of the standard library as 32- and 128-bit integers
    with their text forms, the [ipnet] crate's [Ipv6Net] as a class with the laws the
    code relies on, and [src/crates/aleph-network/src/types.rs]. *)

From S2P Require Import Prelude Strs Json.

(** ** IPv4 *)

(** [Ipv4Addr] in network order. *)
Definition Ipv4Addr : Type := Z.
Definition octets (a : Ipv4Addr) : Z * Z * Z * Z :=
  (a / 16777216 mod 256, a / 65536 mod 256, a / 256 mod 256, a mod 256).
Definition from_octets (o : Z * Z * Z * Z) : Ipv4Addr :=
  let '(a, b, c, d) := o in a * 16777216 + b * 65536 + c * 256 + d.
Definition octet3 (a : Ipv4Addr) : Z := a mod 256.
Definition ipv4_wf (a : Ipv4Addr) : Prop := 0 ≤ a ≤ u32_max.

Definition print_ipv4 (a : Ipv4Addr) : string :=
  let '(o0, o1, o2, o3) := octets a in
  (print_dec o0 ++ "." ++ print_dec o1 ++ "." ++ print_dec o2 ++ "." ++ print_dec o3)%str.

(** One octet of a dotted address: one to three digits, no leading zero, at most 255. *)
Definition parse_octet (s : string) : option Z :=
  if (3 <? str_len s) || negb (all_chars is_ascii_digit s) then None
  else match s with
       | String "0"%char (String _ _) => None
       | _ => parse_uint u8_max s
       end.
Definition parse_ipv4 (s : string) : option Ipv4Addr :=
  match split_char "."%char s with
  | [a; b; c; d] =>
      a ← parse_octet a; b ← parse_octet b; c ← parse_octet c; d ← parse_octet d;
      Some (from_octets (a, b, c, d))
  | _ => None
  end.

Lemma octets_bounds a :
  let '(o0, o1, o2, o3) := octets a in
  0 ≤ o0 ≤ 255 ∧ 0 ≤ o1 ≤ 255 ∧ 0 ≤ o2 ≤ 255 ∧ 0 ≤ o3 ≤ 255.
Proof.
  unfold octets.
  pose proof (Z.mod_pos_bound (a / 16777216) 256 ltac:(lia)).
  pose proof (Z.mod_pos_bound (a / 65536) 256 ltac:(lia)).
  pose proof (Z.mod_pos_bound (a / 256) 256 ltac:(lia)).
  pose proof (Z.mod_pos_bound a 256 ltac:(lia)). lia.
Qed.

Lemma from_octets_octets a : ipv4_wf a → from_octets (octets a) = a.
Proof.
  unfold ipv4_wf, from_octets, octets, u32_max. intros Ha.
  replace (a / 65536) with (a / 256 / 256) by (by rewrite Z.div_div).
  replace (a / 16777216) with (a / 256 / 256 / 256) by (by rewrite !Z.div_div).
  pose proof (Z.div_mod a 256 ltac:(lia)). pose proof (Z.div_mod (a / 256) 256 ltac:(lia)).
  pose proof (Z.div_mod (a / 256 / 256) 256 ltac:(lia)).
  rewrite (Z.mod_small (a / 256 / 256 / 256)); [lia|].
  rewrite !Z.div_div by lia. split; [apply Z.div_pos; lia|apply Z.div_lt_upper_bound; lia].
Qed.

Lemma parse_print_octet n : 0 ≤ n ≤ 255 → parse_octet (print_dec n) = Some n.
Proof.
  intros Hn. pose proof (Z2Nat.id n ltac:(lia)) as Hid.
  assert (Forall (λ k, parse_octet (print_dec (Z.of_nat k)) = Some (Z.of_nat k)) (seq 0 256)) as HF.
  { apply (bool_decide_unpack _). by vm_compute. }
  rewrite Forall_forall in HF. specialize (HF (Z.to_nat n)).
  rewrite Hid in HF. apply HF, elem_of_seq. lia.
Qed.

Lemma print_ipv4_split a :
  split_char "."%char (print_ipv4 a) =
  let '(o0, o1, o2, o3) := octets a in [print_dec o0; print_dec o1; print_dec o2; print_dec o3].
Proof.
  unfold print_ipv4. pose proof (octets_bounds a) as Hb. destruct (octets a) as [[[o0 o1] o2] o3].
  destruct Hb as (?&?&?&?).
  apply (split_char_join "."%char [print_dec o0; print_dec o1; print_dec o2; print_dec o3]); [done|].
  repeat constructor; apply print_dec_lacks; try done; lia.
Qed.

Lemma parse_print_ipv4 a : ipv4_wf a → parse_ipv4 (print_ipv4 a) = Some a.
Proof.
  intros Ha. unfold parse_ipv4. rewrite print_ipv4_split.
  pose proof (octets_bounds a) as Hb. pose proof (from_octets_octets a Ha) as Hf.
  destruct (octets a) as [[[o0 o1] o2] o3]. destruct Hb as (?&?&?&?).
  rewrite !parse_print_octet by lia. change (Some (from_octets (o0, o1, o2, o3)) = Some a). by rewrite Hf.
Qed.

Lemma print_ipv4_inj a b : ipv4_wf a → ipv4_wf b → print_ipv4 a = print_ipv4 b → a = b.
Proof.
  intros Ha Hb Heq. pose proof (parse_print_ipv4 a Ha). pose proof (parse_print_ipv4 b Hb).
  congruence.
Qed.

(** ** IPv6 *)

(** [Ipv6Addr] as a 128-bit integer, and its eight 16-bit segments. *)
Definition Ipv6Addr : Type := Z.
Definition segments (a : Ipv6Addr) : list Z :=
  (λ i, a / 2 ^ (16 * (7 - i)) mod 65536) <$> [0; 1; 2; 3; 4; 5; 6; 7].

(** The longest run of zero segments, the first of equals: its start and length. *)
Fixpoint longest_zero_run (i cur_start cur_len best_start best_len : nat) (l : list Z) : nat * nat :=
  match l with
  | [] => (best_start, best_len)
  | x :: l' =>
      if x =? 0 then
        let s := if (cur_len =? 0)%nat then i else cur_start in
        let n := S cur_len in
        if (best_len <? n)%nat then longest_zero_run (S i) s n s n l'
        else longest_zero_run (S i) s n best_start best_len l'
      else longest_zero_run (S i) 0 0 best_start best_len l'
  end.

(** [Display]: hexadecimal segments, the longest run of two or more zero segments
    compressed, and the dotted form for an IPv4-mapped address. *)
Definition print_ipv6 (a : Ipv6Addr) : string :=
  let segs := segments a in
  if (a / 2 ^ 32 =? 65535) then ("::ffff:" ++ print_ipv4 (a mod 2 ^ 32))%str
  else
    let '(start, len) := longest_zero_run 0 0 0 0 0 segs in
    if (1 <? len)%nat then
      (join ":" (print_hex <$> take start segs) ++ "::" ++
       join ":" (print_hex <$> drop (start + len) segs))%str
    else join ":" (print_hex <$> segs).

(** The [ipnet] crate's [Ipv6Net], with its documented behaviour: a network keeps the
    address it was made from, and spans the addresses that share its prefix. *)
Class IpNet (Net : Type) := {
  net_new : Ipv6Addr → Z → option Net;
  net_addr : Net → Ipv6Addr;
  prefix_len : Net → Z;
  network : Net → Ipv6Addr;
  broadcast : Net → Ipv6Addr;
  net_print : Net → string;
  net_parse : string → option Net;
  net_new_Some a p : 0 ≤ a < 2 ^ 128 → 0 ≤ p ≤ 128 →
    ∃ n, net_new a p = Some n ∧ net_addr n = a ∧ prefix_len n = p;
  net_new_None a p : 128 < p → net_new a p = None;
  net_prefix_bounds n : 0 ≤ prefix_len n ≤ 128;
  net_addr_bounds n : 0 ≤ net_addr n < 2 ^ 128;
  net_network n : network n = net_addr n / 2 ^ (128 - prefix_len n) * 2 ^ (128 - prefix_len n);
  net_broadcast n : broadcast n = network n + 2 ^ (128 - prefix_len n) - 1;
  net_parse_print n : net_parse (net_print n) = Some n;
}.

Section net.
Context {Net : Type} `{IpNet Net}.

Lemma net_span (n : Net) :
  0 ≤ network n ≤ net_addr n ∧ net_addr n ≤ broadcast n ∧ broadcast n < 2 ^ 128.
Proof.
  rewrite net_broadcast, net_network. pose proof (net_addr_bounds n) as Ha.
  pose proof (net_prefix_bounds n) as Hp. set (k := 128 - prefix_len n) in *.
  assert (0 < 2 ^ k) as Hk by (apply Z.pow_pos_nonneg; lia).
  pose proof (Z.div_mod (net_addr n) (2 ^ k) ltac:(lia)).
  pose proof (Z.mod_pos_bound (net_addr n) (2 ^ k) Hk).
  assert (0 ≤ net_addr n / 2 ^ k) by (apply Z.div_pos; lia).
  assert (2 ^ 128 = 2 ^ (128 - k) * 2 ^ k) as Hsplit.
  { rewrite <-Z.pow_add_r by lia. f_equal. lia. }
  assert (net_addr n / 2 ^ k < 2 ^ (128 - k)) by (apply Z.div_lt_upper_bound; lia).
  split_and!; nia.
Qed.
End net.

(** ** Protocols and port forwards *)

Inductive Protocol := Tcp | Udp.
#[global] Instance Protocol_eq_dec : EqDecision Protocol.
Proof. solve_decision. Defined.
#[global] Instance Protocol_countable : Countable Protocol.
Proof.
  refine (inj_countable' (λ p, match p with Tcp => true | Udp => false end)
    (λ b, match b with true => Tcp | false => Udp end) _).
  by intros [].
Defined.

Definition print_protocol (p : Protocol) : string :=
  match p with Tcp => "tcp" | Udp => "udp" end.
Definition protocol_from_str (s : string) : result error Protocol :=
  if String.eqb (to_lowercase s) "tcp" then Ok Tcp
  else if String.eqb (to_lowercase s) "udp" then Ok Udp
  else bail ("unknown protocol: " ++ s)%str.

Record PortForward := mk_forward {
  f_vm_id : string;
  f_host_port : Z;  (** u16 *)
  f_vm_port : Z;    (** u16 *)
  f_protocol : Protocol;
}.
#[global] Instance PortForward_eq_dec : EqDecision PortForward.
Proof. solve_decision. Defined.
Definition forward_wf (f : PortForward) : Prop :=
  0 ≤ f_host_port f ≤ u16_max ∧ 0 ≤ f_vm_port f ≤ u16_max.

Definition protocol_json (p : Protocol) : json := JStr (print_protocol p).
Definition protocol_of_json (v : json) : option Protocol :=
  match v with
  | JStr s => if String.eqb s "tcp" then Some Tcp
              else if String.eqb s "udp" then Some Udp else None
  | _ => None
  end.
Definition forward_json (f : PortForward) : json :=
  JObj [("vm_id", JStr (f_vm_id f)); ("host_port", JNum (f_host_port f));
        ("vm_port", JNum (f_vm_port f)); ("protocol", protocol_json (f_protocol f))].
Definition forward_of_json (v : json) : option PortForward :=
  if no_duplicate_field ["vm_id"; "host_port"; "vm_port"; "protocol"] v then
    i ← field as_str "vm_id" v;
    h ← field (of_uint u16_max) "host_port" v;
    g ← field (of_uint u16_max) "vm_port" v;
    p ← field protocol_of_json "protocol" v;
    Some (mk_forward i h g p)
  else None.

Lemma forward_of_to_json f : forward_wf f → forward_of_json (forward_json f) = Some f.
Proof.
  destruct f as [i h g p]. unfold forward_wf. cbn [f_host_port f_vm_port]. intros [Hh Hg].
  unfold forward_of_json. change (no_duplicate_field _ _) with true. cbv iota.
  set (v := forward_json _).
  rewrite (field_lookup as_str "vm_id" v (JStr i) eq_refl).
  rewrite (field_lookup _ "host_port" v (JNum h) eq_refl).
  rewrite (field_lookup _ "vm_port" v (JNum g) eq_refl).
  rewrite (field_lookup _ "protocol" v (protocol_json p) eq_refl).
  rewrite !of_uint_ok by done. by destruct p.
Qed.
