(* ===== verification/Ipv6Text.v ===== *)
(** * Parsing IPv6 addresses

    [Ipv6Addr::from_str] of the standard library: eight groups of one to four
    hexadecimal digits, at most one [::], and an IPv4 address in place of the last two
    groups. A reader takes a prefix of its input and returns the rest. *)

From S2P Require Import Prelude Strs NetTypes.

Definition digit_value (radix : Z) (c : Ascii.ascii) : option Z :=
  let n := char_code c in
  let d := if is_ascii_digit c then Some (n - 48)
           else if is_ascii_lowercase c then Some (n - 87)
           else if is_ascii_uppercase c then Some (n - 55) else None in
  d ← d; if d <? radix then Some d else None.

(** All digits at the front: their value, their number and the rest. *)
Fixpoint read_digits (radix acc : Z) (count : nat) (s : string) : Z * nat * string :=
  match s with
  | String c s' =>
      match digit_value radix c with
      | Some d => read_digits radix (acc * radix + d) (S count) s'
      | None => (acc, count, s)
      end
  | EmptyString => (acc, count, s)
  end.

Definition read_number (radix max : Z) (max_digits : nat) (allow_zero_prefix : bool) (s : string) :
    option (Z * string) :=
  let '(n, count, rest) := read_digits radix 0 0 s in
  if (count =? 0)%nat || (max_digits <? count)%nat then None
  else if negb allow_zero_prefix && starts_with "0" s && (1 <? count)%nat then None
  else if n <=? max then Some (n, rest) else None.

Definition read_char (c : Ascii.ascii) (s : string) : option string :=
  match s with
  | String d s' => if Ascii.eqb d c then Some s' else None
  | EmptyString => None
  end.

(** A separator before every item but the first. *)
Definition read_separator (c : Ascii.ascii) (index : nat) (s : string) : option string :=
  if (index =? 0)%nat then Some s else read_char c s.

Definition read_octet (index : nat) (s : string) : option (Z * string) :=
  s ← read_separator "."%char index s; read_number 10 u8_max 3 false s.

Definition read_ipv4 (s : string) : option (Z * string) :=
  '(a, s) ← read_octet 0 s; '(b, s) ← read_octet 1 s; '(c, s) ← read_octet 2 s;
  '(d, s) ← read_octet 3 s; Some (from_octets (a, b, c, d), s).

Definition read_hex_group (index : nat) (s : string) : option (Z * string) :=
  s ← read_separator ":"%char index s; read_number 16 u16_max 4 true s.
Definition read_v4_groups (index : nat) (s : string) : option (Z * string) :=
  s ← read_separator ":"%char index s; read_ipv4 s.

(** Up to [limit] groups: the groups, whether they end in an IPv4 address, the rest. *)
Fixpoint read_groups (limit index : nat) (s : string) : list Z * bool * string :=
  match limit with
  | O => ([], false, s)
  | S limit' =>
      let group :=
        match read_hex_group index s with
        | Some (g, s') =>
            let '(gs, v4, rest) := read_groups limit' (S index) s' in (g :: gs, v4, rest)
        | None => ([], false, s)
        end in
      if (0 <? limit')%nat then
        match read_v4_groups index s with
        | Some (v4, s') => ([v4 / 65536; v4 mod 65536], true, s')
        | None => group
        end
      else group
  end.

Definition from_segments (gs : list Z) : Ipv6Addr := foldl (λ acc g, acc * 65536 + g) 0 gs.

Definition read_ipv6 (s : string) : option (Ipv6Addr * string) :=
  let '(head, head_v4, rest) := read_groups 8 0 s in
  if (length head =? 8)%nat then Some (from_segments head, rest)
  else if head_v4 then None
  else
    rest ← read_char ":"%char rest;
    rest ← read_char ":"%char rest;
    let '(tail, _, rest) := read_groups (8 - (length head + 1)) 0 rest in
    Some (from_segments (head ++ replicate (8 - length head - length tail) 0 ++ tail), rest).

(** The whole string must be read. *)
Definition parse_ipv6 (s : string) : option Ipv6Addr :=
  '(a, rest) ← read_ipv6 s; if is_empty rest then Some a else None.

(** ** The address is in range *)

Lemma char_in_bounds lo hi c : char_in lo hi c = true → char_code lo ≤ char_code c ≤ char_code hi.
Proof. unfold char_in. rewrite andb_true_iff, !Z.leb_le. done. Qed.

Lemma digit_value_nonneg radix c d : digit_value radix c = Some d → 0 ≤ d.
Proof.
  unfold digit_value. destruct (is_ascii_digit c) eqn:E1;
    [|destruct (is_ascii_lowercase c) eqn:E2; [|destruct (is_ascii_uppercase c) eqn:E3]];
    simpl; intros Hd; repeat case_match; simplify_eq.
  - apply char_in_bounds in E1. change (char_code "0") with 48 in E1. lia.
  - apply char_in_bounds in E2. change (char_code "a") with 97 in E2. lia.
  - apply char_in_bounds in E3. change (char_code "A") with 65 in E3. lia.
Qed.

Lemma read_digits_nonneg radix acc count s :
  0 ≤ acc → 0 ≤ radix → 0 ≤ (read_digits radix acc count s).1.1.
Proof.
  revert acc count. induction s as [|c s IH]; intros acc count Hacc Hr; simpl; [done|].
  destruct (digit_value radix c) as [d|] eqn:Hd; [|done]. apply IH; [|done].
  apply digit_value_nonneg in Hd. nia.
Qed.

Lemma read_number_bounds radix max digits z s n rest :
  0 ≤ radix → read_number radix max digits z s = Some (n, rest) → 0 ≤ n ≤ max.
Proof.
  intros Hr. unfold read_number. pose proof (read_digits_nonneg radix 0 0 s ltac:(lia) Hr) as Hn.
  destruct (read_digits radix 0 0 s) as [[k count] rest']. simpl in Hn.
  repeat case_match; intros; simplify_eq. rewrite Z.leb_le in *. lia.
Qed.

Lemma read_octet_bounds i s n rest : read_octet i s = Some (n, rest) → 0 ≤ n ≤ 255.
Proof.
  unfold read_octet. destruct (read_separator _ _ _); simpl; [|done].
  by apply read_number_bounds.
Qed.

Lemma read_ipv4_bounds s n rest : read_ipv4 s = Some (n, rest) → 0 ≤ n < 65536 * 65536.
Proof.
  unfold read_ipv4. intros Hs.
  apply bind_Some in Hs as ([a s1] & Ha & Hs). apply bind_Some in Hs as ([b s2] & Hb & Hs).
  apply bind_Some in Hs as ([c s3] & Hc & Hs). apply bind_Some in Hs as ([d s4] & Hd & Hs).
  apply read_octet_bounds in Ha, Hb, Hc, Hd. injection Hs as <- <-. unfold from_octets. lia.
Qed.

Definition group_ok (g : Z) : Prop := 0 ≤ g < 65536.

Lemma read_groups_ok limit i s :
  Forall group_ok (read_groups limit i s).1.1 ∧ (length (read_groups limit i s).1.1 ≤ limit)%nat.
Proof.
  revert i s. induction limit as [|limit IH]; intros i s; simpl; [by split|].
  set (group := match read_hex_group i s with Some _ => _ | None => _ end).
  assert (Forall group_ok group.1.1 ∧ (length group.1.1 ≤ S limit)%nat) as Hg.
  { subst group. destruct (read_hex_group i s) as [[g s']|] eqn:Hr; [|by split; [|simpl; lia]].
    apply bind_Some in Hr as (s1 & _ & Hr). apply read_number_bounds in Hr; [|lia].
    specialize (IH (S i) s'). destruct (read_groups limit (S i) s') as [[gs v4] rest]. simpl in *.
    destruct IH as [IH1 IH2]. split; [|lia]. constructor; [|done]. unfold group_ok, u16_max in *. lia. }
  clearbody group. destruct (0 <? limit)%nat eqn:Hl; [|done].
  destruct (read_v4_groups i s) as [[v s']|] eqn:Hr; [|done].
  apply bind_Some in Hr as (s1 & _ & Hr). apply read_ipv4_bounds in Hr. simpl.
  apply Nat.ltb_lt in Hl. split; [|lia].
  repeat constructor; unfold group_ok.
  - apply Z.div_pos; lia.
  - apply Z.div_lt_upper_bound; lia.
  - apply Z.mod_pos_bound. lia.
  - apply Z.mod_pos_bound. lia.
Qed.

Lemma from_segments_bounds gs acc k :
  Forall group_ok gs → 0 ≤ acc < 2 ^ (16 * Z.of_nat k) →
  0 ≤ foldl (λ acc g, acc * 65536 + g) acc gs < 2 ^ (16 * Z.of_nat (k + length gs)).
Proof.
  intros Hgs. revert acc k. induction Hgs as [|g gs Hg Hgs IH]; intros acc k Hacc; simpl.
  { by rewrite Nat.add_0_r. }
  replace (k + S (length gs))%nat with (S k + length gs)%nat by lia. apply IH.
  replace (2 ^ (16 * Z.of_nat (S k))) with (65536 * 2 ^ (16 * Z.of_nat k)).
  { unfold group_ok in Hg. nia. }
  replace (16 * Z.of_nat (S k)) with (16 + 16 * Z.of_nat k) by lia.
  rewrite Z.pow_add_r by lia. done.
Qed.

Lemma parse_ipv6_bounds s a : parse_ipv6 s = Some a → 0 ≤ a < 2 ^ 128.
Proof.
  unfold parse_ipv6. intros Hp. apply bind_Some in Hp as ([b rest] & Hr & Hp).
  destruct (is_empty rest); [|done]. injection Hp as <-. unfold read_ipv6 in Hr.
  pose proof (read_groups_ok 8 0 s) as [Hh Hl].
  destruct (read_groups 8 0 s) as [[head v4] r1]. simpl in *.
  assert (∀ gs, Forall group_ok gs → length gs = 8%nat → 0 ≤ from_segments gs < 2 ^ 128) as Hfrom.
  { intros gs Hgs Hlen. pose proof (from_segments_bounds gs 0 0 Hgs ltac:(simpl; lia)) as Hb.
    by rewrite Hlen in Hb. }
  destruct (Nat.eqb_spec (length head) 8) as [H8|Hn8]; [injection Hr as <- _; by apply Hfrom|].
  destruct v4; [done|]. apply bind_Some in Hr as (r2 & _ & Hr). apply bind_Some in Hr as (r3 & _ & Hr).
  pose proof (read_groups_ok (8 - (length head + 1)) 0 r3) as [Ht Htl].
  destruct (read_groups (8 - (length head + 1)) 0 r3) as [[tl v4'] r4]. simpl in *.
  injection Hr as <- _. apply Hfrom.
  - apply Forall_app; split; [done|]. apply Forall_app; split; [|done].
    apply Forall_replicate. unfold group_ok. lia.
  - rewrite !length_app, length_replicate. lia.
Qed.
