(* ===== verification/Instances.v ===== *)
(** * Instances of the third-party interfaces

    The crates the code calls are classes with laws. Here is one concrete instance of
    each, so that theorems stated against a class can be applied to concrete data. They
    satisfy the laws the code relies on; their text forms are not those of the crates. *)

From S2P Require Import Prelude Strs Json Types NetTypes.

(** ** ipnet *)

Record sim_net := mk_sim_net {
  sn_addr : Z;
  sn_prefix : Z;
  sn_ok : (0 <=? sn_addr) && (sn_addr <? 2 ^ 128) && (0 <=? sn_prefix) && (sn_prefix <=? 128) = true;
}.

Lemma sim_net_eq n m : sn_addr n = sn_addr m → sn_prefix n = sn_prefix m → n = m.
Proof.
  destruct n as [a p H], m as [b q H']. simpl. intros -> ->. f_equal. apply proof_irrel.
Qed.

Lemma sim_net_bounds n : 0 ≤ sn_addr n < 2 ^ 128 ∧ 0 ≤ sn_prefix n ≤ 128.
Proof.
  destruct n as [a p H]. simpl.
  rewrite !andb_true_iff, !Z.leb_le, Z.ltb_lt in H. lia.
Qed.

Definition sim_net_new (a p : Z) : option sim_net :=
  match decide ((0 <=? a) && (a <? 2 ^ 128) && (0 <=? p) && (p <=? 128) = true) with
  | left H => Some (mk_sim_net a p H)
  | right _ => None
  end.

Lemma sim_net_new_Some a p :
  0 ≤ a < 2 ^ 128 → 0 ≤ p ≤ 128 → ∃ n, sim_net_new a p = Some n ∧ sn_addr n = a ∧ sn_prefix n = p.
Proof.
  intros Ha Hp. unfold sim_net_new. case_decide as Hd; [by eexists|].
  destruct Hd. rewrite !andb_true_iff, !Z.leb_le, Z.ltb_lt. lia.
Qed.

Definition sim_net_print (n : sim_net) : string :=
  (print_dec (sn_addr n) ++ "/" ++ print_dec (sn_prefix n))%str.
Definition sim_net_parse (s : string) : option sim_net :=
  '(a, p) ← split_once "/"%char s;
  a ← parse_uint (2 ^ 128) a; p ← parse_uint 128 p; sim_net_new a p.

#[export] Instance sim_ipnet : IpNet sim_net.
Proof.
  refine {|
    net_new := sim_net_new;
    net_addr := sn_addr;
    prefix_len := sn_prefix;
    network n := sn_addr n / 2 ^ (128 - sn_prefix n) * 2 ^ (128 - sn_prefix n);
    broadcast n := sn_addr n / 2 ^ (128 - sn_prefix n) * 2 ^ (128 - sn_prefix n) +
                   2 ^ (128 - sn_prefix n) - 1;
    net_print := sim_net_print;
    net_parse := sim_net_parse;
  |}; try done.
  - apply sim_net_new_Some.
  - intros a p Hp. unfold sim_net_new. case_decide as Hd; [|done]. exfalso. clear - Hp Hd.
    rewrite !andb_true_iff, !Z.leb_le, Z.ltb_lt in Hd. lia.
  - intros n. apply sim_net_bounds.
  - intros n. apply sim_net_bounds.
  - intros n. pose proof (sim_net_bounds n) as [Ha Hp]. unfold sim_net_parse, sim_net_print.
    change ("/" ++ print_dec (sn_prefix n))%str with (String "/"%char (print_dec (sn_prefix n))).
    rewrite split_once_app by (apply print_dec_lacks; [done|lia]). cbn [mbind option_bind].
    rewrite !parse_print_dec by lia. cbn [mbind option_bind].
    destruct (sim_net_new_Some _ _ Ha Hp) as (m & -> & Hm1 & Hm2). f_equal.
    by apply sim_net_eq.
Defined.

(** ** serde_json *)

Fixpoint bits_print (p : positive) : string :=
  match p with
  | xH => ""
  | xO p => String "0"%char (bits_print p)
  | xI p => String "1"%char (bits_print p)
  end.
Fixpoint bits_parse (s : string) : option positive :=
  match s with
  | EmptyString => Some xH
  | String "0"%char s' => xO <$> bits_parse s'
  | String "1"%char s' => xI <$> bits_parse s'
  | _ => None
  end.

Lemma bits_parse_print p : bits_parse (bits_print p) = Some p.
Proof. induction p as [p IH|p IH|]; simpl; by rewrite ?IH. Qed.

(** A JSON value as a tree with labels. *)
Fixpoint json_tree (v : json) : gen_tree (bool + Z + string) :=
  match v with
  | JNull => GenNode 0 []
  | JBool b => GenLeaf (inl (inl b))
  | JNum n => GenLeaf (inl (inr n))
  | JStr s => GenLeaf (inr s)
  | JArr l => GenNode 1 (json_tree <$> l)
  | JObj l => GenNode 2 ((λ e, GenNode 3 [GenLeaf (inr e.1); json_tree e.2]) <$> l)
  end.
Fixpoint tree_json (t : gen_tree (bool + Z + string)) : json :=
  match t with
  | GenLeaf (inl (inl b)) => JBool b
  | GenLeaf (inl (inr n)) => JNum n
  | GenLeaf (inr s) => JStr s
  | GenNode 1 l => JArr (tree_json <$> l)
  | GenNode 2 l =>
      JObj (omap (λ e, match e with
                       | GenNode 3 [GenLeaf (inr k); t'] => Some (k, tree_json t')
                       | _ => None
                       end) l)
  | GenNode _ _ => JNull
  end.

Section json_induction.
Variable P : json → Prop.
Hypothesis Hnull : P JNull.
Hypothesis Hbool : ∀ b, P (JBool b).
Hypothesis Hnum : ∀ n, P (JNum n).
Hypothesis Hstr : ∀ s, P (JStr s).
Hypothesis Harr : ∀ l, Forall P l → P (JArr l).
Hypothesis Hobj : ∀ l, Forall (λ e, P e.2) l → P (JObj l).

Fixpoint json_ind_nested (v : json) : P v :=
  match v with
  | JNull => Hnull
  | JBool b => Hbool b
  | JNum n => Hnum n
  | JStr s => Hstr s
  | JArr l => Harr l ((fix go l : Forall P l := match l with
      | [] => Forall_nil_2 _
      | x :: l' => Forall_cons_2 _ _ _ (json_ind_nested x) (go l') end) l)
  | JObj l => Hobj l ((fix go l : Forall (λ e, P e.2) l := match l with
      | [] => Forall_nil_2 _
      | x :: l' => Forall_cons_2 _ _ _ (json_ind_nested x.2) (go l') end) l)
  end.
End json_induction.

Lemma tree_json_tree v : tree_json (json_tree v) = v.
Proof.
  induction v as [| | | |l IH|l IH] using json_ind_nested; try done; simpl; f_equal.
  - induction IH as [|x l Hx HF IHl]; [done|]. simpl. rewrite Hx. by f_equal.
  - induction IH as [|[k x] l Hx HF IHl]; [done|]. simpl in *. rewrite Hx. by f_equal.
Qed.

Definition sim_json_print (v : json) : string := bits_print (encode (json_tree v)).
Definition sim_json_parse (s : string) : option json :=
  tree_json <$> (bits_parse s ≫= decode).

Lemma sim_json_parse_print v : sim_json_parse (sim_json_print v) = Some v.
Proof.
  unfold sim_json_parse, sim_json_print. rewrite bits_parse_print. simpl.
  rewrite decode_encode. simpl. by rewrite tree_json_tree.
Qed.

#[export] Instance sim_serde : SerdeJson := {
  json_print := sim_json_print;
  json_print_pretty := sim_json_print;
  json_parse := sim_json_parse;
  json_parse_print := sim_json_parse_print;
  json_parse_print_pretty := sim_json_parse_print;
}.

(** ** hex *)

Definition nibble_of (c : ascii) : option N :=
  let n := char_code c in
  if is_ascii_digit c then Some (Z.to_N (n - 48))
  else if char_in "a"%char "f"%char c then Some (Z.to_N (n - 87))
  else if char_in "A"%char "F"%char c then Some (Z.to_N (n - 55))
  else None.
Fixpoint sim_hex_encode (b : bytes) : string :=
  match b with
  | [] => ""
  | x :: b' => String (hex_digit (u8 x / 16)) (String (hex_digit (u8 x mod 16)) (sim_hex_encode b'))
  end.
Fixpoint sim_hex_decode (s : string) : option bytes :=
  match s with
  | EmptyString => Some []
  | String _ EmptyString => None
  | String c (String d s') =>
      h ← nibble_of c; l ← nibble_of d; b ← Byte.of_N (16 * h + l)%N;
      bs ← sim_hex_decode s'; Some (b :: bs)
  end.

Lemma nibbles_of_byte x : ∃ h l,
  nibble_of (hex_digit (u8 x / 16)) = Some h ∧ nibble_of (hex_digit (u8 x mod 16)) = Some l ∧
  Byte.of_N (16 * h + l)%N = Some x.
Proof. destruct x; do 2 eexists; split_and!; reflexivity. Qed.

Lemma sim_hex_decode_encode b : sim_hex_decode (sim_hex_encode b) = Some b.
Proof.
  induction b as [|x b IH]; [done|]. cbn [sim_hex_encode sim_hex_decode].
  destruct (nibbles_of_byte x) as (h & l & -> & -> & Hx). cbn [mbind option_bind].
  rewrite Hx. cbn [mbind option_bind]. by rewrite IH.
Qed.

#[export] Instance sim_hex : Hex := {
  hex_encode := sim_hex_encode;
  hex_decode := sim_hex_decode;
  hex_decode_encode := sim_hex_decode_encode;
}.
