(* ===== verification/Numa.v ===== *)
(** * NUMA topology and placement

    [src/crates/aleph-compute-node/src/numa.rs]. [NumaTopology.from_sysfs] reads the
    topology from the host, [parse_cpulist] and [format_cpuset] convert CPU lists,
    and [NumaAllocator] packs VMs onto nodes: [allocate] and [release] move three
    counters per node (vCPUs, 2 MiB pages, 1 GiB pages). *)

From S2P Require Import Prelude Strs Host Json Types.

(** ** Data *)

Record NumaNode := mk_node {
  id : Z;                  (** u32 *)
  cpus : gset Z;           (** BTreeSet<u32> *)
  total_2m_hugepages : Z;  (** u32 *)
  total_1g_hugepages : Z;  (** u32 *)
  total_ram_mb : Z;        (** u32 *)
}.

Record NumaTopology := mk_topology { nodes : list NumaNode }.

Record NumaPlacement := mk_placement {
  node : Z;
  cpuset : string;
  placement_page : HugePageSize;
}.

Record NumaAllocator := mk_allocator {
  topology : NumaTopology;
  allocated_vcpus : list Z;
  allocated_2m_pages : list Z;
  allocated_1g_pages : list Z;
}.

(** ** CPU lists *)

(** Flush the current range onto the result. *)
Definition flush_range (result : string) (range_start range_end : Z) : string :=
  ((if is_empty result then "" else result ++ ",") ++
   (if range_start =? range_end then print_dec range_start
    else print_dec range_start ++ "-" ++ print_dec range_end))%str.

Fixpoint format_loop (result : string) (range_start range_end : Z) (iter : list Z) : string :=
  match iter with
  | [] => flush_range result range_start range_end
  | cpu :: iter' =>
      if cpu =? wrap 32 (range_end + 1) then format_loop result range_start cpu iter'
      else format_loop (flush_range result range_start range_end) cpu cpu iter'
  end.

Definition format_cpuset (cpus : gset Z) : string :=
  match btree_iter cpus with
  | [] => ""
  | first :: iter => format_loop "" first first iter
  end.

(** One comma-separated part of a cpulist. *)
Definition parse_cpu_part (cpus : gset Z) (part : string) : result error (gset Z) :=
  let part := trim part in
  match split_once "-"%char part with
  | Some (lo, hi) =>
      lo ← context "invalid cpu range start" (parse_int u32_max lo);
      hi ← context "invalid cpu range end" (parse_int u32_max hi);
      Ok (cpus ∪ list_to_set (seqZ lo (hi - lo + 1)))
  | None =>
      cpu ← context "invalid cpu id" (parse_int u32_max part);
      Ok (cpus ∪ {[cpu]})
  end.

Definition parse_cpulist (s : string) : result error (gset Z) :=
  foldM parse_cpu_part ∅ (split_char ","%char s).

(** ** Topology *)

Fixpoint parse_memtotal_lines (ls : list string) : result error Z :=
  match ls with
  | [] => bail "MemTotal not found in meminfo"
  | line :: ls' =>
      if contains_str "MemTotal:" line then
        kb_str ← ok_or (mk_error "malformed MemTotal line" [])
                   (reverse (split_whitespace line) !! 1%nat);
        context "failed to parse MemTotal value" (parse_int u64_max kb_str)
      else parse_memtotal_lines ls'
  end.
Definition parse_memtotal_kb (meminfo : string) : result error Z :=
  parse_memtotal_lines (lines meminfo).

Section sysfs.
Context {W : Type} `{Host W}.

(** The sort key of a directory name. *)
Definition node_key (name : string) : Z :=
  default u32_max (strip_prefix "node" name ≫= parse_uint u32_max).

(** The body of the loop over the entries: read one node's directory. *)
Definition read_node (base name : string) : M W error NumaNode :=
  id_str ← lift (ok_or (mk_error "unexpected directory name" []) (strip_prefix "node" name));
  id ← lift (context ("failed to parse node ID from " ++ name)%str (parse_int u32_max id_str));
  let node_path := path_join base name in
  cpulist_raw ← io_ctx ("failed to read cpulist for " ++ name)%str
                  (host_read (path_join node_path "cpulist"));
  cpus ← lift (parse_cpulist (trim cpulist_raw));
  hp_2m ← io_ctx ("failed to read 2M hugepages for " ++ name)%str
            (host_read (path_join node_path "hugepages/hugepages-2048kB/nr_hugepages"));
  total_2m ← lift (context ("failed to parse 2M hugepage count for " ++ name)%str
                     (parse_int u32_max (trim hp_2m)));
  hp_1g ← attempt (io (host_read
            (path_join node_path "hugepages/hugepages-1048576kB/nr_hugepages")));
  let hp_1g := match hp_1g with Ok s => s | _ => "0"%string end in
  let total_1g := default 0 (parse_uint u32_max (trim hp_1g)) in
  meminfo ← io_ctx ("failed to read meminfo for " ++ name)%str
              (host_read (path_join node_path "meminfo"));
  kb ← lift (context ("failed to parse MemTotal for " ++ name)%str (parse_memtotal_kb meminfo));
  mret (mk_node id cpus total_2m total_1g (wrap 32 (kb / 1024))).

Fixpoint read_nodes (base : string) (names : list string) : M W error (list NumaNode) :=
  match names with
  | [] => mret []
  | name :: names' => n ← read_node base name; ns ← read_nodes base names'; mret (n :: ns)
  end.

(** The entries that could be read and whose name starts with [node]. *)
Definition node_entries (entries : list (io_error + string)) : list string :=
  sort_by_key node_key
    (filter (λ n, starts_with "node" n = true)
       (omap (λ e, match e with inl _ => None | inr n => Some n end) entries)).

Definition from_sysfs (base : string) : M W error NumaTopology :=
  entries ← io_ctx ("failed to read " ++ base)%str (host_read_dir base);
  ns ← read_nodes base (node_entries entries);
  mret (mk_topology ns).

Definition detect : M W error NumaTopology := from_sysfs "/sys/devices/system/node".
End sysfs.

Definition topology_num_nodes (t : NumaTopology) : Z := Z.of_nat (length (nodes t)).

(** ** The allocator *)

Definition num_nodes (a : NumaAllocator) : Z := topology_num_nodes (topology a).

Definition new (t : NumaTopology) : NumaAllocator :=
  let n := length (nodes t) in
  mk_allocator t (replicate n 0) (replicate n 0) (replicate n 0).

Definition add_vcpus (idx : nat) (n : Z) (a : NumaAllocator) : NumaAllocator :=
  mk_allocator (topology a) (alter (λ v, wrap 32 (v + n)) idx (allocated_vcpus a))
    (allocated_2m_pages a) (allocated_1g_pages a).
Definition add_2m (idx : nat) (n : Z) (a : NumaAllocator) : NumaAllocator :=
  mk_allocator (topology a) (allocated_vcpus a)
    (alter (λ v, wrap 32 (v + n)) idx (allocated_2m_pages a)) (allocated_1g_pages a).
Definition add_1g (idx : nat) (n : Z) (a : NumaAllocator) : NumaAllocator :=
  mk_allocator (topology a) (allocated_vcpus a) (allocated_2m_pages a)
    (alter (λ v, wrap 32 (v + n)) idx (allocated_1g_pages a)).

(** The nodes [allocate] tries, in order. *)
Definition candidates (a : NumaAllocator) (hint : option Z) : result error (list nat) :=
  match hint with
  | Some node_id =>
      match position (λ n, id n =? node_id) (nodes (topology a)) with
      | Some i => Ok [i]
      | None => bail ("NUMA node " ++ print_dec node_id ++ " does not exist")%str
      end
  | None => Ok (seq 0 (length (nodes (topology a))))
  end.

(** The body of the loop over the candidates: [None] is [continue]. *)
Definition try_node (a : NumaAllocator) (vcpus memory_mb : Z) (uses_hugepages : bool)
    (idx : nat) : result error (option (NumaPlacement * NumaAllocator)) :=
  n ← index (nodes (topology a)) idx;
  used ← index (allocated_vcpus a) idx;
  let available_cpus := saturating_sub (wrap 32 (Z.of_nat (size (cpus n)))) used in
  let place page := mk_placement (id n) (format_cpuset (cpus n)) page in
  if available_cpus <? vcpus then Ok None
  else if negb uses_hugepages then Ok (Some (place Size2M, add_vcpus idx vcpus a))
  else
    used_1g ← index (allocated_1g_pages a) idx;
    used_2m ← index (allocated_2m_pages a) idx;
    let available_1g := saturating_sub (total_1g_hugepages n) used_1g in
    let available_2m := saturating_sub (total_2m_hugepages n) used_2m in
    if (memory_mb mod 1024 =? 0) && (memory_mb / 1024 <=? available_1g) then
      Ok (Some (place Size1G, add_1g idx (memory_mb / 1024) (add_vcpus idx vcpus a)))
    else if div_ceil memory_mb 2 <=? available_2m then
      Ok (Some (place Size2M, add_2m idx (div_ceil memory_mb 2) (add_vcpus idx vcpus a)))
    else Ok None.

Fixpoint try_nodes (a : NumaAllocator) (vcpus memory_mb : Z) (uses_hugepages : bool)
    (idxs : list nat) : result error (NumaPlacement * NumaAllocator) :=
  match idxs with
  | [] => bail ("no NUMA node has enough resources for " ++ print_dec vcpus ++
                " vCPUs and " ++ print_dec memory_mb ++ " MB")%str
  | idx :: idxs' =>
      r ← try_node a vcpus memory_mb uses_hugepages idx;
      match r with
      | Some pa => Ok pa
      | None => try_nodes a vcpus memory_mb uses_hugepages idxs'
      end
  end.

Definition allocate (vcpus memory_mb : Z) (hint : option Z) (uses_hugepages : bool) :
    M NumaAllocator error NumaPlacement := λ a,
  match (cs ← candidates a hint; try_nodes a vcpus memory_mb uses_hugepages cs) with
  | Ok (p, a') => (Ok p, a')
  | Err e => (Err e, a)
  | Panic p => (Panic p, a)
  end.

Definition sub_at (idx : nat) (n : Z) : list Z → list Z := alter (λ v, saturating_sub v n) idx.

Definition release (node vcpus memory_mb : Z) (page : HugePageSize) (a : NumaAllocator) :
    NumaAllocator :=
  match position (λ n, id n =? node) (nodes (topology a)) with
  | Some idx =>
      match page with
      | Size1G =>
          mk_allocator (topology a) (sub_at idx vcpus (allocated_vcpus a))
            (allocated_2m_pages a) (sub_at idx (memory_mb / 1024) (allocated_1g_pages a))
      | Size2M =>
          mk_allocator (topology a) (sub_at idx vcpus (allocated_vcpus a))
            (sub_at idx (div_ceil memory_mb 2) (allocated_2m_pages a)) (allocated_1g_pages a)
      end
  | None => a
  end.

(** ** CPU lists: parsing what was printed *)

Section cpulist.

(** The maximal runs of an ascending list. *)
Fixpoint runs (s e : Z) (l : list Z) : list (Z * Z) :=
  match l with
  | [] => [(s, e)]
  | c :: l' => if c =? wrap 32 (e + 1) then runs s c l' else (s, e) :: runs c c l'
  end.
Definition print_run (r : Z * Z) : string :=
  if r.1 =? r.2 then print_dec r.1 else (print_dec r.1 ++ "-" ++ print_dec r.2)%str.

Lemma runs_cons s e l : ∃ r rs, runs s e l = r :: rs.
Proof. revert s e. induction l as [|c l IH]; intros s e; simpl; [eauto|]. case_match; eauto. Qed.

Lemma print_run_not_empty r : is_empty (print_run r) = false.
Proof.
  unfold print_run. destruct (print_dec_cons r.1) as (d & t & ->). by case_match.
Qed.

Lemma format_loop_runs result s e l :
  format_loop result s e l =
  ((if is_empty result then "" else result ++ ",") ++ join "," (print_run <$> runs s e l))%str.
Proof.
  revert result s e. induction l as [|c l IH]; intros result s e; simpl; [done|].
  destruct (c =? wrap 32 (e + 1)); [apply IH|]. rewrite IH. simpl.
  assert (is_empty (flush_range result s e) = false) as ->.
  { unfold flush_range. destruct result as [|a result]; simpl; [|done].
    apply (print_run_not_empty (s, e)). }
  destruct (runs_cons c c l) as (r & rs & ->). simpl.
  unfold flush_range. fold (print_run (s, e)).
  by rewrite !str_app_assoc.
Qed.

(** Bounds of a run: within [u32] and not empty. *)
Definition run_ok (r : Z * Z) : Prop := 0 ≤ r.1 ≤ r.2 ∧ r.2 ≤ u32_max.
Definition run_set (r : Z * Z) : gset Z := list_to_set (seqZ r.1 (r.2 - r.1 + 1)).

Lemma elem_of_run_set x r : x ∈ run_set r ↔ r.1 ≤ x ≤ r.2.
Proof. unfold run_set. rewrite elem_of_list_to_set, elem_of_seqZ. lia. Qed.

Lemma runs_spec l : ∀ s e, run_ok (s, e) → StronglySorted Z.lt (e :: l) →
  Forall (λ x, x ≤ u32_max) l →
  Forall run_ok (runs s e l) ∧
  ⋃ (run_set <$> runs s e l) = run_set (s, e) ∪ list_to_set l.
Proof.
  induction l as [|c l IH]; intros s e Hse Hs Hl; simpl.
  - split; [by constructor|]. set_solver.
  - apply StronglySorted_inv in Hs as [Hs Hec]. apply Forall_cons in Hl as [Hc Hl].
    apply Forall_cons in Hec as [Hec _]. destruct Hse as [Hse He]; simpl in *.
    rewrite wrap_small by (unfold in_width, u32_max in *; lia).
    destruct (Z.eqb_spec c (e + 1)) as [->|Hne].
    + destruct (IH s (e + 1)) as [H1 H2]; [split; simpl; lia|done..|].
      split; [done|]. rewrite H2. apply set_eq. intros x.
      rewrite !elem_of_union, !elem_of_run_set, elem_of_singleton, elem_of_list_to_set.
      simpl. intuition lia.
    + destruct (IH c c) as [H1 H2]; [split; simpl; lia|done..|].
      split; [constructor; [split; simpl; lia|done]|]. rewrite fmap_cons. simpl. rewrite H2.
      apply set_eq. intros x.
      rewrite !elem_of_union, !elem_of_run_set, elem_of_singleton, elem_of_list_to_set.
      simpl. intuition lia.
Qed.

Lemma print_run_chars r :
  run_ok r → all_chars (λ c, is_ascii_digit c || Ascii.eqb c "-"%char) (print_run r) = true.
Proof.
  intros [Hr _]. unfold print_run.
  pose proof (print_dec_digits r.1 ltac:(lia)). pose proof (print_dec_digits r.2 ltac:(lia)).
  assert (∀ n, all_chars is_ascii_digit (print_dec n) = true →
    all_chars (λ c, is_ascii_digit c || Ascii.eqb c "-"%char) (print_dec n) = true) as Himp.
  { intros n. apply all_chars_impl. by intros c ->. }
  case_match; [auto|]. rewrite !all_chars_app, !Himp by done. done.
Qed.

Lemma parse_print_run r acc :
  run_ok r → parse_cpu_part acc (print_run r) = Ok (acc ∪ run_set r).
Proof.
  intros Hr. unfold parse_cpu_part.
  rewrite trim_id; [|revert Hr; intros Hr; eapply all_chars_impl, print_run_chars, Hr].
  2: { intros c. unfold is_ascii_digit. by destruct c as [[] [] [] [] [] [] [] []]. }
  destruct Hr as [Hr Hm]. unfold print_run.
  assert (lacks "-"%char (print_dec r.1)) by (apply print_dec_lacks; [done|lia]).
  destruct (Z.eqb_spec r.1 r.2) as [Heq|Hne].
  - rewrite split_once_lacks by done. unfold parse_int. rewrite parse_print_dec by lia.
    simpl. do 2 f_equal. apply set_eq. intros x.
    rewrite elem_of_singleton, elem_of_run_set. lia.
  - change ("-" ++ print_dec r.2)%str with (String "-"%char (print_dec r.2)).
    rewrite split_once_app by done. unfold parse_int. by rewrite !parse_print_dec by lia.
Qed.

Lemma parse_print_runs rs acc :
  Forall run_ok rs →
  foldM parse_cpu_part acc (print_run <$> rs) = Ok (acc ∪ ⋃ (run_set <$> rs)).
Proof.
  intros Hrs. revert acc. induction Hrs as [|r rs Hr Hrs IH]; intros acc.
  - simpl. f_equal. set_solver.
  - rewrite !fmap_cons. simpl. rewrite parse_print_run by done. simpl. rewrite IH.
    f_equal. set_solver.
Qed.

Lemma lacks_comma_print_run r : run_ok r → lacks ","%char (print_run r).
Proof. intros Hr. eapply lacks_all_chars, print_run_chars, Hr. done. Qed.
End cpulist.

(** ** The allocator: invariant *)

Definition pages_of (page : HugePageSize) (memory_mb : Z) : Z :=
  match page with Size1G => memory_mb / 1024 | Size2M => div_ceil memory_mb 2 end.

(** The three counters of a node, and their capacities. *)
Record slot := mk_slot { s_vcpus : Z; s_2m : Z; s_1g : Z }.
#[global] Instance slot_eq_dec : EqDecision slot.
Proof. solve_decision. Defined.
Definition capacity (n : NumaNode) : slot :=
  mk_slot (Z.of_nat (size (cpus n))) (total_2m_hugepages n) (total_1g_hugepages n).
Definition slot_le (a b : slot) : Prop :=
  s_vcpus a ≤ s_vcpus b ∧ s_2m a ≤ s_2m b ∧ s_1g a ≤ s_1g b.
Definition slot_nonneg (a : slot) : Prop := 0 ≤ s_vcpus a ∧ 0 ≤ s_2m a ∧ 0 ≤ s_1g a.
Definition slot_add (a b : slot) : slot :=
  mk_slot (s_vcpus a + s_vcpus b) (s_2m a + s_2m b) (s_1g a + s_1g b).
(** What a VM takes from its node. *)
Definition demand (vcpus memory_mb : Z) (page : HugePageSize) : slot :=
  match page with
  | Size2M => mk_slot vcpus (pages_of Size2M memory_mb) 0
  | Size1G => mk_slot vcpus 0 (pages_of Size1G memory_mb)
  end.

Definition slot_at (a : NumaAllocator) (idx : nat) : option slot :=
  v ← allocated_vcpus a !! idx;
  p2 ← allocated_2m_pages a !! idx;
  p1 ← allocated_1g_pages a !! idx;
  Some (mk_slot v p2 p1).
Definition put_slot (idx : nat) (s : slot) (a : NumaAllocator) : NumaAllocator :=
  mk_allocator (topology a) (<[idx := s_vcpus s]> (allocated_vcpus a))
    (<[idx := s_2m s]> (allocated_2m_pages a)) (<[idx := s_1g s]> (allocated_1g_pages a)).

Definition node_wf (n : NumaNode) : Prop :=
  0 ≤ id n ≤ u32_max ∧ slot_nonneg (capacity n) ∧
  slot_le (capacity n) (mk_slot u32_max u32_max u32_max) ∧
  (∀ c, c ∈ cpus n → 0 ≤ c ≤ u32_max).
(** Distinct ids, and sizes that fit the machine's integers. *)
Definition topology_wf (t : NumaTopology) : Prop :=
  NoDup (id <$> nodes t) ∧ Forall node_wf (nodes t).

(** The counters of every node are between zero and the node's capacity. *)
Definition alloc_wf (a : NumaAllocator) : Prop :=
  topology_wf (topology a) ∧
  length (allocated_vcpus a) = length (nodes (topology a)) ∧
  length (allocated_2m_pages a) = length (nodes (topology a)) ∧
  length (allocated_1g_pages a) = length (nodes (topology a)) ∧
  ∀ idx n, nodes (topology a) !! idx = Some n →
    ∃ s, slot_at a idx = Some s ∧ slot_nonneg s ∧ slot_le s (capacity n).

Section allocator.
Implicit Types (a : NumaAllocator) (s : slot) (n : NumaNode).

Lemma slot_at_Some a idx s :
  slot_at a idx = Some s ↔
  allocated_vcpus a !! idx = Some (s_vcpus s) ∧ allocated_2m_pages a !! idx = Some (s_2m s) ∧
  allocated_1g_pages a !! idx = Some (s_1g s).
Proof.
  unfold slot_at. split.
  - intros Hs. apply bind_Some in Hs as (v & -> & Hs).
    apply bind_Some in Hs as (p2 & -> & Hs). apply bind_Some in Hs as (p1 & -> & Hs).
    by simplify_eq/=.
  - intros (-> & -> & ->). by destruct s.
Qed.

Lemma slot_at_put_eq a idx s s' : slot_at a idx = Some s → slot_at (put_slot idx s' a) idx = Some s'.
Proof.
  rewrite !slot_at_Some. intros (H1 & H2 & H3).
  apply lookup_lt_Some in H1, H2, H3. simpl.
  by rewrite !list_lookup_insert_eq by done.
Qed.

Lemma slot_at_put_ne a i j s : i ≠ j → slot_at (put_slot i s a) j = slot_at a j.
Proof. intros. unfold slot_at. simpl. by rewrite !list_lookup_insert_ne by done. Qed.

Lemma put_put_slot a idx s s' : put_slot idx s (put_slot idx s' a) = put_slot idx s a.
Proof. unfold put_slot. simpl. by rewrite !list_insert_insert_eq. Qed.

Lemma put_slot_id a idx s : slot_at a idx = Some s → put_slot idx s a = a.
Proof.
  rewrite slot_at_Some. intros (H1 & H2 & H3). unfold put_slot.
  destruct a; simpl in *. by rewrite !list_insert_id by done.
Qed.

Lemma alloc_wf_put a idx n s :
  alloc_wf a → nodes (topology a) !! idx = Some n →
  slot_nonneg s → slot_le s (capacity n) → alloc_wf (put_slot idx s a).
Proof.
  intros (Ht & H1 & H2 & H3 & Hs) Hn H0 Hle. unfold alloc_wf. simpl.
  rewrite !length_insert. split_and!; [done..|].
  intros j m Hm. destruct (decide (idx = j)) as [<-|].
  - destruct (Hs idx n Hn) as (s' & Hs' & _). rewrite Hn in Hm. injection Hm as <-.
    exists s. by erewrite slot_at_put_eq.
  - rewrite slot_at_put_ne by done. eauto.
Qed.

Lemma alter_insert {A} (f : A → A) (l : list A) (i : nat) x : l !! i = Some x → alter f i l = <[i := f x]> l.
Proof.
  intros Hx. apply list_eq. intros j. destruct (decide (i = j)) as [<-|].
  - rewrite list_lookup_alter_eq, Hx. simpl.
    by rewrite list_lookup_insert_eq by (by eapply lookup_lt_Some).
  - by rewrite list_lookup_alter_ne, list_lookup_insert_ne by done.
Qed.

Lemma insert_same {A} (l : list A) (i : nat) x : l !! i = Some x → l = <[i := x]> l.
Proof. intros. by rewrite list_insert_id. Qed.

(** Which page size a node offers: the specification of one attempt. *)
Definition offer (s cap : slot) (vcpus memory_mb : Z) (uses_hugepages : bool) :
    option (HugePageSize * slot) :=
  if decide (s_vcpus s + vcpus ≤ s_vcpus cap) then
    if uses_hugepages then
      if decide (memory_mb mod 1024 = 0 ∧ s_1g s + memory_mb / 1024 ≤ s_1g cap) then
        Some (Size1G, slot_add s (demand vcpus memory_mb Size1G))
      else if decide (s_2m s + div_ceil memory_mb 2 ≤ s_2m cap) then
        Some (Size2M, slot_add s (demand vcpus memory_mb Size2M))
      else None
    else Some (Size2M, slot_add s (mk_slot vcpus 0 0))
  else None.

Lemma saturating_leb x t u : 0 ≤ x → u ≤ t → (x <=? saturating_sub t u) = bool_decide (u + x ≤ t).
Proof. intros. unfold saturating_sub. apply eq_true_iff_eq. rewrite Z.leb_le, bool_decide_eq_true. lia. Qed.

Lemma offer_bounds s cap vcpus mem hp page s' :
  slot_nonneg s → slot_le s cap → 0 ≤ vcpus → 0 ≤ mem →
  offer s cap vcpus mem hp = Some (page, s') → slot_nonneg s' ∧ slot_le s' cap ∧ slot_le s s'.
Proof.
  intros (?&?&?) (?&?&?) Hv Hm. pose proof (div_ceil_2_bounds mem Hm).
  assert (0 ≤ mem / 1024) by (apply Z.div_pos; lia).
  unfold offer. intros Ho. repeat case_decide; repeat case_match; simplify_eq/=;
    unfold slot_nonneg, slot_le; simpl; lia.
Qed.

Section counters.
Context (a : NumaAllocator) (idx : nat) (s : slot).
Hypothesis Hs : slot_at a idx = Some s.

Lemma counter_alter (l : list Z) (v k : Z) :
  l !! idx = Some v → 0 ≤ v + k ≤ u32_max → alter (λ x, wrap 32 (x + k)) idx l = <[idx := v + k]> l.
Proof.
  intros Hv Hk. rewrite (alter_insert _ _ _ _ Hv), wrap_small; [done|].
  unfold in_width, u32_max in *. lia.
Qed.

Lemma add_vcpus_put k :
  0 ≤ s_vcpus s + k ≤ u32_max → add_vcpus idx k a = put_slot idx (slot_add s (mk_slot k 0 0)) a.
Proof.
  intros Hk. apply slot_at_Some in Hs as (H1 & H2 & H3). unfold add_vcpus, put_slot. simpl.
  by rewrite (counter_alter _ _ _ H1 Hk), !Z.add_0_r, <-(insert_same _ _ _ H2), <-(insert_same _ _ _ H3).
Qed.

Lemma add_2m_put k :
  0 ≤ s_2m s + k ≤ u32_max → add_2m idx k a = put_slot idx (slot_add s (mk_slot 0 k 0)) a.
Proof.
  intros Hk. apply slot_at_Some in Hs as (H1 & H2 & H3). unfold add_2m, put_slot. simpl.
  by rewrite (counter_alter _ _ _ H2 Hk), !Z.add_0_r, <-(insert_same _ _ _ H1), <-(insert_same _ _ _ H3).
Qed.

Lemma add_1g_put k :
  0 ≤ s_1g s + k ≤ u32_max → add_1g idx k a = put_slot idx (slot_add s (mk_slot 0 0 k)) a.
Proof.
  intros Hk. apply slot_at_Some in Hs as (H1 & H2 & H3). unfold add_1g, put_slot. simpl.
  by rewrite (counter_alter _ _ _ H3 Hk), !Z.add_0_r, <-(insert_same _ _ _ H1), <-(insert_same _ _ _ H2).
Qed.
End counters.

Lemma add_demand_2m a idx s k p :
  slot_at a idx = Some s → 0 ≤ s_vcpus s + k ≤ u32_max → 0 ≤ s_2m s + p ≤ u32_max →
  add_2m idx p (add_vcpus idx k a) = put_slot idx (slot_add s (mk_slot k p 0)) a.
Proof.
  intros Hs Hk Hp. rewrite (add_vcpus_put _ _ _ Hs _ Hk).
  erewrite add_2m_put; [|by eapply slot_at_put_eq|simpl; lia].
  rewrite put_put_slot. unfold slot_add. simpl. by rewrite !Z.add_0_r.
Qed.

Lemma add_demand_1g a idx s k p :
  slot_at a idx = Some s → 0 ≤ s_vcpus s + k ≤ u32_max → 0 ≤ s_1g s + p ≤ u32_max →
  add_1g idx p (add_vcpus idx k a) = put_slot idx (slot_add s (mk_slot k 0 p)) a.
Proof.
  intros Hs Hk Hp. rewrite (add_vcpus_put _ _ _ Hs _ Hk).
  erewrite add_1g_put; [|by eapply slot_at_put_eq|simpl; lia].
  rewrite put_put_slot. unfold slot_add. simpl. by rewrite !Z.add_0_r.
Qed.

Lemma try_node_offer a vcpus mem hp idx n s :
  alloc_wf a → 0 ≤ vcpus → 0 ≤ mem →
  nodes (topology a) !! idx = Some n → slot_at a idx = Some s →
  try_node a vcpus mem hp idx =
  Ok match offer s (capacity n) vcpus mem hp with
     | Some (page, s') =>
         Some (mk_placement (id n) (format_cpuset (cpus n)) page, put_slot idx s' a)
     | None => None
     end.
Proof.
  intros Hwf Hv Hm Hn Hs. destruct Hwf as ((_ & Hnodes) & _ & _ & _ & Hslots).
  destruct (Hslots idx n Hn) as (s0 & Hs0 & (?&?&?) & (Hc1&Hc2&Hc3)). simplify_eq.
  rewrite Forall_lookup in Hnodes. destruct (Hnodes _ _ Hn) as (_ & _ & (?&?&?) & _).
  pose proof (div_ceil_2_bounds mem Hm). assert (0 ≤ mem / 1024) by (apply Z.div_pos; lia).
  pose proof Hs as Hs'. apply slot_at_Some in Hs' as (Hs1 & Hs2 & Hs3).
  unfold try_node, index. rewrite Hn, Hs1, Hs2, Hs3. simpl in *.
  rewrite wrap_small by (unfold in_width, u32_max in *; lia).
  rewrite Z.ltb_antisym, !saturating_leb by lia.
  unfold offer. simpl. case_decide as Hvc; [|by rewrite bool_decide_eq_false_2 by done].
  rewrite bool_decide_eq_true_2 by done. simpl.
  destruct hp; simpl; [|by erewrite add_vcpus_put by (done || lia)].
  assert ((mem mod 1024 =? 0) && bool_decide (s_1g s + mem / 1024 ≤ total_1g_hugepages n) =
    bool_decide (mem mod 1024 = 0 ∧ s_1g s + mem / 1024 ≤ total_1g_hugepages n)) as ->.
  { apply eq_true_iff_eq. rewrite andb_true_iff, !bool_decide_eq_true, Z.eqb_eq. done. }
  case_decide as H1g; [rewrite bool_decide_eq_true_2 by done|rewrite bool_decide_eq_false_2 by done].
  { by erewrite add_demand_1g by (done || lia). }
  case_decide as H2m; [rewrite bool_decide_eq_true_2 by done|by rewrite bool_decide_eq_false_2 by done].
  by erewrite add_demand_2m by (done || lia).
Qed.
End allocator.

(** ** The allocator: operations *)

(** The nodes a hint allows. *)
Definition allowed (hint : option Z) (n : NumaNode) : Prop :=
  match hint with Some h => id n = h | None => True end.
Definition slot_sub (a b : slot) : slot :=
  mk_slot (saturating_sub (s_vcpus a) (s_vcpus b)) (saturating_sub (s_2m a) (s_2m b))
    (saturating_sub (s_1g a) (s_1g b)).
(** Node [idx] has no room for the request. *)
Definition no_offer (a : NumaAllocator) (vcpus memory_mb : Z) (hp : bool) (idx : nat) : Prop :=
  ∀ n s, nodes (topology a) !! idx = Some n → slot_at a idx = Some s →
    offer s (capacity n) vcpus memory_mb hp = None.
(** [allocate] chose node [idx] and charged it. *)
Definition placed (a : NumaAllocator) (vcpus memory_mb : Z) (hp : bool)
    (idx : nat) (p : NumaPlacement) (a' : NumaAllocator) : Prop :=
  ∃ n s s', nodes (topology a) !! idx = Some n ∧ slot_at a idx = Some s ∧
    offer s (capacity n) vcpus memory_mb hp = Some (placement_page p, s') ∧
    node p = id n ∧ cpuset p = format_cpuset (cpus n) ∧ a' = put_slot idx s' a.

Section operations.
Implicit Types (a : NumaAllocator) (s : slot) (n : NumaNode).

Lemma alloc_wf_slot a idx n :
  alloc_wf a → nodes (topology a) !! idx = Some n →
  ∃ s, slot_at a idx = Some s ∧ slot_nonneg s ∧ slot_le s (capacity n).
Proof. intros (_&_&_&_&H). apply H. Qed.

Lemma position_id a idx n :
  alloc_wf a → nodes (topology a) !! idx = Some n →
  position (λ m, id m =? id n) (nodes (topology a)) = Some idx.
Proof.
  intros ((Hnd & _) & _) Hn.
  destruct (position _ _) as [j|] eqn:Hp.
  - apply position_Some in Hp as (m & Hm & Heq & _). apply Z.eqb_eq in Heq.
    f_equal. eapply (NoDup_lookup _ _ _ _ Hnd); by rewrite list_lookup_fmap, ?Hm, ?Hn; simpl; f_equal.
  - apply position_None in Hp. rewrite Forall_lookup in Hp.
    specialize (Hp _ _ Hn). simpl in Hp. by rewrite Z.eqb_refl in Hp.
Qed.

Lemma candidates_spec a hint :
  alloc_wf a →
  match candidates a hint with
  | Ok cs => ∀ idx, idx ∈ cs ↔ ∃ n, nodes (topology a) !! idx = Some n ∧ allowed hint n
  | Err _ => ∀ n, n ∈ nodes (topology a) → ¬ allowed hint n
  | Panic _ => False
  end.
Proof.
  intros Hwf. unfold candidates, allowed. destruct hint as [h|].
  - destruct (position _ _) as [i|] eqn:Hp; simpl.
    + intros idx. rewrite list_elem_of_singleton.
      apply position_Some in Hp as (n & Hn & Heq & _). apply Z.eqb_eq in Heq as <-.
      split; [intros ->; eauto|]. intros (m & Hm & Heq).
      pose proof (position_id _ _ _ Hwf Hm) as Hpm. pose proof (position_id _ _ _ Hwf Hn) as Hpn.
      rewrite Heq in Hpm. congruence.
    + apply position_None in Hp. rewrite Forall_forall in Hp.
      intros n Hn Heq. specialize (Hp n Hn). simpl in Hp. by rewrite Heq, Z.eqb_refl in Hp.
  - intros idx. rewrite elem_of_seq. split.
    + intros [_ Hlt]. destruct (lookup_lt_is_Some_2 (nodes (topology a)) idx) as [n Hn]; eauto.
    + intros (n & Hn & _). apply lookup_lt_Some in Hn. lia.
Qed.

Lemma try_nodes_spec a vcpus mem hp cs :
  alloc_wf a → 0 ≤ vcpus → 0 ≤ mem →
  (∀ idx, idx ∈ cs → is_Some (nodes (topology a) !! idx)) →
  match try_nodes a vcpus mem hp cs with
  | Ok (p, a') => ∃ pre idx post, cs = pre ++ idx :: post ∧
      Forall (no_offer a vcpus mem hp) pre ∧ placed a vcpus mem hp idx p a'
  | Err _ => Forall (no_offer a vcpus mem hp) cs
  | Panic _ => False
  end.
Proof.
  intros Hwf Hv Hm. induction cs as [|i cs IH]; intros Hcs; simpl; [constructor|].
  destruct (Hcs i) as [n Hn]; [left|].
  destruct (alloc_wf_slot _ _ _ Hwf Hn) as (s & Hs & _).
  rewrite (try_node_offer _ _ _ _ _ _ _ Hwf Hv Hm Hn Hs). simpl.
  destruct (offer s (capacity n) vcpus mem hp) as [[page s']|] eqn:Ho; simpl.
  { exists [], i, cs. split_and!; [done|constructor|]. by exists n, s, s'. }
  assert (no_offer a vcpus mem hp i) by (intros ????; by simplify_eq).
  specialize (IH ltac:(intros; apply Hcs; by right)).
  destruct (try_nodes _ _ _ _ _) as [[p a']|?|?]; [|by constructor|done].
  destruct IH as (pre & idx & post & -> & Hpre & Hp).
  exists (i :: pre), idx, post. split_and!; [done|by constructor|done].
Qed.

(** [allocate], on every branch. *)
Lemma allocate_cases a vcpus mem hint hp :
  alloc_wf a → 0 ≤ vcpus → 0 ≤ mem →
  match allocate vcpus mem hint hp a with
  | (Ok p, a') => ∃ idx n, nodes (topology a) !! idx = Some n ∧ allowed hint n ∧
      placed a vcpus mem hp idx p a' ∧
      (∀ j m, (j < idx)%nat → nodes (topology a) !! j = Some m → allowed hint m →
        no_offer a vcpus mem hp j)
  | (Err _, a') => a' = a ∧
      ∀ idx n, nodes (topology a) !! idx = Some n → allowed hint n → no_offer a vcpus mem hp idx
  | (Panic _, _) => False
  end.
Proof.
  intros Hwf Hv Hm. unfold allocate. pose proof (candidates_spec a hint Hwf) as Hc.
  destruct (candidates a hint) as [cs|e|?] eqn:Hcs; simpl; [|split; [done|]|done].
  - pose proof (try_nodes_spec a vcpus mem hp cs Hwf Hv Hm) as Ht.
    specialize (Ht ltac:(intros idx Hidx; apply Hc in Hidx as (n & -> & _); by eexists)).
    destruct (try_nodes _ _ _ _ _) as [[p a']|?|?]; simpl; [|split; [done|]|done].
    + destruct Ht as (pre & idx & post & -> & Hpre & Hp).
      destruct (proj1 (Hc idx)) as (n & Hn & Hal); [set_solver|].
      exists idx, n. split_and!; [done..|].
      intros j m Hj Hjm Halm. rewrite Forall_forall in Hpre. apply Hpre.
      unfold candidates in Hcs. destruct hint as [h|].
      * assert (j ∈ pre ++ idx :: post) as Hin by (apply Hc; eauto).
        repeat case_match; simplify_eq. destruct pre as [|? []]; simplify_eq/=.
        set_solver by lia.
      * injection Hcs as Hcs.
        assert ((pre ++ idx :: post) !! length pre = Some idx) as Hl.
        { by rewrite lookup_app_r, Nat.sub_diag by lia. }
        rewrite <-Hcs in Hl. apply lookup_seq in Hl as [Hl _]. simpl in Hl.
        assert ((pre ++ idx :: post) !! j = Some j) as Hlj.
        { rewrite <-Hcs. apply lookup_seq. apply lookup_lt_Some in Hjm. lia. }
        rewrite lookup_app_l in Hlj by lia. by eapply list_elem_of_lookup_2.
    + rewrite Forall_forall in Ht. intros idx n Hn Hal. apply Ht, Hc. eauto.
  - intros idx n Hn Hal. destruct (Hc n); [|done]. by eapply list_elem_of_lookup_2.
Qed.

Lemma placed_wf a vcpus mem hp idx p a' :
  alloc_wf a → 0 ≤ vcpus → 0 ≤ mem → placed a vcpus mem hp idx p a' → alloc_wf a'.
Proof.
  intros Hwf Hv Hm (n & s & s' & Hn & Hs & Ho & _ & _ & ->).
  destruct (alloc_wf_slot _ _ _ Hwf Hn) as (s0 & Hs0 & H0 & Hle). simplify_eq.
  destruct (offer_bounds _ _ _ _ _ _ _ H0 Hle Hv Hm Ho) as (?&?&?).
  by eapply alloc_wf_put.
Qed.

Lemma release_put a idx n s vcpus mem page :
  alloc_wf a → nodes (topology a) !! idx = Some n → slot_at a idx = Some s →
  release (id n) vcpus mem page a = put_slot idx (slot_sub s (demand vcpus mem page)) a.
Proof.
  intros Hwf Hn Hs. pose proof Hs as Hs'. apply slot_at_Some in Hs' as (H1 & H2 & H3).
  destruct (alloc_wf_slot _ _ _ Hwf Hn) as (s0 & Hs0 & (?&?&?) & _). simplify_eq.
  unfold release. rewrite (position_id _ _ _ Hwf Hn).
  assert (∀ x, 0 ≤ x → saturating_sub x 0 = x) as Hz by (unfold saturating_sub; lia).
  destruct page; unfold put_slot, sub_at; simpl;
    rewrite !(alter_insert _ _ _ _ H1), ?(alter_insert _ _ _ _ H2), ?(alter_insert _ _ _ _ H3);
    rewrite Hz by done; by rewrite <-?(insert_same _ _ _ H2), <-?(insert_same _ _ _ H3).
Qed.

Lemma release_unknown a node vcpus mem page :
  (∀ n, n ∈ nodes (topology a) → id n ≠ node) → release node vcpus mem page a = a.
Proof.
  intros Hn. unfold release.
  rewrite (proj2 (position_None _ _)); [done|]. apply Forall_forall. intros n Hin.
  by apply Z.eqb_neq, Hn.
Qed.

Lemma release_wf a node vcpus mem page :
  alloc_wf a → 0 ≤ vcpus → 0 ≤ mem → alloc_wf (release node vcpus mem page a).
Proof.
  intros Hwf Hv Hm.
  destruct (decide (Exists (λ n, id n = node) (nodes (topology a)))) as [Hex|Hnex].
  - apply Exists_exists in Hex as (n & Hn & <-).
    apply list_elem_of_lookup_1 in Hn as (idx & Hn).
    destruct (alloc_wf_slot _ _ _ Hwf Hn) as (s & Hs & (?&?&?) & (?&?&?)).
    rewrite (release_put _ _ _ _ _ _ _ Hwf Hn Hs).
    pose proof (div_ceil_2_bounds mem Hm). assert (0 ≤ mem / 1024) by (apply Z.div_pos; lia).
    eapply alloc_wf_put; [done..| |]; unfold slot_nonneg, slot_le, slot_sub, saturating_sub, demand;
      destruct page; simpl in *; lia.
  - rewrite release_unknown; [done|]. intros n Hn Heq. apply Hnex, Exists_exists. eauto.
Qed.

Lemma new_wf t : topology_wf t → alloc_wf (new t).
Proof.
  intros Ht. unfold alloc_wf, new. simpl. rewrite !length_replicate. split_and!; [done..|].
  intros idx n Hn. pose proof (lookup_lt_Some _ _ _ Hn) as Hlt.
  exists (mk_slot 0 0 0). rewrite slot_at_Some. simpl.
  rewrite !lookup_replicate_2 by done.
  destruct Ht as [_ Ht]. rewrite Forall_lookup in Ht. destruct (Ht _ _ Hn) as (_ & (?&?&?) & _).
  unfold slot_nonneg, slot_le; simpl in *. split_and!; done.
Qed.
End operations.

(** ** The allocator as a ledger of leases *)

(** What a VM holds: the node, and the request as [release] will see it. *)
Record lease := mk_lease { l_node : Z; l_vcpus : Z; l_memory : Z; l_page : HugePageSize }.
Definition zero_slot : slot := mk_slot 0 0 0.
(** The sum of what the leases of a node take. *)
Definition load (L : list lease) (node : Z) : slot :=
  foldr (λ l s, if decide (l_node l = node)
                then slot_add (demand (l_vcpus l) (l_memory l) (l_page l)) s else s) zero_slot L.

(** The life of the allocator while every VM uses huge pages: a VM is placed, a
    request fails, or a VM gives back what it was given. *)
Inductive ledger_step : NumaAllocator * list lease → NumaAllocator * list lease → Prop :=
| ledger_allocate a a' L vcpus memory_mb hint p :
    0 ≤ vcpus → 0 ≤ memory_mb →
    allocate vcpus memory_mb hint true a = (Ok p, a') →
    ledger_step (a, L) (a', mk_lease (node p) vcpus memory_mb (placement_page p) :: L)
| ledger_fail a a' L vcpus memory_mb hint e :
    0 ≤ vcpus → 0 ≤ memory_mb →
    allocate vcpus memory_mb hint true a = (Err e, a') →
    ledger_step (a, L) (a', L)
| ledger_release a L1 l L2 :
    ledger_step (a, L1 ++ l :: L2)
      (release (l_node l) (l_vcpus l) (l_memory l) (l_page l) a, L1 ++ L2).

Definition ledger_inv (t : NumaTopology) (st : NumaAllocator * list lease) : Prop :=
  alloc_wf st.1 ∧ topology st.1 = t ∧
  Forall (λ l, 0 ≤ l_vcpus l ∧ 0 ≤ l_memory l ∧ ∃ n, n ∈ nodes t ∧ id n = l_node l) st.2 ∧
  ∀ idx n, nodes t !! idx = Some n → slot_at st.1 idx = Some (load st.2 (id n)).

Section ledger.

Lemma slot_add_comm a b : slot_add a b = slot_add b a.
Proof.
  unfold slot_add. by rewrite (Z.add_comm (s_vcpus a)), (Z.add_comm (s_2m a)), (Z.add_comm (s_1g a)).
Qed.

Lemma slot_add_swap a b c : slot_add a (slot_add b c) = slot_add b (slot_add a c).
Proof.
  unfold slot_add. simpl.
  by rewrite (Z.add_shuffle3 (s_vcpus a)), (Z.add_shuffle3 (s_2m a)), (Z.add_shuffle3 (s_1g a)).
Qed.

Lemma demand_nonneg v m page : 0 ≤ v → 0 ≤ m → slot_nonneg (demand v m page).
Proof.
  intros Hv Hm. pose proof (div_ceil_2_bounds m Hm).
  assert (0 ≤ m / 1024) by (apply Z.div_pos; lia).
  unfold slot_nonneg. destruct page; simpl; lia.
Qed.

Lemma load_nonneg L node :
  Forall (λ l, 0 ≤ l_vcpus l ∧ 0 ≤ l_memory l) L → slot_nonneg (load L node).
Proof.
  induction 1 as [|l L (?&?) HL (?&?&?)]; simpl; [done|].
  case_decide; [|done]. destruct (demand_nonneg (l_vcpus l) (l_memory l) (l_page l)) as (?&?&?); [done..|].
  unfold slot_nonneg, slot_add. simpl. lia.
Qed.

Lemma load_middle L1 l L2 node :
  load (L1 ++ l :: L2) node =
  if decide (l_node l = node)
  then slot_add (demand (l_vcpus l) (l_memory l) (l_page l)) (load (L1 ++ L2) node)
  else load (L1 ++ L2) node.
Proof.
  induction L1 as [|k L1 IH]; simpl; [done|]. rewrite IH.
  repeat case_decide; try done. apply slot_add_swap.
Qed.

Lemma slot_sub_add d s : slot_nonneg s → slot_sub (slot_add d s) d = s.
Proof.
  intros (?&?&?). unfold slot_sub, slot_add, saturating_sub. destruct s; simpl in *. f_equal; lia.
Qed.

Lemma ledger_inv_step t st st' : ledger_inv t st → ledger_step st st' → ledger_inv t st'.
Proof.
  intros (Hwf & Ht & HL & Hload) Hstep.
  destruct Hstep as [a a' L v m hint p Hv Hm Hal|a a' L v m hint e Hv Hm Hal|a L1 l L2]; simpl in *.
  - pose proof (allocate_cases a v m hint true Hwf Hv Hm) as Hc. rewrite Hal in Hc.
    destruct Hc as (idx & n & Hn & _ & Hp & _).
    pose proof (placed_wf _ _ _ _ _ _ _ Hwf Hv Hm Hp) as Hwf'.
    destruct Hp as (n' & s & s' & Hn' & Hs & Ho & Hnode & _ & ->). rewrite Hn in Hn'.
    injection Hn' as <-. unfold ledger_inv. simpl. split_and!; [done|done| |].
    + constructor; [|done]. simpl. split_and!; [done..|]. rewrite Hnode. exists n.
      split; [|done]. rewrite <-Ht. by eapply list_elem_of_lookup_2.
    + intros j k Hk. rewrite <-Ht in Hk. rewrite Hnode. destruct (decide (idx = j)) as [<-|Hne].
      * rewrite Hn in Hk. injection Hk as <-. rewrite decide_True by done.
        erewrite slot_at_put_eq by done. f_equal.
        rewrite (Hload idx n) in Hs by (by rewrite <-Ht). injection Hs as <-.
        unfold offer in Ho. repeat case_decide; simplify_eq; rewrite slot_add_comm; congruence.
      * rewrite slot_at_put_ne by done.
        rewrite decide_False; [rewrite <-Ht in Hload; by apply Hload|].
        intros Heq. apply Hne. pose proof (position_id _ _ _ Hwf Hn) as E1.
        pose proof (position_id _ _ _ Hwf Hk) as E2. rewrite Heq in E1. congruence.
  - pose proof (allocate_cases a v m hint true Hwf Hv Hm) as Hc. rewrite Hal in Hc.
    by destruct Hc as [-> _].
  - apply Forall_app in HL as [HL1 HL2]. apply Forall_cons in HL2 as [(Hv & Hm & n & Hn & Hid) HL2].
    unfold ledger_inv. simpl. rewrite <-Ht in Hn. apply list_elem_of_lookup_1 in Hn as (idx & Hn).
    pose proof (Hload idx n ltac:(by rewrite <-Ht)) as Hs.
    assert (Forall (λ l, 0 ≤ l_vcpus l ∧ 0 ≤ l_memory l) (L1 ++ L2)) as HF.
    { apply Forall_app. split; eapply Forall_impl; [exact HL1| |exact HL2|]; naive_solver. }
    split_and!; [by apply release_wf| |by apply Forall_app|].
    + rewrite <-Hid. by erewrite release_put.
    + intros j k Hk. rewrite <-Ht in Hk. rewrite <-Hid.
      erewrite release_put by done. destruct (decide (idx = j)) as [<-|Hne].
      * rewrite Hn in Hk. injection Hk as <-. erewrite slot_at_put_eq by done. f_equal.
        rewrite load_middle, decide_True by done. by apply slot_sub_add, load_nonneg.
      * rewrite slot_at_put_ne by done. rewrite <-Ht in Hload. rewrite (Hload j k Hk).
        rewrite load_middle, decide_False; [done|].
        intros Heq. apply Hne. rewrite <-Hid in Heq. pose proof (position_id _ _ _ Hwf Hn) as E1.
        pose proof (position_id _ _ _ Hwf Hk) as E2. rewrite Heq in E1. congruence.
Qed.

Lemma load_perm L L' node : L ≡ₚ L' → load L node = load L' node.
Proof.
  induction 1 as [|l L L' _ IH|l k L|L1 L2 L3 _ IH1 _ IH2]; simpl; [done|by rewrite IH| |congruence].
  repeat case_decide; try done. apply slot_add_swap.
Qed.

Lemma ledger_inv_perm t a L L' : L ≡ₚ L' → ledger_inv t (a, L) → ledger_inv t (a, L').
Proof.
  intros HL (Hwf & Ht & HF & Hload). unfold ledger_inv. simpl in *.
  split_and!; [done|done|by rewrite <-HL|]. intros idx n Hn. rewrite <-(load_perm L L') by done. auto.
Qed.

Lemma load_nil node : load [] node = zero_slot.
Proof. done. Qed.

Lemma ledger_inv_new t : topology_wf t → ledger_inv t (new t, []).
Proof.
  intros Ht. unfold ledger_inv. simpl. split_and!; [by apply new_wf|done|done|].
  intros idx n Hn. apply lookup_lt_Some in Hn. rewrite slot_at_Some. simpl.
  by rewrite !lookup_replicate_2.
Qed.

Lemma ledger_inv_steps t st st' : ledger_inv t st → rtc ledger_step st st' → ledger_inv t st'.
Proof. intros Hi Hs. induction Hs; [done|]. eauto using ledger_inv_step. Qed.

Lemma release_allocated a a' vcpus memory_mb hint p :
  alloc_wf a → 0 ≤ vcpus → 0 ≤ memory_mb →
  allocate vcpus memory_mb hint true a = (Ok p, a') →
  release (node p) vcpus memory_mb (placement_page p) a' = a.
Proof.
  intros Hwf Hv Hm Hal. pose proof (allocate_cases a vcpus memory_mb hint true Hwf Hv Hm) as Hc.
  rewrite Hal in Hc. destruct Hc as (idx & n & Hn & _ & Hp & _).
  pose proof (placed_wf _ _ _ _ _ _ _ Hwf Hv Hm Hp) as Hwf'.
  destruct Hp as (n' & s & s' & Hn' & Hs & Ho & -> & _ & ->). rewrite Hn in Hn'. injection Hn' as <-.
  destruct (alloc_wf_slot _ _ _ Hwf Hn) as (s0 & Hs0 & Hnn & _).
  rewrite Hs in Hs0. injection Hs0 as <-.
  erewrite release_put; [|done|done|by eapply slot_at_put_eq].
  rewrite put_put_slot. apply put_slot_id. rewrite Hs. f_equal. symmetry.
  assert (s' = slot_add (demand vcpus memory_mb (placement_page p)) s) as ->.
  { unfold offer in Ho. rewrite slot_add_comm. repeat case_decide; congruence. }
  by apply slot_sub_add.
Qed.
End ledger.

(** ** Properties *)

Definition demo_node (i lo hi : Z) : NumaNode :=
  mk_node i (list_to_set (range lo hi)) 1024 2 65536.
Definition demo_topology : NumaTopology := mk_topology [demo_node 0 0 4; demo_node 1 4 8].

Lemma demo_node_wf i lo : 0 ≤ i ≤ u32_max → 0 ≤ lo ≤ 4 → node_wf (demo_node i lo (lo + 4)).
Proof.
  intros Hi Hlo. unfold node_wf, slot_nonneg, slot_le. simpl.
  assert (size (list_to_set (range lo (lo + 4)) : gset Z) = 4%nat) as ->.
  { rewrite size_list_to_set by apply NoDup_seqZ. unfold range. rewrite length_seqZ.
    by replace (lo + 4 - lo) with 4 by lia. }
  unfold u32_max in *. split_and!; try lia. intros c Hc.
  apply elem_of_list_to_set, elem_of_seqZ in Hc. lia.
Qed.

Lemma demo_topology_wf : topology_wf demo_topology.
Proof.
  split; [by apply (bool_decide_unpack _)|]. unfold u32_max.
  apply Forall_cons. split; [by apply (demo_node_wf 0 0); unfold u32_max; lia|].
  apply Forall_singleton. apply (demo_node_wf 1 4); unfold u32_max; lia.
Qed.

(** C36: parsing the cpuset string written for a nonempty set of CPU ids gives the set
    back: [parse_cpulist] inverts [format_cpuset]. *)
Theorem cpulist_round_trip (s : gset Z) :
  s ≠ ∅ → (∀ c, c ∈ s → 0 ≤ c ≤ u32_max) → parse_cpulist (format_cpuset s) = Ok s.
Proof.
  intros Hne Hs. unfold parse_cpulist, format_cpuset.
  pose proof (btree_iter_sorted s) as Hsort.
  assert (∀ x, x ∈ btree_iter s ↔ x ∈ s) as Hin by apply elem_of_btree_iter.
  destruct (btree_iter s) as [|c l].
  { destruct Hne. apply set_eq. intros x. rewrite <-Hin. set_solver. }
  assert (Forall (λ x, 0 ≤ x ≤ u32_max) (c :: l)) as HF.
  { apply Forall_forall. intros x Hx. by apply Hs, Hin. }
  apply Forall_cons in HF as [Hc HF].
  destruct (runs_spec l c c) as [Hok Hset];
    [split; simpl; lia|done|eapply Forall_impl; [exact HF|intros ? []; done]|].
  rewrite format_loop_runs. simpl. rewrite str_app_nil_l.
  rewrite (split_char_join ","%char).
  - rewrite parse_print_runs by done. rewrite Hset. f_equal. apply set_eq. intros x.
    rewrite <-Hin, !elem_of_union, elem_of_run_set, elem_of_cons, elem_of_list_to_set. simpl.
    rewrite elem_of_empty. intuition lia.
  - by destruct (runs_cons c c l) as (r & rs & ->).
  - apply Forall_fmap. eapply Forall_impl; [done|]. apply lacks_comma_print_run.
Qed.

Lemma cpulist_round_trip_witness :
  parse_cpulist "0-1,3"%string = Ok ({[0; 1; 3]} : gset Z).
Proof.
  assert (({[0; 1; 3]} : gset Z) ≠ ∅) as Hne by set_solver.
  assert (∀ c : Z, c ∈ ({[0; 1; 3]} : gset Z) → 0 ≤ c ≤ u32_max) as Hb.
  { intros c. unfold u32_max. set_solver by lia. }
  exact (cpulist_round_trip _ Hne Hb).
Defined.

(** C27: [NumaAllocator.allocate] on every branch. On success it has charged one node
    that the hint allows, with the page size the placement names (1 GiB pages only
    for a multiple of 1024 MB that fits them), and no earlier allowed node had room;
    on failure nothing changed and no allowed node had room. It never panics. *)
Theorem allocate_first_fit a vcpus memory_mb hint hp :
  alloc_wf a → 0 ≤ vcpus → 0 ≤ memory_mb →
  match allocate vcpus memory_mb hint hp a with
  | (Ok p, a') => ∃ idx n, nodes (topology a) !! idx = Some n ∧ allowed hint n ∧
      placed a vcpus memory_mb hp idx p a' ∧
      (∀ j m, (j < idx)%nat → nodes (topology a) !! j = Some m → allowed hint m →
        no_offer a vcpus memory_mb hp j)
  | (Err _, a') => a' = a ∧
      ∀ idx n, nodes (topology a) !! idx = Some n → allowed hint n →
        no_offer a vcpus memory_mb hp idx
  | (Panic _, _) => False
  end.
Proof. apply allocate_cases. Qed.

Lemma allocate_first_fit_witness :
  match allocate 3 1536 None true (new demo_topology) with
  | (Ok p, _) => node p = 0 ∧ placement_page p = Size2M
  | _ => False
  end ∧
  ∃ idx n, nodes demo_topology !! idx = Some n ∧ allowed None n.
Proof.
  pose proof (allocate_first_fit (new demo_topology) 3 1536 None true
    (new_wf _ demo_topology_wf) ltac:(lia) ltac:(lia)) as H.
  split; [by vm_compute|].
  destruct (allocate 3 1536 None true (new demo_topology)) as [[p|e|s] a'] eqn:E.
  - destruct H as (idx & n & Hn & Hal & _). by exists idx, n.
  - by vm_compute in E.
  - by destruct H.
Defined.

(** C8: the allocator is a ledger. After any sequence of huge-page allocations, failed
    requests and releases of what was allocated, the three counters of each node are
    the sums over the VMs placed there, and no sum exceeds the node's CPUs or pages. *)
Theorem ledger_no_overcommit t a L idx n :
  topology_wf t → rtc ledger_step (new t, []) (a, L) → nodes t !! idx = Some n →
  slot_at a idx = Some (load L (id n)) ∧ slot_le (load L (id n)) (capacity n).
Proof.
  intros Ht Hs Hn. pose proof (ledger_inv_steps t _ _ (ledger_inv_new t Ht) Hs) as Hi.
  destruct Hi as (Hwf & Htop & _ & Hload). simpl in *. specialize (Hload _ _ Hn).
  split; [done|]. rewrite <-Htop in Hn.
  destruct (alloc_wf_slot _ _ _ Hwf Hn) as (s & Hs' & _ & Hle). by simplify_eq.
Qed.

Lemma ledger_no_overcommit_witness :
  let a1 := (allocate 2 2048 None true (new demo_topology)).2 in
  slot_at a1 0 = Some (load [mk_lease 0 2 2048 Size1G] 0).
Proof.
  apply (ledger_no_overcommit demo_topology _ [mk_lease 0 2 2048 Size1G] 0 (demo_node 0 0 4)).
  - exact demo_topology_wf.
  - apply rtc_once. eapply (ledger_allocate _ _ [] 2 2048 None (mk_placement 0 "0-3" Size1G));
      [lia|lia|by vm_compute].
  - reflexivity.
Defined.

(** Releasing what a huge-page VM was given restores the allocator exactly. *)
Theorem release_undoes_allocate a a' vcpus memory_mb hint p :
  alloc_wf a → 0 ≤ vcpus → 0 ≤ memory_mb →
  allocate vcpus memory_mb hint true a = (Ok p, a') →
  release (node p) vcpus memory_mb (placement_page p) a' = a.
Proof. apply release_allocated. Qed.

Lemma release_undoes_allocate_witness :
  let '(r, a') := allocate 2 2048 (Some 1) true (new demo_topology) in
  release 1 2 2048 Size1G a' = new demo_topology.
Proof.
  destruct (allocate 2 2048 (Some 1) true (new demo_topology)) as [[p|e|s] a'] eqn:E;
    [|by vm_compute in E..].
  assert (p = mk_placement 1 "4-7" Size1G) as -> by (vm_compute in E; congruence).
  exact (release_undoes_allocate _ _ 2 2048 (Some 1) _ (new_wf _ demo_topology_wf)
    ltac:(lia) ltac:(lia) E).
Defined.

(** A VM that uses no huge pages is placed without charging the page pool, yet
    releasing it as a 2 MiB VM subtracts its memory: after one such VM comes and
    goes, two confidential VMs are accepted that together need more pages than the
    node has. *)
Theorem plain_release_overcommits :
  ∃ a1 a2 a4 p1 p2 p4,
    allocate 1 2048 (Some 1) true (add_1g 1 2 (new demo_topology)) = (Ok p1, a1) ∧
    allocate 1 2048 (Some 1) false a1 = (Ok p2, a2) ∧
    allocate 1 2048 (Some 1) true (release (node p2) 1 2048 (placement_page p2) a2) = (Ok p4, a4) ∧
    placement_page p1 = Size2M ∧ placement_page p4 = Size2M ∧
    pages_of Size2M 2048 + pages_of Size2M 2048 > total_2m_hugepages (demo_node 1 4 8).
Proof. do 6 eexists. split_and!; [by vm_compute..|reflexivity]. Qed.
