(* ===== verification/NumaSysfs.v ===== *)
(** * The NUMA topology that is read from sysfs

    What [NumaTopology::from_sysfs] of [src/crates/aleph-compute-node/src/numa.rs] returns
    on a machine whose [/sys/devices/system/node] is as Linux lays it out: a topology that
    satisfies the invariant the allocator needs. The numbers are bounded by their parsers,
    whatever the files hold. *)

From S2P Require Import Prelude Strs Host HostSim Json Types Numa.

(** ** CPU lists *)

Definition cpus_ok (s : gset Z) : Prop := ∀ c, c ∈ s → 0 ≤ c ≤ u32_max.

Lemma parse_u32_bounds msg s n : context msg (parse_int u32_max s) = Ok n → 0 ≤ n ≤ u32_max.
Proof.
  unfold context. destruct (parse_int u32_max s) as [x|e|p] eqn:Hp; [|done..]. intros [= <-].
  by apply (parse_int_bounds u32_max s).
Qed.

Lemma parse_part_ok s part s' : cpus_ok s → parse_cpu_part s part = Ok s' → cpus_ok s'.
Proof.
  intros Hs. unfold parse_cpu_part. destruct (split_once _ _) as [[lo hi]|].
  - destruct (context _ (parse_int _ lo)) as [l|e|p] eqn:Hl; simpl; [|done..].
    destruct (context _ (parse_int _ hi)) as [h|e|p] eqn:Hh; simpl; [|done..].
    apply parse_u32_bounds in Hl, Hh. intros [= <-] c.
    rewrite elem_of_union, elem_of_list_to_set, elem_of_seqZ. intros [Hc|Hc]; [by apply Hs|lia].
  - destruct (context _ _) as [n|e|p] eqn:Hn; simpl; [|done..].
    apply parse_u32_bounds in Hn. intros [= <-] c. rewrite elem_of_union, elem_of_singleton.
    intros [Hc| ->]; [by apply Hs|done].
Qed.

Lemma parse_cpulist_ok s cs : parse_cpulist s = Ok cs → cpus_ok cs.
Proof.
  unfold parse_cpulist. assert (cpus_ok ∅) as H0 by (intros c Hc; set_solver). revert H0.
  generalize (∅ : gset Z). induction (split_char _ s) as [|part parts IH]; intros acc Hacc; simpl.
  - by intros [= <-].
  - destruct (parse_cpu_part acc part) as [acc'|e|p] eqn:Hp; simpl; [|done..].
    apply IH. by eapply parse_part_ok.
Qed.

(** ** One node *)

(** What is certain of a node that was read: its id is the number in its name. *)
Definition node_read (name : string) (n : NumaNode) : Prop :=
  (∃ id_str, strip_prefix "node" name = Some id_str ∧ parse_int u32_max id_str = Ok (id n)) ∧
  cpus_ok (cpus n) ∧ 0 ≤ total_2m_hugepages n ≤ u32_max ∧ 0 ≤ total_1g_hugepages n ≤ u32_max.

Section sysfs.
Context {W : Type} `{Host W}.

Lemma context_Ok_inv {A} msg (r : result error A) a : context msg r = Ok a → r = Ok a.
Proof. by destruct r. Qed.

Lemma read_node_spec base name w :
  wp (read_node base name) (λ r _, ∀ n, r = Ok n → node_read name n) w.
Proof.
  unfold read_node. apply wp_bind, wp_lift. destruct (strip_prefix "node" name) as [id_str|] eqn:Hname; [|done].
  cbn [ok_or]. apply wp_bind, wp_lift. destruct (context _ (parse_int _ id_str)) as [i|e|p] eqn:Hi; [|done..].
  apply wp_bind, wp_io_ctx; [intros raw w1 _|done]. apply wp_bind, wp_lift.
  destruct (parse_cpulist (trim raw)) as [cs|e|p] eqn:Hcs; [|done..].
  apply wp_bind, wp_io_ctx; [intros hp w2 _|done]. apply wp_bind, wp_lift.
  destruct (context _ (parse_int _ (trim hp))) as [t2|e|p] eqn:H2; [|done..].
  apply wp_bind, wp_attempt. apply parse_u32_bounds in H2. apply context_Ok_inv in Hi.
  assert (∀ o, 0 ≤ default 0 (parse_uint u32_max (trim o)) ≤ u32_max) as H1.
  { intros o. destruct (parse_uint u32_max (trim o)) as [x|] eqn:Hx; simpl; [|done].
    by apply (parse_uint_bounds u32_max (trim o)). }
  apply wp_io; intros x w3 _; (apply wp_bind, wp_io_ctx; [intros mi w4 _|done]; apply wp_bind, wp_lift;
    destruct (context _ (parse_memtotal_kb mi)) as [kb|e|p]; [|done..];
    apply wp_ret; intros n [= <-]; split; [by exists id_str|]; split; [by eapply parse_cpulist_ok|];
    split; [exact H2|]).
  - apply (H1 x).
  - apply (H1 "0"%string).
Qed.

Lemma read_nodes_spec base names w :
  wp (read_nodes base names) (λ r _, ∀ ns, r = Ok ns → Forall2 node_read names ns) w.
Proof.
  revert w. induction names as [|name names IH]; intros w; simpl.
  - apply wp_ret. intros ns [= <-]. constructor.
  - apply wp_bind. eapply wp_mono; [apply read_node_spec|]. intros [n|e|p] w1 Hn; [|done..].
    apply wp_bind. eapply wp_mono; [apply IH|]. intros [ns|e|p] w2 Hns; [|done..].
    apply wp_ret. intros ns' [= <-]. constructor; auto.
Qed.

(** ** The topology *)

(** The directory as Linux lays it out: each entry once, the nodes as [node<id>], and fewer
    than 2^32 CPUs in a node. *)
Definition sysfs_ok (base : string) (w : W) : Prop :=
  match (host_read_dir base w).1 with
  | inr es => NoDup es ∧ ∀ name, inr name ∈ es → starts_with "node" name = true →
      ∃ i, 0 ≤ i ≤ u32_max ∧ name = ("node" ++ print_dec i)%str
  | inl _ => True
  end ∧
  ∀ t w', from_sysfs base w = (Ok t, w') → Forall (λ n, Z.of_nat (size (cpus n)) ≤ u32_max) (nodes t).

Definition readable (e : io_error + string) : option string := match e with inl _ => None | inr n => Some n end.

Lemma node_entries_ok es :
  NoDup es → NoDup (node_entries es) ∧
  ∀ name, name ∈ node_entries es → inr name ∈ es ∧ starts_with "node" name = true.
Proof.
  intros Hnd. unfold node_entries. fold readable. split.
  - rewrite sort_by_key_perm. apply NoDup_filter. induction Hnd as [|e es He Hnd IH]; [constructor|].
    destruct e as [e|name]; simpl; [exact IH|]. constructor; [|exact IH].
    intros ([e|n'] & Hin & [= ->])%list_elem_of_omap. done.
  - intros name. rewrite sort_by_key_perm, list_elem_of_filter, list_elem_of_omap.
    intros (Hs & [e|n'] & Hin & [= ->]). done.
Qed.

(** The ids of the nodes are the numbers in the names, so they differ. *)
Lemma read_ids names ns :
  NoDup names → Forall (λ name, ∃ i, 0 ≤ i ≤ u32_max ∧ name = ("node" ++ print_dec i)%str) names →
  Forall2 node_read names ns → NoDup (id <$> ns) ∧ names = (λ n, ("node" ++ print_dec (id n))%str) <$> ns.
Proof.
  intros Hnd Hnames Hread.
  assert (names = (λ n, ("node" ++ print_dec (id n))%str) <$> ns) as Heq.
  { clear Hnd. induction Hread as [|name n names ns ((s & Hs & Hi) & _) Hread IH]; [done|].
    apply Forall_cons in Hnames as [(i & Hb & ->) Hnames]. rewrite fmap_cons, <-IH by done. f_equal.
    rewrite strip_prefix_app in Hs. injection Hs as <-. unfold parse_int in Hi.
    rewrite parse_print_dec in Hi by done. by injection Hi as ->. }
  split; [|done]. rewrite Heq in Hnd. clear -Hnd. induction ns as [|n ns IH]; [constructor|].
  apply NoDup_cons in Hnd as [Hn Hnd]. apply NoDup_cons. split; [|by apply IH].
  intros (m & Hm & Hin)%list_elem_of_fmap. apply Hn. apply list_elem_of_fmap. exists m. by rewrite Hm.
Qed.

Lemma detect_wf base w t w' : sysfs_ok base w → from_sysfs base w = (Ok t, w') → topology_wf t.
Proof.
  intros [Hdir Hcpus] Hrun. specialize (Hcpus t w' Hrun). unfold from_sysfs in Hrun.
  assert (wp (from_sysfs base) (λ r _, ∀ t, r = Ok t → ∃ es, (host_read_dir base w).1 = inr es ∧
    Forall2 node_read (node_entries es) (nodes t)) w) as Hwp.
  { unfold from_sysfs. apply wp_bind, wp_io_ctx; [intros es w1 He|done]. apply wp_bind.
    eapply wp_mono; [apply read_nodes_spec|]. intros [ns|e|p] w2 Hns; [|done..].
    apply wp_ret. intros t2 [= <-]. exists es. rewrite He. split; [done|by apply Hns]. }
  unfold wp, from_sysfs in Hwp. rewrite Hrun in Hwp. destruct (Hwp t eq_refl) as (es & He & Hread).
  rewrite He in Hdir. destruct Hdir as [Hnd Hcanon]. apply node_entries_ok in Hnd as [Hnd Hin].
  destruct (read_ids _ (nodes t) Hnd) as [Hids _]; [|done|].
  { apply Forall_forall. intros name Hn. destruct (Hin name Hn). by apply Hcanon. }
  split; [done|]. clear -Hread Hcpus. induction Hread as [|name n names ns Hn Hread IH]; [constructor|].
  apply Forall_cons in Hcpus as [Hc Hcpus]. constructor; [|by apply IH].
  destruct Hn as ((s & _ & Hi) & Hcs & H2 & H1). apply parse_int_bounds in Hi; [|done].
  unfold node_wf, slot_nonneg, slot_le, capacity. simpl. split_and!; try done; lia.
Qed.

(** Reading never panics. *)
Lemma parse_cpulist_total s p : parse_cpulist s ≠ Panic p.
Proof.
  unfold parse_cpulist. generalize (∅ : gset Z).
  induction (split_char _ s) as [|part parts IH]; intros acc; simpl; [done|].
  assert (∀ q, parse_cpu_part acc part ≠ Panic q) as Hp.
  { intros q. unfold parse_cpu_part, context, parse_int. destruct (split_once _ _) as [[lo hi]|];
      [destruct (parse_uint _ lo), (parse_uint _ hi)|destruct (parse_uint _ _)]; done. }
  destruct (parse_cpu_part acc part) as [acc'|e|q]; simpl; [apply IH|done|by destruct (Hp q)].
Qed.
Lemma parse_memtotal_total s p : parse_memtotal_kb s ≠ Panic p.
Proof.
  unfold parse_memtotal_kb. induction (lines s) as [|l ls IH]; simpl; [done|].
  destruct (contains_str _ l); [|exact IH]. unfold context, parse_int.
  destruct (reverse _ !! 1%nat) as [kb|]; simpl; [|done]. by destruct (parse_uint _ kb).
Qed.
Lemma total_context_int msg max s : total (lift (context msg (parse_int max s)) : M W error Z).
Proof. apply total_lift. intros p. unfold context, parse_int. by destruct (parse_uint max s). Qed.

Lemma total_read_nodes base names : total (read_nodes base names : M W error _).
Proof.
  induction names as [|name names IH]; simpl; [apply total_ret|].
  apply total_bind; [|intros; apply total_bind; [exact IH|intros; apply total_ret]]. unfold read_node.
  repeat first [apply total_context_int | apply total_ok_or | apply total_ret | apply total_io_ctx
    | apply total_attempt, total_io | apply total_bind; [|intros]].
  - apply total_lift, parse_cpulist_total.
  - apply total_lift. intros p. pose proof (parse_memtotal_total a6 p). unfold context. by case_match.
Qed.
Lemma total_from_sysfs base : total (from_sysfs base : M W error _).
Proof.
  unfold from_sysfs. apply total_bind; [apply total_io_ctx|intros].
  apply total_bind; [apply total_read_nodes|intros; apply total_ret].
Qed.
End sysfs.
