(* ===== verification/Hugepages.v ===== *)
(** * Huge page reservation at startup

    [src/crates/aleph-compute-node/src/hugepages.rs]: the budget formula and the loop
    that writes each node's page count to sysfs and records what the kernel gave. *)

From S2P Require Import Prelude Strs Host HostSim Json Types Numa.

Definition compute_2m_budget (node_ram_mb existing_1g_pages headroom_mb per_node_cap_mb : Z) : Z :=
  let node_cap := Z.min per_node_cap_mb (saturating_sub node_ram_mb headroom_mb) in
  let reserved_1g_mb := wrap 32 (existing_1g_pages * 1024) in
  let budget_mb := saturating_sub node_cap reserved_1g_mb in
  budget_mb / 2.

Definition set_2m (count : Z) (n : NumaNode) : NumaNode :=
  mk_node (id n) (cpus n) count (total_1g_hugepages n) (total_ram_mb n).

Section host.
Context {W : Type} `{Host W}.

Definition allocate_2m_pages_on_node (sysfs_base : string) (node_id count : Z) : M W error Z :=
  let hp_path := path_join (path_join sysfs_base ("node" ++ print_dec node_id)%str)
                   "hugepages/hugepages-2048kB/nr_hugepages" in
  io_ctx ("failed to write hugepage count to " ++ hp_path)%str (host_write hp_path (print_dec count));;
  s ← io_ctx ("failed to read back hugepage count from " ++ hp_path)%str (host_read hp_path);
  lift (context ("failed to parse hugepage count from " ++ hp_path)%str (parse_int u32_max (trim s))).

(** The loop over the nodes: the nodes as it leaves them, and its two counters. *)
Fixpoint allocate_loop (sysfs_base : string) (headroom_mb per_node_cap : Z)
    (ns : list NumaNode) (failed_nodes total_nodes : Z) :
    M W error (list NumaNode * Z * Z) :=
  match ns with
  | [] => mret ([], failed_nodes, total_nodes)
  | node :: ns' =>
      let desired := compute_2m_budget (total_ram_mb node) (total_1g_hugepages node)
                       headroom_mb per_node_cap in
      if desired =? 0 then
        r ← allocate_loop sysfs_base headroom_mb per_node_cap ns' failed_nodes total_nodes;
        let '(done, f, t) := r in mret (node :: done, f, t)
      else
        res ← attempt (allocate_2m_pages_on_node sysfs_base (id node) desired);
        let '(node', f') := match res with
                            | Ok actual => (set_2m actual node, failed_nodes)
                            | _ => (node, failed_nodes + 1)
                            end in
        r ← allocate_loop sysfs_base headroom_mb per_node_cap ns' f' (total_nodes + 1);
        let '(done, f, t) := r in mret (node' :: done, f, t)
  end.

Definition effective_limit (t : NumaTopology) (global_limit_mb : option Z) : Z :=
  default (foldl (λ s n, wrap 32 (s + total_ram_mb n)) 0 (nodes t)) global_limit_mb.

Definition allocate_hugepages (headroom_mb : Z) (global_limit_mb : option Z)
    (sysfs_base : string) : M (NumaTopology * W) error unit :=
  t ← on_fst get;
  let num_nodes := wrap 32 (Z.of_nat (length (nodes t))) in
  if num_nodes =? 0 then mret tt
  else
    let per_node_cap := effective_limit t global_limit_mb / num_nodes in
    r ← on_snd (allocate_loop sysfs_base headroom_mb per_node_cap (nodes t) 0 0);
    let '(ns, failed_nodes, total_nodes) := r in
    on_fst (put (mk_topology ns));;
    if (0 <? failed_nodes) && (failed_nodes =? total_nodes) then
      throw (mk_error ("hugepage allocation failed on all " ++ print_dec failed_nodes ++
                       " NUMA nodes")%str [])
    else mret tt.

(** ** What the loop may change *)

(** [m] is [n] with another 2 MiB page count, one the kernel reported. *)
Definition same_but_2m (n m : NumaNode) : Prop :=
  m = n ∨ ∃ count, 0 ≤ count ≤ u32_max ∧ m = set_2m count n.

Lemma allocate_2m_bounds base i c (Q : result error Z → W → Prop) w :
  (∀ r w', (∀ n, r = Ok n → 0 ≤ n ≤ u32_max) → (∀ p, r ≠ Panic p) → Q r w') →
  wp (allocate_2m_pages_on_node base i c) Q w.
Proof.
  intros HQ. unfold allocate_2m_pages_on_node. io_steps; apply HQ; try done.
  - intros n Hn. unfold context in Hn. case_match eqn:Hp; simplify_eq.
    eapply parse_int_bounds; [|exact Hp]. by vm_compute.
  - intros p Hp. unfold context, parse_int, ok_or in Hp. repeat case_match; done.
Qed.

Lemma allocate_loop_same base h cap ns f t (Q : result error (list NumaNode * Z * Z) → W → Prop) w :
  (∀ ns' f' t' w', Forall2 same_but_2m ns ns' → f ≤ f' → f' - f ≤ t' - t → Q (Ok (ns', f', t')) w') →
  wp (allocate_loop base h cap ns f t) Q w.
Proof.
  revert f t Q w. induction ns as [|n ns IH]; intros f t Q w HQ; cbn [allocate_loop].
  { apply wp_ret. apply HQ; [constructor|lia..]. }
  case_match.
  - apply wp_bind, IH. intros ns' f' t' w' Hns Hf Ht. apply wp_ret, HQ; [|lia..].
    constructor; [by left|done].
  - apply wp_bind, wp_attempt, allocate_2m_bounds. intros [c|e|p] w' Hb Hnp; [..|by destruct (Hnp p)];
      apply wp_bind, IH; intros ns' f' t' w'' Hns Hf Ht; apply wp_ret, HQ; try lia;
      constructor; try done; [right; eauto|by left].
Qed.
End host.

(** ** Properties *)

Section topology.

Lemma same_but_2m_wf n m : node_wf n → same_but_2m n m → node_wf m ∧ id m = id n.
Proof.
  intros Hn [->|(c & Hc & ->)]; [done|]. split; [|done].
  destruct Hn as (Hi & (?&?&?) & (?&?&?) & Hcpus). unfold node_wf, slot_nonneg, slot_le.
  simpl in *. split_and!; try done; lia.
Qed.

Lemma same_but_2m_topology_wf ns ns' :
  topology_wf (mk_topology ns) → Forall2 same_but_2m ns ns' → topology_wf (mk_topology ns').
Proof.
  unfold topology_wf. simpl. intros [Hnd Hwf] Hs.
  assert (id <$> ns' = id <$> ns ∧ Forall node_wf ns') as [-> ?]; [|done].
  clear Hnd. induction Hs as [|n m ns ns' Hnm Hs IH]; [done|].
  apply Forall_cons in Hwf as [Hn Hwf]. destruct (IH Hwf) as [IH1 IH2].
  destruct (same_but_2m_wf _ _ Hn Hnm) as [? Hid]. rewrite !fmap_cons, IH1, Hid. auto.
Qed.
End topology.

(** The budgets of the nodes, in MB. *)
Definition budgets_mb (t : NumaTopology) (headroom_mb per_node_cap : Z) : Z :=
  foldr (λ n s, 2 * compute_2m_budget (total_ram_mb n) (total_1g_hugepages n) headroom_mb
                  per_node_cap + s) 0 (nodes t).

Lemma budget_le_cap ram g h cap : 0 ≤ cap → 0 ≤ 2 * compute_2m_budget ram g h cap ≤ cap.
Proof.
  intros Hcap. unfold compute_2m_budget, saturating_sub.
  pose proof (Z.mod_pos_bound (g * 1024) (2 ^ 32) ltac:(lia)). unfold wrap.
  set (b := Z.max 0 _). assert (0 ≤ b ≤ cap) by lia.
  pose proof (Z.div_mod b 2 ltac:(lia)). pose proof (Z.mod_pos_bound b 2 ltac:(lia)). lia.
Qed.

Lemma budgets_le t h cap : 0 ≤ cap → budgets_mb t h cap ≤ Z.of_nat (length (nodes t)) * cap.
Proof.
  intros Hc. unfold budgets_mb. induction (nodes t) as [|m ns IH]; cbn [foldr length]; [lia|].
  pose proof (budget_le_cap (total_ram_mb m) (total_1g_hugepages m) h cap Hc). lia.
Qed.

(** The 2 MiB budgets never add up to more than the limit they are derived from,
    and a node's budget with its 1 GiB pages leaves the headroom of its RAM free,
    while one more page would not. *)
Theorem budget_within_limit t headroom_mb limit n :
  0 ≤ limit → 0 < Z.of_nat (length (nodes t)) ≤ u32_max →
  0 ≤ total_1g_hugepages n * 1024 ≤ u32_max →
  let cap := limit / wrap 32 (Z.of_nat (length (nodes t))) in
  let b := compute_2m_budget (total_ram_mb n) (total_1g_hugepages n) headroom_mb cap in
  budgets_mb t headroom_mb cap ≤ limit ∧
  (0 < b → 2 * b + total_1g_hugepages n * 1024 ≤ total_ram_mb n - headroom_mb) ∧
  Z.min cap (total_ram_mb n - headroom_mb) < 2 * (b + 1) + total_1g_hugepages n * 1024.
Proof.
  intros Hl Hn Hg. rewrite wrap_small by (unfold in_width, u32_max in *; lia).
  intros cap b. assert (0 ≤ cap) as Hcap by (apply Z.div_pos; lia).
  assert (Z.of_nat (length (nodes t)) * cap ≤ limit) by (apply Z.mul_div_le; lia).
  pose proof (budgets_le t headroom_mb cap Hcap). split; [lia|].
  subst b. unfold compute_2m_budget, saturating_sub.
  rewrite wrap_small by (unfold in_width, u32_max in *; lia).
  set (c := Z.max 0 _). pose proof (Z.div_mod c 2 ltac:(lia)).
  pose proof (Z.mod_pos_bound c 2 ltac:(lia)). lia.
Qed.

Lemma budget_within_limit_witness :
  budgets_mb demo_topology 4096 (100000 / wrap 32 2) ≤ 100000.
Proof.
  refine (proj1 (budget_within_limit demo_topology 4096 100000 (demo_node 0 0 4) _ _ _)).
  - lia.
  - unfold u32_max. simpl. lia.
  - unfold u32_max. simpl. lia.
Defined.

(** Whatever the host answers, reserving huge pages keeps the topology: the same
    nodes in the same order, changed only in their 2 MiB counts, each within [u32].
    It never panics, and it fails only with that topology recorded. *)
Theorem reserve_keeps_topology {W} `{Host W} headroom_mb limit base t w :
  topology_wf t →
  wp (allocate_hugepages headroom_mb limit base)
    (λ r '(t', _), Forall2 same_but_2m (nodes t) (nodes t') ∧ topology_wf t' ∧ ∀ p, r ≠ Panic p)
    (t, w).
Proof.
  intros Ht.
  assert (Forall2 same_but_2m (nodes t) (nodes t)) as Hrefl.
  { induction (nodes t); constructor; [by left|done]. }
  unfold allocate_hugepages. apply wp_bind, wp_on_fst, wp_get.
  case_match; [by apply wp_ret|]. apply wp_bind, wp_on_snd'.
  apply allocate_loop_same. intros ns' f' t' w' Hns _ _.
  apply wp_bind, wp_on_fst. unfold wp at 1. simpl.
  assert (topology_wf (mk_topology ns')).
  { eapply same_but_2m_topology_wf; [|done]. by destruct t. }
  case_match; [apply wp_throw|apply wp_ret]; by split_and!.
Qed.

Lemma reserve_keeps_topology_witness :
  topology_wf demo_topology ∧
  wp (allocate_hugepages 4096 None "/sys")
    (λ r '(t', _), Forall2 same_but_2m (nodes demo_topology) (nodes t') ∧ topology_wf t' ∧
       ∀ p, r ≠ Panic p) (demo_topology, empty_sim).
Proof.
  split; [exact demo_topology_wf|].
  apply (reserve_keeps_topology 4096 None "/sys" demo_topology empty_sim demo_topology_wf).
Defined.
