(* ===== verification/PortForwards.v ===== *)
(** * Port forwarding state

    [src/crates/aleph-network/src/ipv4/port_forward.rs]: the map from a host port and
    a protocol to the forward registered there. [HashMap] iteration order is that of
    [map_to_list]; no theorem depends on it. *)

From S2P Require Import Prelude Strs Json NetTypes.

Record PortForwardState := mk_pf_state { forwards : gmap (Z * Protocol) PortForward }.

Definition new : PortForwardState := mk_pf_state ∅.

Definition is_available (host_port : Z) (protocol : Protocol) (s : PortForwardState) : bool :=
  match forwards s !! (host_port, protocol) with Some _ => false | None => true end.

Definition auto_allocate (protocol : Protocol) (start : Z) (s : PortForwardState) : option Z :=
  List.find (λ port, is_available port protocol s) (range start 65536).

Definition add (f : PortForward) (s : PortForwardState) : PortForwardState :=
  mk_pf_state (<[(f_host_port f, f_protocol f) := f]> (forwards s)).

Definition remove (host_port : Z) (protocol : Protocol) (s : PortForwardState) :
    option PortForward * PortForwardState :=
  (forwards s !! (host_port, protocol), mk_pf_state (delete (host_port, protocol) (forwards s))).

Definition list_for_vm (vm : string) (s : PortForwardState) : list PortForward :=
  filter (λ f, f_vm_id f = vm) (snd <$> map_to_list (forwards s)).

Definition list_all (s : PortForwardState) : list PortForward := snd <$> map_to_list (forwards s).

(** The keys are collected first, then removed one by one. *)
Fixpoint remove_keys (keys : list (Z * Protocol)) (s : PortForwardState) :
    list PortForward * PortForwardState :=
  match keys with
  | [] => ([], s)
  | (port, protocol) :: keys' =>
      let '(o, s') := remove port protocol s in
      let '(fs, s'') := remove_keys keys' s' in
      (match o with Some f => f :: fs | None => fs end, s'')
  end.
Definition remove_all_for_vm (vm : string) (s : PortForwardState) :
    list PortForward * PortForwardState :=
  remove_keys (fst <$> filter (λ kf, f_vm_id kf.2 = vm) (map_to_list (forwards s))) s.

(** ** Invariant: a forward is stored under its own port and protocol *)

Definition pf_inv (s : PortForwardState) : Prop :=
  ∀ k f, forwards s !! k = Some f → k = (f_host_port f, f_protocol f) ∧ forward_wf f.

Section invariant.
Implicit Types s : PortForwardState.

Lemma pf_inv_new : pf_inv new.
Proof. intros k f Hk. simpl in Hk. by rewrite lookup_empty in Hk. Qed.

Lemma pf_inv_add f s : forward_wf f → pf_inv s → pf_inv (add f s).
Proof. intros Hf Hs k g. simpl. rewrite lookup_insert_Some. intros [[<- <-]|[_ Hk]]; auto. Qed.

Lemma pf_inv_remove port p s : pf_inv s → pf_inv (remove port p s).2.
Proof. intros Hs k g. simpl. rewrite lookup_delete_Some. intros [_ Hk]. auto. Qed.

Lemma remove_keys_lookup keys s k :
  forwards (remove_keys keys s).2 !! k = if decide (k ∈ keys) then None else forwards s !! k.
Proof.
  revert s. induction keys as [|[port p] keys IH]; intros s; cbn [remove_keys]; [done|].
  specialize (IH (remove port p s).2). simpl in *.
  destruct (remove_keys keys _) as [fs s'']. simpl in *. rewrite IH.
  destruct (decide (k = (port, p))) as [->|Hne].
  - rewrite lookup_delete_eq. repeat case_decide; set_solver.
  - rewrite lookup_delete_ne by done. repeat case_decide; set_solver.
Qed.

Lemma remove_keys_elem keys s f :
  f ∈ (remove_keys keys s).1 ↔ ∃ k, k ∈ keys ∧ forwards s !! k = Some f.
Proof.
  revert s. induction keys as [|[port p] keys IH]; intros s; cbn [remove_keys]; [set_solver|].
  specialize (IH (remove port p s).2). simpl in *.
  destruct (remove_keys keys _) as [fs s'']. simpl in *.
  assert (f ∈ match forwards s !! (port, p) with Some g => g :: fs | None => fs end ↔
    forwards s !! (port, p) = Some f ∨ f ∈ fs) as ->.
  { destruct (forwards s !! (port, p)); rewrite ?elem_of_cons; naive_solver. }
  rewrite IH. clear IH. split.
  - intros [Hf|(k & Hk & Hf)]; [exists (port, p); set_solver|].
    apply lookup_delete_Some in Hf as [_ Hf]. exists k. set_solver.
  - intros (k & Hk & Hf). destruct (decide (k = (port, p))) as [->|Hne]; [by left|].
    right. exists k. rewrite lookup_delete_ne by done. set_solver.
Qed.

Lemma vm_keys vm s k :
  k ∈ (filter (λ kf, f_vm_id kf.2 = vm) (map_to_list (forwards s))).*1 ↔
  ∃ f, forwards s !! k = Some f ∧ f_vm_id f = vm.
Proof.
  rewrite list_elem_of_fmap. split.
  - intros ([k' f] & -> & Hin). apply list_elem_of_filter in Hin as [Hvm Hin].
    apply elem_of_map_to_list in Hin. eauto.
  - intros (f & Hf & Hvm). exists (k, f). split; [done|].
    apply list_elem_of_filter. split; [done|]. by apply elem_of_map_to_list.
Qed.

Lemma remove_all_forwards vm s :
  forwards (remove_all_for_vm vm s).2 = filter (λ kf, f_vm_id kf.2 ≠ vm) (forwards s).
Proof.
  unfold remove_all_for_vm. apply map_eq. intros k.
  rewrite remove_keys_lookup. symmetry. case_decide as Hk; rewrite vm_keys in Hk.
  - destruct Hk as (f & Hf & Hvm). apply map_lookup_filter_None. right. naive_solver.
  - destruct (forwards s !! k) as [f|] eqn:Hf.
    + apply map_lookup_filter_Some. split; [done|]. naive_solver.
    + apply map_lookup_filter_None. by left.
Qed.

Lemma remove_all_removed vm s f :
  f ∈ (remove_all_for_vm vm s).1 ↔ f_vm_id f = vm ∧ ∃ k, forwards s !! k = Some f.
Proof.
  unfold remove_all_for_vm. rewrite remove_keys_elem. split.
  - intros (k & Hk & Hf). apply vm_keys in Hk as (g & Hg & Hvm). naive_solver.
  - intros (Hvm & k & Hf). exists k. rewrite vm_keys. eauto.
Qed.

Lemma pf_inv_remove_all vm s : pf_inv s → pf_inv (remove_all_for_vm vm s).2.
Proof.
  intros Hs k f. rewrite remove_all_forwards. rewrite map_lookup_filter_Some. intros [Hk _]. auto.
Qed.

Lemma elem_of_list_for_vm vm s f :
  f ∈ list_for_vm vm s ↔ f_vm_id f = vm ∧ ∃ k, forwards s !! k = Some f.
Proof.
  unfold list_for_vm. rewrite list_elem_of_filter, list_elem_of_fmap. split.
  - intros [Hvm ([k g] & -> & Hk)]. apply elem_of_map_to_list in Hk. eauto.
  - intros [Hvm [k Hk]]. split; [done|]. exists (k, f). split; [done|]. by apply elem_of_map_to_list.
Qed.
End invariant.

(** ** Allocation *)

Lemma find_range_Some (p : Z → bool) lo hi x :
  List.find p (range lo hi) = Some x ↔
  lo ≤ x < hi ∧ p x = true ∧ ∀ y, lo ≤ y < x → p y = false.
Proof.
  unfold range. remember (Z.to_nat (hi - lo)) as n eqn:Hn. revert lo Hn.
  induction n as [|n IH]; intros lo Hn.
  - rewrite seqZ_nil by lia. simpl. split; [done|]. intros; lia.
  - rewrite seqZ_cons by lia. simpl.
    replace (Z.pred (hi - lo)) with (hi - Z.succ lo) by lia. destruct (p lo) eqn:Hp.
    + split; [intros [= <-]; split_and!; [lia..|done|intros; lia]|].
      intros (Hx & Hpx & Hmin). destruct (decide (x = lo)) as [->|]; [done|].
      specialize (Hmin lo ltac:(lia)). congruence.
    + rewrite IH by lia. split.
      * intros (Hx & Hpx & Hmin). split_and!; [lia..|done|]. intros y Hy.
        destruct (decide (y = lo)) as [->|]; [done|]. apply Hmin. lia.
      * intros (Hx & Hpx & Hmin). assert (x ≠ lo) by congruence.
        split_and!; [lia..|done|]. intros y Hy. apply Hmin. lia.
Qed.

Lemma find_range_None (p : Z → bool) lo hi :
  List.find p (range lo hi) = None ↔ ∀ y, lo ≤ y < hi → p y = false.
Proof.
  split.
  - intros Hf y Hy. eapply List.find_none; [exact Hf|].
    apply list_elem_of_In, elem_of_seqZ. lia.
  - intros Hall. destruct (List.find p (range lo hi)) as [x|] eqn:Hf; [|done].
    apply find_range_Some in Hf as (Hx & Hpx & _). rewrite Hall in Hpx by lia. done.
Qed.

(** [auto_allocate] returns the least free port at or above [start], and nothing
    exactly when every port from [start] to 65535 is taken for that protocol. *)
Theorem auto_allocate_least protocol start s :
  match auto_allocate protocol start s with
  | Some port => start ≤ port ≤ u16_max ∧ is_available port protocol s = true ∧
      ∀ p, start ≤ p < port → is_available p protocol s = false
  | None => ∀ p, start ≤ p ≤ u16_max → is_available p protocol s = false
  end.
Proof.
  unfold auto_allocate, u16_max. case_match eqn:Hf.
  - apply find_range_Some in Hf as (?&?&?). split_and!; [lia..|done|done].
  - rewrite find_range_None in Hf. intros p Hp. apply Hf. lia.
Qed.
