(* ===== verification/Ipv6.v ===== *)
(** * IPv6 allocation

    [src/crates/aleph-network/src/ipv6/range_allocator.rs]: addresses and prefixes
    from a pool, either requested or drawn at random, never overlapping. The random
    number generator is the host's; nothing is assumed of it. *)

From S2P Require Import Prelude Strs Host HostSim Json NetTypes Instances.

Record Ipv6RangeAllocator (Net : Type) := mk_ipv6 {
  pool : Net;
  default_prefix : Z;  (** u8 *)
  allocations : gmap string Net;
}.
Arguments mk_ipv6 {Net}.
Arguments pool {Net}.
Arguments default_prefix {Net}.
Arguments allocations {Net}.

Section allocator.
Context {Net W : Type} `{IpNet Net} `{Host W}.
Implicit Types (a : Ipv6RangeAllocator Net) (n : Net).

Definition new (pool : Net) (default_prefix : Z) : Ipv6RangeAllocator Net :=
  mk_ipv6 pool default_prefix ∅.

Definition contains a n : bool :=
  (network (pool a) <=? network n) && (broadcast n <=? broadcast (pool a)).

Definition overlaps a n : bool :=
  existsb (λ existing, (network n <=? broadcast existing) && (network existing <=? broadcast n))
    (snd <$> map_to_list (allocations a)).

(** [1u128 << host_bits]: the shift amount is taken modulo 128. *)
Definition host_count a : Z :=
  Z.shiftl 1 ((128 - prefix_len (pool a)) mod 128).

(** [rng.random_range(1..hi)] panics on an empty range. *)
Definition random_offset (hi : Z) : M W error Z := λ w,
  if hi <=? 1 then (Panic "cannot sample empty range", w)
  else let '(x, w') := host_random_range 1 hi w in (Ok x, w').

Fixpoint random_loop (attempts : nat) a : M W error Net :=
  match attempts with
  | O => throw (mk_error ("failed to find a non-overlapping address in pool " ++
                          net_print (pool a) ++ " after 100 attempts")%str [])
  | S attempts' =>
      offset ← random_offset (if host_count a <=? u64_max then host_count a else u64_max);
      let addr := wrap 128 (network (pool a) + offset) in
      n ← lift (ok_or (mk_error "invalid IP prefix length" []) (net_new addr (default_prefix a)));
      if contains a n && negb (overlaps a n) then mret n
      else random_loop attempts' a
  end.

Definition random_address a : M W error Net := random_loop 100 a.

Definition allocate (vm : string) (requested : option Net) :
    M (Ipv6RangeAllocator Net * W) error Net :=
  a ← on_fst get;
  n ← match requested with
      | Some n =>
          if negb (contains a n) then
            throw (mk_error ("requested " ++ net_print n ++ " is not within pool " ++
                             net_print (pool a))%str [])
          else if overlaps a n then
            throw (mk_error ("requested " ++ net_print n ++
                             " overlaps with an existing allocation")%str [])
          else mret n
      | None => on_snd (random_address a)
      end;
  on_fst (modify (λ a, mk_ipv6 (pool a) (default_prefix a) (<[vm := n]> (allocations a))));;
  mret n.

Definition release (vm : string) a : option Net * Ipv6RangeAllocator Net :=
  (allocations a !! vm, mk_ipv6 (pool a) (default_prefix a) (delete vm (allocations a))).

(** ** Invariant: allocations lie in the pool and are pairwise disjoint *)

Definition within (p n : Net) : Prop := network p ≤ network n ∧ broadcast n ≤ broadcast p.
Definition disjoint_nets (n m : Net) : Prop := broadcast n < network m ∨ broadcast m < network n.

Definition ipv6_inv a : Prop :=
  map_Forall (λ _ n, within (pool a) n) (allocations a) ∧
  map_pairwise disjoint_nets (allocations a).

Lemma contains_within a n : contains a n = true ↔ within (pool a) n.
Proof. unfold contains, within. by rewrite andb_true_iff, !Z.leb_le. Qed.

Lemma overlaps_disjoint a n :
  overlaps a n = false ↔ ∀ vm m, allocations a !! vm = Some m → disjoint_nets n m.
Proof.
  unfold overlaps. split.
  - intros Ho vm m Hm. apply not_true_iff_false in Ho. unfold disjoint_nets.
    destruct (decide (broadcast n < network m ∨ broadcast m < network n)) as [|Hn]; [done|].
    destruct Ho. apply existsb_exists. exists m. split.
    + apply list_elem_of_In, list_elem_of_fmap. exists (vm, m). split; [done|].
      by apply elem_of_map_to_list.
    + rewrite andb_true_iff, !Z.leb_le. lia.
  - intros Hall. apply not_true_iff_false. intros Ho.
    apply existsb_exists in Ho as (m & Hin & Ho).
    apply list_elem_of_In, list_elem_of_fmap in Hin as ([vm k] & -> & Hk). simpl in *.
    apply elem_of_map_to_list in Hk. specialize (Hall _ _ Hk). unfold disjoint_nets in Hall.
    rewrite andb_true_iff, !Z.leb_le in Ho. lia.
Qed.

Lemma disjoint_sym n m : disjoint_nets n m → disjoint_nets m n.
Proof. unfold disjoint_nets. tauto. Qed.

Lemma ipv6_inv_new p d : ipv6_inv (new p d).
Proof. split; [apply map_Forall_empty|apply map_pairwise_empty]. Qed.

Lemma ipv6_inv_release vm a : ipv6_inv a → ipv6_inv (release vm a).2.
Proof.
  intros [Hw Hd]. split; simpl; [by apply map_Forall_delete|by apply map_pairwise_delete].
Qed.

(** What a successful allocation guarantees. *)
Definition allocated a vm n a' : Prop :=
  within (pool a) n ∧ (∀ vm' m, allocations a !! vm' = Some m → disjoint_nets n m) ∧
  a' = mk_ipv6 (pool a) (default_prefix a) (<[vm := n]> (allocations a)).

Lemma allocated_inv a vm n a' : ipv6_inv a → allocated a vm n a' → ipv6_inv a'.
Proof.
  intros [Hw Hd] (Hin & Hdis & ->). split; simpl.
  - by apply map_Forall_insert_2.
  - apply map_pairwise_insert; [done|]. intros j m Hm _. split; [eauto|].
    apply disjoint_sym. eauto.
Qed.

(** The pool leaves room for a random draw. *)
Definition drawable a : Prop := 0 < prefix_len (pool a) < 128.

Lemma host_count_drawable a : 1 < host_count a ↔ drawable a.
Proof.
  unfold host_count, drawable. pose proof (net_prefix_bounds (pool a)) as Hp.
  rewrite Z.shiftl_1_l.
  destruct (decide (prefix_len (pool a) = 0)) as [->|]; [split; [done|lia]|].
  rewrite Z.mod_small by lia. split.
  - intros H1. assert (128 - prefix_len (pool a) ≠ 0) by (intros H2; rewrite H2 in H1; lia). lia.
  - intros H1. apply Z.pow_gt_1; lia.
Qed.

Lemma random_loop_spec k a (Q : result error Net → W → Prop) w :
  (∀ n w', drawable a → within (pool a) n →
     (∀ vm m, allocations a !! vm = Some m → disjoint_nets n m) → Q (Ok n) w') →
  (∀ e w', Q (Err e) w') →
  (∀ p w', ¬ drawable a → Q (Panic p) w') →
  wp (random_loop k a) Q w.
Proof.
  intros Hok Herr Hpanic. revert w. induction k as [|k IH]; intros w; simpl; [by apply wp_throw|].
  apply wp_bind. unfold wp at 1, random_offset.
  destruct (Z.leb_spec (if host_count a <=? u64_max then host_count a else u64_max) 1) as [Hle|Hgt].
  { simpl. apply Hpanic. rewrite <-host_count_drawable.
    destruct (Z.leb_spec (host_count a) u64_max); unfold u64_max in *; lia. }
  assert (drawable a) as Hdr.
  { apply host_count_drawable. destruct (Z.leb_spec (host_count a) u64_max); unfold u64_max in *; lia. }
  destruct (host_random_range _ _ w) as [x w']; simpl.
  apply wp_bind, wp_lift. destruct (net_new _ _) as [n|]; simpl; [|apply Herr].
  destruct (contains a n) eqn:Hc; simpl; [|apply IH].
  destruct (overlaps a n) eqn:Ho; simpl; [apply IH|].
  apply wp_ret, Hok; [done|by apply contains_within|by apply overlaps_disjoint].
Qed.

Lemma allocate_spec vm requested a w (Q : result error Net → Ipv6RangeAllocator Net * W → Prop) :
  (∀ n a' w', allocated a vm n a' → default n requested = n → Q (Ok n) (a', w')) →
  (∀ e w', Q (Err e) (a, w')) →
  (∀ p w', requested = None → ¬ drawable a → Q (Panic p) (a, w')) →
  wp (allocate vm requested) Q (a, w).
Proof.
  intros Hok Herr Hpanic. unfold allocate. apply wp_bind, wp_on_fst, wp_get.
  apply wp_bind. destruct requested as [n|].
  - destruct (contains a n) eqn:Hc; simpl; [|apply wp_throw, Herr].
    destruct (overlaps a n) eqn:Ho; simpl; [apply wp_throw, Herr|].
    apply wp_ret. apply wp_bind, wp_on_fst, wp_modify, wp_ret, Hok; [|done].
    split_and!; [by apply contains_within|by apply overlaps_disjoint|done].
  - apply wp_on_snd', random_loop_spec; [|auto..].
    intros n w' _ Hin Hdis. apply wp_bind, wp_on_fst, wp_modify, wp_ret, Hok; [|done].
    by split_and!.
Qed.
End allocator.

(** ** Properties *)

(** C28: [Ipv6RangeAllocator.allocate] keeps all allocations inside the pool and pairwise
    disjoint. A success records the returned range, the requested one if there was a
    request; an error changes nothing; only a random draw from a /128 or /0 pool
    panics. Whatever the random generator returns. *)
Theorem ipv6_allocate_disjoint {Net W} `{IpNet Net} `{Host W} vm requested
    (a : Ipv6RangeAllocator Net) (w : W) :
  ipv6_inv a →
  wp (allocate vm requested) (λ r '(a', _),
    ipv6_inv a' ∧
    match r with
    | Ok n => allocations a' !! vm = Some n ∧ within (pool a) n ∧ default n requested = n
    | Err _ => a' = a
    | Panic _ => a' = a ∧ requested = None ∧ ¬ drawable a
    end) (a, w).
Proof.
  intros Ha. apply allocate_spec; [|done|done].
  intros n a' w' Hal Hreq. split; [by eapply allocated_inv|].
  destruct Hal as (Hin & _ & ->). simpl. by rewrite lookup_insert_eq.
Qed.

Definition demo_pool : sim_net := mk_sim_net (2 ^ 125) 64 eq_refl.

Lemma ipv6_allocate_disjoint_witness :
  ipv6_inv (new demo_pool 128) ∧
  wp (allocate "vm1"%string None) (λ r '(a', _),
    ipv6_inv a' ∧
    match r with
    | Ok n => allocations a' !! "vm1"%string = Some n ∧ within demo_pool n ∧ n = n
    | Err _ => a' = new demo_pool 128
    | Panic _ => a' = new demo_pool 128 ∧ None = @None sim_net ∧ ¬ drawable (new demo_pool 128)
    end) (new demo_pool 128, empty_sim).
Proof.
  split; [apply ipv6_inv_new|].
  exact (ipv6_allocate_disjoint "vm1" None (new demo_pool 128) empty_sim (ipv6_inv_new demo_pool 128)).
Defined.
