(* ===== verification/Bridge.v ===== *)
(** * Bridge, TAP devices and DHCP reservations

    [src/crates/aleph-network/src/bridge.rs] and
    [src/crates/aleph-compute-node/src/network/tap.rs]: addresses and MACs derived
    from an offset, the [ip] commands that create and delete devices, and the files
    dnsmasq reads. *)

From S2P Require Import Prelude Strs Host Json NetTypes.

(** ** Addresses *)

Definition mac_for_vm_ip (ip : Ipv4Addr) : string :=
  let '(_, o1, o2, o3) := octets ip in
  ("52:54:00:" ++ hex2 o1 ++ ":" ++ hex2 o2 ++ ":" ++ hex2 o3)%str.

Definition allocate_vm_ip (gateway_ip : Ipv4Addr) (offset : Z) : Ipv4Addr :=
  wrap 32 (gateway_ip + offset).

(** The offset [recover_vms] computes back from an address: [wrapping_sub] of the last
    octets. *)
Definition offset_of_ip (gateway_ip ip : Ipv4Addr) : Z := wrap 8 (octet3 ip - octet3 gateway_ip).

(** ** Commands *)

Section host.
Context {Net W : Type} `{IpNet Net} `{Host W}.

Definition run_ip (args : list string) : M W error unit :=
  output ← io_ctx "failed to execute `ip` command" (host_command "ip" args);
  if out_success output then mret tt
  else throw (mk_error ("`ip " ++ join " " args ++ "` failed: " ++ trim (out_stderr output))%str []).

Definition ensure_bridge (bridge : string) (ip : Ipv4Addr) (prefix_len : Z) : M W error unit :=
  attempt (E := error) (run_ip ["link"; "add"; bridge; "type"; "bridge"]%string);;
  let addr := (print_ipv4 ip ++ "/" ++ print_dec prefix_len)%str in
  attempt (E := error) (run_ip ["addr"; "add"; addr; "dev"; bridge]%string);;
  with_context ("failed to bring up bridge " ++ bridge)%str
    (run_ip ["link"; "set"; bridge; "up"]%string).

Definition create_tap (tap_name bridge : string) : M W error unit :=
  with_context ("failed to create TAP device " ++ tap_name)%str
    (run_ip ["tuntap"; "add"; "dev"; tap_name; "mode"; "tap"]%string);;
  with_context ("failed to bring up TAP device " ++ tap_name)%str
    (run_ip ["link"; "set"; tap_name; "up"]%string);;
  with_context ("failed to attach " ++ tap_name ++ " to bridge " ++ bridge)%str
    (run_ip ["link"; "set"; tap_name; "master"; bridge]%string).

Definition delete_tap (tap_name : string) : M W error unit :=
  with_context ("failed to delete TAP device " ++ tap_name)%str
    (run_ip ["link"; "delete"; tap_name]%string).

Definition add_ipv6_to_tap (tap_name : string) (ipv6 : Net) : M W error unit :=
  let addr := (print_ipv6 (net_addr ipv6) ++ "/" ++ print_dec (prefix_len ipv6))%str in
  with_context ("failed to add IPv6 " ++ addr ++ " to " ++ tap_name)%str
    (run_ip ["addr"; "add"; addr; "dev"; tap_name]%string).

(** ** DHCP reservations *)

Definition dhcp_path (hostsdir vm : string) : string := path_join hostsdir vm.
Definition dhcpv6_path (hostsdir vm : string) : string := path_join hostsdir (vm ++ ".v6")%str.

Definition write_dhcp_reservation (hostsdir vm mac : string) (ip : Ipv4Addr) : M W error unit :=
  let path := dhcp_path hostsdir vm in
  let content := (mac ++ "," ++ print_ipv4 ip ++ nl)%str in
  io_ctx ("failed to write DHCP reservation to " ++ path)%str (host_write path content).

(** Errors are logged, not returned. *)
Definition remove_dhcp_reservation (hostsdir vm : string) : M W error unit :=
  attempt (run_io (host_remove_file (dhcp_path hostsdir vm)));; mret tt.

Definition write_dhcpv6_reservation (hostsdir vm mac : string) (ipv6 : Ipv6Addr) :
    M W error unit :=
  let path := dhcpv6_path hostsdir vm in
  let content := (mac ++ ",id:*,[" ++ print_ipv6 ipv6 ++ "]" ++ nl)%str in
  io_ctx ("failed to write DHCPv6 reservation to " ++ path)%str (host_write path content).

Definition remove_dhcpv6_reservation (hostsdir vm : string) : M W error unit :=
  attempt (run_io (host_remove_file (dhcpv6_path hostsdir vm)));; mret tt.

(** ** Lemmas *)

Lemma total_run_ip args : total (run_ip args).
Proof. unfold run_ip. total_tac. Qed.

Lemma total_create_tap tap bridge : total (create_tap tap bridge).
Proof. unfold create_tap. total_tac; apply total_run_ip. Qed.

Lemma total_delete_tap tap : total (delete_tap tap).
Proof. unfold delete_tap. total_tac; apply total_run_ip. Qed.

Lemma total_add_ipv6 tap (n : Net) : total (add_ipv6_to_tap tap n).
Proof. unfold add_ipv6_to_tap. total_tac; apply total_run_ip. Qed.

Lemma total_write_dhcp d vm mac ip : total (write_dhcp_reservation d vm mac ip).
Proof. unfold write_dhcp_reservation. total_tac. Qed.

Lemma total_write_dhcpv6 d vm mac ip : total (write_dhcpv6_reservation d vm mac ip).
Proof. unfold write_dhcpv6_reservation. total_tac. Qed.

(** Removing a reservation never fails. *)
Lemma total_remove_dhcp d vm : never_fails (remove_dhcp_reservation d vm).
Proof. apply never_fails_remove. Qed.

Lemma total_remove_dhcpv6 d vm : never_fails (remove_dhcpv6_reservation d vm).
Proof. apply never_fails_remove. Qed.
End host.

#[global] Hint Resolve total_create_tap total_delete_tap total_add_ipv6 total_write_dhcp
  total_write_dhcpv6 total_remove_dhcp total_remove_dhcpv6 : cvm.

(** ** Properties *)

Lemma octet3_allocate gateway offset : octet3 (allocate_vm_ip gateway offset) = (gateway + offset) mod 256.
Proof.
  unfold octet3, allocate_vm_ip, wrap.
  change (2 ^ 32) with (256 * 16777216). rewrite Z.rem_mul_r by lia.
  rewrite (Z.mul_comm 256), Z.mod_add by lia. by rewrite Z.mod_mod by lia.
Qed.

Lemma offset_of_allocated gateway offset :
  0 ≤ offset ≤ 255 → offset_of_ip gateway (allocate_vm_ip gateway offset) = offset.
Proof.
  intros Ho. unfold offset_of_ip. rewrite octet3_allocate. unfold octet3, wrap.
  change (2 ^ 8) with 256. rewrite <-Zminus_mod, Z.add_simpl_l. apply Z.mod_small. lia.
Qed.

Lemma hex_digit_inj a b : 0 ≤ a < 16 → 0 ≤ b < 16 → hex_digit a = hex_digit b → a = b.
Proof.
  intros Ha Hb Heq.
  assert (Forall (λ i, Forall (λ j, hex_digit (Z.of_nat i) = hex_digit (Z.of_nat j) → i = j)
    (seq 0 16)) (seq 0 16)) as HF by (apply (bool_decide_unpack _); by vm_compute).
  rewrite Forall_forall in HF. specialize (HF (Z.to_nat a) ltac:(apply elem_of_seq; lia)).
  rewrite Forall_forall in HF. specialize (HF (Z.to_nat b) ltac:(apply elem_of_seq; lia)).
  rewrite !Z2Nat.id in HF by lia. specialize (HF Heq). lia.
Qed.

Lemma hex2_inj a b : 0 ≤ a ≤ 255 → 0 ≤ b ≤ 255 → hex2 a = hex2 b → a = b.
Proof.
  intros Ha Hb [= H1 H2].
  apply hex_digit_inj in H1; [|split; [apply Z.div_pos; lia|apply Z.div_lt_upper_bound; lia]..].
  apply hex_digit_inj in H2; [|apply Z.mod_pos_bound; lia..].
  rewrite (Z.div_mod a 16), (Z.div_mod b 16) by lia. congruence.
Qed.

Lemma mac_octet3 ip ip' : mac_for_vm_ip ip = mac_for_vm_ip ip' → octet3 ip = octet3 ip'.
Proof.
  unfold mac_for_vm_ip. pose proof (octets_bounds ip) as Hb. pose proof (octets_bounds ip') as Hb'.
  unfold octet3. unfold octets in *.
  destruct Hb as (_ & _ & _ & Hb), Hb' as (_ & _ & _ & Hb').
  cbv [hex2 String.append]. intros [= _ _ _ _ H1 H2].
  apply hex2_inj; [done..|]. unfold hex2. congruence.
Qed.

(** The offset a VM was created with can be computed back from its address, as
    recovery does, even when the addition carried out of the last octet. *)
Theorem offset_round_trip gateway offset :
  0 ≤ offset ≤ 255 →
  offset_of_ip gateway (allocate_vm_ip gateway offset) = offset.
Proof. apply offset_of_allocated. Qed.

Lemma offset_round_trip_witness : offset_of_ip 167797759 (allocate_vm_ip 167797759 254) = 254.
Proof. apply offset_round_trip. lia. Defined.

(** VMs with different offsets get different addresses and different MAC
    addresses, for every gateway. *)
Theorem addresses_distinct gateway o o' :
  0 ≤ o ≤ 255 → 0 ≤ o' ≤ 255 → o ≠ o' →
  allocate_vm_ip gateway o ≠ allocate_vm_ip gateway o' ∧
  mac_for_vm_ip (allocate_vm_ip gateway o) ≠ mac_for_vm_ip (allocate_vm_ip gateway o').
Proof.
  intros Ho Ho' Hne. split; intros Heq; apply Hne;
    rewrite <-(offset_of_allocated gateway o), <-(offset_of_allocated gateway o') by done.
  - by rewrite Heq.
  - apply mac_octet3 in Heq. unfold offset_of_ip. by rewrite Heq.
Qed.

Lemma addresses_distinct_witness :
  mac_for_vm_ip (allocate_vm_ip 167797761 1) ≠ mac_for_vm_ip (allocate_vm_ip 167797761 2).
Proof. apply (addresses_distinct 167797761 1 2); lia. Defined.
