(* ===== verification/NdpProxy.v ===== *)
(** * NDP proxy

    [src/crates/aleph-network/src/ndp_proxy.rs]: the ranges proxied per TAP device,
    the configuration file rebuilt from them, and the restart of ndppd. Failures are
    logged and never reach the caller. *)

From S2P Require Import Prelude Strs Host Json NetTypes.

Record NdpProxy (Net : Type) := mk_ndp {
  host_interface : string;
  ranges : gmap string Net;
}.
Arguments mk_ndp {Net}.
Arguments host_interface {Net}.
Arguments ranges {Net}.

Section ndp.
Context {Net W : Type} `{IpNet Net} `{Host W}.

Definition new (host_interface : string) : NdpProxy Net := mk_ndp host_interface ∅.

Definition rule_text (tap_name : string) (range : Net) : string :=
  ("    rule " ++ net_print range ++ " {" ++ nl ++ "        iface " ++ tap_name ++ nl ++
   "    }" ++ nl)%str.

(** The text of /etc/ndppd.conf. *)
Definition config_text (p : NdpProxy Net) : string :=
  (foldl (λ config '(tap_name, range), config ++ rule_text tap_name range)%str
     ("proxy " ++ host_interface p ++ " {" ++ nl)%str (map_to_list (ranges p)) ++ "}" ++ nl)%str.

Definition update_config : M (NdpProxy Net * W) error unit :=
  p ← on_fst get;
  r ← on_snd (attempt (run_io (host_write "/etc/ndppd.conf" (config_text p))));
  match r with
  | Ok _ =>
      on_snd (attempt
        (run_io (host_command "systemctl" ["restart"; "ndppd"]%string)));;
      mret tt
  | _ => mret tt
  end.

Definition add_range (tap_name : string) (range : Net) : M (NdpProxy Net * W) error unit :=
  on_fst (modify (λ p, mk_ndp (host_interface p) (<[tap_name := range]> (ranges p))));;
  update_config.

Definition delete_range (tap_name : string) : M (NdpProxy Net * W) error unit :=
  on_fst (modify (λ p, mk_ndp (host_interface p) (delete tap_name (ranges p))));;
  update_config.

(** Updating the configuration changes only the host, and always returns. *)
Lemma update_config_spec p w (Q : result error unit → NdpProxy Net * W → Prop) :
  (∀ w', Q (Ok tt) (p, w')) → wp update_config Q (p, w).
Proof.
  intros HQ. unfold update_config. apply wp_bind, wp_on_fst, wp_get.
  apply wp_bind, wp_on_snd', wp_attempt, wp_run_io.
  - intros [] w' _. apply wp_bind, wp_on_snd', wp_attempt, wp_run_io; intros; apply wp_ret, HQ.
  - intros e w' _. apply wp_ret, HQ.
Qed.

Lemma add_range_spec tap range p w (Q : result error unit → NdpProxy Net * W → Prop) :
  (∀ w', Q (Ok tt) (mk_ndp (host_interface p) (<[tap := range]> (ranges p)), w')) →
  wp (add_range tap range) Q (p, w).
Proof.
  intros HQ. unfold add_range. apply wp_bind, wp_on_fst, wp_modify. by apply update_config_spec.
Qed.

Lemma delete_range_spec tap p w (Q : result error unit → NdpProxy Net * W → Prop) :
  (∀ w', Q (Ok tt) (mk_ndp (host_interface p) (delete tap (ranges p)), w')) →
  wp (delete_range tap) Q (p, w).
Proof.
  intros HQ. unfold delete_range. apply wp_bind, wp_on_fst, wp_modify. by apply update_config_spec.
Qed.
End ndp.
