(* ===== verification/NftRules.v ===== *)
(** * nftables chains and rules as JSON

    [src/crates/aleph-network/src/nftables/chains.rs] and [rules.rs]: the commands the
    manager sends, built only when the listed ruleset does not have them yet, and the
    predicates that recognise a listed rule. *)

From S2P Require Import Prelude Strs Json NetTypes.

(** [v.get(k).and_then(as_str) == Some(s)]. *)
Definition str_field (k : string) (v : json) : option string := json_get k v ≫= as_str.
Definition str_is (o : option string) (s : string) : bool :=
  match o with Some t => String.eqb t s | None => false end.
Definition field_is (k s : string) (v : json) : bool := str_is (str_field k v) s.
(** [v.get(k).and_then(as_u64) == Some(n)]. *)
Definition num_is (k : string) (n : Z) (v : json) : bool :=
  match json_get k v ≫= as_u64 with Some m => m =? n | None => false end.
Definition has (k : string) (v : json) : bool :=
  match json_get k v with Some _ => true | None => false end.

(** An entry of the ruleset of the given kind that satisfies [p]. *)
Definition any_entry (kind : string) (p : json → bool) (ruleset : list json) : bool :=
  existsb (λ entry, match json_get kind entry with Some c => p c | None => false end) ruleset.

(** ** Chains *)

Definition chain_exists (ruleset : list json) (family table name : string) : bool :=
  any_entry "chain" (λ c, field_is "family" family c && field_is "table" table c &&
                          field_is "name" name c) ruleset.

Definition add_chain (family table chain_name : string) : json :=
  JObj [("add", JObj [("chain", JObj [("family", JStr family); ("table", JStr table);
                                      ("name", JStr chain_name)])])].

Definition add_chain_if_not_present (ruleset : list json) (family table chain_name : string) :
    list json :=
  if chain_exists ruleset family table chain_name then []
  else [add_chain family table chain_name].

(** ** Recognising rules *)

(** [rule.get(expr).and_then(as_array)]. *)
Definition exprs_of (rule : json) : option (list json) := json_get "expr" rule ≫= as_array.

Definition rule_jumps_to (rule : json) (target : string) : bool :=
  match exprs_of rule with
  | Some exprs =>
      existsb (λ e, match json_get "jump" e with
                    | Some jump => field_is "target" target jump
                    | None => false end) exprs
  | None => false
  end.
Definition has_jump_to : json → string → bool := rule_jumps_to.

(** One expression: a match on the connection tracking state. *)
Definition is_ct_state (e : json) : bool :=
  str_is (m ← json_get "match" e; l ← json_get "left" m; ct ← json_get "ct" l;
          k ← json_get "key" ct; as_str k) "state".
Definition has_conntrack_accept (rule : json) : bool :=
  match exprs_of rule with
  | Some exprs => existsb is_ct_state exprs && existsb (has "accept") exprs
  | None => false
  end.

Definition has_masquerade (rule : json) : bool :=
  match exprs_of rule with
  | Some exprs => existsb (has "masquerade") exprs
  | None => false
  end.

(** One expression: [meta key == value]. *)
Definition is_meta_match (key value : string) (e : json) : bool :=
  match json_get "match" e with
  | Some m =>
      match json_get "left" m ≫= json_get "meta" with
      | Some meta => field_is "key" key meta && field_is "right" value m
      | None => false
      end
  | None => false
  end.
(** The loop's three flags are the disjunctions over the expressions. *)
Definition has_iifname_oifname_accept (rule : json) (iifname oifname : string) : bool :=
  match exprs_of rule with
  | Some exprs =>
      let '(found_iif, found_oif, found_accept) :=
        foldl (λ '(i, o, a) e, (i || is_meta_match "iifname" iifname e,
                                o || is_meta_match "oifname" oifname e,
                                a || has "accept" e)) (false, false, false) exprs in
      found_iif && found_oif && found_accept
  | None => false
  end.

(** A rule of a family, table and chain that satisfies [p]. *)
Definition rule_exists (ruleset : list json) (family table chain : string) (p : json → bool) :
    bool :=
  any_entry "rule" (λ r, field_is "family" family r && field_is "table" table r &&
                         field_is "chain" chain r && p r) ruleset.

(** ** Building rules *)

Definition add_rule (family table chain : string) (expr : list json) : json :=
  JObj [("add", JObj [("rule", JObj [("family", JStr family); ("table", JStr table);
                                     ("chain", JStr chain); ("expr", JArr expr)])])].

Definition jump_expr (to_chain : string) : list json :=
  [JObj [("jump", JObj [("target", JStr to_chain)])]].
Definition add_jump_if_not_present (ruleset : list json) (family table from_chain to_chain : string) :
    list json :=
  if rule_exists ruleset family table from_chain (λ r, has_jump_to r to_chain) then []
  else [add_rule family table from_chain (jump_expr to_chain)].

Definition conntrack_expr : list json :=
  [JObj [("match", JObj [("op", JStr "in");
                         ("left", JObj [("ct", JObj [("key", JStr "state")])]);
                         ("right", JArr [JStr "established"; JStr "related"])])];
   JObj [("accept", JNull)]].
Definition add_conntrack_if_not_present (ruleset : list json) (family table chain : string) :
    list json :=
  if rule_exists ruleset family table chain has_conntrack_accept then []
  else [add_rule family table chain conntrack_expr].

Definition meta_match (key value : string) : json :=
  JObj [("match", JObj [("op", JStr "==");
                        ("left", JObj [("meta", JObj [("key", JStr key)])]);
                        ("right", JStr value)])].
Definition masquerade_expr (iifname oifname : string) : list json :=
  [meta_match "iifname" iifname; meta_match "oifname" oifname; JObj [("masquerade", JNull)]].
Definition add_masquerade_if_not_present (ruleset : list json)
    (family table chain iifname oifname : string) : list json :=
  if rule_exists ruleset family table chain has_masquerade then []
  else [add_rule family table chain (masquerade_expr iifname oifname)].

Definition forward_accept_expr (iifname oifname : string) : list json :=
  [meta_match "iifname" iifname; meta_match "oifname" oifname; JObj [("accept", JNull)]].
Definition add_forward_accept_if_not_present (ruleset : list json)
    (family table chain iifname oifname : string) : list json :=
  if rule_exists ruleset family table chain (λ r, has_iifname_oifname_accept r iifname oifname)
  then []
  else [add_rule family table chain (forward_accept_expr iifname oifname)].

Definition dport_match (protocol : Protocol) (port : Z) : json :=
  JObj [("match", JObj [("op", JStr "==");
                        ("left", JObj [("payload", JObj [("protocol", JStr (print_protocol protocol));
                                                         ("field", JStr "dport")])]);
                        ("right", JNum port)])].
Definition dnat_rule (family table chain : string) (host_port : Z) (dest_ip : string)
    (dest_port : Z) (protocol : Protocol) : json :=
  add_rule family table chain
    [dport_match protocol host_port;
     JObj [("dnat", JObj [("addr", JStr dest_ip); ("port", JNum dest_port)])]].
Definition port_accept_rule (family table chain : string) (port : Z) (protocol : Protocol) : json :=
  add_rule family table chain [dport_match protocol port; JObj [("accept", JNull)]].

(** ** Recognising port forwards *)

Definition is_dport_match (protocol : Protocol) (host_port : Z) (e : json) : bool :=
  match json_get "match" e with
  | Some m =>
      match json_get "left" m ≫= json_get "payload" with
      | Some payload =>
          field_is "field" "dport" payload &&
          field_is "protocol" (print_protocol protocol) payload && num_is "right" host_port m
      | None => false
      end
  | None => false
  end.
Definition is_dnat_rule_matching (rule : json) (chain : string) (host_port _vm_port : Z)
    (protocol : Protocol) : bool :=
  if negb (field_is "chain" chain rule) then false
  else match exprs_of rule with
       | None => false
       | Some exprs =>
           let '(has_dport_match, has_dnat) :=
             foldl (λ '(d, n) e, (d || is_dport_match protocol host_port e, n || has "dnat" e))
               (false, false) exprs in
           has_dport_match && has_dnat
       end.

Definition expr_uses_port (port : Z) (e : json) : bool :=
  match json_get "match" e with
  | Some m =>
      num_is "right" port m &&
      match json_get "left" m ≫= json_get "payload" with
      | Some payload => field_is "field" "dport" payload
      | None => false
      end
  | None => false
  end ||
  match json_get "dnat" e with Some dnat => num_is "port" port dnat | None => false end.
Definition port_in_use (ruleset : list json) (port : Z) : bool :=
  existsb (λ entry, match json_get "rule" entry ≫= exprs_of with
                    | Some exprs => existsb (expr_uses_port port) exprs
                    | None => false
                    end) ruleset.

(** ** What nft lists after an addition *)

(** An added object is listed under its kind with what nft adds to it (a handle, the
    counters of a rule) after the fields it was given. *)
Definition listed_as (cmd : json) (entry : json) : Prop :=
  ∃ kind fields extra,
    cmd = JObj [("add", JObj [(kind, JObj fields)])] ∧
    entry = JObj [(kind, JObj (fields ++ extra))].

Section listing.
Implicit Types (ruleset rs : list json) (family table chain : string).

Lemma any_entry_app kind p rs rs' :
  any_entry kind p (rs ++ rs') = any_entry kind p rs || any_entry kind p rs'.
Proof. unfold any_entry. apply existsb_app. Qed.

Lemma any_entry_elem kind p rs entry c :
  entry ∈ rs → json_get kind entry = Some c → p c = true → any_entry kind p rs = true.
Proof.
  intros Hin Hget Hp. apply existsb_exists. exists entry. rewrite Hget.
  split; [by apply list_elem_of_In|done].
Qed.

Lemma listed_chain family table name entry :
  listed_as (add_chain family table name) entry → ∃ extra,
    entry = JObj [("chain", JObj ([("family", JStr family); ("table", JStr table);
                                   ("name", JStr name)] ++ extra))]%string.
Proof. intros (kind & fields & extra & [= <- <-] & ->). eauto. Qed.

Lemma listed_rule family table chain expr entry :
  listed_as (add_rule family table chain expr) entry → ∃ extra,
    entry = JObj [("rule", JObj ([("family", JStr family); ("table", JStr table);
                                  ("chain", JStr chain); ("expr", JArr expr)] ++ extra))]%string.
Proof. intros (kind & fields & extra & [= <- <-] & ->). eauto. Qed.

(** A chain, once added, is found. *)
Lemma chain_found family table name rs entry :
  entry ∈ rs → listed_as (add_chain family table name) entry →
  chain_exists rs family table name = true.
Proof.
  intros Hin (extra & ->)%listed_chain. eapply any_entry_elem; [done|reflexivity|].
  unfold field_is, str_field. simpl. by rewrite !String.eqb_refl.
Qed.

(** A rule, once added, is found by a predicate that holds of its expressions. *)
Lemma rule_found family table chain expr (p : json → bool) rs entry :
  entry ∈ rs → listed_as (add_rule family table chain expr) entry →
  (∀ r, exprs_of r = Some expr → p r = true) →
  rule_exists rs family table chain p = true.
Proof.
  intros Hin (extra & ->)%listed_rule Hp. eapply any_entry_elem; [done|reflexivity|].
  rewrite Hp by done. unfold field_is, str_field. simpl. by rewrite !String.eqb_refl.
Qed.

Lemma jump_recognised target r : exprs_of r = Some (jump_expr target) → rule_jumps_to r target = true.
Proof.
  intros Hr. unfold rule_jumps_to. rewrite Hr. simpl. unfold field_is, str_field. simpl.
  by rewrite String.eqb_refl.
Qed.

Lemma conntrack_recognised r : exprs_of r = Some conntrack_expr → has_conntrack_accept r = true.
Proof. intros Hr. unfold has_conntrack_accept. by rewrite Hr. Qed.

Lemma masquerade_recognised i o r : exprs_of r = Some (masquerade_expr i o) → has_masquerade r = true.
Proof. intros Hr. unfold has_masquerade. by rewrite Hr. Qed.

Lemma forward_recognised i o r :
  exprs_of r = Some (forward_accept_expr i o) → has_iifname_oifname_accept r i o = true.
Proof.
  intros Hr. unfold has_iifname_oifname_accept. rewrite Hr. simpl.
  unfold is_meta_match, field_is, str_field. simpl. rewrite !String.eqb_refl. simpl. done.
Qed.
End listing.

(** ** Additions are not repeated *)

(** The ruleset [rs'] has every entry of [rs] and lists every object that [cmds] add. *)
Definition covers (rs : list json) (cmds : list json) (rs' : list json) : Prop :=
  rs ⊆ rs' ∧ ∀ cmd, cmd ∈ cmds → ∃ entry, entry ∈ rs' ∧ listed_as cmd entry.

Section stable.
Implicit Types (rs : list json) (family table chain : string).

Lemma any_entry_mono kind p rs rs' : rs ⊆ rs' → any_entry kind p rs = true → any_entry kind p rs' = true.
Proof.
  intros Hsub (e & Hin & He)%existsb_exists. apply existsb_exists. exists e.
  split; [|done]. apply list_elem_of_In. by apply Hsub, list_elem_of_In.
Qed.

Lemma covers_app rs cmds1 cmds2 rs' :
  covers rs (cmds1 ++ cmds2) rs' ↔ covers rs cmds1 rs' ∧ covers rs cmds2 rs'.
Proof. unfold covers. setoid_rewrite elem_of_app. naive_solver. Qed.

Lemma add_chain_stable rs rs' family table name :
  covers rs (add_chain_if_not_present rs family table name) rs' →
  add_chain_if_not_present rs' family table name = [].
Proof.
  unfold add_chain_if_not_present. intros [Hsub Hcov].
  destruct (chain_exists rs family table name) eqn:Hex.
  - unfold chain_exists. by rewrite (any_entry_mono _ _ _ _ Hsub Hex).
  - destruct (Hcov _ (list_elem_of_here _ _)) as (e & Hin & He).
    by rewrite (chain_found _ _ _ _ _ Hin He).
Qed.

(** The same for a guarded rule, for any predicate that recognises the rule added. *)
Lemma add_rule_stable rs rs' family table chain expr p :
  (∀ r, exprs_of r = Some expr → p r = true) →
  covers rs (if rule_exists rs family table chain p then [] else [add_rule family table chain expr])
    rs' →
  rule_exists rs' family table chain p = true.
Proof.
  intros Hp [Hsub Hcov]. destruct (rule_exists rs family table chain p) eqn:Hex.
  - by apply (any_entry_mono _ _ _ _ Hsub).
  - destruct (Hcov _ (list_elem_of_here _ _)) as (e & Hin & He).
    by apply (rule_found _ _ _ _ _ _ _ Hin He).
Qed.

Lemma add_jump_stable rs rs' family table from to :
  covers rs (add_jump_if_not_present rs family table from to) rs' →
  add_jump_if_not_present rs' family table from to = [].
Proof.
  intros Hc. unfold add_jump_if_not_present, has_jump_to in *.
  by rewrite (add_rule_stable _ _ _ _ _ _ _ (jump_recognised to) Hc).
Qed.

Lemma add_masquerade_stable rs rs' family table chain i o :
  covers rs (add_masquerade_if_not_present rs family table chain i o) rs' →
  add_masquerade_if_not_present rs' family table chain i o = [].
Proof.
  intros Hc. unfold add_masquerade_if_not_present in *.
  by rewrite (add_rule_stable _ _ _ _ _ _ _ (masquerade_recognised i o) Hc).
Qed.

Lemma add_forward_stable rs rs' family table chain i o :
  covers rs (add_forward_accept_if_not_present rs family table chain i o) rs' →
  add_forward_accept_if_not_present rs' family table chain i o = [].
Proof.
  intros Hc. unfold add_forward_accept_if_not_present in *.
  by rewrite (add_rule_stable _ _ _ _ _ _ _ (forward_recognised i o) Hc).
Qed.

Lemma add_conntrack_stable rs rs' family table chain :
  covers rs (add_conntrack_if_not_present rs family table chain) rs' →
  add_conntrack_if_not_present rs' family table chain = [].
Proof.
  intros Hc. unfold add_conntrack_if_not_present in *.
  by rewrite (add_rule_stable _ _ _ _ _ _ _ conntrack_recognised Hc).
Qed.
End stable.

#[export] Hint Resolve add_chain_stable add_jump_stable add_masquerade_stable add_forward_stable
  add_conntrack_stable : cvm.
