(* ===== verification/Nft.v ===== *)
(** * The nftables manager

    [src/crates/aleph-network/src/nftables/mod.rs]: the supervisor chains, the chains
    of each VM, port forwards, and the helpers that run nft. Each operation lists the
    ruleset, computes a batch of commands from it, and sends the batch; the batches
    are pure functions of the listed ruleset. *)

From S2P Require Import Prelude Strs Host Json NetTypes NftRules.

Record NftablesManager := mk_nft {
  prefix : string;
  external_interface : string;
  ipv6_enabled : bool;
}.

(** ** Chain names *)

Definition supervisor_nat_chain (m : NftablesManager) : string := (prefix m ++ "-supervisor-nat")%str.
Definition supervisor_filter_chain (m : NftablesManager) : string :=
  (prefix m ++ "-supervisor-filter")%str.
Definition supervisor_prerouting_chain (m : NftablesManager) : string :=
  (prefix m ++ "-supervisor-prerouting")%str.
Definition vm_nat_chain (m : NftablesManager) (vm : string) : string :=
  (prefix m ++ "-vm-nat-" ++ vm)%str.
Definition vm_filter_chain (m : NftablesManager) (vm : string) : string :=
  (prefix m ++ "-vm-filter-" ++ vm)%str.

(** ** Reading the ruleset *)

(** The first chain entry that satisfies [p]. *)
Definition first_chain (p : json → bool) (ruleset : list json) : option json :=
  List.find p (omap (json_get "chain") ruleset).

Definition get_table_for_chain (ruleset : list json) (family chain_name : string) : option string :=
  first_chain (λ c, field_is "family" family c && field_is "name" chain_name c) ruleset
    ≫= str_field "table".

Definition find_base_chain_name (ruleset : list json) (family table hook : string) : string :=
  default (to_uppercase hook)
    (first_chain (λ c, field_is "family" family c && field_is "table" table c &&
                       field_is "hook" hook c &&
                       match str_field "name" c with Some _ => true | None => false end) ruleset
     ≫= str_field "name").

(** ** Batches *)

(** The chain, jump and accept rule of a VM's filter chain in one family. *)
Definition vm_filter_commands (m : NftablesManager) (ruleset : list json)
    (family filter_table vm tap_device : string) : list json :=
  let vm_filter := vm_filter_chain m vm in
  add_chain_if_not_present ruleset family filter_table vm_filter ++
  add_jump_if_not_present ruleset family filter_table (supervisor_filter_chain m) vm_filter ++
  add_forward_accept_if_not_present ruleset family filter_table vm_filter tap_device
    (external_interface m).

Definition setup_vm_commands (m : NftablesManager) (ruleset : list json) (vm tap_device : string) :
    result error (list json) :=
  nat_table ← ok_or (mk_error "supervisor nat chain not found — call initialize() first" [])
                (get_table_for_chain ruleset "ip" (supervisor_nat_chain m));
  filter_table ← ok_or (mk_error "supervisor filter chain not found — call initialize() first" [])
                   (get_table_for_chain ruleset "ip" (supervisor_filter_chain m));
  let vm_nat := vm_nat_chain m vm in
  let nat_commands :=
    add_chain_if_not_present ruleset "ip" nat_table vm_nat ++
    add_jump_if_not_present ruleset "ip" nat_table (supervisor_nat_chain m) vm_nat ++
    add_masquerade_if_not_present ruleset "ip" nat_table vm_nat tap_device (external_interface m) in
  let filter_commands := vm_filter_commands m ruleset "ip" filter_table vm tap_device in
  let ip6_commands :=
    if ipv6_enabled m then
      match get_table_for_chain ruleset "ip6" (supervisor_filter_chain m) with
      | Some ip6_filter_table => vm_filter_commands m ruleset "ip6" ip6_filter_table vm tap_device
      | None => []
      end
    else [] in
  Ok (nat_commands ++ filter_commands ++ ip6_commands).

Definition delete_rule (family table chain : string) (handle : json) : json :=
  JObj [("delete", JObj [("rule", JObj [("family", JStr family); ("table", JStr table);
                                        ("chain", JStr chain); ("handle", handle)])])].
Definition delete_chain (family table name : string) : json :=
  JObj [("delete", JObj [("chain", JObj [("family", JStr family); ("table", JStr table);
                                         ("name", JStr name)])])].

(** Delete every jump to the chain, then the chain, in every family and table. *)
Definition jump_delete (chain_name : string) (entry : json) : option json :=
  rule ← json_get "rule" entry;
  if rule_jumps_to rule chain_name then
    handle ← json_get "handle" rule;
    Some (delete_rule (default "ip" (str_field "family" rule)) (default "" (str_field "table" rule))
            (default "" (str_field "chain" rule)) handle)%string
  else None.
Definition chain_delete (chain_name : string) (entry : json) : option json :=
  chain ← json_get "chain" entry;
  if field_is "name" chain_name chain then
    Some (delete_chain (default "ip" (str_field "family" chain))
            (default "" (str_field "table" chain)) chain_name)%string
  else None.
Definition remove_chain_commands (ruleset : list json) (chain_name : string) : list json :=
  omap (jump_delete chain_name) ruleset ++ omap (chain_delete chain_name) ruleset.

(** Delete the DNAT rules of a forward. *)
Definition forward_delete (m : NftablesManager) (host_port vm_port : Z) (protocol : Protocol)
    (entry : json) : option json :=
  rule ← json_get "rule" entry;
  if is_dnat_rule_matching rule (supervisor_prerouting_chain m) host_port vm_port protocol then
    handle ← json_get "handle" rule;
    Some (delete_rule (default "ip" (str_field "family" rule)) (default "" (str_field "table" rule))
            (supervisor_prerouting_chain m) handle)%string
  else None.

Definition add_forward_commands (m : NftablesManager) (ruleset : list json) (vm : string)
    (guest_ip : Ipv4Addr) (host_port vm_port : Z) (protocol : Protocol) :
    result error (list json) :=
  prerouting_table ← ok_or (mk_error "supervisor prerouting chain not found" [])
                       (get_table_for_chain ruleset "ip" (supervisor_prerouting_chain m));
  filter_table ← ok_or (mk_error "VM filter chain not found — set up VM first" [])
                   (get_table_for_chain ruleset "ip" (vm_filter_chain m vm));
  Ok [dnat_rule "ip" prerouting_table (supervisor_prerouting_chain m) host_port
        (print_ipv4 guest_ip) vm_port protocol;
      port_accept_rule "ip" filter_table (vm_filter_chain m vm) vm_port protocol].

(** The chains and base rules of one supervisor chain. *)
Definition supervisor_commands (ruleset : list json) (family table hook chain : string) : list json :=
  add_chain_if_not_present ruleset family table chain ++
  add_jump_if_not_present ruleset family table (find_base_chain_name ruleset family table hook) chain.

(** ** Running nft *)

Section host.
Context {W : Type} `{Host W} `{SerdeJson}.

Definition list_family (family : string) : M W error (list json) :=
  output ← io_ctx "failed to execute nft"
             (host_command "nft" ["-j"; "list"; "ruleset"; family]%string);
  mret (if out_success output then
          default [] (v ← json_parse (out_stdout output); json_get "nftables" v ≫= as_array)
        else []).

Definition execute_list_ruleset : M W error (list json) :=
  ip ← list_family "ip"; ip6 ← list_family "ip6"; mret (ip ++ ip6).

Definition execute_nft_commands (commands : list json) : M W error unit :=
  match commands with
  | [] => mret tt
  | _ =>
      output ← feed "failed to spawn nft" "failed to wait for nft"
                 (host_feed "nft" ["-j"; "-f"; "-"]%string
                    (json_print (JObj [("nftables", JArr commands)])));
      if out_success output then mret tt
      else throw (mk_error ("nft command failed: " ++ trim (out_stderr output))%str [])
  end.

(** The table, chain type and priority of a hook. *)
Definition hook_defaults (hook : string) : result error (string * string * Z) :=
  if String.eqb hook "postrouting" then Ok ("nat", "nat", 100)%string
  else if String.eqb hook "prerouting" then Ok ("nat", "nat", -100)%string
  else if String.eqb hook "forward" then Ok ("filter", "filter", 0)%string
  else bail ("unsupported hook: " ++ hook)%str.

Definition find_or_create_table_for_hook (ruleset : list json) (hook family : string) :
    M W error string :=
  match first_chain (λ c, field_is "family" family c && field_is "hook" hook c &&
                          match str_field "table" c with Some _ => true | None => false end)
          ruleset ≫= str_field "table" with
  | Some table => mret table
  | None =>
      d ← lift (hook_defaults hook);
      let '(table, chain_type, priority) := d in
      execute_nft_commands
        [JObj [("add", JObj [("table", JObj [("family", JStr family); ("name", JStr table)])])];
         JObj [("add", JObj [("chain", JObj
           [("family", JStr family); ("table", JStr table); ("name", JStr (to_uppercase hook));
            ("type", JStr chain_type); ("hook", JStr hook); ("prio", JNum priority);
            ("policy", JStr "accept")])])]];;
      mret table
  end.

(** ** Operations *)

Definition initialize (m : NftablesManager) : M W error unit :=
  ruleset ← execute_list_ruleset;
  nat_table ← find_or_create_table_for_hook ruleset "postrouting" "ip";
  filter_table ← find_or_create_table_for_hook ruleset "forward" "ip";
  prerouting_table ← find_or_create_table_for_hook ruleset "prerouting" "ip";
  ruleset ← execute_list_ruleset;
  let commands :=
    supervisor_commands ruleset "ip" nat_table "postrouting" (supervisor_nat_chain m) ++
    supervisor_commands ruleset "ip" filter_table "forward" (supervisor_filter_chain m) ++
    add_conntrack_if_not_present ruleset "ip" filter_table (supervisor_filter_chain m) ++
    supervisor_commands ruleset "ip" prerouting_table "prerouting" (supervisor_prerouting_chain m) in
  commands ←
    (if ipv6_enabled m then
       rs ← execute_list_ruleset;
       ip6_filter_table ← find_or_create_table_for_hook rs "forward" "ip6";
       ruleset ← execute_list_ruleset;
       mret (commands ++
         supervisor_commands ruleset "ip6" ip6_filter_table "forward" (supervisor_filter_chain m) ++
         add_conntrack_if_not_present ruleset "ip6" ip6_filter_table (supervisor_filter_chain m))
     else mret commands);
  execute_nft_commands commands.

Definition remove_chain_everywhere (chain_name : string) : M W error unit :=
  ruleset ← execute_list_ruleset;
  execute_nft_commands (remove_chain_commands ruleset chain_name).

Definition teardown (m : NftablesManager) : M W error unit :=
  remove_chain_everywhere (supervisor_nat_chain m);;
  remove_chain_everywhere (supervisor_filter_chain m);;
  remove_chain_everywhere (supervisor_prerouting_chain m).

Definition setup_vm (m : NftablesManager) (vm tap_device : string) : M W error unit :=
  ruleset ← execute_list_ruleset;
  commands ← lift (setup_vm_commands m ruleset vm tap_device);
  execute_nft_commands commands.

Definition teardown_vm (m : NftablesManager) (vm : string) : M W error unit :=
  remove_chain_everywhere (vm_nat_chain m vm);;
  remove_chain_everywhere (vm_filter_chain m vm).

Definition add_port_forward (m : NftablesManager) (vm : string) (guest_ip : Ipv4Addr)
    (host_port vm_port : Z) (protocol : Protocol) : M W error unit :=
  ruleset ← execute_list_ruleset;
  commands ← lift (add_forward_commands m ruleset vm guest_ip host_port vm_port protocol);
  execute_nft_commands commands.

Definition remove_port_forward (m : NftablesManager) (host_port vm_port : Z) (protocol : Protocol) :
    M W error unit :=
  ruleset ← execute_list_ruleset;
  execute_nft_commands (omap (forward_delete m host_port vm_port protocol) ruleset).

Definition is_port_in_use (port : Z) : M W error bool :=
  ruleset ← execute_list_ruleset; mret (port_in_use ruleset port).

Lemma total_list_ruleset : total execute_list_ruleset.
Proof. unfold execute_list_ruleset, list_family. total_tac. Qed.

Lemma total_nft_commands cmds : total (execute_nft_commands cmds).
Proof. unfold execute_nft_commands. total_tac. Qed.

Lemma total_remove_chain c : total (remove_chain_everywhere c).
Proof. unfold remove_chain_everywhere. total_tac; auto using total_list_ruleset, total_nft_commands. Qed.

Lemma total_setup_vm m vm tap : total (setup_vm m vm tap).
Proof.
  unfold setup_vm. total_tac; auto using total_list_ruleset, total_nft_commands.
  apply total_lift. unfold setup_vm_commands. intros p.
  by repeat (destruct (get_table_for_chain _ _ _); simpl).
Qed.

Lemma total_teardown_vm m vm : total (teardown_vm m vm).
Proof. apply total_bind; [|intros]; apply total_remove_chain. Qed.

Lemma total_add_forward m vm ip hp vp p : total (add_port_forward m vm ip hp vp p).
Proof.
  unfold add_port_forward. total_tac; auto using total_list_ruleset, total_nft_commands.
  apply total_lift. unfold add_forward_commands. intros q.
  by repeat (destruct (get_table_for_chain _ _ _); simpl).
Qed.

Lemma total_remove_forward m hp vp p : total (remove_port_forward m hp vp p).
Proof. unfold remove_port_forward. total_tac; auto using total_list_ruleset, total_nft_commands. Qed.

Lemma total_find_or_create rs hook family : total (find_or_create_table_for_hook rs hook family).
Proof.
  unfold find_or_create_table_for_hook. total_tac; auto using total_nft_commands.
  apply total_lift. unfold hook_defaults. intros q. by repeat case_match.
Qed.

Lemma total_initialize m : total (initialize m).
Proof.
  unfold initialize.
  total_tac; auto using total_list_ruleset, total_nft_commands, total_find_or_create.
Qed.
End host.

#[global] Hint Resolve total_setup_vm total_teardown_vm total_add_forward total_remove_forward
  total_initialize : cvm.

(** ** Setting up a VM twice *)

Section setup.
Implicit Types (m : NftablesManager) (rs : list json).

Lemma vm_filter_stable m rs rs' family table vm tap :
  covers rs (vm_filter_commands m rs family table vm tap) rs' →
  vm_filter_commands m rs' family table vm tap = [].
Proof.
  unfold vm_filter_commands. rewrite !covers_app. intros (H1 & H2 & H3).
  by rewrite (add_chain_stable _ _ _ _ _ H1), (add_jump_stable _ _ _ _ _ _ H2),
    (add_forward_stable _ _ _ _ _ _ _ H3).
Qed.

(** C33: [setup_vm] is idempotent. Once the ruleset lists what a first run added, and the
    supervisor chains are still found in the same tables, a second run for the same VM
    computes an empty batch, so it sends nothing to nft. *)
Theorem setup_vm_idempotent m rs rs' vm tap cmds :
  setup_vm_commands m rs vm tap = Ok cmds →
  covers rs cmds rs' →
  (∀ family chain, family ∈ ["ip"; "ip6"]%string →
     chain ∈ [supervisor_nat_chain m; supervisor_filter_chain m] →
     get_table_for_chain rs' family chain = get_table_for_chain rs family chain) →
  setup_vm_commands m rs' vm tap = Ok [].
Proof.
  unfold setup_vm_commands. intros Hok Hcov Htab.
  rewrite !Htab by set_solver.
  destruct (get_table_for_chain rs "ip" (supervisor_nat_chain m)) as [nat_table|]; [|done].
  destruct (get_table_for_chain rs "ip" (supervisor_filter_chain m)) as [filter_table|]; [|done].
  simpl in *. injection Hok as <-. rewrite !covers_app in Hcov.
  destruct Hcov as ((H1 & H2 & H3) & H4 & H5). f_equal.
  rewrite (add_chain_stable _ _ _ _ _ H1), (add_jump_stable _ _ _ _ _ _ H2),
    (add_masquerade_stable _ _ _ _ _ _ _ H3), (vm_filter_stable _ _ _ _ _ _ _ H4).
  destruct (ipv6_enabled m); [|done].
  destruct (get_table_for_chain rs "ip6" (supervisor_filter_chain m)) as [t6|]; [|done].
  by rewrite (vm_filter_stable _ _ _ _ _ _ _ H5).
Qed.
End setup.

Definition demo_nft : NftablesManager := mk_nft "aleph" "eth0" true.
Definition demo_chain (family table name : string) : json :=
  JObj [("chain", JObj [("family", JStr family); ("table", JStr table); ("name", JStr name)])].
Definition demo_ruleset : list json :=
  [demo_chain "ip" "nat" "aleph-supervisor-nat"; demo_chain "ip" "filter" "aleph-supervisor-filter";
   demo_chain "ip6" "filter" "aleph-supervisor-filter";
   demo_chain "ip" "nat" "aleph-supervisor-prerouting"].
(** An added object as it is listed, with a handle. *)
Definition demo_listed (cmd : json) : json :=
  match cmd with
  | JObj [("add"%string, JObj [(kind, JObj fields)])] =>
      JObj [(kind, JObj (fields ++ [("handle"%string, JNum 7)]))]
  | _ => JNull
  end.

Lemma setup_vm_idempotent_witness :
  match setup_vm_commands demo_nft demo_ruleset "vm1" "tap-vm1" with
  | Ok cmds => length cmds = 9%nat ∧
      setup_vm_commands demo_nft (demo_ruleset ++ (demo_listed <$> cmds)) "vm1" "tap-vm1" = Ok []
  | _ => False
  end.
Proof.
  destruct (setup_vm_commands demo_nft demo_ruleset "vm1" "tap-vm1") as [cmds|e|p] eqn:E;
    [|by vm_compute in E..].
  assert (length cmds = 9%nat ∧ Forall (λ c, listed_as c (demo_listed c)) cmds) as [Hlen Hlist].
  { vm_compute in E. injection E as <-. split; [done|].
    repeat constructor; do 3 eexists; split; reflexivity. }
  split; [exact Hlen|]. apply (setup_vm_idempotent _ _ _ _ _ _ E).
  - split; [set_solver|]. intros c Hc. exists (demo_listed c). rewrite Forall_forall in Hlist.
    split; [|by apply Hlist]. apply elem_of_app. right. by apply list_elem_of_fmap_2.
  - intros family chain Hf Hin. clear Hlist Hlen. vm_compute in E. injection E as <-.
    apply elem_of_cons in Hin as [->|Hin%list_elem_of_singleton]; [|subst chain];
      (apply elem_of_cons in Hf as [->|Hf%list_elem_of_singleton]; [|subst family]);
      by vm_compute.
Defined.

(** ** Port forwards *)

Section forward.
Implicit Types (m : NftablesManager).

Lemma print_protocol_eqb p q :
  String.eqb (print_protocol p) (print_protocol q) = bool_decide (p = q).
Proof. by destruct p, q. Qed.

Lemma assoc_app {A} k (l l' : list (string * A)) :
  assoc k (l ++ l') = match assoc k l with Some a => Some a | None => assoc k l' end.
Proof. induction l as [|[k' a] l IH]; simpl; [done|]. by destruct (String.eqb k k'). Qed.

(** A rule as nft lists it. *)
Definition listed_rule_json (family table chain : string) (expr : list json)
    (extra : list (string * json)) : json :=
  JObj ([("family", JStr family); ("table", JStr table); ("chain", JStr chain);
         ("expr", JArr expr)]%string ++ extra).

Lemma dnat_matching family table chain hp ip vp p extra chain' hp' vp' p' :
  0 ≤ hp ≤ u16_max →
  is_dnat_rule_matching (listed_rule_json family table chain
    [dport_match p hp; JObj [("dnat"%string, JObj [("addr"%string, JStr ip); ("port"%string, JNum vp)])]]
    extra) chain' hp' vp' p' =
  bool_decide (chain = chain' ∧ hp = hp' ∧ p = p').
Proof.
  intros Hhp. unfold is_dnat_rule_matching, field_is, str_field, exprs_of. cbn -[u64_max].
  destruct (String.eqb_spec chain chain') as [->|Hne]; simpl.
  - unfold is_dport_match, field_is, str_field, num_is. cbn -[u64_max].
    rewrite print_protocol_eqb, !orb_false_r, andb_true_r.
    unfold u64_max, u16_max in *.
    rewrite (proj2 (Z.leb_le 0 hp)), (proj2 (Z.leb_le hp _)) by lia. simpl.
    apply eq_true_iff_eq. rewrite andb_true_iff, !bool_decide_eq_true, Z.eqb_eq. naive_solver.
  - symmetry. apply bool_decide_eq_false. naive_solver.
Qed.

Lemma accept_not_dnat family table chain port p extra chain' hp vp p' :
  is_dnat_rule_matching (listed_rule_json family table chain
    [dport_match p port; JObj [("accept"%string, JNull)]] extra) chain' hp vp p' = false.
Proof.
  unfold is_dnat_rule_matching. case_match; [done|]. cbn -[is_dport_match]. by rewrite andb_false_r.
Qed.

(** C34: removing a forward deletes, by handle, exactly the DNAT rules that adding it
    created: the listed DNAT rule is selected for the same host port and protocol and
    for no other, whatever the VM port asked for. The accept rule that was added to the
    VM's filter chain is never selected. *)
Theorem remove_selects_added_dnat m rs vm ip hp vp p cmds dnat accept handle extra extra' hp' vp' p' :
  0 ≤ hp ≤ u16_max →
  add_forward_commands m rs vm ip hp vp p = Ok cmds →
  cmds = [JObj [("add", JObj [("rule", JObj dnat)])]; JObj [("add", JObj [("rule", JObj accept)])]]%string →
  assoc "handle" extra = Some handle →
  (∃ table,
    forward_delete m hp' vp' p' (JObj [("rule"%string, JObj (dnat ++ extra))]) =
    if decide (hp = hp' ∧ p = p')
    then Some (delete_rule "ip" table (supervisor_prerouting_chain m) handle) else None) ∧
  forward_delete m hp' vp' p' (JObj [("rule"%string, JObj (accept ++ extra'))]) = None.
Proof.
  intros Hhp Hadd Hcmds Hhandle. unfold add_forward_commands in Hadd.
  destruct (get_table_for_chain rs "ip" (supervisor_prerouting_chain m)) as [t1|]; [|done].
  destruct (get_table_for_chain rs "ip" (vm_filter_chain m vm)) as [t2|]; [|done].
  simpl in Hadd. injection Hadd as <-. unfold dnat_rule, port_accept_rule, add_rule in Hcmds.
  injection Hcmds as <- <-. split; [exists t1|]; unfold forward_delete; cbn [json_get assoc String.eqb].
  - change (JObj (_ ++ extra)) with (listed_rule_json "ip" t1 (supervisor_prerouting_chain m)
      [dport_match p hp; JObj [("dnat", JObj [("addr", JStr (print_ipv4 ip)); ("port", JNum vp)])]]%string
      extra). cbn [mbind option_bind Ascii.eqb Bool.eqb].
    rewrite dnat_matching by done.
    destruct (decide (hp = hp' ∧ p = p')) as [[-> ->]|Hne].
    + rewrite bool_decide_eq_true_2 by done. unfold listed_rule_json, json_get.
      rewrite assoc_app. simpl. by rewrite Hhandle.
    + by rewrite bool_decide_eq_false_2 by naive_solver.
  - change (JObj (_ ++ extra')) with (listed_rule_json "ip" t2 (vm_filter_chain m vm)
      [dport_match p vp; JObj [("accept", JNull)]]%string extra').
    cbn [mbind option_bind Ascii.eqb Bool.eqb]. by rewrite accept_not_dnat.
Qed.

Lemma remove_selects_added_dnat_witness :
  ∃ table, forward_delete demo_nft 8080 0 Tcp
    (JObj [("rule"%string, JObj ([("family", JStr "ip"); ("table", JStr "nat");
       ("chain", JStr "aleph-supervisor-prerouting");
       ("expr", JArr [dport_match Tcp 8080;
          JObj [("dnat", JObj [("addr", JStr "10.0.100.2"); ("port", JNum 80)])]])]%string
       ++ [("handle"%string, JNum 9)]))]) =
  Some (delete_rule "ip" table "aleph-supervisor-prerouting" (JNum 9)).
Proof.
  eapply (remove_selects_added_dnat demo_nft
    (demo_ruleset ++ [demo_chain "ip" "filter" "aleph-vm-filter-vm1"]) "vm1" 167797762 8080 80 Tcp
    _ _ _ (JNum 9) [("handle"%string, JNum 9)] [] 8080 0 Tcp).
  - unfold u16_max. lia.
  - vm_compute. reflexivity.
  - reflexivity.
  - reflexivity.
Defined.

(** ** Teardown *)

Lemma vm_chain_inj m vm vm' :
  (vm_nat_chain m vm = vm_nat_chain m vm' → vm = vm') ∧
  (vm_filter_chain m vm = vm_filter_chain m vm' → vm = vm') ∧
  vm_nat_chain m vm ≠ vm_filter_chain m vm'.
Proof.
  unfold vm_nat_chain, vm_filter_chain. split_and!.
  - intros H. apply (inj (String.append _)) in H. by apply (inj (String.append _)) in H.
  - intros H. apply (inj (String.append _)) in H. by apply (inj (String.append _)) in H.
  - intros H. by apply (inj (String.append _)) in H.
Qed.
End forward.

(** What identifies a rule and a chain to nft. *)
Definition rule_key (r : json) : option (string * string * string * Z) :=
  f ← str_field "family" r; t ← str_field "table" r; c ← str_field "chain" r;
  h ← json_get "handle" r ≫= as_u64; Some (f, t, c, h).
Definition chain_key (c : json) : option (string * string * string) :=
  f ← str_field "family" c; t ← str_field "table" c; n ← str_field "name" c; Some (f, t, n).

(** nft's reading of a delete command: does it delete this entry? *)
Definition key_matches {K} `{EqDecision K} (key : json → option K) (a b : option json) : bool :=
  match a ≫= key, b ≫= key with Some k, Some k' => bool_decide (k = k') | _, _ => false end.
Definition deletes (entry cmd : json) : bool :=
  match json_get "delete" cmd with
  | Some d =>
      key_matches rule_key (json_get "rule" d) (json_get "rule" entry) ||
      key_matches chain_key (json_get "chain" d) (json_get "chain" entry)
  | None => false
  end.
(** The ruleset after a batch of deletions. *)
Definition apply_deletes (cmds rs : list json) : list json :=
  List.filter (λ e, negb (existsb (deletes e) cmds)) rs.

(** A listed ruleset: keys are present, and a rule is determined by its key. *)
Definition ruleset_wf (rs : list json) : Prop :=
  (∀ e r, e ∈ rs → json_get "rule" e = Some r → is_Some (rule_key r)) ∧
  (∀ e c, e ∈ rs → json_get "chain" e = Some c → is_Some (chain_key c)) ∧
  (∀ e e' r r' k, e ∈ rs → e' ∈ rs → json_get "rule" e = Some r → json_get "rule" e' = Some r' →
     rule_key r = Some k → rule_key r' = Some k → r = r').

(** The entries a chain's removal is about: the chain, and the jumps to it. *)
Definition concerns (chain_name : string) (e : json) : bool :=
  match json_get "rule" e with Some r => rule_jumps_to r chain_name | None => false end ||
  match json_get "chain" e with Some c => field_is "name" chain_name c | None => false end.

Section teardown.
Implicit Types (rs : list json) (e : json).

Lemma str_is_Some o s : str_is o s = true ↔ o = Some s.
Proof.
  destruct o as [t|]; simpl; [|done]. rewrite String.eqb_eq. split; [by intros ->|by intros [= ->]].
Qed.

Lemma rule_key_delete r k :
  rule_key r = Some k →
  ∃ h, json_get "handle" r = Some h ∧
    rule_key (JObj [("family", JStr (default "ip" (str_field "family" r)));
      ("table", JStr (default "" (str_field "table" r)));
      ("chain", JStr (default "" (str_field "chain" r))); ("handle", h)])%string = Some k.
Proof.
  unfold rule_key. intros Hk.
  apply bind_Some in Hk as (f & -> & Hk). apply bind_Some in Hk as (t & -> & Hk).
  apply bind_Some in Hk as (c & -> & Hk). apply bind_Some in Hk as (h & Hh & Hk).
  apply bind_Some in Hh as (j & Hj & Hh). exists j. split; [done|]. simpl. by rewrite Hh.
Qed.

Lemma jump_delete_Some name e r k :
  json_get "rule" e = Some r → rule_jumps_to r name = true → rule_key r = Some k →
  ∃ cmd d, jump_delete name e = Some cmd ∧ json_get "delete" cmd = Some d ∧
    json_get "rule" d ≫= rule_key = Some k ∧ json_get "chain" d = None.
Proof.
  intros Hr Hj Hk. unfold jump_delete. rewrite Hr. simpl. rewrite Hj.
  destruct (rule_key_delete _ _ Hk) as (h & Hh & Hkd). rewrite Hh. simpl.
  do 2 eexists. split_and!; [reflexivity|reflexivity| |reflexivity]. exact Hkd.
Qed.

Lemma chain_delete_Some name e c k :
  json_get "chain" e = Some c → field_is "name" name c = true → chain_key c = Some k →
  ∃ cmd d, chain_delete name e = Some cmd ∧ json_get "delete" cmd = Some d ∧
    json_get "chain" d ≫= chain_key = Some k ∧ json_get "rule" d = None.
Proof.
  intros Hc Hn Hk. unfold chain_delete. rewrite Hc. simpl. rewrite Hn.
  do 2 eexists. split_and!; [reflexivity|reflexivity| |reflexivity].
  unfold chain_key in Hk |- *. unfold field_is in Hn. apply str_is_Some in Hn. rewrite Hn in Hk.
  destruct (str_field "family" c); [|done]. destruct (str_field "table" c); [|done]. exact Hk.
Qed.

Lemma elem_of_remove_commands rs name cmd :
  cmd ∈ remove_chain_commands rs name ↔
  ∃ e, e ∈ rs ∧ (jump_delete name e = Some cmd ∨ chain_delete name e = Some cmd).
Proof. unfold remove_chain_commands. rewrite elem_of_app, !list_elem_of_omap. naive_solver. Qed.

Lemma deletes_concerns rs name e :
  ruleset_wf rs → e ∈ rs → existsb (deletes e) (remove_chain_commands rs name) = concerns name e.
Proof.
  intros (Hrk & Hck & Huniq) Hin. apply eq_true_iff_eq. split.
  - intros (cmd & Hcmd & Hdel)%existsb_exists. apply list_elem_of_In in Hcmd.
    apply elem_of_remove_commands in Hcmd as (e' & Hin' & [Hj|Hc]); unfold concerns; apply orb_true_iff.
    + left. unfold jump_delete in Hj. apply bind_Some in Hj as (r' & Hr' & Hj).
      destruct (rule_jumps_to r' name) eqn:Hjt; [|done]. destruct (Hrk _ _ Hin' Hr') as [k Hk].
      destruct (jump_delete_Some name e' r' k) as (cmd' & d & Hj' & Hd & Hkd & Hcd); [done..|].
      assert (cmd' = cmd) as ->. { unfold jump_delete in Hj'. rewrite Hr' in Hj'. simpl in Hj'.
        rewrite Hjt in Hj'. congruence. }
      unfold deletes in Hdel. rewrite Hd, Hcd in Hdel. unfold key_matches in Hdel. rewrite Hkd in Hdel.
      simpl in Hdel. rewrite orb_false_r in Hdel.
      destruct (json_get "rule" e) as [r|] eqn:Hr; simpl in Hdel; [|done].
      destruct (rule_key r) as [k'|] eqn:Hk'; [|done]. apply bool_decide_eq_true in Hdel as ->.
      by rewrite (Huniq _ _ _ _ _ Hin Hin' Hr Hr' Hk' Hk).
    + right. unfold chain_delete in Hc. apply bind_Some in Hc as (c' & Hc' & Hc).
      destruct (field_is "name" name c') eqn:Hn; [|done]. destruct (Hck _ _ Hin' Hc') as [k Hk].
      destruct (chain_delete_Some name e' c' k) as (cmd' & d & Hj' & Hd & Hkd & Hrd); [done..|].
      assert (cmd' = cmd) as ->. { unfold chain_delete in Hj'. rewrite Hc' in Hj'. simpl in Hj'.
        rewrite Hn in Hj'. congruence. }
      unfold deletes in Hdel. rewrite Hd, Hrd in Hdel. unfold key_matches in Hdel. rewrite Hkd in Hdel.
      simpl in Hdel. destruct (json_get "chain" e) as [c|] eqn:Hce; simpl in Hdel; [|done].
      destruct (chain_key c) as [k'|] eqn:Hk'; [|done]. apply bool_decide_eq_true in Hdel as ->.
      unfold field_is in *. apply str_is_Some in Hn. apply str_is_Some.
      unfold chain_key in Hk, Hk'. rewrite Hn in Hk.
      destruct (str_field "family" c'), (str_field "table" c'), (str_field "family" c),
        (str_field "table" c), (str_field "name" c); simplify_eq/=; congruence.
  - unfold concerns. rewrite orb_true_iff. intros [Hj|Hc].
    + destruct (json_get "rule" e) as [r|] eqn:Hr; [|done]. destruct (Hrk _ _ Hin Hr) as [k Hk].
      destruct (jump_delete_Some name e r k) as (cmd & d & Hcmd & Hd & Hkd & Hcd); [done..|].
      apply existsb_exists. exists cmd. split.
      { apply list_elem_of_In, elem_of_remove_commands. eauto. }
      unfold deletes, key_matches. rewrite Hd, Hcd, Hkd, Hr. simpl. rewrite Hk.
      by rewrite bool_decide_eq_true_2.
    + destruct (json_get "chain" e) as [c|] eqn:Hce; [|done]. destruct (Hck _ _ Hin Hce) as [k Hk].
      destruct (chain_delete_Some name e c k) as (cmd & d & Hcmd & Hd & Hkd & Hrd); [done..|].
      apply existsb_exists. exists cmd. split.
      { apply list_elem_of_In, elem_of_remove_commands. eauto. }
      unfold deletes, key_matches. rewrite Hd, Hrd, Hkd, Hce. simpl. rewrite Hk.
      by rewrite bool_decide_eq_true_2.
Qed.

(** C32: the batch that removes a chain deletes the chain in every family and table and
    every rule that jumps to it, and no other entry of the ruleset: what is left is
    the ruleset without the entries that concern the chain, and the chains of two
    different VMs have different names. *)
Theorem remove_chain_exact m rs name vm vm' :
  ruleset_wf rs →
  apply_deletes (remove_chain_commands rs name) rs = List.filter (λ e, negb (concerns name e)) rs ∧
  (vm_nat_chain m vm = vm_nat_chain m vm' → vm = vm') ∧
  (vm_filter_chain m vm = vm_filter_chain m vm' → vm = vm') ∧
  vm_nat_chain m vm ≠ vm_filter_chain m vm'.
Proof.
  intros Hwf. split; [|apply vm_chain_inj]. unfold apply_deletes.
  apply List.filter_ext_in. intros e Hin. f_equal. by apply deletes_concerns, list_elem_of_In.
Qed.
End teardown.

Lemma remove_chain_exact_witness :
  let rs := demo_ruleset ++ [demo_listed (add_chain "ip" "nat" "aleph-vm-nat-vm1");
    demo_listed (add_rule "ip" "nat" "aleph-supervisor-nat" (jump_expr "aleph-vm-nat-vm1"))] in
  length (apply_deletes (remove_chain_commands rs "aleph-vm-nat-vm1") rs) = 4%nat.
Proof.
  intros rs. assert (ruleset_wf rs) as Hwf.
  { split_and!.
    - intros e r Hin. apply list_elem_of_In in Hin. simpl in Hin.
      repeat destruct Hin as [<-|Hin]; simpl; intros Hc; simplify_eq/=; try done; by eexists.
    - intros e c Hin. apply list_elem_of_In in Hin. simpl in Hin.
      repeat destruct Hin as [<-|Hin]; simpl; intros Hc; simplify_eq/=; try done; by eexists.
    - intros e e' r r' k Hin Hin'. apply list_elem_of_In in Hin, Hin'. simpl in Hin, Hin'.
      intros Hr Hr' _ _. repeat destruct Hin as [<-|Hin]; simpl in Hr; simplify_eq/=; try done;
        repeat destruct Hin' as [<-|Hin']; simpl in Hr'; simplify_eq/=; done. }
  rewrite (proj1 (remove_chain_exact demo_nft rs "aleph-vm-nat-vm1" "vm1" "vm1" Hwf)).
  vm_compute. reflexivity.
Defined.
