(* ===== verification/Crypto.v ===== *)
(** * Cryptography and certificates

    The third-party code the attestation crates call: the crate [sev] (the layout of an
    SEV-SNP report), OpenSSL, SHA-384, the DER octet string of the crate [der],
    x509-parser, rcgen, and the web client that talks to AMD's key server. Each is a class
    whose laws are what its documentation promises. A fallible call of such code returns
    [string + A], the text of its error or a value. *)


From S2P Require Import Prelude Strs Host Json Types.

(** ** Bytes *)

(** [v[a..b]] of a slice that is long enough. *)
Definition slice (a b : nat) (v : bytes) : bytes := take (b - a) (drop a v).

(** The integer a big-endian or little-endian byte string stands for. *)
Definition be_value (b : bytes) : Z := foldl (λ acc x, acc * 256 + u8 x) 0 b.
Definition le_value (b : bytes) : Z := be_value (reverse b).

(** [String::from_utf8] and [as_bytes]: strings are byte strings here. *)
Definition to_bytes (s : string) : bytes := Stdlib.Strings.String.list_byte_of_string s.
Definition of_bytes (b : bytes) : string := Stdlib.Strings.String.string_of_list_byte b.

(** A byte buffer of 64 zeros whose first bytes are overwritten. *)
Definition pad64 (b : bytes) : bytes := b ++ replicate (64 - length b) x00.

(** A third-party call that failed, as an [anyhow::Error], and under a context. *)
Definition ext {A} (r : string + A) : result error A :=
  match r with inl e => Err (mk_error e []) | inr a => Ok a end.
Definition ext_ctx {A} (msg : string) (r : string + A) : result error A := context msg (ext r).

(** ** The crate sev *)

Record TcbVersion := mk_tcb { bootloader : Z; tcb_tee : Z; snp : Z; microcode : Z }.
Record SevAttestationReport := mk_sev_report {
  guest_svn : Z;
  vmpl : Z;
  sev_report_data : bytes;
  sev_measurement : bytes;
  chip_id : bytes;
  reported_tcb : TcbVersion;
}.

(** Parsing, with the offsets of the report format (AMD 56860, table 23). *)
Class SevCrate := {
  sev_from_bytes : bytes → string + SevAttestationReport;
  sev_vmpl_at raw r : sev_from_bytes raw = inr r → vmpl r = le_value (slice 0x30 0x34 raw);
  sev_report_data_at raw r :
    sev_from_bytes raw = inr r → sev_report_data r = slice 0x50 0x90 raw;
  sev_measurement_at raw r :
    sev_from_bytes raw = inr r → sev_measurement r = slice 0x90 0xC0 raw;
  sev_chip_id_at raw r : sev_from_bytes raw = inr r → chip_id r = slice 0x1A0 0x1E0 raw;
}.

(** ** SHA-384, the crate sha2 *)

Class Sha2 := {
  sha384 : bytes → bytes;
  sha384_length b : length (sha384 b) = 48%nat;
}.

(** ** OpenSSL *)

Inductive Nid := COMMONNAME | ORGANIZATIONNAME.

Class OpenSsl := {
  X509 : Type; PKey : Type; EcKey : Type; X509Name : Type; Asn1String : Type;
  BigNum : Type; EcdsaSig : Type;
  x509_from_der : bytes → string + X509;
  x509_to_der : X509 → string + bytes;
  x509_stack_from_pem : bytes → string + list X509;
  x509_public_key : X509 → string + PKey;
  (** is the certificate's signature one by this key? *)
  x509_verify : X509 → PKey → string + bool;
  x509_subject_name : X509 → X509Name;
  x509_issuer_name : X509 → X509Name;
  entries_by_nid : Nid → X509Name → list Asn1String;
  asn1_as_utf8 : Asn1String → string + string;
  name_to_der : X509Name → string + bytes;
  pkey_ec_key : PKey → string + EcKey;
  bn_from_slice : bytes → string + BigNum;
  bn_value : BigNum → Z;
  bn_from_slice_value b n : bn_from_slice b = inr n → bn_value n = be_value b;
  ecdsa_from_components : BigNum → BigNum → string + EcdsaSig;
  ecdsa_verify : EcdsaSig → bytes → EcKey → string + bool;
  ssl_sha384 : bytes → string + bytes;
}.

(** OpenSSL's SHA-384 and the crate sha2's are the same function. *)
Class SameSha `{Sha2, OpenSsl} : Prop :=
  ssl_sha384_eq : ∀ b d, ssl_sha384 b = inr d → d = sha384 b.

(** ** DER octet strings, the crate der *)

(** [OctetStringRef::new(b)] followed by [to_der], and [from_der] followed by [as_bytes].
    Lengths below 2{^28} are supported. *)
Class DerOctets := {
  OctetString : Type;
  octets_new : bytes → string + OctetString;
  octets_to_der : OctetString → string + bytes;
  octets_from_der : bytes → string + OctetString;
  octets_bytes : OctetString → bytes;
  octets_new_ok b : (Z.of_nat (length b) < 2 ^ 28)%Z →
    ∃ o d, octets_new b = inr o ∧ octets_to_der o = inr d;
  octets_new_bytes b o : octets_new b = inr o → octets_bytes o = b;
  octets_from_to_der o d : octets_to_der o = inr d → octets_from_der d = inr o;
}.

(** ** x509-parser and rcgen *)

Class X509Parser := {
  Oid : Type;
  oid_eq_dec :: EqDecision Oid;
  oid_from : list Z → string + Oid;
  ParsedCert : Type;
  parse_x509_certificate : bytes → string + ParsedCert;
  cert_extensions : ParsedCert → list (Oid * bytes);
  (** the bits of [subject_pki.subject_public_key] *)
  cert_public_key : ParsedCert → bytes;
  oid_from_ok a b l : (0 ≤ a ≤ 2)%Z → (0 ≤ b < 40)%Z → ∃ o, oid_from (a :: b :: l) = inr o;
  oid_from_inj l l' o : oid_from l = inr o → oid_from l' = inr o → l = l';
}.

(** Extensions of the standard arc 2.5.29, the only ones rcgen adds by itself. *)
Definition standard_extension `{X509Parser} (e : Oid * bytes) : Prop :=
  ∃ l, oid_from (2 :: 5 :: 29 :: l) = inr e.1.

Class Rcgen `{X509Parser} (W : Type) := {
  KeyPair : Type;
  CertificateParams : Type;
  generate_p384 : W → (string + KeyPair) * W;
  public_key_raw : KeyPair → bytes;
  serialize_der : KeyPair → bytes;
  params_new : list string → string + CertificateParams;
  (** a self-signed certificate with custom extensions (arcs and content) *)
  self_signed : CertificateParams → list (list Z * bytes) → KeyPair → string + bytes;
  self_signed_parses p es k der : self_signed p es k = inr der →
    ∃ c pre custom post,
      parse_x509_certificate der = inr c ∧
      cert_public_key c = public_key_raw k ∧
      cert_extensions c = pre ++ custom ++ post ∧
      Forall standard_extension pre ∧ Forall standard_extension post ∧
      Forall2 (λ e x, oid_from e.1 = inr x.1 ∧ x.2 = e.2) es custom;
}.

(** ** The web client and the environment *)

Record WebResponse := mk_response { rs_status : Z; rs_body : string + bytes }.

(** [StatusCode::is_success]. *)
Definition is_success (r : WebResponse) : bool := (200 <=? rs_status r) && (rs_status r <? 300).

Class Web (W : Type) := {
  web_get : string → W → (string + WebResponse) * W;
  status_display : Z → string;
  (** [std::env::var], [None] also for a value that is not UTF-8 *)
  env_var : string → W → option string;
}.

(** Run a fallible call of third-party code that has effects. *)
Definition run_ext {W A} (msg : string) (op : W → (string + A) * W) : M W error A := λ w,
  let '(r, w') := op w in (ext_ctx msg r, w').

(** The same with [?] alone: the error becomes an [anyhow::Error]. *)
Definition run_q {W A} (op : W → (string + A) * W) : M W error A := λ w,
  match op w with
  | (inl e, w') => (Err (mk_error e []), w')
  | (inr a, w') => (Ok a, w')
  end.

Lemma wp_run_ext {W A} msg (op : W → (string + A) * W) (Q : result error A → W → Prop) w :
  (∀ a w', op w = (inr a, w') → Q (Ok a) w') →
  (∀ e w', op w = (inl e, w') → Q (Err (add_context msg (mk_error e []))) w') →
  wp (run_ext msg op) Q w.
Proof.
  intros Ha He. unfold wp, run_ext.
  destruct (op w) as [[e|a] w'] eqn:Ho; simpl; [by apply He|by apply Ha].
Qed.

(** ** Lemmas *)

Lemma ext_ctx_Ok {A} msg (r : string + A) a : ext_ctx msg r = Ok a ↔ r = inr a.
Proof. unfold ext_ctx, ext, context. destruct r; naive_solver. Qed.

Lemma ext_ctx_no_panic {A} msg (r : string + A) p : ext_ctx msg r ≠ Panic p.
Proof. by destruct r. Qed.

Lemma of_to_bytes s : of_bytes (to_bytes s) = s.
Proof. apply Stdlib.Strings.String.string_of_list_byte_of_string. Qed.

Lemma to_of_bytes b : to_bytes (of_bytes b) = b.
Proof. apply Stdlib.Strings.String.list_byte_of_string_of_list_byte. Qed.

Lemma u8_range b : 0 ≤ u8 b < 256.
Proof. unfold u8. pose proof (Byte.to_N_bounded b). lia. Qed.

Lemma slice_length a b v : (b ≤ length v)%nat → length (slice a b v) = (b - a)%nat.
Proof. intros. unfold slice. rewrite length_take, length_drop. lia. Qed.

Lemma be_value_app_one b x : be_value (b ++ [x]) = be_value b * 256 + u8 x.
Proof. unfold be_value. by rewrite foldl_app. Qed.

Lemma foldl_be_zeros n acc b :
  acc = 0 → foldl (λ acc x, acc * 256 + u8 x) acc (replicate n x00 ++ b) = be_value b.
Proof. revert acc. induction n as [|n IH]; intros acc ->; [done|]. simpl. by apply IH. Qed.

(** Leading zeros do not count. *)
Lemma be_value_zeros n b : be_value (replicate n x00 ++ b) = be_value b.
Proof. by apply foldl_be_zeros. Qed.

Lemma be_value_nonneg b : 0 ≤ be_value b.
Proof.
  induction b as [|x b IH] using rev_ind; [done|].
  rewrite be_value_app_one. pose proof (u8_range x). lia.
Qed.

Lemma be_value_bound b : be_value b < 256 ^ Z.of_nat (length b).
Proof.
  induction b as [|x b IH] using rev_ind; [done|].
  rewrite be_value_app_one, length_app. simpl.
  rewrite Nat2Z.inj_add, Z.pow_add_r by lia. pose proof (u8_range x). lia.
Qed.

Lemma pad64_length b : (length b ≤ 64)%nat → length (pad64 b) = 64%nat.
Proof. intros. unfold pad64. rewrite length_app, length_replicate. lia. Qed.

Lemma pad64_sha384 `{Sha2} b : length (pad64 (sha384 b)) = 64%nat.
Proof. apply pad64_length. rewrite sha384_length. lia. Qed.

(** Pure calls that never panic, along the structure of the code. *)
Definition no_panic {E A} (r : result E A) : Prop := ∀ p, r ≠ Panic p.

Section no_panic.
Lemma no_panic_Ok {E A} (a : A) : no_panic (Ok a : result E A).
Proof. by intros p. Qed.

Lemma no_panic_Err {E A} (e : E) : no_panic (Err e : result E A).
Proof. by intros p. Qed.

Lemma no_panic_bind {E A B} (r : result E A) (f : A → result E B) :
  no_panic r → (∀ a, no_panic (f a)) → no_panic (r ≫= f).
Proof. intros Hr Hf p. destruct r as [a|e|q]; [apply Hf|done|by destruct (Hr q)]. Qed.

Lemma no_panic_context {A} msg (r : result error A) : no_panic r → no_panic (context msg r).
Proof. intros Hr p. destruct r as [a|e|q]; [done..|by destruct (Hr q)]. Qed.

Lemma no_panic_ext_ctx {A} msg (r : string + A) : no_panic (ext_ctx msg r).
Proof. intros p. apply ext_ctx_no_panic. Qed.

Lemma no_panic_ok_or {A} (e : error) (o : option A) : no_panic (ok_or e o).
Proof. intros p. by destruct o. Qed.
End no_panic.

Create HintDb panics.
#[global] Hint Resolve no_panic_Ok no_panic_Err no_panic_context no_panic_ext_ctx
  no_panic_ok_or : panics.

(** Prove [no_panic] of a chain of calls. *)
Ltac no_panic_tac :=
  repeat first
    [ solve [eauto with panics] | apply no_panic_context | apply no_panic_bind; [|intros]
    | apply no_panic_Err | progress case_match ].
