(* ===== verification/Http.v ===== *)
(** * HTTP responses

    What the handlers of the two HTTP servers (actix-web) answer. *)

From S2P Require Import Prelude Strs Json Types.

Inductive http_body := BJson (j : json) | BBytes (b : bytes).

(** A response: [headers] is what the calls of [insert_header] leave, one value a name. *)
Record HttpResponse := mk_http {
  http_status : Z;
  http_headers : gmap string string;
  http_content : http_body;
}.

(** [HttpResponse::Xyz().json(j)]. *)
Definition respond (status : Z) (j : json) : HttpResponse := mk_http status ∅ (BJson j).
Definition error_json (msg : string) : json := JObj [("error"%string, JStr msg)].

(** [{e:#}] of an [anyhow::Error]: the chain on one line. *)
Definition display_chain (e : error) : string := join ": " (err_msg e :: err_causes e).
