(* ===== verification/X509.v ===== *)
(** * The attestation extension of a certificate

    [src/crates/aleph-tee/src/x509.rs]: an attestation report as JSON in a DER octet
    string, stored in a certificate under an object identifier of the project. *)

From S2P Require Import Prelude Strs Json Types Crypto.

Definition ATTESTATION_OID : list Z := [1; 3; 6; 1; 4; 1; 60000; 1; 1].

(** What [map_err(|e| anyhow!("prefix: {e}"))] makes of the error of third-party code. *)
Definition ext_prefix {A} (prefix : string) (r : string + A) : result error A :=
  match r with inl e => bail (prefix ++ e)%str | inr a => Ok a end.

Section x509.
Context `{Hex, SerdeJson, DerOctets}.

Definition encode_attestation_extension (report : AttestationReport) : result error bytes :=
  let json_bytes := to_bytes (json_print (report_json report)) in
  octet_string ← ext_prefix "failed to create OctetString: " (octets_new json_bytes);
  ext_prefix "failed to encode OctetString to DER: " (octets_to_der octet_string).

Definition decode_attestation_extension (der_bytes : bytes) : result error AttestationReport :=
  octet_string ← ext_prefix "failed to parse DER OctetString: " (octets_from_der der_bytes);
  let json_bytes := octets_bytes octet_string in
  ok_or (mk_error "failed to deserialize AttestationReport from JSON" [])
    (json_parse (of_bytes json_bytes) ≫= report_of_json).

(** The loop over the extensions: the first one with our identifier decides. *)
Fixpoint find_attestation `{X509Parser} (target_oid : Oid) (exts : list (Oid * bytes))
    : result error (option AttestationReport) :=
  match exts with
  | [] => Ok None
  | (o, value) :: exts' =>
      if decide (o = target_oid) then
        report ← context "failed to decode attestation extension"
                   (decode_attestation_extension value);
        Ok (Some report)
      else find_attestation target_oid exts'
  end.

Definition extract_attestation_from_cert `{X509Parser} (cert_der : bytes)
    : result error (option AttestationReport) :=
  cert ← ext_prefix "failed to parse X.509 certificate: " (parse_x509_certificate cert_der);
  target_oid ← ext_prefix "failed to construct OID: " (oid_from ATTESTATION_OID);
  find_attestation target_oid (cert_extensions cert).

(** ** Encoding and decoding *)

(** A report whose JSON form an octet string can hold. *)
Definition encodable (r : AttestationReport) : Prop :=
  length (ar_report_data r) = 64%nat ∧
  Z.of_nat (length (to_bytes (json_print (report_json r)))) < 2 ^ 28.

Lemma decode_of_encode r d :
  length (ar_report_data r) = 64%nat → encode_attestation_extension r = Ok d →
  decode_attestation_extension d = Ok r.
Proof.
  unfold encode_attestation_extension, decode_attestation_extension. intros Hl He.
  destruct (octets_new _) as [|o] eqn:Ho; [done|]. simpl in He.
  destruct (octets_to_der o) as [|d'] eqn:Hd; [done|]. injection He as ->.
  rewrite (octets_from_to_der _ _ Hd). simpl.
  rewrite (octets_new_bytes _ _ Ho), of_to_bytes, json_parse_print. simpl.
  by rewrite report_of_to_json.
Qed.

Lemma decode_encode r :
  encodable r →
  ∃ d, encode_attestation_extension r = Ok d ∧ decode_attestation_extension d = Ok r.
Proof.
  intros [Hl Hlen]. destruct (octets_new_ok _ Hlen) as (o & d & Ho & Hd). exists d.
  assert (encode_attestation_extension r = Ok d) as He.
  { unfold encode_attestation_extension. rewrite Ho. simpl. by rewrite Hd. }
  split; [done|]. by apply decode_of_encode.
Qed.

Lemma decode_report_length d r :
  decode_attestation_extension d = Ok r → length (ar_report_data r) = 64%nat.
Proof.
  unfold decode_attestation_extension. destruct (octets_from_der d) as [e|o]; [done|]. simpl.
  destruct (json_parse _) as [v|]; [|done]. simpl.
  destruct (report_of_json v) eqn:Hv; [|done]. intros [= <-].
  by apply report_of_json_length in Hv.
Qed.

Lemma decode_no_panic d p : decode_attestation_extension d ≠ Panic p.
Proof.
  unfold decode_attestation_extension. destruct (octets_from_der d) as [e|o]; [done|]. simpl.
  by destruct (json_parse _ ≫= _).
Qed.

(** ** Finding the extension *)

Section find.
Context `{X509Parser}.

Lemma find_attestation_skip o pre exts :
  Forall (λ e, e.1 ≠ o) pre → find_attestation o (pre ++ exts) = find_attestation o exts.
Proof.
  induction 1 as [|[o' v] pre Ho _ IH]; [done|]. simpl in *.
  by rewrite decide_False.
Qed.

Lemma find_attestation_Ok_Some o exts r :
  find_attestation o exts = Ok (Some r) →
  ∃ v, (o, v) ∈ exts ∧ decode_attestation_extension v = Ok r.
Proof.
  induction exts as [|[o' v] exts IH]; [done|]. simpl. case_decide as Ho.
  - subst o'. intros Hr. exists v. split; [by left|].
    destruct (decode_attestation_extension v); simpl in Hr; by simplify_eq.
  - intros Hr. destruct (IH Hr) as (v' & Hin & Hd). exists v'. split; [by right|done].
Qed.

Lemma find_attestation_no_panic o exts p : find_attestation o exts ≠ Panic p.
Proof.
  induction exts as [|[o' v] exts IH]; [done|]. simpl. case_decide; [|done].
  destruct (decode_attestation_extension v) eqn:Hv; try done.
  by apply decode_no_panic in Hv.
Qed.

Lemma oid_attestation : ∃ o, oid_from ATTESTATION_OID = inr o.
Proof. apply oid_from_ok; lia. Qed.

(** The standard extensions are not ours. *)
Lemma standard_not_attestation o e :
  oid_from ATTESTATION_OID = inr o → standard_extension e → e.1 ≠ o.
Proof.
  intros Ho [l Hl] <-. pose proof (oid_from_inj _ _ _ Ho Hl). discriminate.
Qed.

(** A certificate that carries exactly one attestation extension yields its report. *)
Lemma extract_single der c pre v post o :
  parse_x509_certificate der = inr c → oid_from ATTESTATION_OID = inr o →
  cert_extensions c = pre ++ (o, v) :: post → Forall standard_extension pre →
  extract_attestation_from_cert der =
    context "failed to decode attestation extension" (decode_attestation_extension v)
    ≫= λ r, Ok (Some r).
Proof.
  intros Hc Ho He Hpre. unfold extract_attestation_from_cert. rewrite Hc. simpl. rewrite Ho.
  simpl. rewrite He, find_attestation_skip.
  - simpl. by rewrite decide_True.
  - eapply Forall_impl; [apply Hpre|]. intros e. by apply standard_not_attestation.
Qed.

Lemma extract_no_panic der p : extract_attestation_from_cert der ≠ Panic p.
Proof.
  unfold extract_attestation_from_cert. destruct (parse_x509_certificate der); [done|].
  simpl. destruct (oid_from ATTESTATION_OID); [done|]. apply find_attestation_no_panic.
Qed.

(** What a certificate that yields a report looks like. *)
Lemma extract_Ok_Some der r :
  extract_attestation_from_cert der = Ok (Some r) →
  ∃ c o v, parse_x509_certificate der = inr c ∧ oid_from ATTESTATION_OID = inr o ∧
    (o, v) ∈ cert_extensions c ∧ decode_attestation_extension v = Ok r.
Proof.
  unfold extract_attestation_from_cert. destruct (parse_x509_certificate der) as [|c]; [done|].
  simpl. destruct (oid_from ATTESTATION_OID) as [|o]; [done|]. simpl. intros Hr.
  destruct (find_attestation_Ok_Some _ _ _ Hr) as (v & Hin & Hd). eauto 8.
Qed.
End find.
End x509.
