(* ===== verification/SevCerts.v ===== *)
(** * AMD certificates

    [src/crates/aleph-tee/src/sev_snp/certs.rs]: fetching the certificates of a chip and
    of a product line from AMD's key server through a cache on disk, and splitting a
    buffer of two DER certificates. *)

From S2P Require Import Prelude Strs Host Json Types Crypto.
#[local] Open Scope Z_scope.

Record CertChain := mk_chain { vcek_der : bytes; ask_der : bytes; ark_der : bytes }.
Record TcbParams := mk_tcb_params { bl_spl : Z; tee_spl : Z; snp_spl : Z; ucode_spl : Z }.

Definition KDS_BASE_URL : string := "https://kdsintf.amd.com/vcek/v1".

(** ** Splitting DER *)

(** The loop over the length bytes. [checked_shl(8)] fails only for a shift of 64 or more,
    so it never does here, and the bits shifted out of the [usize] are lost. *)
Definition length_step (content_len : Z) (b : byte) : Z :=
  Z.lor (wrap 64 (Z.shiftl content_len 8)) (u8 b).

Definition der_object_length (data : bytes) : result error Z :=
  match data with
  | [] => bail "empty DER data"
  | [_] => bail "DER data too short for tag + length"
  | _ :: length_byte :: rest =>
      let n := u8 length_byte in
      if Z.land n 0x80 =? 0 then Ok (2 + n)
      else
        let num_length_bytes := Z.land n 0x7F in
        if num_length_bytes =? 0 then bail "indefinite DER length not supported"
        else if Z.of_nat (length data) <? 2 + num_length_bytes then
          bail "DER data too short for length encoding"
        else
          let content_len := foldl length_step 0 (take (Z.to_nat num_length_bytes) rest) in
          Ok (wrap 64 (2 + num_length_bytes + content_len))
  end.

Definition split_der_certs (data : bytes) : result error (bytes * bytes) :=
  if (length data <? 2)%nat then bail "certificate data too short"
  else
    first_len ← context "failed to parse first certificate length" (der_object_length data);
    if Z.of_nat (length data) <? first_len then
      bail ("first certificate length (" ++ print_dec first_len ++ ") exceeds data length (" ++
            print_dec (Z.of_nat (length data)) ++ ")")%str
    else
      let first := take (Z.to_nat first_len) data in
      let second := drop (Z.to_nat first_len) data in
      if (length second =? 0)%nat then
        bail "CA chain contains only one certificate, expected two (ASK + ARK)"
      else Ok (first, second).

(** ** The cache *)

Section certs.
Context {W : Type} `{Host W, Web W, Hex, OpenSsl}.

Definition cache_dir (w : W) : option string :=
  let base := match env_var "XDG_CACHE_HOME" w with
              | Some b => Some b
              | None => (λ h, path_join h ".cache") <$> env_var "HOME" w
              end in
  (λ b, path_join (path_join b "aleph-tee") "kds") <$> base.

Definition read_cached (path : string) : M W error (option bytes) :=
  r ← attempt (run_io (host_read path));
  mret match r with
       | Ok data => if is_empty data then None else Some (to_bytes data)
       | _ => None
       end.

Definition write_cache (path : string) (data : bytes) : M W error unit :=
  match path_parent path with
  | Some parent => attempt (run_io (host_create_dir_all parent));; mret tt
  | None => mret tt
  end;;
  attempt (run_io (host_write path (of_bytes data)));; mret tt.

(** [if let Some(ref path) = cache_path]. *)
Definition read_cached_opt (path : option string) : M W error (option bytes) :=
  match path with Some p => read_cached p | None => mret None end.
Definition write_cache_opt (path : option string) (data : bytes) : M W error unit :=
  match path with Some p => write_cache p data | None => mret tt end.

(** ** Fetching *)

Definition vcek_file (chip_id_hex : string) (tcb : TcbParams) : string :=
  ("vcek_" ++ chip_id_hex ++ "_" ++ print_dec (bl_spl tcb) ++ "_" ++ print_dec (tee_spl tcb) ++
   "_" ++ print_dec (snp_spl tcb) ++ "_" ++ print_dec (ucode_spl tcb) ++ ".der")%str.
Definition vcek_path (product chip_id_hex : string) (tcb : TcbParams) (d : string) : string :=
  path_join (path_join d product) (vcek_file chip_id_hex tcb).
Definition vcek_url (product chip_id_hex : string) (tcb : TcbParams) : string :=
  (KDS_BASE_URL ++ "/" ++ product ++ "/" ++ chip_id_hex ++ "?blSPL=" ++ print_dec (bl_spl tcb) ++
   "&teeSPL=" ++ print_dec (tee_spl tcb) ++ "&snpSPL=" ++ print_dec (snp_spl tcb) ++
   "&ucodeSPL=" ++ print_dec (ucode_spl tcb))%str.

(** One GET of the key server: the body of a successful answer. [what] and [Body] are the
    words of the two error messages. *)
Definition kds_get (what body_what url : string) : M W error bytes :=
  response ← run_ext ("failed to fetch " ++ what ++ " from " ++ url)%str (web_get url);
  if negb (is_success response) then
    throw (mk_error ("AMD KDS returned HTTP " ++ status_display (rs_status response) ++ " for " ++
                     what ++ " request: " ++ url)%str [])
  else lift (ext_ctx ("failed to read " ++ body_what ++ " response body")%str (rs_body response)).

Definition fetch_vcek (product : string) (chip : bytes) (tcb : TcbParams) : M W error bytes :=
  let chip_id_hex := hex_encode chip in
  cache_path ← observe (λ w, vcek_path product chip_id_hex tcb <$> cache_dir w);
  cached ← read_cached_opt cache_path;
  match cached with
  | Some data => mret data
  | None =>
      data ← kds_get "VCEK" "VCEK" (vcek_url product chip_id_hex tcb);
      write_cache_opt cache_path data;;
      mret data
  end.

(** The body of the [cert_chain] answer as two DER certificates. *)
Definition parse_ca_chain (body : bytes) : result error (bytes * bytes) :=
  if starts_with "-----BEGIN" (of_bytes body) then
    certs ← ext_ctx "failed to parse PEM certificate chain from AMD KDS"
              (x509_stack_from_pem body);
    match certs with
    | ask :: ark :: _ =>
        ask_der ← ext_ctx "failed to convert ASK to DER" (x509_to_der ask);
        ark_der ← ext_ctx "failed to convert ARK to DER" (x509_to_der ark);
        Ok (ask_der, ark_der)
    | _ => bail ("expected 2 certificates (ASK + ARK) in CA chain, got " ++
                 print_dec (Z.of_nat (length certs)))%str
    end
  else context "failed to split CA chain into ASK and ARK certificates" (split_der_certs body).

(** Both files are read: the tuple of the pattern is evaluated before it is matched. *)
Definition read_cached_pair (paths : option (string * string)) : M W error (option (bytes * bytes)) :=
  match paths with
  | Some (ask_path, ark_path) =>
      ask ← read_cached ask_path;
      ark ← read_cached ark_path;
      mret match ask, ark with Some a, Some b => Some (a, b) | _, _ => None end
  | None => mret None
  end.

Definition fetch_ca_chain (product : string) : M W error (bytes * bytes) :=
  cache_paths ← observe (λ w, (λ d, (path_join (path_join d product) "ask.der",
                                     path_join (path_join d product) "ark.der")) <$> cache_dir w);
  cached ← read_cached_pair cache_paths;
  match cached with
  | Some ders => mret ders
  | None =>
      body ← kds_get "CA chain" "CA chain" (KDS_BASE_URL ++ "/" ++ product ++ "/cert_chain")%str;
      ders ← lift (parse_ca_chain body);
      match cache_paths with
      | Some (ask_path, ark_path) =>
          write_cache ask_path ders.1;; write_cache ark_path ders.2
      | None => mret tt
      end;;
      mret ders
  end.
End certs.

(** ** DER objects *)

(** What a definite-length encoding is: a tag, the length of the content in one byte below
    128 or in 1 to 127 big-endian bytes, and the content. *)
Inductive der_object : bytes → Prop :=
| der_short tag n content :
    u8 n = Z.of_nat (length content) → u8 n < 128 → der_object (tag :: n :: content)
| der_long tag n len content :
    u8 n = 128 + Z.of_nat (length len) → len ≠ [] → be_value len = Z.of_nat (length content) →
    der_object (tag :: n :: len ++ content).

(** No Rust slice is longer than [isize::MAX]. *)
Definition isize_max : Z := 2 ^ 63 - 1.

Lemma lor_byte k x : 0 ≤ k → 0 ≤ x < 256 → Z.lor (k * 256) x = k * 256 + x.
Proof.
  intros Hk Hx. assert (Z.land (k * 256) x = 0) as Hl.
  { apply Z.bits_inj'. intros i Hi. rewrite Z.land_spec, Z.bits_0.
    destruct (decide (i < 8)).
    - replace (k * 256) with (Z.shiftl k 8) by (rewrite Z.shiftl_mul_pow2; lia).
      by rewrite Z.shiftl_spec_low by lia.
    - rewrite (Z.bits_above_log2 x i); [apply andb_false_r|lia|].
      destruct (decide (x = 0)) as [->|]; [change (Z.log2 0) with 0; lia|].
      apply Z.log2_lt_pow2; [lia|]. apply Z.lt_le_trans with (2 ^ 8); [lia|].
      apply Z.pow_le_mono_r; lia. }
  pose proof (Z.add_lor_land (k * 256) x). lia.
Qed.

Lemma length_step_wrap v x : 0 ≤ v → length_step (wrap 64 v) x = wrap 64 (v * 256 + u8 x).
Proof.
  intros Hv. pose proof (u8_range x) as Hx. unfold length_step, wrap.
  rewrite Z.shiftl_mul_pow2 by lia. change (2 ^ 8) with 256.
  rewrite Zmult_mod_idemp_l.
  replace (2 ^ 64) with (2 ^ 56 * 256) by reflexivity.
  rewrite Zmult_mod_distr_r, lor_byte by (try apply Z.mod_pos_bound; lia).
  apply Z.mod_unique with (v / 2 ^ 56).
  - left. pose proof (Z.mod_pos_bound v (2 ^ 56)). lia.
  - rewrite (Z.div_mod v (2 ^ 56)) at 1 by lia. ring.
Qed.

(** The loop computes the big-endian value modulo 2{^64}. *)
Lemma length_loop l : foldl length_step 0 l = wrap 64 (be_value l).
Proof.
  induction l as [|x l IH] using rev_ind; [done|].
  rewrite foldl_app, be_value_app_one. simpl. rewrite IH.
  apply length_step_wrap, be_value_nonneg.
Qed.

Lemma long_form_bits n k : n = 128 + k → 0 ≤ k < 128 →
  (Z.land n 0x80 =? 0) = false ∧ Z.land n 0x7F = k.
Proof.
  intros -> Hk. split.
  - apply Z.eqb_neq. intros H0. apply (f_equal (λ x, Z.testbit x 7)) in H0.
    rewrite Z.land_spec, Z.bits_0 in H0. change (Z.testbit 0x80 7) with true in H0.
    rewrite andb_true_r in H0.
    rewrite Z.testbit_eqb in H0 by lia. apply Z.eqb_neq in H0. apply H0.
    change (2 ^ 7) with 128. assert ((128 + k) / 128 = 1) as ->; [|done].
    symmetry. apply Z.div_unique with k; lia.
  - change 0x7F with (Z.ones 7). rewrite Z.land_ones by lia. change (2 ^ 7) with 128.
    symmetry. apply Z.mod_unique with 1; lia.
Qed.

Lemma short_form_bits n : 0 ≤ n < 128 → (Z.land n 0x80 =? 0) = true.
Proof.
  intros Hn. apply Z.eqb_eq, Z.bits_inj'. intros i Hi. rewrite Z.land_spec, Z.bits_0.
  change 0x80 with (2 ^ 7). destruct (decide (i = 7)) as [->|].
  - replace (Z.testbit n 7) with false; [done|]. symmetry.
    destruct (decide (n = 0)) as [->|]; [done|].
    apply Z.bits_above_log2; [lia|]. apply Z.log2_lt_pow2; lia.
  - rewrite Z.pow2_bits_false by lia. apply andb_false_r.
Qed.

(** The long form in general: the length read is the one written, modulo 2{^64}. *)
Lemma der_object_length_long tag n l rest :
  u8 n = 128 + Z.of_nat (length l) → l ≠ [] →
  der_object_length (tag :: n :: l ++ rest) =
    Ok (wrap 64 (2 + Z.of_nat (length l) + wrap 64 (be_value l))).
Proof.
  intros Hn Hl. pose proof (u8_range n) as Hr.
  destruct (long_form_bits _ _ Hn) as [Hb Hk]; [lia|].
  cbn [app der_object_length]. rewrite Hb, Hk.
  destruct (Z.eqb_spec (Z.of_nat (length l)) 0) as [H0|_]; [by destruct l|].
  simpl length. rewrite length_app, (proj2 (Z.ltb_ge _ _)) by lia.
  by rewrite Nat2Z.id, take_app_length, length_loop.
Qed.

(** The length of an object is found whatever follows it. *)
Lemma der_object_length_exact a b :
  der_object a → Z.of_nat (length (a ++ b)) ≤ isize_max →
  der_object_length (a ++ b) = Ok (Z.of_nat (length a)).
Proof.
  intros Ha Hmax. unfold isize_max in Hmax. destruct Ha as [tag n c Hn Hs|tag n l c Hn Hl Hv].
  - simpl. rewrite short_form_bits by (pose proof (u8_range n); lia). f_equal. lia.
  - cbn [app]. rewrite <-app_assoc, der_object_length_long, Hv by done.
    simpl in Hmax. rewrite !length_app in Hmax. simpl length. rewrite !length_app.
    unfold wrap. f_equal. rewrite (Z.mod_small (Z.of_nat (length c))) by lia.
    rewrite Z.mod_small; lia.
Qed.

Lemma der_object_length_min a : der_object a → (2 ≤ length a)%nat.
Proof. destruct 1; simpl; lia. Qed.

Lemma split_der_app a b :
  der_object a → b ≠ [] → Z.of_nat (length (a ++ b)) ≤ isize_max →
  split_der_certs (a ++ b) = Ok (a, b).
Proof.
  intros Ha Hb Hmax. pose proof (der_object_length_min a Ha). unfold split_der_certs.
  rewrite (proj2 (Nat.ltb_ge _ _)) by (rewrite length_app; lia).
  rewrite der_object_length_exact by done. simpl.
  rewrite (proj2 (Z.ltb_ge _ _)) by (rewrite length_app; lia).
  rewrite Nat2Z.id, take_app_length, drop_app_length. by destruct b.
Qed.

Lemma split_der_single a :
  der_object a → Z.of_nat (length a) ≤ isize_max → ∃ e, split_der_certs a = Err e.
Proof.
  intros Ha Hmax. pose proof (der_object_length_min a Ha). unfold split_der_certs.
  rewrite (proj2 (Nat.ltb_ge _ _)) by lia.
  pose proof (der_object_length_exact a [] Ha) as Hd. rewrite app_nil_r in Hd.
  rewrite Hd by done. simpl. rewrite Z.ltb_irrefl, Nat2Z.id, drop_all. simpl. eauto.
Qed.

Lemma split_der_Ok d a b : split_der_certs d = Ok (a, b) → d = a ++ b ∧ b ≠ [].
Proof.
  unfold split_der_certs. case_match; [done|].
  destruct (der_object_length d) as [n|e|p]; simpl; try done.
  case_match; [done|]. case_match eqn:Hd; [done|]. intros [= <- <-].
  rewrite take_drop. split; [done|]. intros He. rewrite He in Hd. done.
Qed.

Lemma split_der_no_panic d p : split_der_certs d ≠ Panic p.
Proof.
  unfold split_der_certs. case_match; [done|].
  destruct (der_object_length d) as [n|e|q] eqn:Hn; simpl; try done.
  - repeat case_match; done.
  - destruct d as [|x [|y d]]; simpl in Hn; try done. repeat case_match; done.
Qed.

(** Two certificates one after the other are split where the first ends, in short and in
    long form; whatever is split is the input again and the second part is not empty; a
    buffer with one certificate is refused. A declared length of 2{^64} or more is not
    refused as an overflow but read modulo 2{^64}. *)
Theorem split_der_exact :
  (∀ a b, der_object a → b ≠ [] → Z.of_nat (length (a ++ b)) ≤ isize_max →
     split_der_certs (a ++ b) = Ok (a, b)) ∧
  (∀ a, der_object a → Z.of_nat (length a) ≤ isize_max → ∃ e, split_der_certs a = Err e) ∧
  (∀ d a b, split_der_certs d = Ok (a, b) → d = a ++ b ∧ b ≠ []) ∧
  (∀ d p, split_der_certs d ≠ Panic p) ∧
  (∀ tag n l rest, u8 n = 128 + Z.of_nat (length l) → l ≠ [] →
     2 ^ 64 ≤ be_value l < 2 ^ 64 + 2 ^ 32 →
     der_object_length (tag :: n :: l ++ rest) =
       Ok (2 + Z.of_nat (length l) + (be_value l - 2 ^ 64))).
Proof.
  split_and!; [apply split_der_app|apply split_der_single|apply split_der_Ok|
               apply split_der_no_panic|].
  intros tag n l rest Hn Hl Hv. rewrite der_object_length_long by done.
  pose proof (u8_range n). unfold wrap. f_equal.
  assert (be_value l mod 2 ^ 64 = be_value l - 2 ^ 64) as ->.
  { symmetry. apply Z.mod_unique with 1; lia. }
  rewrite Z.mod_small; lia.
Qed.

(** The buffer of the source's unit test, and a length of 2{^64} + 5. *)
Lemma split_der_exact_witness :
  let d1 := [x30; x03; xaa; xbb; xcc] in
  let d2 := [x30; x02; xdd; xee] in
  split_der_certs (d1 ++ d2) = Ok (d1, d2) ∧
  der_object_length (x30 :: x89 :: [x01; x00; x00; x00; x00; x00; x00; x00; x05] ++ []) = Ok 16.
Proof.
  pose proof split_der_exact as (Happ & _ & _ & _ & Hbig). split.
  - apply Happ; [by apply der_short|done|vm_compute; discriminate].
  - rewrite Hbig; [reflexivity|reflexivity|done|vm_compute; split; congruence].
Defined.

(** ** What fetching does *)

Section fetch_facts.
Context {W : Type} `{Host W, Web W, Hex, OpenSsl}.

Lemma total_run_ext {A} msg (op : W → (string + A) * W) : total (run_ext msg op).
Proof. intros w p. unfold run_ext. destruct (op w) as [r w']. apply ext_ctx_no_panic. Qed.

Lemma total_read_cached path : total (read_cached path : M W error _).
Proof. unfold read_cached. total_tac. Qed.

Lemma total_write_cache path data : total (write_cache path data : M W error _).
Proof. unfold write_cache. total_tac. Qed.

Lemma parse_ca_chain_no_panic body p : parse_ca_chain body ≠ Panic p.
Proof.
  unfold parse_ca_chain. case_match.
  - destruct (x509_stack_from_pem body) as [e|[|ask [|ark cs]]]; simpl; try done.
    unfold ext_ctx. destruct (x509_to_der ask); simpl; [done|]. by destruct (x509_to_der ark).
  - destruct (split_der_certs body) eqn:Hs; simpl; try done. by apply split_der_no_panic in Hs.
Qed.

Lemma total_observe {A} (f : W → A) : total (observe f : M W error A).
Proof. by intros w p. Qed.

Lemma total_kds_get what body_what url : total (kds_get what body_what url : M W error _).
Proof.
  unfold kds_get. apply total_bind; [apply total_run_ext|]. intros r.
  case_match; [apply total_throw|]. apply total_lift. intros p. apply ext_ctx_no_panic.
Qed.

Lemma total_fetch_vcek product chip tcb : total (fetch_vcek product chip tcb : M W error _).
Proof.
  unfold fetch_vcek, read_cached_opt, write_cache_opt.
  apply total_bind; [apply total_observe|]. intros [path|].
  - apply total_bind; [apply total_read_cached|]. intros [d|]; [apply total_ret|].
    apply total_bind; [apply total_kds_get|]. intros d.
    apply total_bind; [apply total_write_cache|]. intros _. apply total_ret.
  - apply total_bind; [apply total_ret|]. intros [d|]; [apply total_ret|].
    apply total_bind; [apply total_kds_get|]. intros d.
    apply total_bind; [apply total_ret|]. intros _. apply total_ret.
Qed.

Lemma total_read_cached_pair paths : total (read_cached_pair paths : M W error _).
Proof.
  destruct paths as [[p q]|]; [|apply total_ret].
  apply total_bind; [apply total_read_cached|]. intros o.
  apply total_bind; [apply total_read_cached|]. intros o'. apply total_ret.
Qed.

Lemma total_fetch_ca_chain product : total (fetch_ca_chain product : M W error _).
Proof.
  unfold fetch_ca_chain. apply total_bind; [apply total_observe|]. intros paths.
  apply total_bind; [apply total_read_cached_pair|]. intros [d|]; [apply total_ret|].
  apply total_bind; [apply total_kds_get|]. intros body.
  apply total_bind; [apply total_lift, parse_ca_chain_no_panic|]. intros ders.
  apply total_bind; [|intros _; apply total_ret].
  destruct paths as [[p q]|]; [|apply total_ret].
  apply total_bind; [apply total_write_cache|]. intros _. apply total_write_cache.
Qed.

Lemma read_cached_Ok path w s w' :
  host_read path w = (inr s, w') →
  (read_cached path : M W error _) w = (Ok (if is_empty s then None else Some (to_bytes s)), w').
Proof. intros Hr. unfold read_cached, attempt, run_io, mbind, M_bind. by rewrite Hr. Qed.

Lemma read_cached_Err path w e w' :
  host_read path w = (inl e, w') → (read_cached path : M W error _) w = (Ok None, w').
Proof. intros Hr. unfold read_cached, attempt, run_io, mbind, M_bind. by rewrite Hr. Qed.

(** Failing to cache is not an error. *)
Lemma write_cache_never_fails path data w :
  (write_cache path data : M W error _) w =
    (Ok tt, ((write_cache path data : M W error _) w).2).
Proof.
  unfold write_cache, mbind, M_bind, attempt, run_io, mret, M_ret. repeat case_match; naive_solver.
Qed.

(** A cached file that is not empty is the answer, whatever it holds; the key server is not
    asked and the file stays. *)
Lemma fetch_vcek_cached product chip tcb d s w w' :
  cache_dir w = Some d → host_read (vcek_path product (hex_encode chip) tcb d) w = (inr s, w') →
  s ≠ "" → (fetch_vcek product chip tcb : M W error _) w = (Ok (to_bytes s), w').
Proof.
  intros Hd Hr Hs. unfold fetch_vcek.
  erewrite bind_Ok by done. rewrite Hd. simpl.
  rewrite (bind_Ok _ _ _ _ _ (read_cached_Ok _ _ _ _ Hr)). by destruct s.
Qed.

(** Otherwise the body of a successful answer is stored before anyone looks at it. *)
Lemma fetch_vcek_stores product chip tcb d resp body e w w1 w2 :
  cache_dir w = Some d →
  host_read (vcek_path product (hex_encode chip) tcb d) w = (inl e, w1) →
  web_get (vcek_url product (hex_encode chip) tcb) w1 = (inr resp, w2) →
  is_success resp = true → rs_body resp = inr body →
  (fetch_vcek product chip tcb : M W error _) w =
    (Ok body, ((write_cache (vcek_path product (hex_encode chip) tcb d) body : M W error _) w2).2).
Proof.
  intros Hd Hr Hw Hs Hb. unfold fetch_vcek.
  erewrite bind_Ok by done. rewrite Hd. simpl.
  rewrite (bind_Ok _ _ _ _ _ (read_cached_Err _ _ _ _ Hr)).
  erewrite bind_Ok; [|unfold kds_get; erewrite bind_Ok; [|unfold run_ext; by rewrite Hw];
    by rewrite Hs, Hb].
  erewrite bind_Ok; [done|]. apply write_cache_never_fails.
Qed.
End fetch_facts.
