(* ===== verification/Tee.v ===== *)
(** * TEE backends

    [src/crates/aleph-tee/src/traits.rs], [none.rs] and [sev_snp/qemu.rs]: the trait
    [TeeBackend] as a record of operations, the backend of VMs without a TEE, and the
    QEMU arguments of an SEV-SNP guest. The attestation half of the SEV-SNP backend is
    in the files [X509], [SevCerts] and [SevVerify]. *)

From S2P Require Import Prelude Strs Host Json Types.

(** The trait [TeeBackend]: the operations a manager or an agent may call. *)
Record TeeBackend (W : Type) := mk_backend {
  tee_type : TeeType;
  get_report : bytes → M W error AttestationReport;
  verify_report : AttestationReport → M W error VerificationResult;
  qemu_args : VmConfig → list string;
  parse_report : bytes → result error AttestationReport;
}.
Arguments mk_backend {W}.
Arguments tee_type {W}.
Arguments get_report {W}.
Arguments verify_report {W}.
Arguments qemu_args {W}.
Arguments parse_report {W}.

(** ** No TEE *)

Definition not_in_tee : error :=
  mk_error "attestation not available: VM is not running in a TEE" [].

Definition no_tee_backend (W : Type) : TeeBackend W :=
  mk_backend TeeNone (λ _, throw not_in_tee) (λ _, throw not_in_tee)
    (λ _, ["-cpu"; "host"]%string) (λ _, Err not_in_tee).

(** ** QEMU arguments of an SEV-SNP guest *)

Definition DEFAULT_POLICY : string := "0x30000".
Definition DEFAULT_OVMF_PATH : string := "/usr/local/share/ovmf-snp/OVMF.fd".

Definition memfd_opts (config : VmConfig) : string :=
  let hugetlb_opts := match hugepage_size config with
                      | Some Size1G => ",hugetlb=on,hugetlbsize=1G"
                      | Some Size2M => ",hugetlb=on,hugetlbsize=2M"
                      | None => ""
                      end in
  let numa_opts := match numa_node config with
                   | Some node => (",host-nodes=" ++ print_dec node ++ ",policy=bind")%str
                   | None => ""%string
                   end in
  ("memory-backend-memfd,id=ram1,size=" ++ print_dec (memory_mb config) ++ "M,share=true" ++
   hugetlb_opts ++ numa_opts)%str.

Definition sev_object (policy : string) : string :=
  ("sev-snp-guest,id=sev0,cbitpos=51,reduced-phys-bits=1,kernel-hashes=on,policy=" ++ policy)%str.

Definition sev_snp_qemu_args (config : VmConfig) (ovmf_path : string) : list string :=
  let policy := default DEFAULT_POLICY (t_policy (tee config)) in
  ["-cpu"; "EPYC-v4"; "-machine";
   "q35,confidential-guest-support=sev0,memory-backend=ram1,vmport=off";
   "-object"; memfd_opts config; "-object"; sev_object policy; "-nodefaults"; "-bios";
   ovmf_path]%string.

(** The policy string reaches QEMU unchecked. A policy with a comma adds options of
    its own to the guest object, here one that turns kernel hashes off. *)
Theorem policy_adds_options :
  ∃ config, vcpus config = 2 ∧
    ∃ arg, arg ∈ sev_snp_qemu_args config DEFAULT_OVMF_PATH ∧
      split_char ","%char arg =
        ["sev-snp-guest"; "id=sev0"; "cbitpos=51"; "reduced-phys-bits=1"; "kernel-hashes=on";
         "policy=0x30000"; "kernel-hashes=off"]%string.
Proof.
  exists (mk_config "vm" None None [] 2 1024 (mk_tee SevSnp (Some "0x30000,kernel-hashes=off"%string))
    false None None).
  split; [done|]. exists (sev_object "0x30000,kernel-hashes=off").
  split; [|vm_compute; reflexivity].
  unfold sev_snp_qemu_args. do 7 (apply elem_of_cons; right). apply list_elem_of_here.
Qed.
