(* ===== verification/SevVerify.v ===== *)
(** * Verifying an SEV-SNP report

    [src/crates/aleph-tee/src/sev_snp/report.rs], [verify.rs] and [backend.rs]: parsing a
    report, checking AMD's certificate chain and the report's signature, and the SEV-SNP
    implementation of the trait [TeeBackend]. *)

From S2P Require Import Prelude Strs Host Json Types Crypto SevCerts Tee.
#[local] Open Scope Z_scope.

(** ** report.rs *)

Record SevReport := mk_sev { inner : SevAttestationReport }.
Definition REPORT_SIZE : nat := 1184.

Section verify.
Context `{SevCrate, OpenSsl, Hex}.

Definition parse_sev_snp_report (raw : bytes) : result error SevReport :=
  if negb (length raw =? REPORT_SIZE)%nat then
    bail ("invalid SEV-SNP report size: expected " ++ print_dec (Z.of_nat REPORT_SIZE) ++
          " bytes, got " ++ print_dec (Z.of_nat (length raw)))%str
  else
    i ← ext_ctx "failed to parse SEV-SNP attestation report" (sev_from_bytes raw);
    Ok (mk_sev i).

Definition extract_report_data (report : SevReport) : bytes := sev_report_data (inner report).
Definition extract_measurement (report : SevReport) : bytes := sev_measurement (inner report).

(** ** The certificate chain *)

Definition AMD_ARK_CN_PREFIX : string := "ARK-".
Definition AMD_ORG_NAME : string := "Advanced Micro Devices".

(** The first entry of a name under an identifier, as a string. *)
Definition first_entry (nid : Nid) (missing not_utf8 : string) (name : X509Name)
    : result error string :=
  entry ← ok_or (mk_error missing []) (head (entries_by_nid nid name));
  ext_ctx not_utf8 (asn1_as_utf8 entry).

Definition verify_ark_identity (ark : X509) : result error unit :=
  let subject := x509_subject_name ark in
  let issuer := x509_issuer_name ark in
  cn_str ← first_entry COMMONNAME "ARK certificate has no Common Name in subject"
             "ARK CN is not valid UTF-8" subject;
  if negb (starts_with AMD_ARK_CN_PREFIX cn_str) then
    bail ("ARK certificate CN '" ++ cn_str ++ "' does not start with expected prefix '" ++
          AMD_ARK_CN_PREFIX ++ "'")%str
  else
    org_str ← first_entry ORGANIZATIONNAME "ARK certificate has no Organization in subject"
                "ARK Organization is not valid UTF-8" subject;
    if negb (String.eqb org_str AMD_ORG_NAME) then
      bail ("ARK certificate Organization '" ++ org_str ++ "' does not match expected '" ++
            AMD_ORG_NAME ++ "'")%str
    else
      subject_der ← ext_ctx "failed to encode subject to DER" (name_to_der subject);
      issuer_der ← ext_ctx "failed to encode issuer to DER" (name_to_der issuer);
      if bool_decide (subject_der = issuer_der) then Ok tt
      else bail "ARK certificate issuer does not match subject (not self-issued)".

(** [if !cert.verify(&key).context(failed)? { bail!(refused) }]. *)
Definition check_signed (failed refused : string) (cert : X509) (key : PKey) : result error unit :=
  good ← ext_ctx failed (x509_verify cert key);
  if (good : bool) then Ok tt else bail refused.

Definition verify_cert_chain (chain : CertChain) : result error unit :=
  ark ← ext_ctx "failed to parse ARK certificate" (x509_from_der (ark_der chain));
  ask ← ext_ctx "failed to parse ASK certificate" (x509_from_der (ask_der chain));
  vcek ← ext_ctx "failed to parse VCEK certificate" (x509_from_der (vcek_der chain));
  _ ← context "ARK identity verification failed" (verify_ark_identity ark);
  ark_pubkey ← ext_ctx "failed to extract ARK public key" (x509_public_key ark);
  _ ← check_signed "failed to verify ARK self-signature"
        "ARK certificate is not validly self-signed" ark ark_pubkey;
  _ ← check_signed "failed to verify ASK signature"
        "ASK certificate is not signed by ARK" ask ark_pubkey;
  ask_pubkey ← ext_ctx "failed to extract ASK public key" (x509_public_key ask);
  check_signed "failed to verify VCEK signature"
    "VCEK certificate is not signed by ASK" vcek ask_pubkey.

(** ** The report's signature *)

Definition SIGNED_REPORT_SIZE : nat := 0x2A0.

Definition strip_leading_zeros (b : bytes) : bytes :=
  match position (λ x, negb (u8 x =? 0)) b with
  | Some pos => drop pos b
  | None => drop (length b - 1) b
  end.

(** One 72-byte component of the signature, as a big number. *)
Definition component (failed : string) (le_bytes : bytes) : result error BigNum :=
  ext_ctx failed (bn_from_slice (strip_leading_zeros (reverse le_bytes))).

Definition verify_report_signature (report_raw vcek : bytes) : result error unit :=
  if (length report_raw <? SIGNED_REPORT_SIZE + 144)%nat then
    bail ("report too short for signature verification: need at least " ++
          print_dec (Z.of_nat (SIGNED_REPORT_SIZE + 144)) ++ " bytes, got " ++
          print_dec (Z.of_nat (length report_raw)))%str
  else
    let signed_data := take SIGNED_REPORT_SIZE report_raw in
    let sig_offset := SIGNED_REPORT_SIZE in
    r_bn ← component "failed to create BigNum from r component"
             (slice sig_offset (sig_offset + 72) report_raw);
    s_bn ← component "failed to create BigNum from s component"
             (slice (sig_offset + 72) (sig_offset + 144) report_raw);
    ecdsa_sig ← ext_ctx "failed to create ECDSA signature" (ecdsa_from_components r_bn s_bn);
    digest ← ext_ctx "failed to compute SHA-384 digest" (ssl_sha384 signed_data);
    cert ← ext_ctx "failed to parse VCEK certificate for signature verification"
             (x509_from_der vcek);
    vcek_pkey ← ext_ctx "failed to extract VCEK public key" (x509_public_key cert);
    ec_key ← ext_ctx "VCEK public key is not an EC key" (pkey_ec_key vcek_pkey);
    valid ← ext_ctx "ECDSA signature verification failed" (ecdsa_verify ecdsa_sig digest ec_key);
    if (valid : bool) then Ok tt else bail "SEV-SNP report signature is invalid".

(** ** The whole check *)

Definition tcb_params (t : TcbVersion) : TcbParams :=
  mk_tcb_params (bootloader t) (tcb_tee t) (snp t) (microcode t).

Definition verified_details (product : string) (i : SevAttestationReport) (tcb : TcbParams)
    : json :=
  JObj [("product", JStr product); ("guest_svn", JNum (guest_svn i)); ("vmpl", JNum (vmpl i));
        ("verified", JBool true);
        ("tcb", JObj [("bootloader", JNum (bl_spl tcb)); ("tee", JNum (tee_spl tcb));
                      ("snp", JNum (snp_spl tcb)); ("microcode", JNum (ucode_spl tcb))])]%string.

Definition verify_sev_snp_report `{Host W, Web W} (report : AttestationReport) (product : string)
    : M W error VerificationResult :=
  let raw := ar_data report in
  parsed ← lift (context "failed to parse SEV-SNP attestation report" (parse_sev_snp_report raw));
  let measurement := extract_measurement parsed in
  let chip := chip_id (inner parsed) in
  let tcb := tcb_params (reported_tcb (inner parsed)) in
  vcek ← with_context "failed to fetch VCEK certificate from AMD KDS"
           (fetch_vcek product chip tcb);
  cas ← with_context "failed to fetch CA chain from AMD KDS" (fetch_ca_chain product);
  let chain := mk_chain vcek (fst cas) (snd cas) in
  if 1 <? vmpl (inner parsed) then
    throw (mk_error ("attestation report from VMPL " ++ print_dec (vmpl (inner parsed)) ++
                     " — only VMPL 0-1 are accepted")%str [])
  else
    lift (context "certificate chain verification failed" (verify_cert_chain chain));;
    lift (context "report signature verification failed"
            (verify_report_signature raw (vcek_der chain)));;
    mret (mk_verification true SevSnp
      ("SEV-SNP report verified successfully (product: " ++ product ++ ")")%str
      measurement (verified_details product (inner parsed) tcb)).

(** ** backend.rs *)

(** [/dev/sev-guest]: the firmware puts the guest's 64 bytes into the report it signs. *)
Class SevGuest (W : Type) := {
  firmware_open : W → (string + unit) * W;
  firmware_get_report : bytes → W → (string + bytes) * W;
  firmware_report_data rd w raw w' :
    length rd = 64%nat → firmware_get_report rd w = (inr raw, w') → slice 0x50 0x90 raw = rd;
}.

Record SevSnpBackend := mk_sev_snp { product : string; ovmf_path : string }.

Definition new_backend (p : string) : SevSnpBackend := mk_sev_snp p DEFAULT_OVMF_PATH.
Definition with_ovmf_path (b : SevSnpBackend) (p : string) : SevSnpBackend :=
  mk_sev_snp (product b) p.

Definition sev_parse_report (raw : bytes) : result error AttestationReport :=
  parsed ← parse_sev_snp_report raw;
  Ok (mk_report SevSnp raw (extract_report_data parsed) (extract_measurement parsed)).

Definition sev_get_report `{SevGuest W} (report_data : bytes) : M W error AttestationReport :=
  run_ext "failed to open /dev/sev-guest" firmware_open;;
  raw ← (λ w, let '(r, w') := firmware_get_report report_data w in
              (match r with
               | inl e => Err (mk_error ("SEV-SNP get_report failed: " ++ e)%str [])
               | inr raw => Ok raw
               end, w'));
  lift (sev_parse_report raw).

Definition unverified_details (p : string) (i : SevAttestationReport) : json :=
  JObj [("product", JStr p); ("guest_svn", JNum (guest_svn i)); ("vmpl", JNum (vmpl i));
        ("verified", JBool false);
        ("note", JStr "structural validation only — use verify_sev_snp_report() for cryptographic verification")]%string.

Definition sev_verify_report (b : SevSnpBackend) (report : AttestationReport)
    : result error VerificationResult :=
  parsed ← context "report data failed structural validation"
             (parse_sev_snp_report (ar_data report));
  Ok (mk_verification false SevSnp
        ("SEV-SNP report parsed but NOT cryptographically verified (product: " ++ product b ++
         "). Use verify_sev_snp_report() for full async verification.")%str
        (extract_measurement parsed) (unverified_details (product b) (inner parsed))).

(** The implementation of the trait. *)
Definition sev_snp_backend `{SevGuest W} (b : SevSnpBackend) : TeeBackend W :=
  mk_backend SevSnp sev_get_report (λ r, lift (sev_verify_report b r))
    (λ c, sev_snp_qemu_args c (ovmf_path b)) sev_parse_report.
End verify.

(** ** What is accepted *)

Section spec.
Context `{SevCrate, OpenSsl, Hex}.

(** A root certificate: recognised by its name, and issued under its own name. *)
Definition amd_root (ark : X509) : Prop :=
  (∃ e rest cn, entries_by_nid COMMONNAME (x509_subject_name ark) = e :: rest ∧
     asn1_as_utf8 e = inr (AMD_ARK_CN_PREFIX ++ cn)%str) ∧
  (∃ e rest, entries_by_nid ORGANIZATIONNAME (x509_subject_name ark) = e :: rest ∧
     asn1_as_utf8 e = inr AMD_ORG_NAME) ∧
  (∃ d, name_to_der (x509_subject_name ark) = inr d ∧ name_to_der (x509_issuer_name ark) = inr d).

(** A chain: the root signs itself and the intermediate, the intermediate signs the chip's
    certificate. *)
Definition amd_chain (chain : CertChain) : Prop :=
  ∃ ark ask vcek ark_key ask_key,
    x509_from_der (ark_der chain) = inr ark ∧ x509_from_der (ask_der chain) = inr ask ∧
    x509_from_der (vcek_der chain) = inr vcek ∧ amd_root ark ∧
    x509_public_key ark = inr ark_key ∧ x509_public_key ask = inr ask_key ∧
    x509_verify ark ark_key = inr true ∧ x509_verify ask ark_key = inr true ∧
    x509_verify vcek ask_key = inr true.

(** The first 0x2A0 bytes carry a signature under the certificate's key, whose components
    are the little-endian numbers at 0x2A0 and 0x2E8. *)
Definition report_signed (raw vcek : bytes) : Prop :=
  (0x330 ≤ length raw)%nat ∧
  ∃ r s sig digest cert key ec,
    bn_from_slice (strip_leading_zeros (reverse (slice 0x2A0 0x2E8 raw))) = inr r ∧
    bn_from_slice (strip_leading_zeros (reverse (slice 0x2E8 0x330 raw))) = inr s ∧
    ecdsa_from_components r s = inr sig ∧ ssl_sha384 (take 0x2A0 raw) = inr digest ∧
    x509_from_der vcek = inr cert ∧ x509_public_key cert = inr key ∧ pkey_ec_key key = inr ec ∧
    ecdsa_verify sig digest ec = inr true.

(** One step of a chain of fallible calls: it succeeds iff the call and the rest do. *)
Lemma res_bind_Ok {A B} (r : result error A) (f : A → result error B) b :
  (r ≫= f) = Ok b ↔ ∃ a, r = Ok a ∧ f a = Ok b.
Proof. unfold mbind, result_bind. destruct r; naive_solver. Qed.

Lemma context_Ok {A} msg (r : result error A) a : context msg r = Ok a ↔ r = Ok a.
Proof. unfold context. destruct r; naive_solver. Qed.

Lemma check_signed_Ok failed refused cert key u :
  check_signed failed refused cert key = Ok u ↔ x509_verify cert key = inr true.
Proof.
  unfold check_signed, ext_ctx, ext. destruct u.
  destruct (x509_verify cert key) as [e|[]]; simpl; naive_solver.
Qed.

Lemma first_entry_Ok nid missing bad name s :
  first_entry nid missing bad name = Ok s ↔
  ∃ e rest, entries_by_nid nid name = e :: rest ∧ asn1_as_utf8 e = inr s.
Proof.
  unfold first_entry. destruct (entries_by_nid nid name) as [|e rest]; cbn [head ok_or].
  - split; [done|]. by intros (? & ? & ? & ?).
  - change (ext_ctx bad (asn1_as_utf8 e) = Ok s ↔
      ∃ e' rest', e :: rest = e' :: rest' ∧ asn1_as_utf8 e' = inr s).
    rewrite ext_ctx_Ok. split; [eauto|]. by intros (? & ? & [= <- <-] & ?).
Qed.

Lemma verify_ark_identity_Ok ark : verify_ark_identity ark = Ok tt ↔ amd_root ark.
Proof.
  unfold verify_ark_identity, amd_root. rewrite res_bind_Ok. split.
  - intros (cn & Hcn%first_entry_Ok & Hrest).
    destruct (starts_with AMD_ARK_CN_PREFIX cn) eqn:Hp; [|done]. simpl in Hrest.
    apply res_bind_Ok in Hrest as (org & Horg%first_entry_Ok & Hrest).
    destruct (String.eqb_spec org AMD_ORG_NAME) as [->|]; [|done]. simpl in Hrest.
    apply res_bind_Ok in Hrest as (sd & Hsd%ext_ctx_Ok & Hrest).
    apply res_bind_Ok in Hrest as (id & Hid%ext_ctx_Ok & Hrest).
    case_bool_decide; [subst sd|done].
    destruct (starts_with_strip _ _ Hp) as [t ->].
    destruct Hcn as (e & rest & He & Hu), Horg as (e' & rest' & He' & Hu').
    split_and!; [by exists e, rest, t|by exists e', rest'|by exists id].
  - intros ((e & rest & cn & He & Hu) & (e' & rest' & He' & Hu') & d & Hs & Hi).
    exists (AMD_ARK_CN_PREFIX ++ cn)%str. split; [apply first_entry_Ok; eauto|].
    rewrite starts_with_app. simpl. apply res_bind_Ok. exists AMD_ORG_NAME.
    split; [apply first_entry_Ok; eauto|]. simpl.
    apply res_bind_Ok. exists d. split; [by apply ext_ctx_Ok|].
    apply res_bind_Ok. exists d. split; [by apply ext_ctx_Ok|]. by rewrite bool_decide_true.
Qed.

Lemma verify_cert_chain_Ok chain : verify_cert_chain chain = Ok tt ↔ amd_chain chain.
Proof.
  unfold verify_cert_chain, amd_chain. rewrite res_bind_Ok. split.
  - intros (ark & Hark%ext_ctx_Ok & Hr).
    apply res_bind_Ok in Hr as (ask & Hask%ext_ctx_Ok & Hr).
    apply res_bind_Ok in Hr as (vcek & Hvcek%ext_ctx_Ok & Hr).
    apply res_bind_Ok in Hr as ([] & Hid%context_Ok%verify_ark_identity_Ok & Hr).
    apply res_bind_Ok in Hr as (k & Hk%ext_ctx_Ok & Hr).
    apply res_bind_Ok in Hr as ([] & Hs1%check_signed_Ok & Hr).
    apply res_bind_Ok in Hr as ([] & Hs2%check_signed_Ok & Hr).
    apply res_bind_Ok in Hr as (k' & Hk'%ext_ctx_Ok & Hs3%check_signed_Ok).
    exists ark, ask, vcek, k, k'. by split_and!.
  - intros (ark & ask & vcek & k & k' & Hark & Hask & Hvcek & Hid & Hk & Hk' & Hs1 & Hs2 & Hs3).
    eexists. split; [by apply ext_ctx_Ok|].
    apply res_bind_Ok. eexists. split; [by apply ext_ctx_Ok|].
    apply res_bind_Ok. eexists. split; [by apply ext_ctx_Ok|].
    apply res_bind_Ok. exists tt. split; [by apply context_Ok, verify_ark_identity_Ok|].
    apply res_bind_Ok. eexists. split; [by apply ext_ctx_Ok|].
    apply res_bind_Ok. exists tt. split; [by apply check_signed_Ok|].
    apply res_bind_Ok. exists tt. split; [by apply check_signed_Ok|].
    apply res_bind_Ok. eexists. split; [by apply ext_ctx_Ok|]. by apply check_signed_Ok.
Qed.

Lemma verify_report_signature_Ok raw vcek :
  verify_report_signature raw vcek = Ok tt ↔ report_signed raw vcek.
Proof.
  unfold verify_report_signature, report_signed, component, SIGNED_REPORT_SIZE.
  destruct (Nat.ltb_spec (length raw) (0x2A0 + 144)) as [Hlt|Hge].
  { split; [done|]. intros [? _]. simpl in *. lia. }
  rewrite res_bind_Ok. split.
  - intros (r & Hr%ext_ctx_Ok & Hx). split; [simpl in *; lia|].
    apply res_bind_Ok in Hx as (s & Hs%ext_ctx_Ok & Hx).
    apply res_bind_Ok in Hx as (sig & Hsig%ext_ctx_Ok & Hx).
    apply res_bind_Ok in Hx as (d & Hd%ext_ctx_Ok & Hx).
    apply res_bind_Ok in Hx as (c & Hc%ext_ctx_Ok & Hx).
    apply res_bind_Ok in Hx as (k & Hk%ext_ctx_Ok & Hx).
    apply res_bind_Ok in Hx as (ec & Hec%ext_ctx_Ok & Hx).
    apply res_bind_Ok in Hx as ([] & Hv%ext_ctx_Ok & Hx); [|done].
    exists r, s, sig, d, c, k, ec. by split_and!.
  - intros (_ & r & s & sig & d & c & k & ec & Hr & Hs & Hsig & Hd & Hc & Hk & Hec & Hv).
    simpl in *. eexists. split; [by apply ext_ctx_Ok|].
    apply res_bind_Ok. eexists. split; [by apply ext_ctx_Ok|].
    apply res_bind_Ok. eexists. split; [by apply ext_ctx_Ok|].
    apply res_bind_Ok. eexists. split; [by apply ext_ctx_Ok|].
    apply res_bind_Ok. eexists. split; [by apply ext_ctx_Ok|].
    apply res_bind_Ok. eexists. split; [by apply ext_ctx_Ok|].
    apply res_bind_Ok. eexists. split; [by apply ext_ctx_Ok|].
    apply res_bind_Ok. exists true. split; [by apply ext_ctx_Ok|done].
Qed.
End spec.

(** ** Numbers of the signature *)

Lemma u8_zero x : u8 x = 0 → x = x00.
Proof. by destruct x. Qed.

Lemma zeros_prefix i b :
  (i ≤ length b)%nat → (∀ j y, (j < i)%nat → b !! j = Some y → negb (u8 y =? 0) = false) →
  b = replicate i x00 ++ drop i b.
Proof.
  intros Hi Hz. rewrite <-(take_drop i b) at 1. f_equal. apply list_eq_same_length with i.
  - by rewrite length_replicate.
  - by apply length_take_le.
  - intros j y z Hj Hy [-> _]%lookup_replicate. rewrite lookup_take_lt in Hy by done.
    by apply u8_zero, Z.eqb_eq, negb_false_iff, (Hz j).
Qed.

(** Stripping removes zeros only, so the number is the same. *)
Lemma strip_leading_zeros_split b : ∃ n, b = replicate n x00 ++ strip_leading_zeros b.
Proof.
  unfold strip_leading_zeros. destruct (position _ b) as [i|] eqn:Hp.
  - apply position_Some in Hp as (x & Hi & _ & Hz). exists i. apply zeros_prefix; [|done].
    apply lookup_lt_Some in Hi. lia.
  - apply position_None in Hp. exists (length b - 1)%nat. apply zeros_prefix; [lia|].
    intros j y _ Hy. by apply (Forall_lookup_1 _ _ _ _ Hp Hy).
Qed.

Lemma strip_leading_zeros_value b : be_value (strip_leading_zeros b) = be_value b.
Proof.
  destruct (strip_leading_zeros_split b) as [n Hn]. rewrite Hn at 2. by rewrite be_value_zeros.
Qed.

(** ** Acceptance *)

Section exact.
Context `{SevCrate, OpenSsl, Hex} {W : Type} `{Host W, Web W}.

Lemma component_value b n :
  bn_from_slice (strip_leading_zeros (reverse b)) = inr n → bn_value n = le_value b.
Proof. intros Hn. rewrite (bn_from_slice_value _ _ Hn). apply strip_leading_zeros_value. Qed.

(** What it takes for a report to be accepted in a world [w], and what is answered. *)
Definition accepted (report : AttestationReport) (p : string) (w : W) (v : VerificationResult)
    (w' : W) : Prop :=
  ∃ i vcek ask ark w1,
    length (ar_data report) = 1184%nat ∧ sev_from_bytes (ar_data report) = inr i ∧
    vmpl i ≤ 1 ∧
    fetch_vcek p (chip_id i) (tcb_params (reported_tcb i)) w = (Ok vcek, w1) ∧
    fetch_ca_chain p w1 = (Ok (ask, ark), w') ∧
    amd_chain (mk_chain vcek ask ark) ∧ report_signed (ar_data report) vcek ∧
    v = mk_verification true SevSnp
          ("SEV-SNP report verified successfully (product: " ++ p ++ ")")%str
          (sev_measurement i) (verified_details p i (tcb_params (reported_tcb i))).

Lemma parse_report_Ok raw s :
  parse_sev_snp_report raw = Ok s ↔ length raw = 1184%nat ∧ sev_from_bytes raw = inr (inner s).
Proof.
  unfold parse_sev_snp_report, REPORT_SIZE.
  destruct (Nat.eqb_spec (length raw) 1184) as [Hl|Hl]; cbn [negb].
  - rewrite res_bind_Ok. split.
    + by intros (i & Hi%ext_ctx_Ok & [= <-]).
    + intros [_ Hi]. exists (inner s). split; [by apply ext_ctx_Ok|by destruct s].
  - split; [done|]. by intros [? _].
Qed.

Lemma parse_report_no_panic raw : no_panic (parse_sev_snp_report raw).
Proof. unfold parse_sev_snp_report, bail. no_panic_tac. Qed.

Lemma verify_ark_identity_no_panic ark : no_panic (verify_ark_identity ark).
Proof. unfold verify_ark_identity, first_entry, bail. no_panic_tac. Qed.

Lemma verify_cert_chain_no_panic chain : no_panic (verify_cert_chain chain).
Proof.
  unfold verify_cert_chain, check_signed, bail.
  pose proof verify_ark_identity_no_panic. no_panic_tac.
Qed.

Lemma verify_report_signature_no_panic raw vcek : no_panic (verify_report_signature raw vcek).
Proof. unfold verify_report_signature, component, bail. no_panic_tac. Qed.

Lemma with_context_Ok {A} msg (m : M W error A) w a w' :
  with_context msg m w = (Ok a, w') ↔ m w = (Ok a, w').
Proof. unfold with_context. destruct (m w) as [[]]; simpl; naive_solver. Qed.

Lemma lift_Ok {A} (r : result error A) (w : W) a w' :
  lift r w = (Ok a, w') ↔ r = Ok a ∧ w' = w.
Proof. unfold lift. naive_solver. Qed.

Lemma bind_Ok_iff {A B} (m : M W error A) (f : A → M W error B) w b w' :
  (m ≫= f) w = (Ok b, w') ↔ ∃ a w1, m w = (Ok a, w1) ∧ f a w1 = (Ok b, w').
Proof.
  split; [apply bind_Ok_inv|]. intros (a & w1 & Hm & Hf). by rewrite (bind_Ok _ _ _ _ _ Hm).
Qed.

Lemma verify_accepted report p w v w' :
  verify_sev_snp_report report p w = (Ok v, w') → accepted report p w v w'.
Proof.
  unfold verify_sev_snp_report. intros Hv.
  apply bind_Ok_iff in Hv as (s & ? & [[Hl Hs]%context_Ok%parse_report_Ok ->]%lift_Ok & Hv).
  apply bind_Ok_iff in Hv as (vcek & w1 & Hvcek%with_context_Ok & Hv).
  apply bind_Ok_iff in Hv as ([ask ark] & w2 & Hca%with_context_Ok & Hv).
  destruct (Z.ltb_spec 1 (vmpl (inner s))) as [|Hvmpl]; [done|].
  apply bind_Ok_iff in Hv as ([] & ? & [Hch%context_Ok%verify_cert_chain_Ok ->]%lift_Ok & Hv).
  apply bind_Ok_iff in Hv as ([] & ? & [Hsig%context_Ok%verify_report_signature_Ok ->]%lift_Ok & Hv).
  injection Hv as <- <-. exists (inner s), vcek, ask, ark, w1. by split_and!.
Qed.

Lemma accepted_verify report p w v w' :
  accepted report p w v w' → verify_sev_snp_report report p w = (Ok v, w').
Proof.
  intros (i & vcek & ask & ark & w1 & Hl & Hi & Hvmpl & Hvcek & Hca & Hch & Hsig & ->).
  unfold verify_sev_snp_report.
  apply bind_Ok_iff. exists (mk_sev i), w.
  split; [by apply lift_Ok; split; [apply context_Ok, parse_report_Ok|]|].
  apply bind_Ok_iff. exists vcek, w1. split; [by apply with_context_Ok|].
  apply bind_Ok_iff. exists (ask, ark), w'. split; [by apply with_context_Ok|].
  cbn [inner]. rewrite (proj2 (Z.ltb_ge _ _)) by done.
  apply bind_Ok_iff. exists tt, w'.
  split; [by apply lift_Ok; split; [apply context_Ok, verify_cert_chain_Ok|]|].
  apply bind_Ok_iff. exists tt, w'.
  by split; [apply lift_Ok; split; [apply context_Ok, verify_report_signature_Ok|]|].
Qed.

(** The answer is always valid and carries the signed measurement. *)
Lemma accepted_result report p w v w' :
  accepted report p w v w' →
  vr_valid v = true ∧ vr_measurement v = slice 0x90 0xC0 (ar_data report).
Proof.
  intros (i & vcek & ask & ark & w1 & _ & Hi & _ & _ & _ & _ & _ & ->).
  split; [done|]. by apply sev_measurement_at.
Qed.

Lemma verify_total report p : total (verify_sev_snp_report report p : M W error _).
Proof.
  unfold verify_sev_snp_report. apply total_bind.
  { apply total_lift, no_panic_context, parse_report_no_panic. }
  intros s. apply total_bind; [apply total_with_context, total_fetch_vcek|]. intros vcek.
  apply total_bind; [apply total_with_context, total_fetch_ca_chain|]. intros cas.
  case_match; [apply total_throw|].
  apply total_bind; [apply total_lift, no_panic_context, verify_cert_chain_no_panic|]. intros _.
  apply total_bind; [apply total_lift, no_panic_context, verify_report_signature_no_panic|].
  intros _. apply total_ret.
Qed.
End exact.
