(* ===== verification/Agent.v ===== *)
(** * The attestation agent

    [src/crates/aleph-attest-agent/src]: reports bound to a key or a nonce
    ([attestation.rs]), the attested TLS identity ([tls.rs]), the injection of secrets
    ([secrets.rs]), the attestation endpoint and the reverse proxy ([proxy.rs]), and the
    start of the agent ([main.rs]). *)

From S2P Require Import Prelude Strs Host Json Types Crypto Http X509.
From S2P Require Import SevCerts Tee SevVerify.
#[local] Open Scope Z_scope.

(** ** attestation.rs *)

Section attestation.
Context `{Sha2} {W : Type}.

Definition key_report_data (public_key_bytes : bytes) : bytes := pad64 (sha384 public_key_bytes).
Definition nonce_report_data (nonce : bytes) : bytes :=
  if (64 <? length nonce)%nat then pad64 (sha384 nonce) else pad64 nonce.

Definition get_key_bound_report (backend : TeeBackend W) (public_key_bytes : bytes)
    : M W error AttestationReport :=
  with_context "failed to get key-bound attestation report"
    (get_report backend (key_report_data public_key_bytes)).

Definition get_nonce_bound_report (backend : TeeBackend W) (nonce : bytes)
    : M W error AttestationReport :=
  with_context "failed to get nonce-bound attestation report"
    (get_report backend (nonce_report_data nonce)).
End attestation.

(** ** tls.rs *)

Record AttestedTlsIdentity := mk_identity {
  cert_der : bytes;
  key_der : bytes;
  id_report : AttestationReport;
}.

(** The server half of rustls. *)
Class RustlsServer := {
  ServerConfig : Type;
  safe_default_protocol_versions : string + unit;
  with_single_cert : list bytes → bytes → string + ServerConfig;
}.

Section tls.
Context `{Hex, SerdeJson, DerOctets, X509Parser, Sha2} {W : Type} `{Rcgen W}.

Definition generate_attested_tls_identity (backend : TeeBackend W)
    : M W error AttestedTlsIdentity :=
  key_pair ← run_ext "failed to generate ECDSA P-384 key pair" generate_p384;
  report ← with_context "failed to get attestation report bound to TLS key"
             (get_key_bound_report backend (public_key_raw key_pair));
  extension_value ← lift (context "failed to encode attestation extension"
                            (encode_attestation_extension report));
  params ← lift (ext_ctx "failed to create certificate params" (params_new ["localhost"%string]));
  cert ← lift (ext_ctx "failed to create self-signed certificate"
                 (self_signed params [(ATTESTATION_OID, extension_value)] key_pair));
  mret (mk_identity cert (serialize_der key_pair) report).

Definition build_rustls_config `{RustlsServer} (identity : AttestedTlsIdentity)
    : result error ServerConfig :=
  _ ← ext_ctx "failed to set protocol versions" safe_default_protocol_versions;
  ext_ctx "failed to build rustls ServerConfig"
    (with_single_cert [cert_der identity] (key_der identity)).
End tls.

(** ** secrets.rs *)

Definition SECRETS_DIR : string := "/tmp/secrets".
Definition MAX_SECRETS : nat := 16.
Definition MAX_KEY_LEN : Z := 64.
Definition MAX_VALUE_SIZE : Z := 64 * 1024.

(** [std::sync::Mutex]: the contents, and whether a holder panicked. *)
Record Mutex (A : Type) := mk_mutex { poisoned : bool; contents : A }.
Arguments mk_mutex {A}.
Arguments poisoned {A}.
Arguments contents {A}.

(** [INJECTION_LOCK]. *)
Definition INJECTION_LOCK : Mutex (option unit) := mk_mutex false None.

Definition secret_path (key : string) : string := path_join SECRETS_DIR key.

Definition secret_key_char (c : Ascii.ascii) : bool :=
  is_ascii_alphanumeric c || Ascii.eqb c "_"%char || Ascii.eqb c "-"%char.

(** The body of the validation loop: the message of the refusal, if any. *)
Definition validate_secret (kv : string * string) : option string :=
  let '(key, value) := kv in
  if is_empty key || (MAX_KEY_LEN <? str_len key) then
    Some ("secret key length must be 1-" ++ print_dec MAX_KEY_LEN ++ ", got " ++
          print_dec (str_len key))%str
  else if negb (all_chars secret_key_char key) then
    Some ("invalid secret key: must be alphanumeric/underscore/hyphen, got: " ++ key)%str
  else if MAX_VALUE_SIZE <? str_len value then
    Some ("secret value too large for key '" ++ key ++ "': max " ++ print_dec MAX_VALUE_SIZE ++
          " bytes, got " ++ print_dec (str_len value))%str
  else None.

Section secrets.
Context {W : Type} `{Host W}.

(** The handler's state: the lock and the machine. An early [return] is a [throw]. *)
Definition Handler (A : Type) : Type := M (Mutex (option unit) * W) HttpResponse A.

Definition refuse {A} (status : Z) (msg : string) : Handler A :=
  throw (respond status (error_json msg)).

(** [*guard = Some(())]. *)
Definition set_guard : Handler unit :=
  modify (λ '(m, w), (mk_mutex (poisoned m) (Some tt), w)).

Definition check_secret (kv : string * string) : Handler unit :=
  match validate_secret kv with Some msg => refuse 400 msg | None => mret tt end.

(** Open with mode 0600 and [write_all]. *)
Definition write_secret (key value : string) : M W io_error unit :=
  run_io (host_open_truncate (secret_path key) (6 * 8 ^ 2));;
  run_io (host_append (secret_path key) value).

(** The loop that writes the secrets; [injected] are the keys already written. *)
Fixpoint write_secrets (secrets : list (string * string)) (injected : list string)
    : Handler (list string) :=
  match secrets with
  | [] => mret injected
  | (key, value) :: rest =>
      r ← on_snd (attempt (write_secret key value));
      match r with
      | Ok _ => write_secrets rest (injected ++ [key])
      | _ =>
          set_guard;;
          refuse 500 ("failed to write secret: " ++ key)%str
      end
  end.

Definition inject_secret_body (secrets : gmap string string) : Handler HttpResponse :=
  '(m, _) ← get;
  if poisoned m then refuse 500 "internal lock error" else
  match contents m with
  | Some _ => refuse 409 "secrets already injected"
  | None =>
      if (size secrets =? 0)%nat then refuse 400 "no secrets provided"
      else if (MAX_SECRETS <? size secrets)%nat then
        refuse 400 ("too many secrets: max " ++ print_dec (Z.of_nat MAX_SECRETS) ++ ", got " ++
                    print_dec (Z.of_nat (size secrets)))%str
      else
        forM_ (map_to_list secrets) check_secret;;
        r ← on_snd (attempt (run_io (host_create_dir_all SECRETS_DIR)));
        match r with
        | Ok _ =>
            injected ← write_secrets (map_to_list secrets) [];
            set_guard;;
            mret (respond 200 (JObj [("injected"%string, JArr (JStr <$> injected))]))
        | _ => refuse 500 "failed to create secrets directory"
        end
  end.

(** The handler returns the response of either exit; a panic would poison the lock. *)
Definition inject_secret_handler (secrets : gmap string string)
    (s : Mutex (option unit) * W) : option HttpResponse * (Mutex (option unit) * W) :=
  match inject_secret_body secrets s with
  | (Ok r, s') => (Some r, s')
  | (Err r, s') => (Some r, s')
  | (Panic _, (m, w)) => (None, (mk_mutex true (contents m), w))
  end.
End secrets.

(** ** proxy.rs *)

Record HttpRequest := mk_request {
  rq_method : string;
  rq_path : string;
  rq_query : option string;
  rq_headers : list (string * string); (** lower-case names, raw values *)
}.

(** What the agent sends upstream and what it gets back. *)
Record ProxyRequest := mk_proxy_request {
  pr_method : string;
  pr_url : string;
  pr_headers : list (string * string);
  pr_body : bytes;
}.
Record UpstreamResponse := mk_upstream {
  up_status : Z;
  up_headers : list (string * string);
  up_body : string + bytes;
}.

Class HttpClient (W : Type) := {
  http_send : ProxyRequest → W → (string + UpstreamResponse) * W;
  (** [HeaderValue::to_str], [Method::from_bytes] and [StatusCode::from_u16] *)
  header_to_str : string → option string;
  method_from_bytes : string → option string;
  status_from_u16 : Z → option Z;
}.

Section proxy.
Context `{Hex, Sha2} {W : Type} `{HttpClient W}.

Record AppState := mk_app {
  backend : TeeBackend W;
  upstream : string;
}.

(** [hex::FromHexError] as text. *)
Variable hex_error : string → string.

(** GET [/.well-known/attestation?nonce=...]. *)
Definition attestation_endpoint (state : AppState) (nonce_hex : string)
    : M W error HttpResponse :=
  match hex_decode nonce_hex with
  | None => mret (respond 400 (error_json ("invalid hex nonce: " ++ hex_error nonce_hex)%str))
  | Some nonce =>
      r ← attempt (get_nonce_bound_report (backend state) nonce);
      mret match r with
           | Ok report => respond 200 (report_json report)
           | Err e => respond 500 (error_json ("attestation failed: " ++ display_chain e)%str)
           | Panic _ => respond 500 JNull (** [attempt] lets panics through *)
           end
  end.

Definition upstream_url (state : AppState) (req : HttpRequest) : string :=
  match rq_query req with
  | Some qs => (upstream state ++ rq_path req ++ "?" ++ qs)%str
  | None => (upstream state ++ rq_path req)%str
  end.

(** The headers that are forwarded: all but [Host], if their value is text. *)
Definition forward_headers (hs : list (string * string)) : list (string * string) :=
  omap (λ nv, if String.eqb (fst nv) "host" then None
              else (λ v, (fst nv, v)) <$> header_to_str (snd nv)) hs.

(** [insert_header] for each header of the answer that is text: it replaces what an
    earlier header of the same name left. *)
Definition insert_headers (hs : list (string * string)) : gmap string string :=
  foldl (λ m nv, match header_to_str (snd nv) with
                 | Some v => <[fst nv := v]> m
                 | None => m
                 end) ∅ hs.

Definition proxy_handler (state : AppState) (req : HttpRequest) (body : bytes)
    : M W error HttpResponse :=
  let method := default "GET"%string (method_from_bytes (rq_method req)) in
  let proxy_req := mk_proxy_request method (upstream_url state req)
                     (forward_headers (rq_headers req)) body in
  λ w, match http_send proxy_req w with
       | (inr resp, w') =>
           let status := default 502 (status_from_u16 (up_status resp)) in
           let headers := insert_headers (up_headers resp) in
           (Ok match up_body resp with
               | inr b => mk_http status headers (BBytes b)
               | inl _ => respond 502 (error_json "failed to read upstream response")
               end, w')
       | (inl e, w') => (Ok (respond 502 (error_json ("upstream unreachable: " ++ e)%str)), w')
       end.
End proxy.
Arguments AppState : clear implicits.

(** ** main.rs *)

(** [Cli] with its defaults. *)
Record Cli := mk_cli { cli_port : Z; cli_upstream : string; cli_amd_product : string }.
Definition default_cli : Cli := mk_cli 8443 "http://127.0.0.1:8080" "Genoa".

(** Up to the point where the server runs: the shared state, the TLS configuration and the
    address to bind. *)
Definition start_agent `{SevCrate, OpenSsl, Hex, SerdeJson, DerOctets, X509Parser, Sha2} {W}
    `{Rcgen W, SevGuest W, RustlsServer} (cli : Cli)
    : M W error (AppState W * ServerConfig * string) :=
  let b := sev_snp_backend (new_backend (cli_amd_product cli)) in
  identity ← with_context "failed to generate attested TLS identity"
               (generate_attested_tls_identity b);
  rustls_config ← lift (context "failed to build rustls config" (build_rustls_config identity));
  mret (mk_app b (cli_upstream cli), rustls_config, ("0.0.0.0:" ++ print_dec (cli_port cli))%str).
