(* ===== verification/AgentFacts.v ===== *)
(** * What the attestation agent does

    The behaviour of each operation of [Agent.v]: the injection of secrets on every exit,
    the generated certificate, the endpoint and the proxy. *)

From S2P Require Import Prelude Strs Host Json Types Crypto Http X509.
From S2P Require Import SevCerts Tee SevVerify Agent.
#[local] Open Scope Z_scope.

(** ** Secrets *)

Lemma is_empty_spec s : is_empty s = true ↔ s = ""%string.
Proof. by destruct s. Qed.

(** A key that passes validation names a file directly inside the directory. *)
Definition safe_key (k : string) : Prop :=
  k ≠ ""%string ∧ str_len k ≤ MAX_KEY_LEN ∧ all_chars secret_key_char k = true.

Lemma validate_secret_None k v :
  validate_secret (k, v) = None ↔ safe_key k ∧ str_len v ≤ MAX_VALUE_SIZE.
Proof.
  unfold validate_secret, safe_key. destruct (is_empty k) eqn:He; simpl.
  - apply is_empty_spec in He. split; [done|]. by intros [[] _].
  - assert (k ≠ ""%string) by (intros ->; discriminate).
    destruct (Z.ltb_spec MAX_KEY_LEN (str_len k)); simpl.
    { split; [done|]. intros [(_ & ? & _) _]. lia. }
    destruct (all_chars secret_key_char k) eqn:Hc; simpl.
    + destruct (Z.ltb_spec MAX_VALUE_SIZE (str_len v)).
      * split; [done|]. intros [_ ?]. lia.
      * split; [|done]. intros _. by split_and!.
    + split; [done|]. by intros [(_ & _ & ?) _].
Qed.

Lemma safe_key_lacks k : safe_key k → lacks "/"%char k ∧ lacks "."%char k.
Proof. intros (_ & _ & Hc). by split; apply lacks_all_chars with secret_key_char. Qed.

Lemma secret_path_safe k : safe_key k → secret_path k = (SECRETS_DIR ++ "/" ++ k)%str.
Proof.
  intros Hk. destruct (safe_key_lacks k Hk) as [Hs _]. destruct Hk as (Hne & _).
  unfold secret_path, path_join. destruct k as [|c k]; [done|].
  change "/"%string with (String "/"%char ""). rewrite starts_with_char.
  apply lacks_cons in Hs as [Hc _]. by rewrite (proj2 (Ascii.eqb_neq _ _)).
Qed.

Lemma secret_path_inj k k' :
  safe_key k → safe_key k' → secret_path k = secret_path k' → k = k'.
Proof.
  intros Hk Hk'. rewrite !secret_path_safe by done. intros Heq.
  apply (inj (String.append (SECRETS_DIR ++ "/"))). by rewrite !str_app_assoc.
Qed.

(** A request that passes validation. *)
Definition secrets_ok (secrets : gmap string string) : Prop :=
  (1 ≤ size secrets ≤ MAX_SECRETS)%nat ∧
  ∀ k v, secrets !! k = Some v → safe_key k ∧ str_len v ≤ MAX_VALUE_SIZE.

Section secrets.
Context {W : Type} `{HostFs W}.

(** Nothing but the files of these keys may change. *)
Definition only_secrets (keys : list string) (w w' : W) : Prop :=
  ∀ q, q ∉ secret_path <$> keys → host_files w' !! q = host_files w !! q.

Lemma write_secret_spec k v w :
  wp (write_secret k v) (λ r w', only_secrets [k] w w' ∧
    match r with
    | Ok _ => host_files w' !! secret_path k = Some v
    | Err _ => True
    | Panic _ => False
    end) w.
Proof.
  assert (∀ q, q ∉ secret_path <$> [k] → q ≠ secret_path k) as Hne.
  { intros q Hq ->. apply Hq. by left. }
  unfold write_secret. apply wp_bind, wp_run_io; [intros [] w1 Ho|intros e w1 Ho].
  - pose proof (files_open_ok (secret_path k) (6 * 8 ^ 2) w tt) as Hok.
    pose proof (files_open_frame (secret_path k) (6 * 8 ^ 2) w) as Hfr.
    rewrite Ho in Hok, Hfr. simpl in *. specialize (Hok eq_refl).
    apply wp_run_io; [intros [] w2 Ha|intros e w2 Ha].
    + pose proof (files_append_ok (secret_path k) v w1 tt "") as Haok.
      pose proof (files_append_frame (secret_path k) v w1) as Hafr.
      rewrite Ha in Haok, Hafr. simpl in *. split; [|by apply Haok].
      intros q Hq. rewrite Hafr by auto. auto.
    + pose proof (files_append_frame (secret_path k) v w1) as Hafr. rewrite Ha in Hafr.
      split; [|done]. intros q Hq. simpl in *. rewrite Hafr by auto. auto.
  - pose proof (files_open_frame (secret_path k) (6 * 8 ^ 2) w) as Hfr. rewrite Ho in Hfr.
    split; [|done]. intros q Hq. apply Hfr. auto.
Qed.

(** The writing loop: either every secret is in its file, or the guard is set. *)
Lemma write_secrets_spec l inj m w :
  NoDup (secret_path <$> l.*1) →
  wp (write_secrets l inj) (λ r '(m', w'), only_secrets l.*1 w w' ∧
    match r with
    | Ok ks => m' = m ∧ ks = inj ++ l.*1 ∧
               Forall (λ kv, host_files w' !! secret_path kv.1 = Some kv.2) l
    | Err resp => http_status resp = 500 ∧ m' = mk_mutex (poisoned m) (Some tt)
    | Panic _ => False
    end) (m, w).
Proof.
  revert inj w. induction l as [|[k v] l IH]; intros inj w Hnd; simpl.
  { apply wp_ret. rewrite app_nil_r. by split_and!. }
  simpl in Hnd. apply NoDup_cons in Hnd as [Hk Hnd].
  apply wp_bind, wp_on_snd', wp_attempt. eapply wp_mono; [apply write_secret_spec|].
  intros [[]|e|p] w1 [Hfr Hw]; simpl in *; [|clear Hw|done].
  - eapply wp_mono; [by apply IH|]. intros r [m' w'] [Hfr' Hr].
    split.
    { intros q Hq. rewrite Hfr', Hfr; set_solver. }
    destruct r as [ks|resp|p]; [|done|done].
    destruct Hr as (-> & -> & HF). rewrite <-app_assoc. split_and!; [done..|].
    constructor; [|done]. simpl. by rewrite Hfr'.
  - apply wp_bind, wp_modify, wp_throw. simpl. split_and!; [|done..].
    intros q Hq. apply Hfr. set_solver.
Qed.

Lemma check_secrets_spec l m (w : W) :
  wp (forM_ l check_secret) (λ r s', s' = (m, w) ∧
    match r with
    | Ok _ => Forall (λ kv, validate_secret kv = None) l
    | Err resp => http_status resp = 400 ∧ Exists (λ kv, validate_secret kv ≠ None) l
    | Panic _ => False
    end) (m, w).
Proof.
  induction l as [|kv l IH]; simpl; [by apply wp_ret|].
  apply wp_bind. unfold check_secret at 1. destruct (validate_secret kv) eqn:Hv.
  - apply wp_throw. simpl. split_and!; [done..|]. left. congruence.
  - apply wp_ret. eapply wp_mono; [apply IH|]. intros [[]|resp|p] s' [-> Hr]; [|..|done].
    + split; [done|]. by constructor.
    + destruct Hr. split_and!; [done..|]. by right.
Qed.

Lemma Forall_validate secrets :
  Forall (λ kv, validate_secret kv = None) (map_to_list secrets) ↔
  ∀ k v, secrets !! k = Some v → safe_key k ∧ str_len v ≤ MAX_VALUE_SIZE.
Proof.
  rewrite Forall_forall. split.
  - intros HF k v Hk. apply validate_secret_None, HF. by apply elem_of_map_to_list.
  - intros HF [k v] Hin%elem_of_map_to_list. by apply validate_secret_None, HF.
Qed.

Lemma secret_paths_nodup secrets :
  (∀ k v, secrets !! k = Some v → safe_key k ∧ str_len v ≤ MAX_VALUE_SIZE) →
  NoDup (secret_path <$> (map_to_list secrets).*1).
Proof.
  intros HF. apply NoDup_fmap_2_strong; [|apply NoDup_fst_map_to_list].
  intros k k' Hk Hk'. apply list_elem_of_fmap in Hk as ([? v] & -> & Hk).
  apply list_elem_of_fmap in Hk' as ([? v'] & -> & Hk').
  apply elem_of_map_to_list in Hk, Hk'. simpl. eapply secret_path_inj.
  - by eapply HF. - by eapply HF.
Qed.

(** Every exit of the handler. *)
Definition inject_outcome (secrets : gmap string string) (m : Mutex (option unit)) (w : W)
    (resp : HttpResponse) (m' : Mutex (option unit)) (w' : W) : Prop :=
  let keys := (map_to_list secrets).*1 in
  if poisoned m then http_status resp = 500 ∧ m' = m ∧ w' = w
  else match contents m with
  | Some _ => http_status resp = 409 ∧ m' = m ∧ w' = w
  | None =>
      (http_status resp = 400 ∧ ¬ secrets_ok secrets ∧ m' = m ∧ w' = w) ∨
      (http_status resp = 500 ∧ secrets_ok secrets ∧ m' = m ∧ host_files w' = host_files w) ∨
      (http_status resp = 500 ∧ secrets_ok secrets ∧ m' = mk_mutex false (Some tt) ∧
       only_secrets keys w w') ∨
      (http_status resp = 200 ∧ secrets_ok secrets ∧ m' = mk_mutex false (Some tt) ∧
       only_secrets keys w w' ∧
       ∀ k v, secrets !! k = Some v → host_files w' !! secret_path k = Some v)
  end.

Lemma inject_body_spec secrets m w :
  wp (inject_secret_body secrets) (λ r '(m', w'),
    match r with
    | Ok resp | Err resp => inject_outcome secrets m w resp m' w'
    | Panic _ => False
    end) (m, w).
Proof.
  unfold inject_secret_body, inject_outcome. apply wp_bind, wp_get.
  destruct m as [[] [[]|]]; simpl; try by apply wp_throw.
  destruct (Nat.eqb_spec (size secrets) 0) as [Hz|Hz].
  { apply wp_throw. left. split_and!; [done| |done..]. intros [? _]. lia. }
  destruct (Nat.ltb_spec MAX_SECRETS (size secrets)) as [Hm|Hm].
  { apply wp_throw. left. split_and!; [done| |done..]. intros [? _]. lia. }
  apply wp_bind. eapply wp_mono; [apply check_secrets_spec|].
  intros [[]|resp|p] s' [-> Hr]; [|destruct Hr as [Hst Hex]|done].
  - rewrite Forall_validate in Hr. assert (secrets_ok secrets) as Hok by (split; [lia|done]).
    apply wp_bind, wp_on_snd', wp_attempt, wp_run_io.
    + intros [] w1 Hmk. pose proof (files_mkdir SECRETS_DIR w) as Hf. rewrite Hmk in Hf.
      apply wp_bind. eapply wp_mono; [apply write_secrets_spec, secret_paths_nodup, Hr|].
      assert (∀ w', only_secrets (map_to_list secrets).*1 w1 w' →
                    only_secrets (map_to_list secrets).*1 w w') as Hfr.
      { intros w' Ho q Hq. rewrite Ho by done. by rewrite <-Hf. }
      intros [ks|resp|p] [m' w'] [Ho Hw]; [|..|done].
      * destruct Hw as (-> & -> & HF). apply wp_bind, wp_modify, wp_ret. simpl.
        do 3 right. split_and!; [done..|by apply Hfr|]. intros k v Hk.
        rewrite Forall_forall in HF. by apply (HF (k, v)), elem_of_map_to_list.
      * destruct Hw as [Hst ->]. right; right; left. split_and!; [done..|by apply Hfr].
    + intros e w1 Hmk. pose proof (files_mkdir SECRETS_DIR w) as Hf. rewrite Hmk in Hf.
      apply wp_throw. right; left. by split_and!.
  - left. split_and!; [done| |done..]. intros [_ HF]. apply Forall_validate in HF.
    apply Exists_exists in Hex as ([k v] & Hin & Hne). rewrite Forall_forall in HF.
    by apply Hne, HF.
Qed.
End secrets.

(** ** Series of requests *)

Section series.
Context {W : Type} `{HostFs W}.

(** The requests a running agent answers, one after the other: the lock is held for the
    whole handler. *)
Fixpoint serve (reqs : list (gmap string string)) (s : Mutex (option unit) * W)
    : list (option HttpResponse) * (Mutex (option unit) * W) :=
  match reqs with
  | [] => ([], s)
  | r :: reqs' =>
      let '(o, s1) := inject_secret_handler r s in
      let '(os, s2) := serve reqs' s1 in (o :: os, s2)
  end.

(** The status of a response; a handler that panicked sends none. *)
Definition status_of (o : option HttpResponse) : option Z := http_status <$> o.

Lemma handler_outcome secrets m w :
  ∃ resp m' w', inject_secret_handler secrets (m, w) = (Some resp, (m', w')) ∧
    inject_outcome secrets m w resp m' w'.
Proof.
  pose proof (inject_body_spec secrets m w) as Hb. unfold wp in Hb. unfold inject_secret_handler.
  destruct (inject_secret_body secrets (m, w)) as [[r|r|p] [m' w']]; simpl in Hb; eauto 6.
  done.
Qed.

(** After a success, or a failure that left files behind, nothing is ever written again. *)
Lemma serve_injected reqs m w :
  poisoned m = false → contents m = Some tt →
  ∃ os, serve reqs (m, w) = (os, (m, w)) ∧ Forall (λ o, status_of o = Some 409) os ∧
    length os = length reqs.
Proof.
  intros Hp Hc. induction reqs as [|r reqs (os & IH & HF & Hl)]; [by exists []|]. simpl.
  destruct (handler_outcome r m w) as (resp & m' & w' & -> & Ho).
  unfold inject_outcome in Ho. rewrite Hp, Hc in Ho. destruct Ho as (Hs & -> & ->).
  rewrite IH. exists (Some resp :: os). split_and!; [done| |by simpl; f_equal].
  constructor; [|done]. by unfold status_of; simpl; f_equal.
Qed.

(** C26: injection happens at most once in the life of an agent, whatever requests arrive and
    whatever fails. Either every request so far was refused and no file changed, or one
    valid request was carried out, in full or up to a failed write; all before it were
    refused without effect, all after it are answered 409 and change nothing. *)
Theorem inject_one_shot reqs w :
  ∃ os m' w', serve reqs (INJECTION_LOCK, w) = (os, (m', w')) ∧ length os = length reqs ∧
    poisoned m' = false ∧
    ((contents m' = None ∧ host_files w' = host_files w ∧
      Forall (λ o, status_of o = Some 400 ∨ status_of o = Some 500) os) ∨
     ∃ pre secrets post os1 o os2, reqs = pre ++ secrets :: post ∧ os = os1 ++ o :: os2 ∧
       length os1 = length pre ∧ contents m' = Some tt ∧ secrets_ok secrets ∧
       only_secrets (map_to_list secrets).*1 w w' ∧
       Forall (λ o, status_of o = Some 400 ∨ status_of o = Some 500) os1 ∧
       (status_of o = Some 500 ∨ status_of o = Some 200 ∧
        ∀ k v, secrets !! k = Some v → host_files w' !! secret_path k = Some v) ∧
       Forall (λ o, status_of o = Some 409) os2).
Proof.
  revert w. induction reqs as [|r reqs IH]; intros w; simpl.
  { exists [], INJECTION_LOCK, w. split_and!; [done..|]. left. by split_and!. }
  destruct (handler_outcome r INJECTION_LOCK w) as (resp & m1 & w1 & -> & Ho).
  unfold inject_outcome in Ho. simpl in Ho.
  assert (∀ z, http_status resp = z → status_of (Some resp) = Some z) as Hst.
  { by intros z <-. }
  destruct Ho as [(Hs & _ & -> & ->)|[(Hs & Hok & -> & Hf)|[(Hs & Hok & -> & Hf)|
                  (Hs & Hok & -> & Hf & Hw)]]].
  - destruct (IH w) as (os & m' & w' & -> & Hl & Hp & Hr). exists (Some resp :: os), m', w'.
    split_and!; [done|by simpl; f_equal|done|].
    destruct Hr as [(Hc & Hfs & HF)|(pre & sec & post & os1 & o & os2 & -> & -> & Hl1 & Hr)].
    + left. split_and!; [done..|]. constructor; auto.
    + right. exists (r :: pre), sec, post, (Some resp :: os1), o, os2.
      destruct Hr as (Hc & Hok & Hos & HF & Hr).
      split_and!; [done|done|by simpl; f_equal|done..| |by apply Hr|by apply Hr].
      constructor; auto.
  - destruct (IH w1) as (os & m' & w' & -> & Hl & Hp & Hr). exists (Some resp :: os), m', w'.
    split_and!; [done|by simpl; f_equal|done|].
    destruct Hr as [(Hc & Hfs & HF)|(pre & sec & post & os1 & o & os2 & -> & -> & Hl1 & Hr)].
    + left. split_and!; [done|congruence|]. constructor; auto.
    + right. exists (r :: pre), sec, post, (Some resp :: os1), o, os2.
      destruct Hr as (Hc & Hok' & Hos & HF & Hr).
      split_and!; [done|done|by simpl; f_equal|done|done| | |by apply Hr|by apply Hr].
      * intros q Hq. rewrite Hos by done. by rewrite Hf.
      * constructor; auto.
  - destruct (serve_injected reqs (mk_mutex false (Some tt)) w1) as (os & -> & HF & Hl); [done..|].
    eexists _, _, _. split_and!; [done|by simpl; f_equal|done|]. right.
    exists [], r, reqs, [], (Some resp), os. split_and!; try done; auto.
  - destruct (serve_injected reqs (mk_mutex false (Some tt)) w1) as (os & -> & HF & Hl); [done..|].
    eexists _, _, _. split_and!; [done|by simpl; f_equal|done|]. right.
    exists [], r, reqs, [], (Some resp), os. split_and!; try done; auto.
Qed.
End series.

(** ** The proxy *)

(** Of two headers with one name in the upstream answer, such as two cookies, only the
    second reaches the caller. *)
Lemma later_header_replaces `{HttpClient W} n v1 v2 t1 t2 :
  header_to_str v1 = Some t1 → header_to_str v2 = Some t2 →
  insert_headers [(n, v1); (n, v2)] = {[n := t2]}.
Proof. intros H1 H2. unfold insert_headers. simpl. rewrite H1, H2. by rewrite insert_insert_eq. Qed.

(** A report asked for with a nonce carries it in the request to the hardware: in full up to
    64 bytes, its hash beyond. *)
Lemma nonce_report_data_prefix `{Sha2} nonce :
  length (nonce_report_data nonce) = 64%nat ∧
  ((length nonce ≤ 64)%nat → take (length nonce) (nonce_report_data nonce) = nonce).
Proof.
  unfold nonce_report_data. destruct (Nat.ltb_spec 64 (length nonce)).
  - split; [apply pad64_sha384|lia].
  - split; [by apply pad64_length|]. intros _. unfold pad64. by rewrite take_app_length.
Qed.
