(* ===== verification/Client.v ===== *)
(** * The attestation client

    [src/crates/aleph-attest-cli/src]: the TLS certificate verifier ([verify.rs]), the
    three requests over attested TLS ([client.rs]), and the command line ([main.rs]). *)

From S2P Require Import Prelude Strs Host Json Types Crypto X509.
From S2P Require Import SevCerts Tee SevVerify.
#[local] Open Scope Z_scope.

(** ** verify.rs *)

(** [SnpCertVerifier]: the report of the last accepted certificate, and the pinned
    measurement. (The mutex around the first has no holder that panics.) *)
Record SnpCertVerifier := mk_verifier {
  extracted_report : option AttestationReport;
  expected_measurement : option bytes;
}.

Definition new_verifier (expected : option bytes) : SnpCertVerifier := mk_verifier None expected.

Section verifier.
Context `{Hex, SerdeJson, DerOctets, X509Parser, Sha2}.

(** The checks of a certificate, up to the report they accept. *)
Definition check_server_cert (expected : option bytes) (end_entity : bytes)
    : result string AttestationReport :=
  found ← map_err (λ e, "failed to extract attestation from certificate: " ++ err_msg e)%str
            (extract_attestation_from_cert end_entity);
  report ← ok_or "certificate does not contain an attestation extension"%string found;
  cert ← (match parse_x509_certificate end_entity with
          | inl e => Err ("failed to parse certificate for key binding: " ++ e)%str
          | inr c => Ok c
          end : result string ParsedCert);
  let expected_report_data := pad64 (sha384 (cert_public_key cert)) in
  if negb (bool_decide (ar_report_data report = expected_report_data)) then
    Err ("key binding verification failed: report_data does not match SHA-384(public_key). " ++
         "Expected " ++ hex_encode expected_report_data ++ ", got " ++
         hex_encode (ar_report_data report))%str
  else
    match expected with
    | Some m =>
        if negb (bool_decide (ar_measurement report = m)) then
          Err ("measurement mismatch: expected " ++ hex_encode m ++ ", got " ++
               hex_encode (ar_measurement report))%str
        else Ok report
    | None => Ok report
    end.

(** The callback of rustls. *)
Definition verify_server_cert (end_entity : bytes) (v : SnpCertVerifier)
    : result string unit * SnpCertVerifier :=
  match check_server_cert (expected_measurement v) end_entity with
  | Ok report => (Ok tt, mk_verifier (Some report) (expected_measurement v))
  | Err e => (Err e, v)
  | Panic p => (Panic p, v)
  end.
End verifier.

(** ** The HTTP client *)

(** The certificates a verifier saw, from one state to the next. A refused certificate
    ends its connection; an accepted one lets it go on. *)
Inductive handshakes {V} (verify : bytes → V → result string unit * V)
    : V → list (bytes * bool) → V → Prop :=
| hs_nil v : handshakes verify v [] v
| hs_accept cert v v1 v2 cs :
    verify cert v = (Ok tt, v1) → handshakes verify v1 cs v2 →
    handshakes verify v ((cert, true) :: cs) v2
| hs_refuse cert v v1 v2 cs e :
    verify cert v = (Err e, v1) → handshakes verify v1 cs v2 →
    handshakes verify v ((cert, false) :: cs) v2.

(** A request: GET, or POST with a JSON body. *)
Record ClientRequest := mk_client_request { cr_url : string; cr_body : option json }.
Record ClientResponse := mk_client_response {
  cr_status : Z;
  cr_text : string + string; (** reading the body may fail *)
}.

(** reqwest over rustls with a custom verifier, and the crates url and rand. A response
    comes over connections whose handshakes the verifier decided (over plain HTTP there
    are none). *)
Class Reqwest (W : Type) := {
  client_build : string + unit;
  client_send : ∀ {V}, (bytes → V → result string unit * V) → ClientRequest → V → W →
    (string + ClientResponse) * V * W;
  client_send_handshakes {V} (verify : bytes → V → result string unit * V) req v w r v' w' :
    client_send verify req v w = (r, v', w') → ∃ cs, handshakes verify v cs v';
  url_parse : string → string + string;
  url_join : string → string → string + string;
  random_bytes : nat → W → bytes * W;
  random_bytes_length n w : length (random_bytes n w).1 = n;
}.

(** ** client.rs *)

Record AttestedResponse := mk_attested {
  attestation_valid : bool;
  attestation_summary : string;
  att_measurement : bytes;
  att_status : Z;
  att_body : string;
}.

Section client.
Context `{Hex, SerdeJson, DerOctets, X509Parser, Sha2, SevCrate, OpenSsl}.
Context {W : Type} `{Host W, Web W, Reqwest W}.

(** [build_attested_client] with a new verifier, and one request with it: the response and
    the verifier afterwards. *)
Definition build_attested_client : result error unit :=
  ext_ctx "failed to build HTTP client with custom TLS config" client_build.

Definition send_attested (msg : string) (expected : option bytes) (req : ClientRequest)
    : M W error (ClientResponse * SnpCertVerifier) := λ w,
  match client_send verify_server_cert req (new_verifier expected) w with
  | (inr resp, v, w') => (Ok (resp, v), w')
  | (inl e, _, w') => (Err (add_context msg (mk_error e [])), w')
  end.

Definition get_extracted (v : SnpCertVerifier) : result error AttestationReport :=
  ok_or (mk_error "no attestation report extracted from TLS handshake" []) (extracted_report v).

Definition attested_request (url product : string) (expected : option bytes)
    : M W error AttestedResponse :=
  lift build_attested_client;;
  '(response, verifier) ← send_attested "failed to send GET request" expected
                            (mk_client_request url None);
  body ← lift (ext_ctx "failed to read response body" (cr_text response));
  report ← lift (get_extracted verifier);
  result ← with_context "SEV-SNP report verification failed"
             (verify_sev_snp_report report product);
  mret (mk_attested (vr_valid result) (vr_summary result) (vr_measurement result)
          (cr_status response) body).

Definition fresh_attestation (base_url product : string) (expected : option bytes)
    : M W error AttestationReport :=
  nonce ← (λ w, let '(b, w') := random_bytes 32 w in (Ok b, w'));
  let nonce_hex := hex_encode nonce in
  base ← lift (ext_ctx "failed to parse base URL" (url_parse base_url));
  attestation_url ← lift (ext_ctx "failed to construct attestation URL"
    (url_join base (".well-known/attestation?nonce=" ++ nonce_hex)%str));
  lift build_attested_client;;
  '(response, _) ← send_attested "failed to send attestation request" expected
                     (mk_client_request attestation_url None);
  body ← lift (ext_ctx "failed to read attestation response body" (cr_text response));
  report ← lift (ok_or (mk_error "failed to parse attestation response as JSON" [])
                   (json_parse body ≫= report_of_json));
  if negb (bool_decide (take 32 (ar_report_data report) = nonce)) then
    throw (mk_error ("nonce mismatch: expected " ++ nonce_hex ++ " in report_data, got " ++
                     hex_encode (take 32 (ar_report_data report)))%str [])
  else
    result ← with_context "SEV-SNP report verification failed"
               (verify_sev_snp_report report product);
    if vr_valid result then mret report
    else throw (mk_error ("SEV-SNP attestation report is not valid: " ++ vr_summary result)%str []).

(** [InjectSecretResponse], derived [Deserialize]. *)
Definition inject_response_of_json (v : json) : option (list string) :=
  if no_duplicate_field ["injected"%string] v then field (of_list of_str) "injected" v else None.

Definition inject_secret (base_url product : string) (expected : option bytes)
    (secrets : list (string * string)) : M W error (list string) :=
  base ← lift (ext_ctx "failed to parse base URL" (url_parse base_url));
  inject_url ← lift (ext_ctx "failed to construct inject-secret URL"
                       (url_join base "confidential/inject-secret"));
  lift build_attested_client;;
  let secrets_map : gmap string string := list_to_map (reverse secrets) in
  let body := JObj (prod_map id JStr <$> map_to_list secrets_map) in
  '(response, verifier) ← send_attested "failed to send inject-secret request" expected
                            (mk_client_request inject_url (Some body));
  report ← lift (get_extracted verifier);
  result ← with_context "SEV-SNP report verification failed"
             (verify_sev_snp_report report product);
  if negb (vr_valid result) then
    throw (mk_error ("attestation invalid: " ++ vr_summary result)%str [])
  else
    let status := cr_status response in
    if status =? 409 then throw (mk_error "secrets already injected (409 Conflict)" [])
    else if negb (status =? 200) then
      throw (mk_error ("inject-secret failed with status " ++ print_dec status ++ ": " ++
                       match cr_text response with inr t => t | inl _ => "" end)%str [])
    else
      lift (ok_or (mk_error "failed to parse inject-secret response" [])
              (match cr_text response with
               | inr t => json_parse t ≫= inject_response_of_json
               | inl _ => None
               end)).

(** ** main.rs *)

Record CommonArgs := mk_common {
  ca_url : string;
  ca_amd_product : string;
  ca_expected_measurement : option string;
}.

Definition parse_expected_measurement (args : CommonArgs) : result error (option bytes) :=
  match ca_expected_measurement args with
  | None => Ok None
  | Some hex_str =>
      b ← ok_or (mk_error "invalid hex in --expected-measurement" []) (hex_decode hex_str);
      Ok (Some b)
  end.

Inductive Command :=
| Attest (args : CommonArgs)
| FreshAttest (args : CommonArgs)
| InjectSecret (common : CommonArgs) (secrets : list (string * string)).

Definition parse_key_value (s : string) : result string (string * string) :=
  match split_once "="%char s with
  | Some kv => Ok kv
  | None => Err ("invalid key=value pair: no '=' found in '" ++ s ++ "'")%str
  end.

(** What a command prints is made of these. *)
Inductive Printed :=
| Attested (r : AttestedResponse)
| FreshReport (r : AttestationReport)
| Injected (keys : list string).

Definition main (command : Command) : M W error Printed :=
  match command with
  | Attest args =>
      expected ← lift (parse_expected_measurement args);
      response ← attested_request (ca_url args) (ca_amd_product args) expected;
      mret (Attested response)
  | FreshAttest args =>
      expected ← lift (parse_expected_measurement args);
      report ← fresh_attestation (ca_url args) (ca_amd_product args) expected;
      mret (FreshReport report)
  | InjectSecret common secrets =>
      expected ← lift (parse_expected_measurement common);
      if (length secrets =? 0)%nat then
        throw (mk_error "at least one --secret key=value is required" [])
      else
        keys ← inject_secret (ca_url common) (ca_amd_product common) expected secrets;
        mret (Injected keys)
  end.
End client.
