(* ===== verification/ClientFacts.v ===== *)
(** * What the attestation client establishes

    The certificate check as an equivalence, what a verifier holds after a request, and
    what a successful run of each request implies. *)

From S2P Require Import Prelude Strs Host Json Types Crypto Http X509.
From S2P Require Import SevCerts Tee SevVerify Agent Client.
#[local] Open Scope Z_scope.

Section verifier.
Context `{Hex, SerdeJson, DerOctets, X509Parser, Sha2}.

(** A certificate whose extension claims the report: the claimed report data is the hash of
    the certificate's key, and the claimed measurement the pinned one. *)
Definition claims (cert : bytes) (expected : option bytes) (report : AttestationReport) : Prop :=
  extract_attestation_from_cert cert = Ok (Some report) ∧
  (∃ c, parse_x509_certificate cert = inr c ∧
        ar_report_data report = key_report_data (cert_public_key c)) ∧
  ∀ m, expected = Some m → ar_measurement report = m.

Lemma map_err_Ok {E E' A} (f : E → E') (r : result E A) a : map_err f r = Ok a ↔ r = Ok a.
Proof. destruct r; simpl; naive_solver. Qed.

Lemma res_bind_Ok' {E A B} (r : result E A) (f : A → result E B) b :
  (r ≫= f) = Ok b ↔ ∃ a, r = Ok a ∧ f a = Ok b.
Proof. unfold mbind, result_bind. destruct r; naive_solver. Qed.

Lemma check_server_cert_Ok expected cert report :
  check_server_cert expected cert = Ok report ↔ claims cert expected report.
Proof.
  unfold check_server_cert, claims, key_report_data. rewrite res_bind_Ok'. split.
  - intros (o & Ho%map_err_Ok & Hr). destruct o as [r|]; [|done]. simpl in Hr.
    destruct (parse_x509_certificate cert) as [e|c] eqn:Hc; [done|]. simpl in Hr.
    case_bool_decide as Hd; [|done]. simpl in Hr.
    destruct expected as [m|].
    + case_bool_decide; [|done]. injection Hr as <-. split_and!; [done|by exists c|].
      by intros ? [= <-].
    + injection Hr as <-. split_and!; [done|by exists c|done].
  - intros (Ho & (c & Hc & Hd) & Hm). exists (Some report).
    split; [by apply map_err_Ok|]. simpl. rewrite Hc. simpl.
    rewrite bool_decide_true by done. simpl.
    destruct expected as [m|]; [|done]. by rewrite bool_decide_true by auto.
Qed.

(** The certificate of the last handshake that the verifier let go on. *)
Fixpoint last_accepted (cs : list (bytes * bool)) : option bytes :=
  match cs with
  | [] => None
  | (cert, accepted) :: cs' =>
      match last_accepted cs' with
      | Some c => Some c
      | None => if accepted then Some cert else None
      end
  end.

(** What a verifier holds after any series of handshakes: the report the certificate of the
    last one it accepted claims, or what it held when there is none. *)
Lemma handshakes_report v cs v' :
  handshakes verify_server_cert v cs v' →
  expected_measurement v' = expected_measurement v ∧
  match last_accepted cs with
  | Some cert => ∃ report, claims cert (expected_measurement v) report ∧ extracted_report v' = Some report
  | None => extracted_report v' = extracted_report v
  end.
Proof.
  induction 1 as [v|cert v v1 v2 cs Hv _ [He IH]|cert v v1 v2 cs e Hv _ [He IH]]; [done|..]; simpl;
    unfold verify_server_cert in Hv;
    destruct (check_server_cert (expected_measurement v) cert) as [r|?|?] eqn:Hc; try discriminate;
    injection Hv; intros; simplify_eq/=; (split; [done|]);
    destruct (last_accepted cs); try done.
  apply check_server_cert_Ok in Hc. by exists r.
Qed.
End verifier.

(** ** Certificates made from a report *)

Section cert.
Context `{Hex, SerdeJson, DerOctets, X509Parser, Sha2} {W : Type} `{Rcgen W}.

(** Any certificate made over a report whose data is the hash of the certificate's key
    passes the check, whoever made it. *)
Lemma self_made_claims p k r value der expected :
  ar_report_data r = key_report_data (public_key_raw k) →
  encode_attestation_extension r = Ok value →
  self_signed p [(ATTESTATION_OID, value)] k = inr der →
  (∀ m, expected = Some m → ar_measurement r = m) →
  claims der expected r.
Proof.
  intros Hrd Henc Hder Hm.
  apply self_signed_parses in Hder as (c & pre & cu & post & Hc & Hpk & He & Hpre & _ & HF).
  apply Forall2_cons_inv_l in HF as ([o v'] & cu' & [Ho Hv] & HF & ->). simpl in *. subst v'.
  apply Forall2_nil_inv_l in HF as ->. simpl in He.
  split_and!; [|exists c; by rewrite Hpk|done].
  rewrite (extract_single der c pre value post o) by done.
  rewrite (decode_of_encode r value); [done| |done]. rewrite Hrd. apply pad64_sha384.
Qed.

Lemma verify_of_claims cert expected r :
  claims cert expected r →
  verify_server_cert cert (new_verifier expected) = (Ok tt, mk_verifier (Some r) expected).
Proof.
  intros Hc%check_server_cert_Ok. unfold verify_server_cert. simpl. by rewrite Hc.
Qed.
(** A certificate is refused when another measurement is pinned. *)
Lemma refused_measurement cert r m :
  claims cert None r → ar_measurement r ≠ m →
  ∃ e, verify_server_cert cert (new_verifier (Some m)) = (Err e, new_verifier (Some m)).
Proof.
  intros (Hx & (c & Hc & Hd) & _) Hm. unfold verify_server_cert, check_server_cert.
  simpl. rewrite Hx. simpl. rewrite Hc. simpl.
  rewrite bool_decide_true by done. simpl. rewrite bool_decide_false by done. simpl. eauto.
Qed.

(** What the agent's identity is made of. *)
Lemma generated_identity `{SevCrate, OpenSsl, !SevGuest W} b id (w w' : W) :
  generate_attested_tls_identity (sev_snp_backend b) w = (Ok id, w') →
  ∃ k p value, key_der id = serialize_der k ∧
    ar_report_data (id_report id) = key_report_data (public_key_raw k) ∧
    slice 0x50 0x90 (ar_data (id_report id)) = key_report_data (public_key_raw k) ∧
    ar_measurement (id_report id) = slice 0x90 0xC0 (ar_data (id_report id)) ∧
    encode_attestation_extension (id_report id) = Ok value ∧
    self_signed p [(ATTESTATION_OID, value)] k = inr (cert_der id).
Proof.
  unfold generate_attested_tls_identity. intros Hr.
  apply bind_Ok_inv in Hr as (k & w1 & _ & Hr).
  apply bind_Ok_inv in Hr as (report & w2 & Hrep%with_context_Ok%with_context_Ok & Hr).
  apply bind_Ok_inv in Hr as (value & w3 & [Henc%context_Ok ->]%lift_Ok & Hr).
  apply bind_Ok_inv in Hr as (p & w3 & [_ ->]%lift_Ok & Hr).
  apply bind_Ok_inv in Hr as (cert & w3 & [Hcert%ext_ctx_Ok ->]%lift_Ok & Hr).
  injection Hr as <- <-. simpl in *.
  apply bind_Ok_inv in Hrep as ([] & w3 & _ & Hrep).
  apply bind_Ok_inv in Hrep as (raw & w4 & Hfw & Hrep).
  destruct (firmware_get_report _ w3) as [[e|raw'] w5] eqn:Hg; [discriminate|].
  injection Hfw as <- <-. apply firmware_report_data in Hg; [|apply pad64_sha384].
  apply lift_Ok in Hrep as [Hrep _]. unfold sev_parse_report in Hrep.
  apply res_bind_Ok in Hrep as (s & [_ Hs]%parse_report_Ok & [= <-]). simpl in *.
  exists k, p, value. split_and!; [done| |done| |done|done].
  - unfold extract_report_data. by rewrite (sev_report_data_at _ _ Hs).
  - unfold extract_measurement. by rewrite (sev_measurement_at _ _ Hs).
Qed.
End cert.

(** ** Successful requests *)

Section requests.
Context `{Hex, SerdeJson, DerOctets, X509Parser, Sha2, SevCrate, OpenSsl}.
Context {W : Type} `{Host W, Web W, Reqwest W}.

Lemma send_attested_Ok msg expected req w resp v w' :
  send_attested msg expected req w = (Ok (resp, v), w') →
  client_send verify_server_cert req (new_verifier expected) w = (inr resp, v, w').
Proof.
  unfold send_attested.
  destruct (client_send verify_server_cert req (new_verifier expected) w) as [[[e|r] v'] w1].
  - discriminate.
  - congruence.
Qed.

(** A request answered over connections whose handshakes the verifier decided, of which the
    last one accepted showed a certificate that claims the report. *)
Definition sent_over (req : ClientRequest) (expected : option bytes) (w : W) (r : ClientResponse)
    (cert : bytes) (report : AttestationReport) (w' : W) : Prop :=
  ∃ v cs, client_send verify_server_cert req (new_verifier expected) w = (inr r, v, w') ∧
    handshakes verify_server_cert (new_verifier expected) cs v ∧ last_accepted cs = Some cert ∧
    claims cert expected report.

(** A report held after a request is claimed by the certificate accepted last. *)
Lemma sent_report req expected w r v w' report :
  client_send verify_server_cert req (new_verifier expected) w = (inr r, v, w') →
  extracted_report v = Some report → ∃ cert, sent_over req expected w r cert report w'.
Proof.
  intros Hs Hr. destruct (client_send_handshakes _ _ _ _ _ _ _ Hs) as [cs Hh].
  pose proof (handshakes_report _ _ _ Hh) as [_ Hl]. destruct (last_accepted cs) as [cert|] eqn:Hc.
  - destruct Hl as (r' & Hcl & Hr'). exists cert, v, cs. split_and!; try done. by simplify_eq.
  - simpl in Hl. congruence.
Qed.

Lemma get_extracted_Ok v report : get_extracted v = Ok report ↔ extracted_report v = Some report.
Proof. unfold get_extracted, ok_or. destruct (extracted_report v); naive_solver. Qed.

Lemma attested_request_Ok url product expected w resp w' :
  attested_request url product expected w = (Ok resp, w') →
  ∃ r body cert report w1 v, sent_over (mk_client_request url None) expected w r cert report w1 ∧
    cr_text r = inr body ∧ accepted report product w1 v w' ∧
    resp = mk_attested (vr_valid v) (vr_summary v) (vr_measurement v) (cr_status r) body.
Proof.
  unfold attested_request. intros Hr.
  apply bind_Ok_inv in Hr as ([] & w0 & [_ ->]%lift_Ok & Hr).
  apply bind_Ok_inv in Hr as ([r vf] & w1 & Hs%send_attested_Ok & Hr).
  apply bind_Ok_inv in Hr as (b & w2 & [Hb%ext_ctx_Ok ->]%lift_Ok & Hr).
  apply bind_Ok_inv in Hr as (report & w3 & [Hrep%get_extracted_Ok ->]%lift_Ok & Hr).
  apply bind_Ok_inv in Hr as (v & w4 & Hv%with_context_Ok%verify_accepted & Hr).
  injection Hr as <- <-.
  destruct (sent_report _ _ _ _ _ _ _ Hs Hrep) as [cert Hc].
  exists r, b, cert, report, w1, v. by split_and!.
Qed.

(** The request of [inject_secret]. *)
Definition inject_request (url : string) (secrets : list (string * string)) : ClientRequest :=
  mk_client_request url
    (Some (JObj (prod_map id JStr <$> map_to_list (list_to_map (reverse secrets) : gmap string string)))).

Lemma inject_secret_Ok url product expected secrets w keys w' :
  inject_secret url product expected secrets w = (Ok keys, w') →
  ∃ base to r text cert report w1 v, url_parse url = inr base ∧
    url_join base "confidential/inject-secret" = inr to ∧
    sent_over (inject_request to secrets) expected w r cert report w1 ∧
    accepted report product w1 v w' ∧ cr_status r = 200 ∧ cr_text r = inr text ∧
    json_parse text ≫= inject_response_of_json = Some keys.
Proof.
  unfold inject_secret. intros Hr.
  apply bind_Ok_inv in Hr as (base & w0 & [Hp%ext_ctx_Ok ->]%lift_Ok & Hr).
  apply bind_Ok_inv in Hr as (iurl & w0 & [Hj%ext_ctx_Ok ->]%lift_Ok & Hr).
  apply bind_Ok_inv in Hr as ([] & w0 & [_ ->]%lift_Ok & Hr).
  apply bind_Ok_inv in Hr as ([r vf] & w1 & Hs%send_attested_Ok & Hr).
  apply bind_Ok_inv in Hr as (report & w3 & [Hrep%get_extracted_Ok ->]%lift_Ok & Hr).
  apply bind_Ok_inv in Hr as (v & w4 & Hv%with_context_Ok%verify_accepted & Hr).
  destruct (sent_report _ _ _ _ _ _ _ Hs Hrep) as [cert Hc].
  destruct (negb (vr_valid v)); [discriminate|].
  destruct (cr_status r =? 409); [discriminate|].
  destruct (Z.eqb_spec (cr_status r) 200) as [H200|]; [|discriminate].
  apply lift_Ok in Hr as [Hr ->]. destruct (cr_text r) as [e|text] eqn:Ht; [discriminate|].
  exists base, iurl, r, text, cert, report, w1, v. split_and!; try done.
  unfold ok_or in Hr. destruct (json_parse text ≫= inject_response_of_json); [|discriminate]. by injection Hr as ->.
Qed.

Lemma fresh_attestation_Ok url product expected w report w' :
  fresh_attestation url product expected w = (Ok report, w') →
  let '(nonce, w0) := random_bytes 32 w in
  ∃ base to r text vf w1 v, url_parse url = inr base ∧
    url_join base (".well-known/attestation?nonce=" ++ hex_encode nonce)%str = inr to ∧
    client_send verify_server_cert (mk_client_request to None) (new_verifier expected) w0 = (inr r, vf, w1) ∧
    cr_text r = inr text ∧ json_parse text ≫= report_of_json = Some report ∧
    take 32 (ar_report_data report) = nonce ∧ accepted report product w1 v w'.
Proof.
  unfold fresh_attestation. intros Hr.
  apply bind_Ok_inv in Hr as (nonce & w0 & Hn & Hr).
  destruct (random_bytes 32 w) as [b wb] eqn:Hrand. injection Hn as -> ->.
  apply bind_Ok_inv in Hr as (base & w1 & [Hp%ext_ctx_Ok ->]%lift_Ok & Hr).
  apply bind_Ok_inv in Hr as (aurl & w1 & [Hj%ext_ctx_Ok ->]%lift_Ok & Hr).
  apply bind_Ok_inv in Hr as ([] & w1 & [_ ->]%lift_Ok & Hr).
  apply bind_Ok_inv in Hr as ([r vf] & w1 & Hs%send_attested_Ok & Hr).
  apply bind_Ok_inv in Hr as (body & w2 & [Hb%ext_ctx_Ok ->]%lift_Ok & Hr).
  apply bind_Ok_inv in Hr as (rep & w2 & [Hrep ->]%lift_Ok & Hr).
  case_bool_decide as Hd; [|discriminate]. simpl in Hr.
  apply bind_Ok_inv in Hr as (v & w4 & Hv%with_context_Ok%verify_accepted & Hr).
  destruct (vr_valid v); [|discriminate]. injection Hr as -> ->.
  exists base, aurl, r, body, vf, w1, v. split_and!; try done.
  unfold ok_or in Hrep. destruct (json_parse body ≫= report_of_json); [|discriminate]. by injection Hrep as ->.
Qed.
End requests.

(** The secrets are sent before the report is verified: when verification fails, the answer
    of the server, to whom the secrets went, is already there. *)
Lemma secrets_sent_first `{Hex, SerdeJson, DerOctets, X509Parser, Sha2, SevCrate, OpenSsl} {W}
    `{Host W, Web W, Reqwest W} base_url product expected secrets url r f (w w1 w2 : W) e :
  url_parse base_url = inr base_url → url_join base_url "confidential/inject-secret" = inr url →
  client_build = inr tt →
  let m : gmap string string := list_to_map (reverse secrets) in
  let req := mk_client_request url (Some (JObj (prod_map id JStr <$> map_to_list m))) in
  client_send verify_server_cert req (new_verifier expected) w =
    (inr r, mk_verifier (Some f) expected, w1) →
  verify_sev_snp_report f product w1 = (Err e, w2) →
  inject_secret base_url product expected secrets w =
    (Err (add_context "SEV-SNP report verification failed" e), w2).
Proof.
  intros Hp Hj Hb m req Hs Hv. unfold inject_secret, build_attested_client.
  rewrite (bind_Ok _ _ _ base_url w) by (unfold lift; by rewrite Hp).
  rewrite (bind_Ok _ _ _ url w) by (unfold lift; by rewrite Hj).
  rewrite Hb. rewrite (bind_Ok _ _ _ tt w) by done.
  rewrite (bind_Ok _ _ _ (r, mk_verifier (Some f) expected) w1)
    by (unfold send_attested; fold m; fold req; by rewrite Hs).
  rewrite (bind_Ok _ _ _ f w1) by done. apply bind_Err.
  unfold with_context. by rewrite Hv.
Qed.
