(* ===== verification/CryptoSim.v ===== *)
(** * Simulated cryptography

    Concrete instances of the classes of [Crypto.v] and [SevVerify.v], on the simulated
    host: toy signatures and encodings that satisfy the documented laws. They show that
    the laws hold together and let the theorems be evaluated. *)

From S2P Require Import Prelude Strs Host HostSim Json Types Instances Crypto Http X509.
From S2P Require Import SevCerts Tee SevVerify Agent Client.
#[local] Open Scope Z_scope.

(** ** Reports *)

Definition sim_sev_report (raw : bytes) : SevAttestationReport :=
  mk_sev_report (le_value (slice 4 8 raw)) (le_value (slice 0x30 0x34 raw))
    (slice 0x50 0x90 raw) (slice 0x90 0xC0 raw) (slice 0x1A0 0x1E0 raw)
    (mk_tcb (u8 (nth 0x180 raw x00)) (u8 (nth 0x181 raw x00)) (u8 (nth 0x186 raw x00))
       (u8 (nth 0x187 raw x00))).

#[export] Instance sim_sev : SevCrate.
Proof.
  refine {| sev_from_bytes raw :=
              if (length raw =? 1184)%nat then inr (sim_sev_report raw) else inl "size"%string |}.
  all: intros raw r; case_match; by intros [= <-].
Defined.

(** ** A hash of 48 bytes *)

Definition sim_sha384 (b : bytes) : bytes := take 48 (reverse b ++ replicate 48 x00).

#[export] Instance sim_sha2 : Sha2.
Proof.
  refine {| sha384 := sim_sha384 |}. intros b. unfold sim_sha384.
  rewrite length_take, length_app, length_replicate. lia.
Defined.

(** ** Certificates: a tag, the kind of name, the subject's key, the signer's key *)

Record sim_x509 := mk_sim_x509 { sx_kind : byte; sx_key : byte; sx_signer : byte }.

Definition sim_x509_from_der (d : bytes) : string + sim_x509 :=
  match d with
  | [x30; x03; k; s; i] => inr (mk_sim_x509 k s i)
  | _ => inl "not a certificate"%string
  end.

(** Kind 0 is a root of AMD's. *)
Definition sim_entries (n : Nid) (kind : byte) : list string :=
  match n with
  | COMMONNAME => [if decide (kind = x00) then "ARK-Milan" else "SEV-Milan"]%string
  | ORGANIZATIONNAME => ["Advanced Micro Devices"%string]
  end.

(** A signature on a digest is the key and the digest's first bytes, as numbers. *)
Definition sim_digest_value (d : bytes) : Z := be_value (take 4 d).
Definition sim_ecdsa (sig : Z * Z) (digest : bytes) (key : byte) : string + bool :=
  inr ((fst sig =? u8 key) && (snd sig =? sim_digest_value digest)).

#[export] Instance sim_openssl : OpenSsl := {
  X509 := sim_x509; PKey := byte; EcKey := byte; X509Name := byte; Asn1String := string;
  BigNum := Z; EcdsaSig := Z * Z;
  x509_from_der := sim_x509_from_der;
  x509_to_der c := inr [x30; x03; sx_kind c; sx_key c; sx_signer c];
  x509_stack_from_pem _ := inl "no PEM"%string;
  x509_public_key c := inr (sx_key c);
  x509_verify c k := inr (bool_decide (sx_signer c = k));
  x509_subject_name := sx_kind;
  x509_issuer_name := sx_kind;
  entries_by_nid := sim_entries;
  asn1_as_utf8 := inr;
  name_to_der k := inr [k];
  pkey_ec_key := inr;
  bn_from_slice b := inr (be_value b);
  bn_value n := n;
  bn_from_slice_value b n := ltac:(by intros [= <-]);
  ecdsa_from_components r s := inr (r, s);
  ecdsa_verify := sim_ecdsa;
  ssl_sha384 b := inr (sim_sha384 b);
}.

#[export] Instance sim_same_sha : SameSha.
Proof. by intros b d [= <-]. Qed.

(** ** Octet strings, identifiers, TLS certificates *)

Definition sim_octets_from_der (d : bytes) : string + bytes :=
  match d with x04 :: b => inr b | _ => inl "not an octet string"%string end.

#[export] Instance sim_der : DerOctets.
Proof.
  refine {| OctetString := bytes; octets_new b := inr b; octets_to_der b := inr (x04 :: b);
            octets_from_der := sim_octets_from_der; octets_bytes b := b |}.
  - eauto.
  - by intros b o [= <-].
  - by intros b o [= <-].
Defined.

Definition sim_oid (l : list Z) : string + list Z :=
  match l with
  | a :: b :: _ => if (0 <=? a) && (a <=? 2) && (0 <=? b) && (b <? 40) then inr l
                   else inl "bad arcs"%string
  | _ => inl "too few arcs"%string
  end.

(** A certificate is its one-byte public key and the content of the attestation extension,
    if there is one; the alternative name the generator adds is implied. *)
Record sim_cert := mk_sim_cert { sc_key : byte; sc_value : bytes }.
Definition sim_extensions (c : sim_cert) : list (list Z * bytes) :=
  match sc_value c with [] => [] | v => [(ATTESTATION_OID, v)] end.

#[export] Instance sim_x509_parser : X509Parser.
Proof.
  refine {| Oid := list Z; oid_from := sim_oid; ParsedCert := sim_cert;
            parse_x509_certificate d := match d with
                                        | k :: v => inr (mk_sim_cert k v)
                                        | [] => inl "empty"%string
                                        end;
            cert_extensions c := ([2; 5; 29; 17], []) :: sim_extensions c;
            cert_public_key c := [sc_key c] |}.
  - intros a b l Ha Hb. unfold sim_oid. exists (a :: b :: l).
    rewrite !(proj2 (Z.leb_le _ _)) by lia. by rewrite (proj2 (Z.ltb_lt _ _)) by lia.
  - unfold sim_oid. intros l l' o. repeat case_match; naive_solver.
Defined.

Definition sim_self_signed (es : list (list Z * bytes)) (k : byte) : string + bytes :=
  match es with
  | [] => inr [k]
  | [(arcs, x :: v)] => if decide (arcs = ATTESTATION_OID) then inr (k :: x :: v)
                        else inl "unsupported"%string
  | _ => inl "unsupported"%string
  end.

#[export] Instance sim_rcgen : Rcgen sim.
Proof.
  refine {| KeyPair := byte; CertificateParams := unit;
            generate_p384 := λ w, (inr x07, w);
            public_key_raw k := [k]; serialize_der k := [k];
            params_new _ := inr tt; self_signed _ := sim_self_signed |}.
  intros [] es k der. unfold sim_self_signed.
  assert (Forall standard_extension [([2; 5; 29; 17], [])]) as Hstd
    by (constructor; [by exists [17]|constructor]).
  destruct es as [|[arcs [|x v]] [|]]; try done.
  - intros [= <-]. by exists (mk_sim_cert k []), [([2; 5; 29; 17], [])], [], [].
  - case_decide as Ha; [|done]. intros [= <-]. subst arcs.
    exists (mk_sim_cert k (x :: v)), [([2; 5; 29; 17], [])], [(ATTESTATION_OID, x :: v)], [].
    split_and!; try done. by constructor.
Defined.

Definition sim_params : @CertificateParams _ sim sim_rcgen := tt.
Definition sim_key : @KeyPair _ sim sim_rcgen := x07.

(** ** The web, the environment and the security processor *)

#[export] Instance sim_web : Web sim := {
  web_get url w :=
    let w' := mk_sim (sim_files w) (sim_fail w) (tail (sim_outputs w)) (sim_rand w) (sim_clock w)
                (sim_log w ++ [("GET"%string, [url])]) in
    match head (sim_outputs w) with
    | Some o => (inr (mk_response (if out_success o then 200 else 404)
                        (inr (to_bytes (out_stdout o)))), w')
    | None => (inl "connection refused"%string, w')
    end;
  status_display := print_dec;
  env_var k w := if String.eqb k "HOME" then Some "/root"%string else None;
}.

(** A report of chip 1 over the given data and measurement, signed by the key [k]. *)
Definition sim_body (report_data measurement : bytes) : bytes :=
  replicate 0x50 x00 ++ report_data ++ measurement ++ replicate 0xE0 x00 ++
  (x01 :: replicate 0x3F x00) ++ replicate 0xC0 x00.
Definition sim_sign (k : byte) (body : bytes) : bytes :=
  body ++ (k :: replicate 71 x00) ++
  (reverse (take 4 (sim_sha384 body)) ++ replicate 68 x00) ++ replicate 368 x00.
Definition sim_raw_report (k : byte) (report_data measurement : bytes) : bytes :=
  sim_sign k (sim_body report_data measurement).

(** The chip's key, the intermediate's and the root's, and AMD's answers. *)
Definition sim_vcek : bytes := [x30; x03; x01; x11; x22].
Definition sim_ask : bytes := [x30; x03; x01; x22; x33].
Definition sim_ark : bytes := [x30; x03; x00; x33; x33].
Definition sim_kds : list Output :=
  [mk_output true (of_bytes sim_vcek) ""; mk_output true (of_bytes (sim_ask ++ sim_ark)) ""].
Definition sim_online : sim := mk_sim ∅ [] sim_kds [] 0 [].

Definition sim_measurement : bytes := replicate 48 xab.

Lemma sim_report_data k rd m : length rd = 64%nat → slice 0x50 0x90 (sim_raw_report k rd m) = rd.
Proof.
  intros Hl. unfold slice, sim_raw_report, sim_sign, sim_body.
  rewrite <-!app_assoc, drop_app_length' by (by rewrite length_replicate).
  by rewrite take_app_length'.
Qed.

#[export] Instance sim_guest : SevGuest sim.
Proof.
  refine {| firmware_open w := (inr tt, w);
            firmware_get_report rd w := (inr (sim_raw_report x11 rd sim_measurement), w) |}.
  intros rd w raw w' Hl [= <- <-]. by apply sim_report_data.
Defined.

(** ** Connections *)

(** The server's certificate is a file of the simulated machine; without one the connection
    is plain HTTP. Its answer is the next output in the queue. *)
Definition sim_answer (req : ClientRequest) (w : sim) : (string + ClientResponse) * sim :=
  let w' := mk_sim (sim_files w) (sim_fail w) (tail (sim_outputs w)) (sim_rand w) (sim_clock w)
              (sim_log w ++ [("REQUEST"%string, [cr_url req])]) in
  match head (sim_outputs w) with
  | Some o => (inr (mk_client_response (if out_success o then 200 else 404) (inr (out_stdout o))), w')
  | None => (inl "connection reset"%string, w')
  end.

Definition sim_send {V} (verify : bytes → V → result string unit * V) (req : ClientRequest)
    (v : V) (w : sim) : (string + ClientResponse) * V * sim :=
  match sim_files w !! "server_cert"%string with
  | None => let '(r, w') := sim_answer req w in (r, v, w')
  | Some cert =>
      match verify (to_bytes cert) v with
      | (Ok _, v') => let '(r, w') := sim_answer req w in (r, v', w')
      | (Err e, v') => (inl e, v', w)
      | (Panic _, _) => (inl "panic"%string, v, w)
      end
  end.

Lemma sim_send_handshakes {V} (verify : bytes → V → result string unit * V) req v w r v' w' :
  sim_send verify req v w = (r, v', w') → ∃ cs, handshakes verify v cs v'.
Proof.
  unfold sim_send. destruct (sim_files w !! _) as [cert|].
  - destruct (verify (to_bytes cert) v) as [[[]|e|p] v1] eqn:Hv.
    + destruct (sim_answer req w). intros [= <- <- <-].
      exists [(to_bytes cert, true)]. by eapply hs_accept; [|apply hs_nil].
    + intros [= <- <- <-]. exists [(to_bytes cert, false)].
      by eapply hs_refuse; [|apply hs_nil].
    + intros [= <- <- <-]. exists []. apply hs_nil.
  - destruct (sim_answer req w). intros [= <- <- <-]. exists []. apply hs_nil.
Qed.

#[export] Instance sim_reqwest : Reqwest sim.
Proof.
  refine {| client_build := inr tt; client_send := @sim_send;
            client_send_handshakes := @sim_send_handshakes;
            url_parse := inr; url_join b r := inr (b ++ "/" ++ r)%str;
            random_bytes n w := (replicate n x2a, w) |}.
  intros n w. apply length_replicate.
Defined.

(** The honest report is accepted, one signed by another key is not. *)
Example sim_report_accepted :
  let report m := mk_report SevSnp (sim_raw_report x11 (replicate 64 x42) m) [] [] in
  (∃ v, (verify_sev_snp_report (report sim_measurement) "Milan" sim_online).1 = Ok v ∧
        vr_measurement v = sim_measurement) ∧
  is_err (verify_sev_snp_report
    (mk_report SevSnp (sim_raw_report x12 (replicate 64 x42) sim_measurement) [] [])
    "Milan" sim_online).1 = true.
Proof. split; [eexists; split; vm_compute; reflexivity|vm_compute; reflexivity]. Qed.
