(* ===== verification/AttestProps.v ===== *)
(** * Properties of the attestation crate

    The certificate extension, the verification of reports and its cache, the agent's
    identity and secrets, and what the client's requests establish, each with a run on the
    simulated cryptography. *)

From S2P Require Import Prelude Strs Host HostSim Json Types Instances Crypto Http X509.
From S2P Require Import SevCerts Tee SevVerify Agent AgentFacts Client ClientFacts.
From S2P Require Import CryptoSim.
#[local] Open Scope Z_scope.

(** A report put into a certificate by [encode_attestation_extension] and [rcgen] is
    what [extract_attestation_from_cert] finds in it, field by field, provided its report
    data has 64 bytes and its JSON form fits an octet string. *)
Theorem certificate_round_trip `{Hex, SerdeJson, DerOctets, X509Parser} {W} `{Rcgen W} r p k der :
  encodable r →
  ∃ value, encode_attestation_extension r = Ok value ∧
    (self_signed p [(ATTESTATION_OID, value)] k = inr der →
     extract_attestation_from_cert der = Ok (Some r)).
Proof.
  intros Hr. destruct (decode_encode r Hr) as (v & Henc & Hdec). exists v. split; [done|].
  intros Hder. apply self_signed_parses in Hder as (c & pre & cu & post & Hc & _ & He & Hpre & _ & HF).
  apply Forall2_cons_inv_l in HF as ([o v'] & cu' & [Ho Hv] & HF & ->). simpl in *. subst v'.
  apply Forall2_nil_inv_l in HF as ->. simpl in He.
  rewrite (extract_single der c pre v post o) by done. by rewrite Hdec.
Qed.
Definition small_report : AttestationReport :=
  mk_report SevSnp [xde; xad] (replicate 64 x42) [xab].

Lemma certificate_round_trip_witness :
  encodable small_report ∧
  ∃ value der, encode_attestation_extension small_report = Ok value ∧
    self_signed sim_params [(ATTESTATION_OID, value)] sim_key = inr der ∧
    extract_attestation_from_cert der = Ok (Some small_report).
Proof.
  assert (encodable small_report) as Henc by (split; [reflexivity|vm_compute; reflexivity]).
  split; [exact Henc|].
  destruct (encode_attestation_extension small_report) as [v|e|p] eqn:Hv;
    [|destruct (certificate_round_trip small_report sim_params sim_key [] Henc) as (? & ? & _);
      congruence..].
  destruct (certificate_round_trip small_report sim_params sim_key (x07 :: v) Henc)
    as (v' & Hv' & Hx).
  exists v, (x07 :: v). split; [done|]. assert (v' = v) as -> by congruence.
  assert (self_signed sim_params [(ATTESTATION_OID, v)] sim_key = inr (x07 :: v)) as Hs.
  { destruct v as [|x v]; [|reflexivity]. exfalso. vm_compute in Hv. discriminate Hv. }
  split; [exact Hs|]. by apply Hx.
Defined.

(** C22: a report is accepted exactly when its [data] has 1184 bytes, comes from VMPL 0 or
    1, and is signed by the key of the chip's certificate, which the fetched chain leads to
    a self-signed root with AMD's names. The answer is then valid and carries the
    measurement of the signed bytes (0x90 to 0xC0), and the signature checked is the pair
    of little-endian numbers behind them. The fields of the report other than [data] play
    no part, and nothing panics. *)
Theorem verify_exact `{SevCrate, OpenSsl, Hex} {W} `{Host W, Web W} report p (w : W) :
  (∀ v w', verify_sev_snp_report report p w = (Ok v, w') ↔ accepted report p w v w') ∧
  (∀ v w', accepted report p w v w' →
     vr_valid v = true ∧ vr_measurement v = slice 0x90 0xC0 (ar_data report) ∧
     le_value (slice 0x30 0x34 (ar_data report)) ≤ 1 ∧
     ∃ r s sig digest ec,
       bn_value r = le_value (slice 0x2A0 0x2E8 (ar_data report)) ∧
       bn_value s = le_value (slice 0x2E8 0x330 (ar_data report)) ∧
       ecdsa_from_components r s = inr sig ∧
       ssl_sha384 (take 0x2A0 (ar_data report)) = inr digest ∧
       ecdsa_verify sig digest ec = inr true) ∧
  (∀ q, (verify_sev_snp_report report p w).1 ≠ Panic q) ∧
  (∀ report', ar_data report' = ar_data report →
     verify_sev_snp_report report' p w = verify_sev_snp_report report p w).
Proof.
  split_and!.
  - split; [apply verify_accepted|apply accepted_verify].
  - intros v w' (i & vcek & ask & ark & w1 & Hl & Hi & Hvmpl & _ & _ & _ & Hsig & ->).
    destruct Hsig as (_ & r & s & sig & d & c & k & ec & Hr & Hs & Hsig & Hd & _ & _ & _ & Hv).
    split_and!; [done|by apply sev_measurement_at|by rewrite <-(sev_vmpl_at _ _ Hi)|].
    exists r, s, sig, d, ec. by split_and!; [apply component_value|apply component_value|..].
  - apply verify_total.
  - intros report' Hd. unfold verify_sev_snp_report. by rewrite Hd.
Qed.

Definition honest_report : AttestationReport :=
  mk_report SevSnp (sim_raw_report x11 (replicate 64 x42) sim_measurement) [] [].

(** On the simulated key server, with a report signed by the chip's key. *)
Lemma verify_exact_witness :
  ∃ v w', accepted honest_report "Milan" sim_online v w' ∧ vr_valid v = true.
Proof.
  destruct (verify_exact honest_report "Milan" sim_online) as (Hiff & Hacc & Hnp & _).
  assert (is_ok (verify_sev_snp_report honest_report "Milan" sim_online).1 = true) as Hok
    by (vm_compute; reflexivity).
  destruct (verify_sev_snp_report honest_report "Milan" sim_online) as [[v|e|q] w'];
    [|discriminate..].
  exists v, w'. specialize (proj1 (Hiff v w') eq_refl) as Ha. split; [exact Ha|].
  exact (proj1 (Hacc v w' Ha)).
Defined.

(** The chip's certificate is stored in the cache before anyone looks at it, and a
    cached file is never looked at twice: once the server has answered with something that
    is no certificate, every later verification fails on the cached bytes, whatever the
    server would answer now. *)
Theorem bad_vcek_persists `{SevCrate, OpenSsl, Hex} {W} `{Host W, Web W} report p d i (w : W) :
  length (ar_data report) = 1184%nat → sev_from_bytes (ar_data report) = inr i →
  cache_dir w = Some d →
  let path := vcek_path p (hex_encode (chip_id i)) (tcb_params (reported_tcb i)) d in
  let url := vcek_url p (hex_encode (chip_id i)) (tcb_params (reported_tcb i)) in
  (∀ e resp body w1 w2,
     host_read path w = (inl e, w1) → web_get url w1 = (inr resp, w2) →
     is_success resp = true → rs_body resp = inr body →
     fetch_vcek p (chip_id i) (tcb_params (reported_tcb i)) w =
       (Ok body, ((write_cache path body : M W error _) w2).2)) ∧
  (∀ s w1 e, host_read path w = (inr s, w1) → s ≠ "" → x509_from_der (to_bytes s) = inl e →
     ∃ e', verify_sev_snp_report report p w =
             (Err e', ((fetch_ca_chain p : M W error _) w1).2)).
Proof.
  intros Hl Hi Hd path url. split.
  - intros e resp body w1 w2 Hr Hw Hs Hb. by eapply fetch_vcek_stores.
  - intros s w1 e Hr Hs Hx. unfold verify_sev_snp_report.
    rewrite (bind_Ok _ _ _ (mk_sev i) w) by by apply lift_Ok; split; [apply context_Ok, parse_report_Ok|].
    rewrite (bind_Ok _ _ _ (to_bytes s) w1)
      by by apply with_context_Ok, fetch_vcek_cached with d.
    pose proof (total_fetch_ca_chain p w1) as Htot.
    destruct (fetch_ca_chain p w1) as [[[ask ark]|e'|q] w2] eqn:Hca; simpl in Htot.
    + rewrite (bind_Ok _ _ _ (ask, ark) w2) by by apply with_context_Ok.
      cbn [fst snd]. case_match; [by eexists|].
      pose proof (no_panic_context "certificate chain verification failed" _
        (verify_cert_chain_no_panic (mk_chain (to_bytes s) ask ark))) as Hnp.
      destruct (context _ (verify_cert_chain (mk_chain (to_bytes s) ask ark))) as [[]|e'|q] eqn:Hc.
      * apply context_Ok, verify_cert_chain_Ok in Hc as (? & ? & ? & ? & ? & _ & _ & Hv & _).
        simpl in Hv. congruence.
      * exists e'. apply bind_Err. unfold lift. by f_equal.
      * by destruct (Hnp q).
    + eexists. apply bind_Err. unfold with_context. by rewrite Hca.
    + by destruct (Htot q).
Qed.

(** The server answered with a page, then comes to its senses: the page stays. *)
Lemma bad_vcek_persists_witness :
  let i := sim_sev_report (ar_data honest_report) in
  let path := vcek_path "Milan" (hex_encode (chip_id i)) (tcb_params (reported_tcb i))
                "/root/.cache/aleph-tee/kds" in
  let again := mk_sim {[path := "<html>"%string]} [] sim_kds [] 0 [] in
  is_ok (verify_sev_snp_report honest_report "Milan" sim_online).1 = true ∧
  ∃ e w', verify_sev_snp_report honest_report "Milan" again = (Err e, w').
Proof.
  intros i path again. split; [vm_compute; reflexivity|].
  destruct (bad_vcek_persists honest_report "Milan" "/root/.cache/aleph-tee/kds" i again)
    as [_ Hbad]; [vm_compute; reflexivity|vm_compute; reflexivity|reflexivity|].
  destruct (Hbad "<html>"%string again "not a certificate"%string) as [e He];
    [|discriminate|vm_compute; reflexivity|].
  - unfold again, host_read, sim_host, sim_try, sim_read. simpl. by rewrite lookup_singleton_eq.
  - exists e. eexists. exact He.
Defined.

(** ** The agent and the client *)

(** C25: the certificate an SEV-SNP agent generates carries a report over the hash of its own
    TLS key, with the measurement of the signed bytes, and a client completes the handshake
    with it exactly when it pins no measurement or this one; otherwise the verifier keeps
    nothing. *)
Theorem attested_handshake_completes
    `{SevCrate, OpenSsl, Hex, SerdeJson, DerOctets, X509Parser, Sha2} {W}
    `{Rcgen W, SevGuest W} b id (w w' : W) :
  generate_attested_tls_identity (sev_snp_backend b) w = (Ok id, w') →
  let report := id_report id in
  (∃ k, slice 0x50 0x90 (ar_data report) = key_report_data (public_key_raw k) ∧
        key_der id = serialize_der k) ∧
  ar_report_data report = slice 0x50 0x90 (ar_data report) ∧
  ar_measurement report = slice 0x90 0xC0 (ar_data report) ∧
  ∀ expected,
    if decide (expected = None ∨ expected = Some (ar_measurement report)) then
      verify_server_cert (cert_der id) (new_verifier expected) =
        (Ok tt, mk_verifier (Some report) expected)
    else ∃ e, verify_server_cert (cert_der id) (new_verifier expected) =
        (Err e, new_verifier expected).
Proof.
  intros Hg%generated_identity report.
  destruct Hg as (k & p & value & Hk & Hrd & Hsigned & Hm & Henc & Hder). subst report.
  split_and!; [|congruence|done|].
  { exists k. split; [congruence|done]. }
  intros expected.
  pose proof (self_made_claims p k (id_report id) value (cert_der id)) as Hcl.
  case_decide as He.
  - apply verify_of_claims, Hcl; [done..|]. by intros m ->; destruct He; simplify_eq.
  - destruct expected as [m|]; [|naive_solver].
    eapply refused_measurement; [apply (Hcl None); done|naive_solver].
Qed.

Lemma attested_handshake_completes_witness :
  let agent := generate_attested_tls_identity (sev_snp_backend (new_backend "Genoa")) in
  ∃ id w', agent empty_sim = (Ok id, w') ∧
    verify_server_cert (cert_der id) (new_verifier (Some (ar_measurement (id_report id)))) =
      (Ok tt, mk_verifier (Some (id_report id)) (Some (ar_measurement (id_report id)))).
Proof.
  intros agent. assert (is_ok (agent empty_sim).1 = true) as Hok by (vm_compute; reflexivity).
  destruct (agent empty_sim) as [[id|e|q] w'] eqn:Hrun; [|discriminate..].
  exists id, w'. split; [done|].
  destruct (attested_handshake_completes _ _ _ _ Hrun) as (_ & _ & _ & Hc).
  specialize (Hc (Some (ar_measurement (id_report id)))).
  rewrite decide_True in Hc by (by right). exact Hc.
Defined.

(** C24: what a successful client request means. An attested request and an injection were
    answered over connections of which the last one accepted showed a certificate that
    claims a report whose data is the hash of that certificate's key, with the measurement
    pinned, and the [data] of this report was accepted by the full verification. The
    attested response is valid and made of the answer's status and body and of the
    measurement in the signed bytes; the injection went as one POST with the last value of
    each key, was answered 200, and gives the keys of the answer. A fresh attestation gives
    the report of the answer to a request with 32 random bytes in its address: the report
    claims them, and its [data] was accepted. *)
Theorem client_success_means
    `{Hex, SerdeJson, DerOctets, X509Parser, Sha2, SevCrate, OpenSsl} {W}
    `{Host W, Web W, Reqwest W} url product expected (w w' : W) :
  (∀ resp, attested_request url product expected w = (Ok resp, w') →
     ∃ r body cert report w1 v, sent_over (mk_client_request url None) expected w r cert report w1 ∧
       cr_text r = inr body ∧ accepted report product w1 v w' ∧
       resp = mk_attested true (vr_summary v) (slice 0x90 0xC0 (ar_data report)) (cr_status r) body) ∧
  (∀ secrets keys, inject_secret url product expected secrets w = (Ok keys, w') →
     ∃ base to r text cert report w1 v, url_parse url = inr base ∧
       url_join base "confidential/inject-secret" = inr to ∧
       sent_over (inject_request to secrets) expected w r cert report w1 ∧
       accepted report product w1 v w' ∧ cr_status r = 200 ∧ cr_text r = inr text ∧
       json_parse text ≫= inject_response_of_json = Some keys) ∧
  (∀ report, fresh_attestation url product expected w = (Ok report, w') →
     let '(nonce, w0) := random_bytes 32 w in
     ∃ base to r text vf w1 v, url_parse url = inr base ∧
       url_join base (".well-known/attestation?nonce=" ++ hex_encode nonce)%str = inr to ∧
       client_send verify_server_cert (mk_client_request to None) (new_verifier expected) w0 =
         (inr r, vf, w1) ∧
       cr_text r = inr text ∧ json_parse text ≫= report_of_json = Some report ∧
       take 32 (ar_report_data report) = nonce ∧ accepted report product w1 v w').
Proof.
  split_and!; [|intros secrets keys; apply inject_secret_Ok|intros report; apply fresh_attestation_Ok].
  intros resp (r & body & cert & report & w1 & v & Hc & Ht & Ha & ->)%attested_request_Ok.
  destruct (accepted_result _ _ _ _ _ Ha) as [-> ->]. by exists r, body, cert, report, w1, v.
Qed.

(** An agent whose certificate claims the signed report over its key, as the client meets
    it: it answers a page, the names of the secrets it took, or a report with the nonce. *)
Definition demo_identity : AttestationReport :=
  mk_report SevSnp (sim_raw_report x11 (key_report_data [sim_key]) sim_measurement)
    (key_report_data [sim_key]) sim_measurement.
Definition demo_cert : bytes := sim_key :: x04 :: to_bytes (json_print (report_json demo_identity)).
Definition demo_agent (answer : string) : sim :=
  mk_sim {["server_cert"%string := of_bytes demo_cert]} [] (mk_output true answer "" :: sim_kds) [] 0 [].
Definition demo_fresh : AttestationReport :=
  mk_report SevSnp (sim_raw_report x11 (replicate 32 x2a ++ replicate 32 x00) sim_measurement)
    (replicate 32 x2a ++ replicate 32 x00) sim_measurement.

Lemma client_success_means_witness :
  (∃ resp report cert, att_measurement resp = sim_measurement ∧ att_body resp = "hello"%string ∧
     (attested_request "https://vm" "Milan" (Some sim_measurement) (demo_agent "hello")).1 = Ok resp ∧
     claims cert (Some sim_measurement) report) ∧
  is_ok (fresh_attestation "https://vm" "Milan" None (demo_agent (json_print (report_json demo_fresh)))).1
    = true.
Proof.
  split; [|vm_compute; reflexivity].
  assert (match (attested_request "https://vm" "Milan" (Some sim_measurement) (demo_agent "hello")).1 with
    | Ok resp => Some (att_measurement resp, att_body resp) | _ => None end =
    Some (sim_measurement, "hello"%string)) as Hf by (vm_compute; reflexivity).
  destruct (attested_request "https://vm" "Milan" (Some sim_measurement) (demo_agent "hello"))
    as [r w'] eqn:Hrun. cbn [fst] in Hf.
  destruct r as [resp|e|q]; [|discriminate..]. injection Hf as Hm Hb.
  destruct (client_success_means "https://vm" "Milan" (Some sim_measurement) (demo_agent "hello") w')
    as [Hatt _].
  destruct (Hatt resp Hrun) as (r & body & cert & report & w1 & v & (vf & cs & _ & _ & _ & Hc) & _).
  exists resp, report, cert. split; [exact Hm|]. split; [exact Hb|]. split; [reflexivity|exact Hc].
Defined.

(** C23: the handshake looks at the fields a report claims, the verification only at its
    [data], and nothing compares the two. Take any report that is accepted anywhere, for
    instance one relayed from another machine, any key and any measurement: the certificate
    made from its [data] and the claims the client wants completes the handshake with the
    measurement pinned, and the request reports a valid attestation; likewise the report is
    accepted as the answer to any nonce. *)
Theorem relayed_report_accepted
    `{Hex, SerdeJson, DerOctets, X509Parser, Sha2, SevCrate, OpenSsl} {W}
    `{Host W, Web W, Reqwest W, Rcgen W} g product v (w1 w' : W) p k m value der :
  accepted g product w1 v w' →
  let f := mk_report SevSnp (ar_data g) (key_report_data (public_key_raw k)) m in
  encode_attestation_extension f = Ok value →
  self_signed p [(ATTESTATION_OID, value)] k = inr der →
  verify_server_cert der (new_verifier (Some m)) =
    (Ok tt, mk_verifier (Some f) (Some m)) ∧
  (∀ url w r body, client_build = inr tt →
     client_send verify_server_cert (mk_client_request url None) (new_verifier (Some m)) w =
       (inr r, mk_verifier (Some f) (Some m), w1) → cr_text r = inr body →
     attested_request url product (Some m) w =
       (Ok (mk_attested true (vr_summary v) (slice 0x90 0xC0 (ar_data g)) (cr_status r) body),
        w')) ∧
  ∀ nonce, length nonce = 32%nat →
    let answer := mk_report SevSnp (ar_data g) (pad64 nonce) m in
    take 32 (ar_report_data answer) = nonce ∧
    verify_sev_snp_report answer product w1 = (Ok v, w').
Proof.
  intros Hg f Henc Hder. destruct (accepted_result _ _ _ _ _ Hg) as [Hv Hm].
  assert (∀ t rd ms, verify_sev_snp_report (mk_report t (ar_data g) rd ms) product w1 = (Ok v, w'))
    as Hver by (intros; apply accepted_verify in Hg; exact Hg).
  split_and!.
  - apply verify_of_claims. by eapply self_made_claims; [..|intros ? [= <-]].
  - intros url w r body Hb Hs Ht. unfold attested_request, build_attested_client.
    rewrite Hb. rewrite (bind_Ok _ _ _ tt w) by done.
    rewrite (bind_Ok _ _ _ (r, mk_verifier (Some f) (Some m)) w1)
      by (unfold send_attested; by rewrite Hs).
    rewrite Ht. rewrite (bind_Ok _ _ _ body w1) by done.
    rewrite (bind_Ok _ _ _ f w1) by done.
    rewrite (bind_Ok _ _ _ v w') by (apply with_context_Ok, Hver).
    by rewrite Hv, Hm.
  - intros nonce Hl answer. split; [|apply Hver]. simpl. unfold pad64.
    by rewrite take_app_length'.
Qed.

(** A server that relays the honest report under its own key, to a client that pins a
    measurement no signed report has. *)
Lemma relayed_report_accepted_witness :
  let m := replicate 48 xee in
  let f := mk_report SevSnp (ar_data honest_report) (key_report_data [sim_key]) m in
  let der : bytes := sim_key :: x04 :: to_bytes (json_print (report_json f)) in
  let w := mk_sim {["server_cert"%string := of_bytes der]} []
             (mk_output true "hello" "" :: sim_kds) [] 0 [] in
  ∃ resp w', attested_request "https://vm" "Milan" (Some m) w = (Ok resp, w') ∧
    attestation_valid resp = true ∧ att_measurement resp ≠ m.
Proof.
  intros m f der w.
  set (w1 := mk_sim (sim_files w) [] sim_kds [] 0 [("REQUEST", ["https://vm"])]%string).
  assert (is_ok (verify_sev_snp_report honest_report "Milan" w1).1 = true) as Hok
    by (vm_compute; reflexivity).
  destruct (verify_sev_snp_report honest_report "Milan" w1) as [[v|e|q] w'] eqn:Hrun;
    [|discriminate..].
  apply verify_accepted in Hrun.
  destruct (relayed_report_accepted honest_report "Milan" v w1 w' sim_params sim_key m
              (x04 :: to_bytes (json_print (report_json f))) der Hrun) as (Hhs & Hreq & _);
    [reflexivity|reflexivity|].
  eexists _, w'. split; [|split].
  - apply (Hreq "https://vm"%string w (mk_client_response 200 (inr "hello"%string)) "hello"%string);
      [reflexivity| |reflexivity].
    unfold client_send, sim_reqwest, sim_send, w. simpl.
    rewrite lookup_singleton_eq, to_of_bytes. fold der. by rewrite Hhs.
  - reflexivity.
  - vm_compute. discriminate.
Defined.

(** ** Secrets *)

(** What one injection request does, on every exit: it is refused without effect when
    secrets were injected before (409) or when the request is invalid (400); when the
    directory cannot be made nothing is written (500); a failed write closes the guard
    (500); success closes it and every secret is in its file (200). No file other than
    [/tmp/secrets/key] of a requested key changes, and such a key is one path component. *)
Theorem inject_secret_outcomes {W} `{HostFs W} secrets m (w : W) :
  (∃ resp m' w', inject_secret_handler secrets (m, w) = (Some resp, (m', w')) ∧
    inject_outcome secrets m w resp m' w') ∧
  (secrets_ok secrets → ∀ k v, secrets !! k = Some v →
     secret_path k = (SECRETS_DIR ++ "/" ++ k)%str ∧ lacks "/"%char k ∧ lacks "."%char k).
Proof.
  split; [apply handler_outcome|].
  intros [_ Hok] k v Hk. destruct (Hok k v Hk) as [Hs _].
  destruct (safe_key_lacks k Hs). split_and!; [by apply secret_path_safe|done..].
Qed.

Lemma inject_secret_outcomes_witness :
  let secrets : gmap string string := {["luks"%string := "hunter2"%string]} in
  secrets_ok secrets ∧ secret_path "luks" = "/tmp/secrets/luks"%string ∧
  ∃ resp m' w', inject_secret_handler secrets (INJECTION_LOCK, empty_sim) = (Some resp, (m', w')).
Proof.
  intros secrets. destruct (inject_secret_outcomes secrets INJECTION_LOCK empty_sim)
    as [(resp & m' & w' & Hr & _) Hpath].
  assert (secrets_ok secrets) as Hok.
  { split; [vm_compute; lia|]. intros k v Hk. apply lookup_singleton_Some in Hk as [<- <-].
    repeat split; vm_compute; congruence. }
  split; [exact Hok|]. split; [|eauto].
  exact (proj1 (Hpath Hok "luks"%string "hunter2"%string (lookup_singleton_eq _ _))).
Defined.
