(* ===== verification/Verity.v ===== *)
(** * dm-verity artifacts and the kernel command line

    [src/crates/aleph-compute-node/src/verity.rs]: the hash tree and root hash of an
    image, cached in files next to it, and the command line that carries the hashes. *)

From S2P Require Import Prelude Strs Host Json Types.

Record VerityInfo := mk_verity { root_hash : string; hashtree_path : string }.

Definition hashtree_of (rootfs : string) : string := (rootfs ++ ".verity")%str.
Definition roothash_of (rootfs : string) : string := (rootfs ++ ".roothash")%str.

(** The root hash in the output of [veritysetup format]. *)
Definition parse_root_hash (stdout : string) : option string :=
  line ← List.find (starts_with "Root hash:") (lines stdout);
  w ← last (split_whitespace line);
  Some (to_lowercase (trim w)).

Section host.
Context {W : Type} `{Host W}.

(** Both artifacts exist and the cached hash is not older than the image. *)
Definition cache_valid (rootfs : string) (w : W) : bool :=
  host_exists (hashtree_of rootfs) w && host_exists (roothash_of rootfs) w &&
  match host_mtime rootfs w, host_mtime (roothash_of rootfs) w with
  | Some rootfs_t, Some cache_t => rootfs_t <=? cache_t
  | _, _ => false
  end.

Definition ensure_verity (rootfs : string) : M W error VerityInfo :=
  cached ← observe (cache_valid rootfs);
  if (cached : bool) then
    s ← io_ctx "failed to read cached roothash" (host_read (roothash_of rootfs));
    mret (mk_verity (trim s) (hashtree_of rootfs))
  else
    output ← io_ctx "failed to execute veritysetup format"
               (host_command "veritysetup" ["format"%string; rootfs; hashtree_of rootfs]);
    if negb (out_success output) then
      throw (mk_error ("veritysetup format failed: " ++ out_stderr output)%str [])
    else
      h ← lift (ok_or (mk_error "failed to parse root hash from veritysetup output" [])
                  (parse_root_hash (out_stdout output)));
      io_ctx ("failed to write " ++ roothash_of rootfs)%str (host_write (roothash_of rootfs) h);;
      mret (mk_verity h (hashtree_of rootfs)).

Lemma total_ensure_verity rootfs : total (ensure_verity rootfs).
Proof. unfold ensure_verity. total_tac. by intros w p. Qed.

(** The root hash of an image: that of its cache file, when the cache is valid, otherwise the
    one [veritysetup] prints, which is then in the cache file. *)
Definition root_hash_of (rootfs h : string) (w w' : W) : Prop :=
  if cache_valid rootfs w then
    ∃ s, host_read (roothash_of rootfs) w = (inr s, w') ∧ h = trim s
  else
    ∃ output w1, host_command "veritysetup" ["format"%string; rootfs; hashtree_of rootfs] w = (inr output, w1) ∧
      out_success output = true ∧ parse_root_hash (out_stdout output) = Some h ∧
      host_write (roothash_of rootfs) h w1 = (inr tt, w').

Lemma ensure_verity_spec rootfs (Q : result error VerityInfo → W → Prop) w :
  (∀ h w', root_hash_of rootfs h w w' → Q (Ok (mk_verity h (hashtree_of rootfs))) w') →
  (∀ e w', Q (Err e) w') → wp (ensure_verity rootfs) Q w.
Proof.
  intros Hok Herr. unfold ensure_verity. apply wp_bind, wp_observe. unfold root_hash_of in Hok.
  destruct (cache_valid rootfs w).
  - apply wp_bind, wp_io_ctx; [intros s w' Hr|intros; apply Herr]. apply wp_ret, Hok. by exists s.
  - apply wp_bind, wp_io_ctx; [intros output w1 Hc|intros; apply Herr].
    destruct (out_success output) eqn:Hs; simpl; [|apply wp_throw, Herr]. apply wp_bind, wp_lift.
    unfold ok_or. destruct (parse_root_hash _) as [h|] eqn:Hp; [|apply Herr].
    apply wp_bind, wp_io_ctx; [intros [] w2 Hw|intros; apply Herr].
    apply wp_ret, Hok. exists output, w1. by split_and!.
Qed.
End host.

Definition build_kernel_cmdline (roothash workload_roothash : option string) (encrypted : bool) :
    string :=
  if encrypted then "console=ttyS0 luks=1"
  else
    let cmdline := match roothash with
                   | Some hash => ("console=ttyS0 root=/dev/mapper/verity-root ro roothash=" ++ hash)%str
                   | None => "console=ttyS0 root=/dev/vda ro"%string
                   end in
    match workload_roothash with
    | Some hash => (cmdline ++ " workload_roothash=" ++ hash)%str
    | None => cmdline
    end.
