(* ===== verification/Qemu.v ===== *)
(** * QEMU and systemd

    [src/crates/aleph-compute-node/src/qemu/args.rs], [qemu/process.rs] and
    [systemd.rs]: the argument list of a VM, and the transient unit it runs in. *)

From S2P Require Import Prelude Strs Host Json Types Tee.

Record QemuPaths := mk_paths { qmp_socket : string }.

Definition for_vm (run_dir vm : string) : QemuPaths :=
  mk_paths (path_join (path_join run_dir vm) "qmp.sock").

(** ** Arguments *)

Definition base_args (config : VmConfig) : list string :=
  ["-enable-kvm"; "-smp"; print_dec (vcpus config); "-m"; (print_dec (memory_mb config) ++ "M")%str;
   "-nographic"; "-no-reboot"]%string.

Definition boot_args (config : VmConfig) (kernel_cmdline : option string) : list string :=
  match kernel config, initrd config with
  | Some kernel, Some initrd =>
      ["-kernel"%string; kernel; "-initrd"%string; initrd] ++
      match kernel_cmdline with Some cmdline => ["-append"%string; cmdline] | None => [] end
  | _, _ => ["-boot"; "order=c"]%string
  end.

Definition drive_option (disk : DiskConfig) : string :=
  ("file=" ++ d_path disk ++ ",format=" ++ d_format disk ++ ",if=virtio,readonly=" ++
   (if d_readonly disk then "on" else "off"))%str.

(** The format is checked against an allowlist and the path for commas; both panic. *)
Definition drive_args (disk : DiskConfig) : result error (list string) :=
  if String.eqb (d_format disk) "raw" || String.eqb (d_format disk) "qcow2" then
    if contains_char ","%char (d_path disk) then
      Panic ("disk path must not contain commas: " ++ d_path disk)%str
    else Ok ["-drive"%string; drive_option disk]
  else Panic ("unsupported disk format: " ++ d_format disk ++ " (allowed: raw, qcow2)")%str.

Fixpoint drives_args (ds : list DiskConfig) : result error (list string) :=
  match ds with
  | [] => Ok []
  | d :: ds' => a ← drive_args d; r ← drives_args ds'; Ok (a ++ r)
  end.

Definition build_qemu_command {W} (config : VmConfig) (paths : QemuPaths) (tap_name : string)
    (tee_backend : TeeBackend W) (mac_addr : string) (kernel_cmdline : option string) :
    result error (list string) :=
  drives ← drives_args (disks config);
  Ok (base_args config ++ boot_args config kernel_cmdline ++
      ["-serial"; "stdio"]%string ++
      ["-qmp"%string; ("unix:" ++ qmp_socket paths ++ ",server,nowait")%str] ++
      ["-netdev"%string; ("tap,id=net0,ifname=" ++ tap_name ++ ",script=no,downscript=no")%str;
       "-device"%string; ("virtio-net-pci,netdev=net0,mac=" ++ mac_addr)%str] ++
      drives ++ qemu_args tee_backend config).

(** A disk that the argument builder accepts. *)
Definition disk_ok (d : DiskConfig) : Prop :=
  (d_format d = "raw"%string ∨ d_format d = "qcow2"%string) ∧ lacks ","%char (d_path d).

(** ** systemd *)

Definition UNIT_PREFIX : string := "aleph-cvm-vm-".
Definition unit_name (vm : string) : string := (UNIT_PREFIX ++ vm ++ ".service")%str.

(** [--property p] for each. *)
Definition properties (ps : list string) : list string := ps ≫= λ p, ["--property"%string; p].

Definition unit_args (vm : string) (run_dir : string) (rw_dirs : list string)
    (numa_cpuset : option string) (needs_sev_devices : bool) : list string :=
  let unit := unit_name vm in
  let rw_paths := ("ReadWritePaths=" ++ join " " (run_dir :: rw_dirs))%str in
  ["--unit"%string; unit] ++
  properties
    (["Type=simple"; "Restart=on-failure"; "RestartSec=5s"; "KillMode=mixed"; "TimeoutStopSec=30";
      ("SyslogIdentifier=" ++ unit)%str; "StandardOutput=journal"; "StandardError=journal";
      "NoNewPrivileges=true"; "ProtectSystem=strict"; rw_paths; "ProtectHome=true";
      "ProtectKernelTunables=true"; "ProtectKernelModules=true"; "ProtectControlGroups=true";
      "DevicePolicy=closed"; "DeviceAllow=/dev/kvm rw"; "DeviceAllow=/dev/null rw";
      "DeviceAllow=/dev/urandom r"; "DeviceAllow=/dev/net/tun rw"]%string ++
     (if needs_sev_devices then
        ["DeviceAllow=/dev/sev-guest rw"; "DeviceAllow=/dev/sev rw"]%string else []) ++
     match numa_cpuset with Some c => [("AllowedCPUs=" ++ c)%str] | None => [] end).

Section host.
Context {W : Type} `{Host W}.

Definition start_vm_unit (vm : string) (qemu_args : list string) (run_dir : string)
    (rw_dirs : list string) (numa_cpuset : option string) (needs_sev_devices : bool) :
    M W error unit :=
  match qemu_args with
  | [] => throw (mk_error "empty qemu args" [])
  | program :: args =>
      output ← io_ctx "failed to execute systemd-run"
        (host_command "systemd-run"
           (unit_args vm run_dir rw_dirs numa_cpuset needs_sev_devices ++
            ["--"%string; program] ++ args));
      if out_success output then mret tt
      else throw (mk_error ("systemd-run failed for " ++ unit_name vm ++ ": " ++
                            out_stderr output)%str [])
  end.

Definition stop_vm_unit (vm : string) : M W error unit :=
  io_ctx "failed to execute systemctl stop"
    (host_command "systemctl" ["stop"%string; unit_name vm]);;
  mret tt.

Definition is_unit_active (vm : string) : M W error bool :=
  r ← attempt (run_io (host_command "systemctl" ["is-active"; "--quiet"; unit_name vm]%string));
  mret match r with Ok output => out_success output | _ => false end.

Definition reset_failed_unit (vm : string) : M W error unit :=
  attempt (run_io (host_command "systemctl" ["reset-failed"%string; unit_name vm]));;
  mret tt.

(** ** The process of a VM *)

(** [QemuProcess] is a handle: the paths and the id of the VM whose unit it names. *)
Record QemuProcess := mk_process { p_paths : QemuPaths; p_vm_id : string }.

Definition spawn (args : list string) (paths : QemuPaths) (vm : string) (rw_dirs : list string)
    (numa_cpuset : option string) (needs_sev_devices : bool) : M W error QemuProcess :=
  vm_dir ← lift (ok_or (mk_error "qmp_socket path has no parent" []) (path_parent (qmp_socket paths)));
  io_ctx ("failed to create VM runtime dir: " ++ vm_dir)%str (host_create_dir_all vm_dir);;
  io_ctx ("failed to set permissions on " ++ vm_dir)%str (host_set_mode vm_dir 448);;
  reset_failed_unit vm;;
  start_vm_unit vm args vm_dir rw_dirs numa_cpuset needs_sev_devices;;
  mret (mk_process paths vm).

Definition reconnect (paths : QemuPaths) (vm : string) : M W error QemuProcess :=
  active ← is_unit_active vm;
  if (active : bool) then mret (mk_process paths vm)
  else throw (mk_error ("systemd unit for VM " ++ vm ++ " is not active")%str []).

Definition is_running (p : QemuProcess) : M W error bool := is_unit_active (p_vm_id p).
Definition stop (p : QemuProcess) : M W error unit := stop_vm_unit (p_vm_id p).

(** Outcomes: these calls return or fail, and never panic. *)
Lemma total_stop p : total (stop p).
Proof. unfold stop, stop_vm_unit. total_tac. Qed.

Lemma total_reconnect paths vm : total (reconnect paths vm).
Proof. unfold reconnect, is_unit_active. total_tac. Qed.

Lemma is_unit_active_spec vm (Q : result error bool → W → Prop) w :
  (∀ b w', Q (Ok b) w') → wp (is_unit_active vm) Q w.
Proof. intros HQ. unfold is_unit_active. io_steps; auto. Qed.

Lemma stop_spec p (Q : result error unit → W → Prop) w :
  (∀ w', Q (Ok tt) w') → (∀ e w', Q (Err e) w') → wp (stop p) Q w.
Proof. intros Hok Herr. unfold stop, stop_vm_unit. io_steps; auto. Qed.

Lemma spawn_spec args paths vm rw cpuset sev (Q : result error QemuProcess → W → Prop) w :
  (∀ w', Q (Ok (mk_process paths vm)) w') → (∀ e w', Q (Err e) w') →
  wp (spawn args paths vm rw cpuset sev) Q w.
Proof.
  intros Hok Herr. unfold spawn. apply wp_bind, wp_lift. unfold ok_or.
  destruct (path_parent (qmp_socket paths)) as [vm_dir|]; simpl; [|apply Herr].
  apply wp_bind, wp_io_ctx; [intros [] w1 _|intros; apply Herr].
  apply wp_bind, wp_io_ctx; [intros [] w2 _|intros; apply Herr].
  apply wp_bind. unfold reset_failed_unit. apply wp_bind, wp_attempt, wp_run_io; intros; simpl;
    apply wp_ret, wp_bind; unfold start_vm_unit; destruct args; try (apply wp_throw, Herr);
    (apply wp_bind, wp_io_ctx; [intros o w4 _|intros; apply Herr]);
    (destruct (out_success o); [apply wp_ret, wp_ret, Hok|apply wp_throw, Herr]).
Qed.

Lemma reconnect_spec paths vm (Q : result error QemuProcess → W → Prop) w :
  (∀ w', Q (Ok (mk_process paths vm)) w') → (∀ e w', Q (Err e) w') →
  wp (reconnect paths vm) Q w.
Proof.
  intros Hok Herr. unfold reconnect. apply wp_bind, is_unit_active_spec.
  intros [] w'; [apply wp_ret, Hok|apply wp_throw, Herr].
Qed.
End host.

(** ** Properties *)

Section arguments.

Lemma drive_args_cases d :
  drive_args d = Ok ["-drive"%string; drive_option d] ∧ disk_ok d ∨
  (∃ p, drive_args d = Panic p) ∧ ¬ disk_ok d.
Proof.
  unfold drive_args, disk_ok, lacks.
  destruct (String.eqb_spec (d_format d) "raw"), (String.eqb_spec (d_format d) "qcow2"),
    (contains_char ","%char (d_path d)) eqn:Hc; simpl; (left; split; [done|tauto]) ||
    (right; split; [by eexists|]; rewrite ?Hc; naive_solver).
Qed.

Lemma drives_args_ok ds :
  Forall disk_ok ds → drives_args ds = Ok (ds ≫= λ d, ["-drive"%string; drive_option d]).
Proof.
  induction 1 as [|d ds Hd Hds IH]; [done|]. simpl.
  destruct (drive_args_cases d) as [[-> _]|[_ Hn]]; [|done]. simpl. by rewrite IH.
Qed.

Lemma drives_args_panic ds :
  ¬ Forall disk_ok ds → ∃ p, drives_args ds = Panic p.
Proof.
  induction ds as [|d ds IH]; intros Hn; [by destruct Hn|]. simpl.
  destruct (drive_args_cases d) as [[-> Hd]|[[p ->] _]]; [|by exists p]. simpl.
  destruct IH as [p ->]; [|by exists p]. intros Hds. by apply Hn; constructor.
Qed.

Lemma drives_args_cases ds :
  drives_args ds = Ok (ds ≫= λ d, ["-drive"%string; drive_option d]) ∧ Forall disk_ok ds ∨
  (∃ p, drives_args ds = Panic p) ∧ ¬ Forall disk_ok ds.
Proof.
  destruct (decide (Forall (λ d, (d_format d = "raw"%string ∨ d_format d = "qcow2"%string) ∧
    contains_char ","%char (d_path d) = false) ds)) as [Hds|Hds];
    [left; split; [by apply drives_args_ok|done]|right; split; [by apply drives_args_panic|done]].
Qed.

Lemma drive_option_split d :
  disk_ok d →
  split_char ","%char (drive_option d) =
  [("file=" ++ d_path d)%str; ("format=" ++ d_format d)%str; "if=virtio"%string;
   ("readonly=" ++ if d_readonly d then "on" else "off")%str].
Proof.
  intros [Hf Hp].
  assert (lacks ","%char (d_format d)) as Hfc by (destruct Hf as [-> | ->]; done).
  unfold drive_option.
  assert (∀ s, ("file=" ++ d_path d ++ ",format=" ++ d_format d ++ ",if=virtio,readonly=" ++ s =
    ("file=" ++ d_path d) ++ String "," (("format=" ++ d_format d) ++ String ","
      ("if=virtio" ++ String "," ("readonly=" ++ s))))%str) as ->.
  { reflexivity. }
  rewrite !split_char_app by (by rewrite ?lacks_app).
  rewrite split_char_lacks; [done|]. by destruct (d_readonly d).
Qed.

(** C31: [build_qemu_command] returns exactly when every disk has an allowed format and a
    path without commas, and panics otherwise. When it returns, each disk contributes
    one [-drive] option that QEMU, which separates options by commas, reads as the
    four settings intended, so no path can add one. *)
Theorem qemu_drives_exact {W} config paths tap (b : TeeBackend W) mac cmdline :
  (Forall disk_ok (disks config) →
     ∃ pre post, build_qemu_command config paths tap b mac cmdline =
       Ok (pre ++ (disks config ≫= λ d, ["-drive"%string; drive_option d]) ++ post)) ∧
  (¬ Forall disk_ok (disks config) →
     ∃ p, build_qemu_command config paths tap b mac cmdline = Panic p) ∧
  (∀ d, disk_ok d → split_char ","%char (drive_option d) =
     [("file=" ++ d_path d)%str; ("format=" ++ d_format d)%str; "if=virtio"%string;
      ("readonly=" ++ if d_readonly d then "on" else "off")%str]).
Proof.
  split_and!.
  - intros Hds. unfold build_qemu_command. rewrite drives_args_ok by done. simpl.
    exists (base_args config ++ boot_args config cmdline ++ ["-serial"; "stdio"]%string ++
      ["-qmp"%string; ("unix:" ++ qmp_socket paths ++ ",server,nowait")%str] ++
      ["-netdev"%string; ("tap,id=net0,ifname=" ++ tap ++ ",script=no,downscript=no")%str;
       "-device"%string; ("virtio-net-pci,netdev=net0,mac=" ++ mac)%str]), (qemu_args b config).
    by rewrite <-!app_assoc.
  - intros Hds. unfold build_qemu_command. destruct (drives_args_panic _ Hds) as [p ->]. by exists p.
  - apply drive_option_split.
Qed.

(** Unit names of different VMs differ. *)
Lemma unit_name_inj vm vm' : unit_name vm = unit_name vm' → vm = vm'.
Proof.
  unfold unit_name. intros H. apply (inj (String.append _)) in H.
  assert (strip_suffix ".service" (vm ++ ".service") = strip_suffix ".service" (vm' ++ ".service"))
    as Hs by (by rewrite H).
  rewrite !strip_suffix_app in Hs. congruence.
Qed.
End arguments.
