(* ===== verification/Qmp.v ===== *)
(** * The QMP client

    [src/crates/aleph-compute-node/src/qemu/qmp.rs]: the client of QEMU's monitor socket,
    which the rest of the node does not use. The socket and the protocol belong to the
    standard library and to qapi. *)

From S2P Require Import Prelude Strs Crypto.
#[local] Open Scope Z_scope.

(** A connection to a monitor socket, and qapi's commands over it. *)
Class Qapi (Conn W : Type) := {
  unix_connect : string → W → (string + Conn) * W;
  (** seconds *)
  set_read_timeout : Conn → Z → W → (string + unit) * W;
  set_write_timeout : Conn → Z → W → (string + unit) * W;
  clone_stream : Conn → W → (string + unit) * W;
  qmp_handshake : Conn → W → (string + unit) * W;
  (** the [Debug] text of the status *)
  qmp_query_status : Conn → W → (string + string) * W;
  qmp_quit : Conn → W → (string + unit) * W;
  qmp_stop : Conn → W → (string + unit) * W;
  qmp_cont : Conn → W → (string + unit) * W;
  (** milliseconds *)
  thread_sleep : Z → W → W;
}.

Section client.
Context {Conn W : Type} `{Qapi Conn W}.

Record QmpClient := mk_qmp { qmp : Conn }.

(** [map_err(|e| anyhow!("name failed: {e}"))]. *)
Definition or_failed {A} (name : string) (op : W → (string + A) * W) : M W error A :=
  map_errM (λ e, mk_error (name ++ " failed: " ++ err_msg e)%str []) (run_q op).

(** The arm of a successful connection. *)
Definition set_up (stream : Conn) : M W error QmpClient :=
  run_ext "set_read_timeout" (set_read_timeout stream 5);;
  run_ext "set_write_timeout" (set_write_timeout stream 5);;
  run_ext "clone stream" (clone_stream stream);;
  or_failed "QMP handshake" (qmp_handshake stream);;
  mret (mk_qmp stream).

Fixpoint connect_attempts (socket_path : string) (retries : Z) (attempts : list Z)
    (last_err : option string) : M W error QmpClient := λ w,
  match attempts with
  | [] =>
      match last_err with
      | Some e => (Err (mk_error ("failed to connect to QMP socket " ++ socket_path ++ " after " ++
                     print_dec (wrap 32 (retries + 1)) ++ " attempts: " ++ e)%str []), w)
      | None => (Panic "called `Option::unwrap()` on a `None` value", w)
      end
  | attempt :: rest =>
      match unix_connect socket_path w with
      | (inr stream, w') => set_up stream w'
      | (inl e, w') =>
          connect_attempts socket_path retries rest (Some e)
            (if attempt <? retries then thread_sleep 500 w' else w')
      end
  end.

Definition connect (socket_path : string) (retries : Z) : M W error QmpClient :=
  connect_attempts socket_path retries (range 0 (retries + 1)) None.

Definition query_status (client : QmpClient) : M W error string :=
  or_failed "query-status" (qmp_query_status (qmp client)).
Definition quit (client : QmpClient) : M W error unit := or_failed "quit" (qmp_quit (qmp client)).
Definition stop (client : QmpClient) : M W error unit := or_failed "stop" (qmp_stop (qmp client)).
Definition cont (client : QmpClient) : M W error unit := or_failed "cont" (qmp_cont (qmp client)).

(** ** Attempts *)

(** [n] attempts that failed, each followed by a pause. *)
Inductive refused (socket_path : string) : Z → W → W → Prop :=
| refused_none w : refused socket_path 0 w w
| refused_one n w w1 e w2 :
    0 ≤ n → refused socket_path n w w1 → unix_connect socket_path w1 = (inl e, w2) →
    refused socket_path (n + 1) w (thread_sleep 500 w2).

(** The outcome of [connect]: the first attempt that is accepted decides, after at most
    [retries] that were refused; if all are, the text of the last refusal is reported. *)
Definition connect_outcome (socket_path : string) (retries : Z) (w : W) (out : result error QmpClient * W)
    : Prop :=
  (∃ k w1 stream w2, 0 ≤ k ≤ retries ∧ refused socket_path k w w1 ∧
     unix_connect socket_path w1 = (inr stream, w2) ∧ out = set_up stream w2) ∨
  (∃ w1 e w2, refused socket_path retries w w1 ∧ unix_connect socket_path w1 = (inl e, w2) ∧
     out = (Err (mk_error ("failed to connect to QMP socket " ++ socket_path ++ " after " ++
       print_dec (wrap 32 (retries + 1)) ++ " attempts: " ++ e)%str []), w2)).

Lemma connect_attempts_outcome path retries k n w0 w last :
  Z.of_nat n = retries - k → 0 ≤ k → refused path k w0 w →
  connect_outcome path retries w0
    (connect_attempts path retries (seqZ k (Z.of_nat n + 1)) last w).
Proof.
  revert k w last. induction n as [|n IH]; intros k w last Hn Hk Hr;
    rewrite seqZ_cons by lia; simpl; destruct (unix_connect path w) as [[e|stream] w1] eqn:Hc.
  - replace (Z.pred (Z.of_nat 0 + 1)) with 0 by lia. simpl.
    rewrite (proj2 (Z.ltb_ge k retries)) by lia. right. exists w, e, w1.
    by replace retries with k at 1 by lia.
  - left. exists k, w, stream, w1. split_and!; [lia|lia|done..].
  - rewrite (proj2 (Z.ltb_lt k retries)) by lia.
    replace (Z.pred (Z.of_nat (S n) + 1)) with (Z.of_nat n + 1) by lia.
    apply IH; [lia|lia|]. by econstructor.
  - left. exists k, w, stream, w1. split_and!; [lia|lia|done..].
Qed.

(** Connecting ends after at most [retries + 1] attempts and never reaches the [unwrap]
    of a missing error. *)
Lemma connect_bounded path retries w :
  0 ≤ retries ≤ u32_max → connect_outcome path retries w (connect path retries w).
Proof.
  intros Hr. unfold connect, range.
  replace (retries + 1 - 0) with (Z.of_nat (Z.to_nat retries) + 1) by lia.
  apply (connect_attempts_outcome path retries 0); [lia|lia|constructor].
Qed.
End client.
