(* ===== verification/Persistence.v ===== *)
(** * Persisted VM state

    [src/crates/aleph-compute-node/src/persistence.rs]: one JSON file per VM, written
    to a temporary file that is synced and renamed over the old one. *)

From S2P Require Import Prelude Strs Host HostSim Json Types NetTypes Instances.

Record PersistedVm (Net : Type) := mk_persisted {
  pv_config : VmConfig;
  pv_ip : Ipv4Addr;
  pv_ipv6 : option Net;
  pv_tap_name : string;
  pv_mac_addr : string;
  pv_port_forwards : list PortForward;
  pv_created_at_epoch : Z;  (** u64 *)
  pv_numa_node : option Z;  (** u32 *)
}.
Arguments mk_persisted {Net}.
Arguments pv_config {Net}.
Arguments pv_ip {Net}.
Arguments pv_ipv6 {Net}.
Arguments pv_tap_name {Net}.
Arguments pv_mac_addr {Net}.
Arguments pv_port_forwards {Net}.
Arguments pv_created_at_epoch {Net}.
Arguments pv_numa_node {Net}.

Section persistence.
Context {Net W : Type} `{IpNet Net} `{Host W} `{SerdeJson}.
Implicit Types vm : PersistedVm Net.

(** ** JSON *)

Definition net_json (n : Net) : json := JStr (net_print n).
Definition net_of_json (v : json) : option Net := as_str v ≫= net_parse.
Definition ipv4_of_json (v : json) : option Ipv4Addr := as_str v ≫= parse_ipv4.

Definition persisted_fields : list string :=
  ["config"; "ip"; "ipv6"; "tap_name"; "mac_addr"; "port_forwards"; "created_at_epoch"; "numa_node"].
Definition persisted_json vm : json :=
  JObj [("config", config_json (pv_config vm)); ("ip", JStr (print_ipv4 (pv_ip vm)));
        ("ipv6", to_option net_json (pv_ipv6 vm)); ("tap_name", JStr (pv_tap_name vm));
        ("mac_addr", JStr (pv_mac_addr vm));
        ("port_forwards", JArr (forward_json <$> pv_port_forwards vm));
        ("created_at_epoch", JNum (pv_created_at_epoch vm));
        ("numa_node", to_option JNum (pv_numa_node vm))]%string.
Definition persisted_of_json (v : json) : option (PersistedVm Net) :=
  if no_duplicate_field persisted_fields v then
    c ← field config_of_json "config" v;
    i ← field ipv4_of_json "ip" v;
    i6 ← field_option net_of_json "ipv6" v;
    t ← field as_str "tap_name" v;
    m ← field as_str "mac_addr" v;
    fs ← field (of_list forward_of_json) "port_forwards" v;
    e ← field (of_uint u64_max) "created_at_epoch" v;
    n ← field_option (of_uint u32_max) "numa_node" v;
    Some (mk_persisted c i i6 t m fs e n)
  else None.

(** [serde_json::from_str::<PersistedVm>]. *)
Definition parse_persisted (s : string) : option (PersistedVm Net) :=
  json_parse s ≫= persisted_of_json.

Definition persisted_wf vm : Prop :=
  config_wf (pv_config vm) ∧ ipv4_wf (pv_ip vm) ∧ Forall forward_wf (pv_port_forwards vm) ∧
  0 ≤ pv_created_at_epoch vm ≤ u64_max ∧
  match pv_numa_node vm with Some n => 0 ≤ n ≤ u32_max | None => True end.

(** ** Operations *)

Definition state_path (state_dir name : string) : string := path_join state_dir (name ++ ".json")%str.
Definition tmp_path (state_dir name : string) : string :=
  path_join state_dir (name ++ ".json.tmp")%str.

Definition save_vm (state_dir name : string) vm : M W error unit :=
  io_ctx ("failed to create state dir: " ++ state_dir)%str (host_create_dir_all state_dir);;
  let path := state_path state_dir name in
  let json := json_print_pretty (persisted_json vm) in
  let tmp := tmp_path state_dir name in
  io_ctx ("failed to create " ++ tmp)%str (host_create tmp);;
  io_ctx ("failed to write " ++ tmp)%str (host_append tmp json);;
  io_ctx ("failed to fsync " ++ tmp)%str (host_sync tmp);;
  io_ctx ("failed to rename " ++ tmp ++ " -> " ++ path)%str (host_rename tmp path).

(** The loop over the directory's entries. *)
Fixpoint load_entries (state_dir : string) (entries : list (io_error + string)) :
    M W error (list (PersistedVm Net)) :=
  match entries with
  | [] => mret []
  | inl e :: _ => throw (from_io e)
  | inr name :: entries' =>
      vm ← (if bool_decide (extension name = Some "json"%string) then
              r ← attempt (run_io (host_read (path_join state_dir name)));
              mret match r with Ok json => parse_persisted json | _ => None end
            else mret None);
      vms ← load_entries state_dir entries';
      mret (match vm with Some vm => vm :: vms | None => vms end)
  end.

Definition load_all_vms (state_dir : string) : M W error (list (PersistedVm Net)) :=
  r ← attempt (run_io (host_read_dir state_dir));
  match r with
  | Ok entries => load_entries state_dir entries
  | Err e =>
      match ioe_kind e with
      | IoNotFound => mret []
      | _ => throw (add_context "failed to read state dir" (from_io e))
      end
  | Panic p => lift (Panic p)
  end.

Definition delete_vm (state_dir name : string) : M W error unit :=
  r ← attempt (run_io (host_remove_file (state_path state_dir name)));
  match r with
  | Ok _ => mret tt
  | Err e =>
      match ioe_kind e with
      | IoNotFound => mret tt
      | _ => throw (add_context ("failed to delete " ++ state_path state_dir name)%str (from_io e))
      end
  | Panic p => lift (Panic p)
  end.

(** ** Lemmas *)

Lemma persisted_of_to_json vm : persisted_wf vm → persisted_of_json (persisted_json vm) = Some vm.
Proof.
  destruct vm as [c i i6 t m fs e n]. unfold persisted_wf. simpl. intros (Hc & Hi & Hfs & He & Hn).
  unfold persisted_of_json. change (no_duplicate_field _ _) with true. cbv iota.
  set (v := persisted_json _).
  rewrite (field_lookup _ "config" v (config_json c) eq_refl).
  rewrite (field_lookup _ "ip" v (JStr (print_ipv4 i)) eq_refl).
  rewrite (field_option_lookup _ "ipv6" v (to_option net_json i6) eq_refl).
  rewrite (field_lookup _ "tap_name" v (JStr t) eq_refl).
  rewrite (field_lookup _ "mac_addr" v (JStr m) eq_refl).
  rewrite (field_lookup _ "port_forwards" v (JArr (forward_json <$> fs)) eq_refl).
  rewrite (field_lookup _ "created_at_epoch" v (JNum e) eq_refl).
  rewrite (field_option_lookup _ "numa_node" v (to_option JNum n) eq_refl).
  assert (ipv4_of_json (JStr (print_ipv4 i)) = Some i) as -> by by apply parse_print_ipv4.
  assert (of_list forward_of_json (JArr (forward_json <$> fs)) = Some fs) as ->.
  { apply of_list_fmap. eapply Forall_impl; [done|]. apply forward_of_to_json. }
  rewrite config_of_to_json, of_uint_ok by done.
  rewrite !of_to_option; [done|..].
  - intros a ->. unfold net_of_json, net_json. simpl. by rewrite net_parse_print.
  - intros a ->. by rewrite of_uint_ok.
Qed.

Lemma parse_persisted_print vm :
  persisted_wf vm → parse_persisted (json_print_pretty (persisted_json vm)) = Some vm.
Proof.
  intros Hwf. unfold parse_persisted. rewrite json_parse_print_pretty. by apply persisted_of_to_json.
Qed.

Lemma path_join_ext d a b : starts_with "/" a = starts_with "/" b → path_join d a = path_join d b → a = b.
Proof.
  unfold path_join. intros Hs. rewrite <-Hs.
  destruct (starts_with "/" a); [done|]. destruct (is_empty d); [done|].
  destruct (ends_with "/" d); intros Hp; apply (inj (String.append _)) in Hp; [done|].
  by apply (inj (String.append _)) in Hp.
Qed.

Lemma starts_with_slash_app name s t :
  starts_with "/" s = starts_with "/" t →
  starts_with "/" (name ++ s)%str = starts_with "/" (name ++ t)%str.
Proof.
  intros Hst. destruct name as [|c name]; [done|].
  change (String c name ++ s)%str with (String c (name ++ s)).
  change (String c name ++ t)%str with (String c (name ++ t)). by rewrite !starts_with_char.
Qed.

Lemma starts_with_slash_json name : starts_with "/" (name ++ ".json")%str = starts_with "/" name.
Proof.
  destruct name as [|c name]; [done|].
  change (String c name ++ ".json")%str with (String c (name ++ ".json")).
  by rewrite !starts_with_char.
Qed.

Lemma state_path_inj d a b :
  starts_with "/" a = starts_with "/" b → state_path d a = state_path d b → a = b.
Proof.
  intros Hs Hp. apply path_join_ext in Hp.
  - assert (strip_suffix ".json" (a ++ ".json") = strip_suffix ".json" (b ++ ".json")) as Hab
      by (by rewrite Hp).
    rewrite !strip_suffix_app in Hab. congruence.
  - by rewrite !starts_with_slash_json.
Qed.

Lemma tmp_not_state d name : tmp_path d name ≠ state_path d name.
Proof.
  intros Hp. apply path_join_ext in Hp; [|by apply starts_with_slash_app].
  by apply (inj (String.append _)) in Hp.
Qed.

Lemma tmp_extension name : extension (name ++ ".json.tmp")%str = Some "tmp"%string.
Proof. unfold extension. by rewrite str_rev_app. Qed.

Lemma total_save_vm d name vm : total (save_vm d name vm).
Proof. unfold save_vm. total_tac. Qed.

Lemma total_delete_vm d name : total (delete_vm d name).
Proof.
  intros w p. unfold delete_vm, attempt, run_io, mbind, M_bind.
  destruct (host_remove_file _ w) as [[e|u] w']; simpl; [|done]. by destruct (ioe_kind e).
Qed.

Lemma load_entries_total d entries (Q : result error (list (PersistedVm Net)) → W → Prop) w :
  (∀ r w', (∀ p, r ≠ Panic p) → Q r w') → wp (load_entries d entries) Q w.
Proof.
  revert Q w. induction entries as [|[e|name] entries IH]; intros Q w HQ; simpl.
  - apply wp_ret, HQ. by intros p.
  - apply wp_throw, HQ. by intros p.
  - apply wp_bind. case_bool_decide; [|apply wp_ret].
    + apply wp_bind, wp_attempt, wp_run_io; intros; apply wp_ret, wp_bind, IH;
        (intros [vms|e'|p] w2 Hr; [by apply wp_ret, HQ|by apply HQ|by destruct (Hr p)]).
    + apply wp_bind, IH. intros [vms|e'|p] w2 Hr; [by apply wp_ret, HQ|by apply HQ|by destruct (Hr p)].
Qed.
End persistence.

(** ** Atomicity *)

Section atomic.
Context {Net W : Type} `{IpNet Net} `{HostDisk W} `{SerdeJson}.

(** Every file but one is as it was, also if the power fails. *)
Definition spared (tmp : string) (w w' : W) : Prop :=
  (∀ q, q ≠ tmp → host_files w' !! q = host_files w !! q) ∧
  (∀ q x, q ≠ tmp → after_loss w' q x → after_loss w q x).

#[local] Instance spared_preorder tmp : PreOrder (spared tmp).
Proof.
  split; [by intros w; split|]. intros w1 w2 w3 [F12 L12] [F23 L23]. split; [|by eauto].
  intros q Hq. by rewrite F23, F12.
Qed.

Lemma spared_mkdir tmp p w : spared tmp w (host_create_dir_all p w).2.
Proof. split; intros; [by rewrite files_mkdir|by eapply loss_mkdir]. Qed.
Lemma spared_create tmp w : spared tmp w (host_create tmp w).2.
Proof. split; intros; [by apply files_create_frame|by eapply loss_create_frame]. Qed.
Lemma spared_append tmp s w : spared tmp w (host_append tmp s w).2.
Proof. split; intros; [by apply files_append_frame|by eapply loss_append_frame]. Qed.
Lemma spared_sync tmp w : spared tmp w (host_sync tmp w).2.
Proof. split; intros; [by rewrite files_sync|by eapply loss_sync_frame]. Qed.

(** A step of writing the temporary file: when it fails, every other file is spared. *)
Lemma spared_step {A} tmp msg (op : IO W A) (f : A → M W error unit) (Q : result error unit → W → Prop) w0 w :
  spared tmp w0 w → (∀ w, spared tmp w (op w).2) →
  (∀ e w', spared tmp w0 w' → Q (Err e) w') →
  (∀ a w', op w = (inr a, w') → spared tmp w0 w' → wp (f a) Q w') →
  wp (io_ctx msg op ≫= f) Q w.
Proof.
  intros Hw Hop Herr Hok. apply wp_bind, wp_io_ctx; intros x w' Ho; specialize (Hop w); rewrite Ho in Hop.
  - apply Hok; [done|]. by etransitivity.
  - apply Herr. by etransitivity.
Qed.

(** The whole new file, or everything as it was. *)
Definition saved_or_spared (path tmp js : string) (w : W) (r : result error unit) (w' : W) : Prop :=
  match r with
  | Ok _ => host_files w' !! path = Some js
  | Err _ => host_files w' !! path = host_files w !! path
  | Panic _ => False
  end ∧
  (∀ q, q ≠ path → q ≠ tmp → host_files w' !! q = host_files w !! q) ∧
  (∀ x, after_loss w' path x → after_loss w path x ∨ x = Some js) ∧
  (∀ q x, q ≠ path → q ≠ tmp → after_loss w' q x → after_loss w q x).

Lemma spared_err path tmp js w e w' :
  path ≠ tmp → spared tmp w w' → saved_or_spared path tmp js w (Err e) w'.
Proof. intros Hne [F L]. split; [by apply F|]. split; [by intros; apply F|]. split; [left; by eapply L|by eauto]. Qed.

Lemma save_vm_outcome d name (vm : PersistedVm Net) w :
  wp (save_vm d name vm) (saved_or_spared (state_path d name) (tmp_path d name)
    (json_print_pretty (persisted_json vm)) w) w.
Proof.
  assert (state_path d name ≠ tmp_path d name) as Hne by (apply not_eq_sym, tmp_not_state).
  unfold save_vm. set (path := state_path d name) in *. set (tmp := tmp_path d name) in *.
  set (js := json_print_pretty _).
  apply (spared_step tmp _ _ _ _ w); [done|apply spared_mkdir|by intros; apply spared_err|]. intros [] w1 _ S1.
  apply (spared_step tmp _ _ _ _ w); [done|apply spared_create|by intros; apply spared_err|]. intros [] w2 Ho2 S2.
  pose proof (files_create_ok tmp w1 tt) as F2. rewrite Ho2 in F2. specialize (F2 eq_refl). simpl in F2.
  apply (spared_step tmp _ _ _ _ w); [done|apply spared_append|by intros; apply spared_err|]. intros [] w3 Ho3 S3.
  pose proof (files_append_ok tmp js w2 tt "") as F3. rewrite Ho3 in F3. specialize (F3 eq_refl F2). simpl in F3.
  apply (spared_step tmp _ _ _ _ w); [done|apply spared_sync|by intros; apply spared_err|]. intros [] w4 Ho4 S4.
  pose proof (files_sync tmp w3) as F4. pose proof (synced_sync tmp w3 tt) as D4. rewrite Ho4 in F4, D4.
  specialize (D4 eq_refl). simpl in F4, D4. rewrite <-F4 in F3.
  destruct S4 as [Hf Hl]. apply wp_io_ctx; intros x w5 Ho5.
  - pose proof (files_rename_ok tmp path w4 x) as F5. pose proof (loss_rename tmp path w4 x) as L5.
    pose proof (loss_rename_frame tmp path w4) as L5'. rewrite Ho5 in F5, L5, L5'. simpl in F5, L5, L5'.
    destruct (F5 eq_refl) as (s & Hs & Hfiles). simplify_eq. unfold saved_or_spared. rewrite Hfiles.
    split; [by rewrite lookup_insert_eq|]. split.
    + intros q Hq1 Hq2. rewrite lookup_insert_ne, lookup_delete_ne by done. by apply Hf.
    + split; [|by intros q y Hq1 Hq2 Hy%L5'; eauto].
      intros y [Hy| ->]%L5; [left; by apply Hl|right|done|done]. exact F3.
  - pose proof (files_rename_err tmp path w4 x) as F5. pose proof (λ q, loss_rename_err tmp path w4 x q) as L5.
    rewrite Ho5 in F5, L5. simpl in F5, L5. apply spared_err; [done|]. split; intros q.
    + rewrite (F5 eq_refl). apply Hf.
    + intros y Hq Hy%L5; [|done]. by apply Hl.
Qed.
End atomic.

(** ** Properties *)

(** C7: saving a VM is atomic, for an error, for a process that dies and for a power loss.
    Whatever operation of the host fails, and whatever a failed write leaves in the
    temporary file: after [save_vm] the state file holds its old content when there was an
    error, and otherwise the new VM, which reads back equal. If the power fails then, the
    state file has a content it could have had before, or the whole new VM, which needs the
    sync before the rename. No other file changes in either sense, and the temporary file
    is not one that loading looks at. *)
Theorem save_vm_atomic {Net W} `{IpNet Net} `{HostDisk W} `{SerdeJson} d name
    (vm : PersistedVm Net) w :
  persisted_wf vm →
  let path := state_path d name in
  wp (save_vm d name vm) (λ r w',
    match r with
    | Ok _ => ∃ s, host_files w' !! path = Some s ∧ parse_persisted s = Some vm
    | Err _ => host_files w' !! path = host_files w !! path
    | Panic _ => False
    end ∧
    (∀ q, q ≠ path → q ≠ tmp_path d name → host_files w' !! q = host_files w !! q) ∧
    (∀ x, after_loss w' path x → after_loss w path x ∨ ∃ s, x = Some s ∧ parse_persisted s = Some vm) ∧
    (∀ q x, q ≠ path → q ≠ tmp_path d name → after_loss w' q x → after_loss w q x)) w ∧
  tmp_path d name ≠ path ∧ extension (name ++ ".json.tmp")%str = Some "tmp"%string.
Proof.
  intros Hwf path. split_and!; [|apply tmp_not_state|apply tmp_extension].
  eapply wp_mono; [apply save_vm_outcome|]. intros r w' (Hr & Hf & Hl & Hl').
  pose proof (parse_persisted_print vm Hwf) as Hp. split_and!; [|done| |done].
  - destruct r; [by eexists|done..].
  - intros x [Hx| ->]%Hl; [by left|right; by eexists].
Qed.

Definition demo_config : VmConfig :=
  mk_config "vm-001" (Some "/boot/vmlinuz"%string) (Some "/boot/initrd.img"%string)
    [mk_disk "/images/rootfs.ext4" true "raw"] 2 1024 (mk_tee SevSnp None) false (Some 1)
    (Some Size2M).
Definition demo_persisted : PersistedVm sim_net :=
  mk_persisted demo_config 167797762 None "tap-vm-001" "52:54:00:00:64:02"
    [mk_forward "vm-001" 8080 80 Tcp] 1700000000 (Some 1).

Lemma demo_persisted_wf : persisted_wf demo_persisted.
Proof.
  unfold persisted_wf, config_wf, ipv4_wf, u32_max, u64_max. simpl.
  split_and!; try lia. constructor; [|constructor]. unfold forward_wf, u16_max. simpl. lia.
Qed.

(** A disk that writes late: after the save the power may fail, and the state file is then
    the old one or the new VM; when the sync, the fourth operation, fails, it is the old one. *)
Definition demo_disk (fails : list bool) : cached :=
  mk_cached (mk_sim {[ "/state/vm-001.json"%string := "old"%string ]} fails [] [] 0 []) ∅ [].
Lemma save_vm_atomic_witness :
  let path := "/state/vm-001.json"%string in
  (∀ x, after_loss (save_vm "/state" "vm-001" demo_persisted (demo_disk [])).2 path x →
     x = Some "old"%string ∨ ∃ s, x = Some s ∧ parse_persisted s = Some demo_persisted) ∧
  match save_vm "/state" "vm-001" demo_persisted (demo_disk [false; false; false; true]) with
  | (r, w') => is_err r = true → host_files w' !! path = Some "old"%string
  end.
Proof.
  intros path.
  assert (∀ fails, _) as H by (intros fails;
    exact (save_vm_atomic "/state" "vm-001" demo_persisted (demo_disk fails) demo_persisted_wf)).
  split.
  - destruct (H []) as [(_ & _ & Hl & _) _]. intros x [Hx|Hx]%Hl; [left|by right].
    destruct Hx as [[Hd _]|[Hx|Hx]]; [by apply elem_of_empty in Hd|exact Hx|by apply elem_of_nil in Hx].
  - destruct (H [false; false; false; true]) as [(Hr & _) _].
    destruct (save_vm "/state" "vm-001" demo_persisted (demo_disk [false; false; false; true])) as [[u|e|p] w'];
      [done|intros _; exact Hr|done].
Defined.

Section load.
Context {Net W : Type} `{IpNet Net} `{HostFs W} `{SerdeJson}.

(** A VM that a directory holds: the content of one of its JSON files. *)
Definition stored (d : string) (entries : list (io_error + string)) (w : W) (vm : PersistedVm Net) :
    Prop :=
  ∃ name s, inr name ∈ entries ∧ extension name = Some "json"%string ∧
    host_files w !! path_join d name = Some s ∧ parse_persisted s = Some vm.

Lemma load_entries_sound d entries w w0 :
  host_files w = host_files w0 →
  wp (load_entries d entries) (λ r w', host_files w' = host_files w0 ∧
    match r with
    | Ok vms => ∀ vm, vm ∈ vms → stored d entries w0 vm
    | Err _ => ∃ e, inl e ∈ entries
    | Panic _ => False
    end) w.
Proof.
  revert w. induction entries as [|[e|name] entries IH]; intros w Hw; simpl.
  - apply wp_ret. split; [done|]. set_solver.
  - apply wp_throw. split; [done|]. exists e. set_solver.
  - assert (∀ o w1, host_files w1 = host_files w0 →
      (∀ vm, o = Some vm → stored d (inr name :: entries) w0 vm) →
      wp (vms ← load_entries d entries; mret (match o with Some vm => vm :: vms | None => vms end))
        (λ r w', host_files w' = host_files w0 ∧
          match r with
          | Ok vms => ∀ vm, vm ∈ vms → stored d (inr name :: entries) w0 vm
          | Err _ => ∃ e, inl e ∈ inr name :: entries
          | Panic _ => False
          end) w1) as Hrest.
    { intros o w1 Hw1 Ho. apply wp_bind. eapply wp_mono; [by apply IH|].
      intros [vms|e|p] w2 [Hw2 Hr]; simpl; [|by split; [|set_solver]|done].
      apply wp_ret. split; [done|]. intros vm Hvm.
      assert (vm ∈ vms ∨ o = Some vm) as [Hin|Hin] by (destruct o; set_solver); [|by apply Ho].
      destruct (Hr vm Hin) as (n & s & Hn & ?). exists n, s. split; [set_solver|done]. }
    apply wp_bind. case_bool_decide as Hext; [|by apply wp_ret, (Hrest None)].
    apply wp_bind, wp_attempt, wp_run_io.
    + intros s w1 Hop. pose proof (files_read (path_join d name) w) as Hf. rewrite Hop in Hf.
      simpl in Hf. pose proof (files_read_ok (path_join d name) w s) as Hs. rewrite Hop in Hs.
      specialize (Hs eq_refl). apply wp_ret, (Hrest (parse_persisted s)); [congruence|].
      intros vm Hvm. exists name, s. rewrite <-Hw. split_and!; [set_solver|done..].
    + intros e w1 Hop. pose proof (files_read (path_join d name) w) as Hf. rewrite Hop in Hf.
      simpl in Hf. apply wp_ret, (Hrest None); [congruence|done].
Qed.
End load.

(** Loading never changes a file, never panics, and returns only VMs that a JSON file
    of the directory holds. Files that cannot be read or parsed are skipped: an error
    comes only from the directory listing. *)
Theorem load_all_vms_sound {Net W} `{IpNet Net} `{HostFs W} `{SerdeJson} d w :
  wp (load_all_vms d) (λ r w', host_files w' = host_files w ∧
    match r with
    | Ok vms => ∀ vm : PersistedVm Net, vm ∈ vms →
        ∃ entries, (host_read_dir d w).1 = inr entries ∧ stored d entries w vm
    | Err _ => (∃ e, (host_read_dir d w).1 = inl e ∧ ioe_kind e ≠ IoNotFound) ∨
        ∃ entries e, (host_read_dir d w).1 = inr entries ∧ inl e ∈ entries
    | Panic _ => False
    end) w.
Proof.
  unfold load_all_vms. pose proof (files_read_dir d w) as Hf.
  apply wp_bind, wp_attempt, wp_run_io; intros x w1 Hop; rewrite Hop in Hf; simpl in Hf.
  - eapply wp_mono; [by apply (load_entries_sound d x w1 w)|].
    intros [vms|e|p] w2 [Hw2 Hr]; simpl; rewrite ?Hop; simpl; [by eauto| |done].
    split; [done|]. right. destruct Hr as [e' He']. eauto.
  - rewrite Hop. simpl. destruct (ioe_kind x) eqn:Hk; simpl.
    + apply wp_ret. split; [done|]. set_solver.
    + apply wp_throw. split; [done|]. left. exists x. by rewrite Hk.
    + apply wp_throw. split; [done|]. left. exists x. by rewrite Hk.
Qed.
