(* ===== verification/StateDir.v ===== *)
(** * The state directory

    The class [StateDir] is what the service expects of the directory it keeps its state
    files in: commands leave its files alone, and on a machine that works the operations on
    it succeed. On a faulty machine any operation may fail, from some moment on all of
    them: so ends a process that dies. A call is [quiet] when it does not touch a state
    file; the calls that create and delete the devices of a VM are. Against the class,
    saving, loading and deleting state files are functions of the files on a machine that
    works, and atomic on any. *)

From S2P Require Import Prelude Strs Host HostSim Json Types NetTypes Instances Verity Qemu Persistence.
From S2P Require Bridge Ipv6 Nft NdpProxy.
#[local] Open Scope Z_scope.

(** ** State files *)

(** Names that loading looks at, and the files they name. *)
Definition state_name (name : string) : Prop := lacks "/"%char name ∧ extension name = Some "json"%string.
Definition state_file (d p : string) : Prop := ∃ name, state_name name ∧ p = path_join d name.
Definition file_of (vm : string) : string := (vm ++ ".json")%str.
(** An id that names a file of the directory. *)
Definition id_ok (vm : string) : Prop := vm ≠ ""%string ∧ lacks "/"%char vm.

Definition same_files {W} `{HostFs W} (d : string) (w w' : W) : Prop :=
  ∀ p, state_file d p → host_files w' !! p = host_files w !! p.

Inductive health := Working | Faulty.

Class StateDir (W : Type) `{HostFs W} (d : string) := {
  fit : health → W → Prop;
  fit_faulty w : fit Working w → fit Faulty w;
  sd_command h prog args w : fit h w →
    fit h (host_command prog args w).2 ∧ same_files d w (host_command prog args w).2;
  sd_feed h prog args i w : fit h w →
    fit h (host_feed prog args i w).2 ∧ same_files d w (host_feed prog args i w).2;
  sd_set_mode h p m w : fit h w →
    fit h (host_set_mode p m w).2 ∧ same_files d w (host_set_mode p m w).2;
  sd_random h lo hi w : fit h w →
    fit h (host_random_range lo hi w).2 ∧ same_files d w (host_random_range lo hi w).2;
  sd_read h p w : fit h w → fit h (host_read p w).2;
  sd_write h p s w : fit h w → fit h (host_write p s w).2;
  sd_create h p w : fit h w → fit h (host_create p w).2;
  sd_append h p s w : fit h w → fit h (host_append p s w).2;
  sd_flush h p w : fit h w → fit h (host_flush p w).2;
  sd_sync h p w : fit h w → fit h (host_sync p w).2;
  sd_rename h p q w : fit h w → fit h (host_rename p q w).2;
  sd_remove h p w : fit h w → fit h (host_remove_file p w).2;
  sd_mkdir h p w : fit h w → fit h (host_create_dir_all p w).2;
  sd_read_dir h p w : fit h w → fit h (host_read_dir p w).2;
  sd_now h w : fit h w → 0 ≤ host_now w ≤ u64_max;
  (** on a machine that works the operations on the directory and its files succeed *)
  sd_read_ok name s w : fit Working w → lacks "/"%char name → host_files w !! path_join d name = Some s →
    (host_read (path_join d name) w).1 = inr s;
  sd_mkdir_ok w : fit Working w → (host_create_dir_all d w).1 = inr tt;
  sd_create_ok name w : fit Working w → lacks "/"%char name → (host_create (path_join d name) w).1 = inr tt;
  sd_append_ok name s w : fit Working w → lacks "/"%char name → is_Some (host_files w !! path_join d name) →
    (host_append (path_join d name) s w).1 = inr tt;
  sd_sync_ok name w : fit Working w → lacks "/"%char name → (host_sync (path_join d name) w).1 = inr tt;
  sd_rename_ok a b w : fit Working w → lacks "/"%char a → lacks "/"%char b →
    is_Some (host_files w !! path_join d a) → (host_rename (path_join d a) (path_join d b) w).1 = inr tt;
  sd_remove_ok name w : fit Working w → lacks "/"%char name → is_Some (host_files w !! path_join d name) →
    (host_remove_file (path_join d name) w).1 = inr tt;
  sd_list w : fit Working w →
    match (host_read_dir d w).1 with
    | inr es => ∃ names, es = inr <$> names ∧ NoDup names ∧
        ∀ name, name ∈ names ↔ lacks "/"%char name ∧ is_Some (host_files w !! path_join d name)
    | inl e => ioe_kind e = IoNotFound ∧ ∀ name, lacks "/"%char name → host_files w !! path_join d name = None
    end;
}.
Arguments fit {W _ _} d {_} h w.
Definition usable {W} `{HostFs W} (d : string) `{!StateDir W d} (w : W) : Prop := fit d Working w.

Lemma lacks_no_slash name : lacks "/"%char name → starts_with "/" name = false.
Proof.
  destruct name as [|c name]; [done|]. intros [Hc _]%lacks_cons. rewrite starts_with_char.
  by apply Ascii.eqb_neq.
Qed.

Lemma path_join_plain d a b :
  lacks "/"%char a → lacks "/"%char b → path_join d a = path_join d b → a = b.
Proof. intros Ha Hb. apply path_join_ext. by rewrite !lacks_no_slash. Qed.

Lemma file_of_inj vm vm' : file_of vm = file_of vm' → vm = vm'.
Proof.
  unfold file_of. intros Hf. apply (f_equal (strip_suffix ".json")) in Hf.
  rewrite !strip_suffix_app in Hf. by injection Hf.
Qed.

Lemma file_of_name vm : id_ok vm → state_name (file_of vm).
Proof.
  intros [Hne Hvm]. split; [by apply lacks_app|]. unfold file_of, extension.
  rewrite str_rev_app. simpl. destruct (String.rev vm) as [|c r] eqn:Hr; [|done].
  apply (f_equal String.rev) in Hr. by rewrite str_rev_involutive in Hr.
Qed.

Lemma state_path_file d vm : id_ok vm → state_file d (state_path d vm).
Proof. intros Hvm. exists (file_of vm). split; [by apply file_of_name|done]. Qed.

(** State files end in [.json], so files with another ending are none. *)
Lemma path_join_ends a b : ∃ x, path_join a b = (x ++ b)%str.
Proof.
  unfold path_join. destruct (starts_with "/" b); [by exists ""%string|].
  destruct (is_empty a); [by exists ""%string|]. destruct (ends_with "/" a); [by exists a|].
  exists (a ++ "/")%str. by rewrite str_app_assoc.
Qed.

Lemma extension_ends name e : extension name = Some e → ∃ x, name = (x ++ e)%str.
Proof.
  unfold extension. intros He. destruct (before_dot (String.rev name) "") as [[ext r]|] eqn:Hb; [|done].
  assert (∀ r acc ext l, before_dot r acc = Some (ext, l) → ∃ x, (String.rev r ++ acc)%str = (x ++ ext)%str) as Hends.
  { clear. induction r as [|c r IH]; intros acc ext l; simpl; [done|]. case_match.
    - intros [= <- <-]. rewrite str_rev_cons. by eexists.
    - intros Hb. destruct (IH _ _ _ Hb) as [x Hx]. exists x. rewrite <-Hx, str_rev_cons.
      by rewrite str_app_assoc. }
  apply Hends in Hb as [x Hx]. rewrite str_rev_involutive, str_app_nil_r in Hx.
  destruct r; [done|]. injection He as <-. by exists x.
Qed.

Definition ends_unlike (s : string) : Prop :=
  match String.rev s with String c _ => Ascii.eqb c "n"%char = false | _ => False end.

Lemma other_file d a b : ends_unlike b → ¬ state_file d (a ++ b).
Proof.
  intros Hb (name & [_ [x ->]%extension_ends] & Heq).
  destruct (path_join_ends d (x ++ "json")%str) as [y Hy]. rewrite Hy in Heq.
  apply (f_equal String.rev) in Heq. rewrite !str_rev_app in Heq. unfold ends_unlike in Hb.
  destruct (String.rev b) as [|c r]; [done|]. simpl in Heq. injection Heq as -> _. discriminate Hb.
Qed.
Lemma other_path d p : ends_unlike p → ¬ state_file d p.
Proof. apply (other_file d ""). Qed.
Lemma other_join d a b : ends_unlike b → ¬ state_file d (path_join a b).
Proof. destruct (path_join_ends a b) as [x ->]. apply other_file. Qed.

(** ** Calls that leave the state files alone *)

Section quiet.
Context {W : Type} (d : string) `{!Host W, !HostFs W, !StateDir W d}.

Definition undisturbed (w w' : W) : Prop := ∀ h, fit d h w → fit d h w' ∧ same_files d w w'.
Definition quiet {E A} (c : M W E A) : Prop := ∀ w, undisturbed w (c w).2.
(** The same for a call that also has a state of its own. *)
Definition quiet_on {S E A} (c : M (S * W) E A) : Prop := ∀ s w, undisturbed w (c (s, w)).2.2.

Lemma undisturbed_refl w : undisturbed w w.
Proof. by intros h Hw. Qed.
Lemma undisturbed_trans w1 w2 w3 : undisturbed w1 w2 → undisturbed w2 w3 → undisturbed w1 w3.
Proof.
  intros H12 H23 h Hw1. destruct (H12 h Hw1) as [Hw2 F12]. destruct (H23 h Hw2) as [Hw3 F23].
  split; [done|]. intros p Hp. by rewrite F23, F12.
Qed.
#[global] Instance undisturbed_preorder : PreOrder undisturbed.
Proof. split; [exact undisturbed_refl|exact undisturbed_trans]. Qed.

Lemma quiet_ret {E A} (a : A) : quiet (mret a : M W E A).
Proof. intros w. apply undisturbed_refl. Qed.
Lemma quiet_throw {E A} (e : E) : quiet (throw e : M W E A).
Proof. intros w. apply undisturbed_refl. Qed.
Lemma quiet_lift {E A} (r : result E A) : quiet (lift r).
Proof. intros w. apply undisturbed_refl. Qed.
Lemma quiet_observe {E A} (f : W → A) : quiet (observe f : M W E A).
Proof. intros w. apply undisturbed_refl. Qed.
Lemma quiet_bind {E A B} (c : M W E A) (f : A → M W E B) :
  quiet c → (∀ a, quiet (f a)) → quiet (c ≫= f).
Proof.
  intros Hc Hf w. unfold mbind, M_bind. specialize (Hc w). destruct (c w) as [[a|e|p] w']; simpl in *; [|done..].
  etransitivity; [exact Hc|apply Hf].
Qed.
Lemma quiet_attempt {E E' A} (c : M W E A) : quiet c → quiet (attempt c : M W E' _).
Proof. intros Hc w. unfold attempt. specialize (Hc w). by destruct (c w) as [[a|e|p] w']. Qed.
Lemma quiet_with_context {A} msg (c : M W error A) : quiet c → quiet (with_context msg c).
Proof. intros Hc w. unfold with_context. specialize (Hc w). by destruct (c w) as [[a|e|p] w']. Qed.
Lemma quiet_run_io {A} (op : IO W A) : (∀ w, undisturbed w (op w).2) → quiet (run_io op).
Proof. intros Ho w. unfold run_io. specialize (Ho w). by destruct (op w) as [[e|a] w']. Qed.
Lemma quiet_io {A} (op : IO W A) : (∀ w, undisturbed w (op w).2) → quiet (io op).
Proof. intros Ho w. unfold io, map_errM, run_io. specialize (Ho w). by destruct (op w) as [[e|a] w']. Qed.
Lemma quiet_io_ctx {A} msg (op : IO W A) : (∀ w, undisturbed w (op w).2) → quiet (io_ctx msg op).
Proof. intros. by apply quiet_with_context, quiet_io. Qed.

(** The operations of the host. *)
Lemma still_command prog args w : undisturbed w (host_command prog args w).2.
Proof. intros h Hw. by apply sd_command. Qed.
Lemma quiet_feed spawn wait prog args i : quiet (feed spawn wait (host_feed prog args i)).
Proof.
  intros w h Hw. unfold feed. pose proof (sd_feed h prog args i w Hw) as Hf.
  by destruct (host_feed prog args i w) as [[[]|] w'].
Qed.
Lemma still_flush p w : undisturbed w (host_flush p w).2.
Proof. intros h Hw. split; [by apply (sd_flush (d := d))|]. intros q _. by rewrite files_flush. Qed.
Lemma still_mode p m w : undisturbed w (host_set_mode p m w).2.
Proof. intros h Hw. by apply sd_set_mode. Qed.
Lemma still_read p w : undisturbed w (host_read p w).2.
Proof. intros h Hw. split; [by apply (sd_read (d := d))|]. intros q _. by rewrite files_read. Qed.
Lemma still_mkdir p w : undisturbed w (host_create_dir_all p w).2.
Proof. intros h Hw. split; [by apply (sd_mkdir (d := d))|]. intros q _. by rewrite files_mkdir. Qed.
Lemma still_read_dir p w : undisturbed w (host_read_dir p w).2.
Proof. intros h Hw. split; [by apply (sd_read_dir (d := d))|]. intros q _. by rewrite files_read_dir. Qed.
Lemma still_write p s w : ¬ state_file d p → undisturbed w (host_write p s w).2.
Proof.
  intros Hp h Hw. split; [by apply (sd_write (d := d))|]. intros q Hq. apply files_write_frame. by intros ->.
Qed.
Lemma still_remove p w : ¬ state_file d p → undisturbed w (host_remove_file p w).2.
Proof.
  intros Hp h Hw. split; [by apply (sd_remove (d := d))|]. intros q Hq.
  destruct (host_remove_file p w) as [[e|u] w'] eqn:Hr; simpl.
  - pose proof (files_remove_err p w e) as Hf. rewrite Hr in Hf. simpl in Hf. by rewrite (Hf eq_refl).
  - pose proof (files_remove_ok p w u) as Hf. rewrite Hr in Hf. simpl in Hf. rewrite (Hf eq_refl).
    apply lookup_delete_ne. by intros ->.
Qed.
End quiet.

#[export] Hint Resolve still_command quiet_feed still_flush still_mode still_read still_mkdir still_read_dir still_write
  still_remove : cvm.

(** Prove [quiet] along the structure of the program. *)
Ltac quiet_tac :=
  repeat first
    [ apply quiet_ret | apply quiet_throw | apply quiet_lift | apply quiet_observe
    | apply quiet_io_ctx; intros; by eauto with cvm | apply quiet_io; intros; by eauto with cvm
    | apply quiet_run_io; intros; by eauto with cvm | apply quiet_with_context | apply quiet_attempt
    | apply quiet_bind; [|intros] | by eauto with cvm | progress case_match ].

Section components.
Context {Net W : Type} (d : string) `{!IpNet Net, !Host W, !HostFs W, !StateDir W d, !SerdeJson}.

Lemma quiet_run_ip args : quiet d (Bridge.run_ip args).
Proof. unfold Bridge.run_ip. quiet_tac. Qed.
#[local] Hint Resolve quiet_run_ip : cvm.
Lemma quiet_create_tap tap br : quiet d (Bridge.create_tap tap br).
Proof. unfold Bridge.create_tap. quiet_tac. Qed.
Lemma quiet_delete_tap tap : quiet d (Bridge.delete_tap tap).
Proof. unfold Bridge.delete_tap. quiet_tac. Qed.
Lemma quiet_add_ipv6 tap (n : Net) : quiet d (Bridge.add_ipv6_to_tap tap n).
Proof. unfold Bridge.add_ipv6_to_tap. quiet_tac. Qed.
Lemma quiet_write_dhcp h vm mac ip :
  ¬ state_file d (Bridge.dhcp_path h vm) → quiet d (Bridge.write_dhcp_reservation h vm mac ip).
Proof. intros. unfold Bridge.write_dhcp_reservation. quiet_tac. Qed.
Lemma dhcpv6_other h vm : ¬ state_file d (Bridge.dhcpv6_path h vm).
Proof.
  unfold Bridge.dhcpv6_path. destruct (path_join_ends h (vm ++ ".v6")%str) as [x ->].
  rewrite <-str_app_assoc. by apply other_file.
Qed.
#[local] Hint Resolve dhcpv6_other : cvm.
Lemma quiet_write_dhcpv6 h vm mac ip : quiet d (Bridge.write_dhcpv6_reservation h vm mac ip).
Proof. unfold Bridge.write_dhcpv6_reservation. quiet_tac. Qed.
Lemma quiet_remove_dhcp h vm :
  ¬ state_file d (Bridge.dhcp_path h vm) → quiet d (Bridge.remove_dhcp_reservation h vm).
Proof. intros. unfold Bridge.remove_dhcp_reservation. quiet_tac. Qed.
Lemma quiet_remove_dhcpv6 h vm : quiet d (Bridge.remove_dhcpv6_reservation h vm).
Proof. unfold Bridge.remove_dhcpv6_reservation. quiet_tac. Qed.

Lemma quiet_list_ruleset : quiet d Nft.execute_list_ruleset.
Proof. unfold Nft.execute_list_ruleset, Nft.list_family. quiet_tac. Qed.
Lemma quiet_nft_commands cmds : quiet d (Nft.execute_nft_commands cmds).
Proof. unfold Nft.execute_nft_commands. quiet_tac. Qed.
#[local] Hint Resolve quiet_list_ruleset quiet_nft_commands : cvm.
Lemma quiet_setup_vm m vm tap : quiet d (Nft.setup_vm m vm tap).
Proof. unfold Nft.setup_vm. quiet_tac. Qed.
Lemma quiet_teardown_vm m vm : quiet d (Nft.teardown_vm m vm).
Proof. unfold Nft.teardown_vm, Nft.remove_chain_everywhere. quiet_tac. Qed.
Lemma quiet_add_forward m vm ip hp vp p : quiet d (Nft.add_port_forward m vm ip hp vp p).
Proof. unfold Nft.add_port_forward. quiet_tac. Qed.
Lemma quiet_remove_forward m hp vp p : quiet d (Nft.remove_port_forward m hp vp p).
Proof. unfold Nft.remove_port_forward. quiet_tac. Qed.

Lemma quiet_stop p : quiet d (stop p).
Proof. unfold stop, stop_vm_unit. quiet_tac. Qed.
Lemma quiet_reconnect paths vm : quiet d (reconnect paths vm).
Proof. unfold reconnect, is_unit_active. quiet_tac. Qed.
Lemma quiet_spawn args paths vm rw cpuset sev : quiet d (spawn args paths vm rw cpuset sev).
Proof. unfold spawn, reset_failed_unit, start_vm_unit. quiet_tac. Qed.

(** The root hash file of an image is not a state file. *)
Lemma roothash_other rootfs : ¬ state_file d (roothash_of rootfs).
Proof. by apply (other_file d rootfs ".roothash"). Qed.
#[local] Hint Resolve roothash_other : cvm.
Lemma quiet_ensure_verity rootfs : quiet d (ensure_verity rootfs).
Proof. unfold ensure_verity. quiet_tac. Qed.

(** The components with a state of their own. *)
Lemma quiet_on_ret {S E A} (a : A) : quiet_on d (mret a : M (S * W) E A).
Proof. intros s w. reflexivity. Qed.
Lemma quiet_on_fst {S E A} (c : M S E A) : quiet_on d (on_fst c : M (S * W) E A).
Proof. intros s w. unfold on_fst. destruct (c s) as [r s']. simpl. reflexivity. Qed.
Lemma quiet_on_snd {S E A} (c : M W E A) : quiet d c → quiet_on d (on_snd c : M (S * W) E A).
Proof. intros Hc s w. unfold on_snd. specialize (Hc w). by destruct (c w) as [r w']. Qed.
Lemma quiet_on_lift {S E A} (r : result E A) : quiet_on d (lift r : M (S * W) E A).
Proof. intros s w. simpl. reflexivity. Qed.
Lemma quiet_on_throw {S E A} (e : E) : quiet_on d (throw e : M (S * W) E A).
Proof. intros s w. simpl. reflexivity. Qed.
Lemma quiet_on_bind {S E A B} (c : M (S * W) E A) (f : A → M (S * W) E B) :
  quiet_on d c → (∀ a, quiet_on d (f a)) → quiet_on d (c ≫= f).
Proof.
  intros Hc Hf s w. unfold mbind, M_bind. specialize (Hc s w).
  destruct (c (s, w)) as [[a|e|p] [s' w']]; simpl in *; [|done..].
  etransitivity; [exact Hc|apply Hf].
Qed.

Lemma quiet_update_config : quiet_on d (NdpProxy.update_config (Net := Net) (W := W)).
Proof.
  pose proof (other_path d "/etc/ndppd.conf" eq_refl).
  apply quiet_on_bind; [apply quiet_on_fst|intros p].
  apply quiet_on_bind; [apply quiet_on_snd; quiet_tac|intros [u|e|q]]; [|apply quiet_on_ret..].
  apply quiet_on_bind; [apply quiet_on_snd; quiet_tac|intros]. apply quiet_on_ret.
Qed.
Lemma quiet_add_range tap (n : Net) : quiet_on d (NdpProxy.add_range (W := W) tap n).
Proof. apply quiet_on_bind; [apply quiet_on_fst|intros; apply quiet_update_config]. Qed.
Lemma quiet_delete_range tap : quiet_on d (NdpProxy.delete_range (Net := Net) (W := W) tap).
Proof. apply quiet_on_bind; [apply quiet_on_fst|intros; apply quiet_update_config]. Qed.

Lemma quiet_random_loop n (a : Ipv6.Ipv6RangeAllocator Net) : quiet d (Ipv6.random_loop (W := W) n a).
Proof.
  induction n as [|n IH]; simpl; [quiet_tac|]. apply quiet_bind; [|intros o].
  - intros w. unfold Ipv6.random_offset. destruct (_ <=? 1); [reflexivity|].
    intros h; pose proof (sd_random (d := d) h 1 (if Ipv6.host_count a <=? u64_max then Ipv6.host_count a else u64_max) w) as Hr.
    destruct (host_random_range _ _ w) as [x w']. exact Hr.
  - quiet_tac.
Qed.
Lemma quiet_allocate vm (req : option Net) : quiet_on d (Ipv6.allocate (W := W) vm req).
Proof.
  apply quiet_on_bind; [apply quiet_on_fst|intros a]. apply quiet_on_bind.
  - destruct req as [n|]; [|apply quiet_on_snd, quiet_random_loop].
    repeat case_match; [apply quiet_on_throw..|apply quiet_on_ret].
  - intros n. apply quiet_on_bind; [apply quiet_on_fst|intros; apply quiet_on_ret].
Qed.
End components.

#[export] Hint Resolve quiet_create_tap quiet_delete_tap quiet_add_ipv6 quiet_write_dhcp quiet_write_dhcpv6
  quiet_remove_dhcp quiet_remove_dhcpv6 dhcpv6_other roothash_other quiet_setup_vm quiet_teardown_vm quiet_add_forward
  quiet_remove_forward quiet_stop quiet_reconnect quiet_spawn quiet_ensure_verity : cvm.

(** ** Saving, deleting and loading *)

Section files.
Context {Net W : Type} (d : string) `{!IpNet Net, !Host W, !HostFs W, !StateDir W d, !SerdeJson}.
Implicit Types pv : PersistedVm Net.

(** Only the state file of [vm] may differ. *)
Definition same_but (vm : string) (w w' : W) : Prop :=
  ∀ name, state_name name → name ≠ file_of vm → host_files w' !! path_join d name = host_files w !! path_join d name.

(** An operation of the host that keeps [I], and what follows it. *)
Lemma wp_io_keep {A B} (I : W → Prop) msg (op : IO W A) (f : A → M W error B) (Q : result error B → W → Prop) w :
  I w → (∀ w, I w → I (op w).2) → (∀ e w', I w' → Q (Err e) w') →
  (∀ a w', (op w).1 = inr a → (op w).2 = w' → I w' → wp (f a) Q w') → wp (io_ctx msg op ≫= f) Q w.
Proof.
  intros Hw Hop Herr Hok. specialize (Hop w Hw).
  apply wp_bind, wp_io_ctx; intros x w' Ho; rewrite Ho in *; simpl in *; [|by apply Herr]. by apply Hok.
Qed.

(** The file of [vm] is written: on a machine that works it holds the VM, on any other it
    may also be as before. *)
Definition rewritten (h : health) (vm : string) (s : string) (w w' : W) : Prop :=
  host_files w' !! state_path d vm = Some s ∨
  h = Faulty ∧ host_files w' !! state_path d vm = host_files w !! state_path d vm.

Lemma save_vm_any h vm pv w :
  id_ok vm → fit d h w →
  wp (save_vm d vm pv) (λ r w', fit d h w' ∧ same_but vm w w' ∧ match r with
    | Ok _ => host_files w' !! state_path d vm = Some (json_print_pretty (persisted_json pv))
    | Err _ => host_files w' !! state_path d vm = host_files w !! state_path d vm
    | Panic _ => False
    end) w.
Proof.
  intros [Hne Hvm] Hw. unfold save_vm. set (js := json_print_pretty _).
  assert (lacks "/"%char (vm ++ ".json.tmp") ∧ lacks "/"%char (vm ++ ".json")) as [Htmp Hname]
    by (split; by apply lacks_app).
  assert (∀ name, state_name name → path_join d name ≠ tmp_path d vm) as Hdiff.
  { intros name [Hn Hext] Heq%path_join_plain; [|done..]. subst name. by rewrite tmp_extension in Hext. }
  assert (state_path d vm ≠ tmp_path d vm) as Hpath by by apply Hdiff, file_of_name.
  set (tmp := tmp_path d vm) in *.
  set (I w' := fit d h w' ∧ ∀ q, q ≠ tmp → host_files w' !! q = host_files w !! q).
  assert (∀ w', I w' → fit d h w' ∧ same_but vm w w' ∧
    host_files w' !! state_path d vm = host_files w !! state_path d vm) as Herr.
  { intros w' [Hf HI]. split; [done|]. split; [intros name Hn _; by apply HI, Hdiff|by apply HI]. }
  apply (wp_io_keep I); [by split| |intros; by apply Herr|intros _ w1 _ _ H1].
  { intros w1 [Hf HI]. split; [by apply (sd_mkdir (d := d))|]. intros q Hq. rewrite files_mkdir. by apply HI. }
  apply (wp_io_keep I); [done| |intros; by apply Herr|intros u w2 Ho <- H2].
  { intros w2 [Hf HI]. split; [by apply (sd_create (d := d))|]. intros q Hq. rewrite files_create_frame by done. by apply HI. }
  pose proof (files_create_ok tmp w1 u Ho) as T2. generalize dependent (host_create tmp w1).2. intros w2 H2 T2. clear Ho.
  apply (wp_io_keep I); [done| |intros; by apply Herr|intros u3 w3 Ho <- H3].
  { intros w3 [Hf HI]. split; [by apply (sd_append (d := d))|]. intros q Hq. rewrite files_append_frame by done. by apply HI. }
  pose proof (files_append_ok tmp js w2 u3 _ Ho T2) as T3. generalize dependent (host_append tmp js w2).2. intros w3 H3 T3. clear Ho.
  apply (wp_io_keep I); [done| |intros; by apply Herr|intros u4 w4 Ho <- H4].
  { intros w4 [Hf HI]. split; [by apply (sd_sync (d := d))|]. intros q Hq. rewrite files_sync. by apply HI. }
  rewrite <-files_sync with (p := tmp) in T3. generalize dependent (host_sync tmp w3).2. intros w4 T4 H4. clear Ho.
  apply wp_io_ctx; intros x w5 Ho; pose proof H4 as [Hf4 HI4];
    pose proof (sd_rename (d := d) h tmp (state_path d vm) w4 Hf4) as Hf5; rewrite Ho in Hf5; simpl in Hf5.
  - pose proof (files_rename_ok tmp (state_path d vm) w4) as F5. rewrite Ho in F5.
    destruct (F5 x eq_refl) as (s & Hs & F). simpl in F. rewrite T4 in Hs. injection Hs as <-.
    split; [done|]. rewrite F, lookup_insert_eq. split; [|done].
    intros name Hn Hfile. rewrite F, lookup_insert_ne, lookup_delete_ne; [by apply HI4, Hdiff|by apply not_eq_sym, Hdiff|].
    intros Heq%path_join_plain; [by apply Hfile|done|apply Hn].
  - pose proof (files_rename_err tmp (state_path d vm) w4) as F5. rewrite Ho in F5. specialize (F5 x eq_refl). simpl in F5.
    apply Herr. split; [done|]. intros q Hq. rewrite F5. by apply HI4.
Qed.

Lemma wp_io_ok {A} msg (op : IO W A) (Q : result error A → W → Prop) w a :
  (op w).1 = inr a → Q (Ok a) (op w).2 → wp (io_ctx msg op) Q w.
Proof. intros Ha HQ. apply wp_io_ctx; intros x w' Ho; rewrite Ho in Ha, HQ; simpl in *; by simplify_eq. Qed.

Lemma save_vm_works vm pv w : id_ok vm → usable d w → wp (save_vm d vm pv) (λ r _, r = Ok tt) w.
Proof.
  intros [Hne Hvm] Hw. unfold usable, save_vm, tmp_path, state_path in *. set (js := json_print_pretty _).
  assert (lacks "/"%char (vm ++ ".json.tmp") ∧ lacks "/"%char (vm ++ ".json")) as [Htmp Hname]
    by (split; by apply lacks_app).
  apply wp_bind. eapply wp_io_ok; [by apply sd_mkdir_ok|]. pose proof (sd_mkdir (d := d) Working d w Hw) as Hw1.
  generalize dependent (host_create_dir_all d w).2. intros w1 Hw1. apply wp_bind.
  pose proof (sd_create_ok _ w1 Hw1 Htmp) as Ho. eapply wp_io_ok; [exact Ho|]. apply files_create_ok in Ho.
  pose proof (sd_create (d := d) Working (path_join d (vm ++ ".json.tmp")%str) w1 Hw1) as Hw2.
  generalize dependent (host_create (path_join d (vm ++ ".json.tmp")%str) w1).2. intros w2 T2 Hw2. apply wp_bind.
  pose proof (sd_append_ok _ js w2 Hw2 Htmp (mk_is_Some _ _ T2)) as Ho. eapply wp_io_ok; [exact Ho|].
  eapply files_append_ok in Ho; [|exact T2].
  pose proof (sd_append (d := d) Working (path_join d (vm ++ ".json.tmp")%str) js w2 Hw2) as Hw3.
  generalize dependent (host_append (path_join d (vm ++ ".json.tmp")%str) js w2).2. intros w3 T3 Hw3. apply wp_bind.
  eapply wp_io_ok; [by apply sd_sync_ok|]. rewrite <-files_sync with (p := path_join d (vm ++ ".json.tmp")%str) in T3.
  pose proof (sd_sync (d := d) Working (path_join d (vm ++ ".json.tmp")%str) w3 Hw3) as Hw4.
  generalize dependent (host_sync (path_join d (vm ++ ".json.tmp")%str) w3).2. intros w4 T4 Hw4.
  eapply wp_io_ok; [by apply sd_rename_ok; [..|by eexists]|done].
Qed.

Lemma save_vm_spec h vm pv w (Q : result error unit → W → Prop) :
  id_ok vm → fit d h w →
  (∀ r w', fit d h w' → same_but vm w w' → rewritten h vm (json_print_pretty (persisted_json pv)) w w' →
     (∀ p, r ≠ Panic p) → Q r w') → wp (save_vm d vm pv) Q w.
Proof.
  intros Hvm Hw HQ. pose proof (save_vm_any h vm pv w Hvm Hw) as Hany.
  assert (h = Working → wp (save_vm d vm pv) (λ r _, r = Ok tt) w) as Hworks by (intros ->; by apply save_vm_works).
  unfold wp in *. destruct (save_vm d vm pv w) as [[u|e|p] w']; simpl in *; destruct Hany as (Hf & Hbut & Hfile);
    [apply HQ; try done; by left|apply HQ; try done|done].
  right. destruct h; [|done]. by specialize (Hworks eq_refl).
Qed.

(** The file of [vm] is removed, on a machine that works. *)
Definition erased (h : health) (vm : string) (w w' : W) : Prop :=
  host_files w' !! state_path d vm = None ∨
  h = Faulty ∧ host_files w' !! state_path d vm = host_files w !! state_path d vm.

Lemma delete_file_spec h vm w (Q : result error unit → W → Prop) :
  id_ok vm → fit d h w → is_Some (host_files w !! state_path d vm) →
  (∀ r w', fit d h w' → same_but vm w w' → erased h vm w w' → (∀ p, r ≠ Panic p) → Q r w') →
  wp (delete_vm d vm) Q w.
Proof.
  intros [Hne Hvm] Hw Hfile HQ. unfold delete_vm, state_path in *.
  assert (lacks "/"%char (vm ++ ".json")) as Hname by by apply lacks_app.
  pose proof (sd_remove (d := d) h (path_join d (vm ++ ".json")) w Hw) as Hw'.
  apply wp_bind, wp_attempt, wp_run_io; intros x w' Hr; rewrite Hr in Hw'; simpl in Hw'.
  - pose proof (files_remove_ok (path_join d (vm ++ ".json")) w x) as F. rewrite Hr in F. specialize (F eq_refl).
    simpl in F. apply wp_ret, HQ; [done| |left; by rewrite F; apply lookup_delete_eq|done].
    intros name Hn Hne'. rewrite F. apply lookup_delete_ne. intros Heq%path_join_plain; [by apply Hne'|done|apply Hn].
  - pose proof (files_remove_err (path_join d (vm ++ ".json")) w x) as F. rewrite Hr in F. specialize (F eq_refl).
    simpl in F. assert (h = Faulty) as Hh.
    { destruct h; [|done]. pose proof (sd_remove_ok _ w Hw Hname Hfile) as Ho. rewrite Hr in Ho. discriminate Ho. }
    assert (∀ r, (∀ p, r ≠ Panic p) → Q r w') as HQ'.
    { intros r Hp. apply HQ; [done|intros name _ _; by rewrite F|right; by rewrite F|done]. }
    repeat case_match; first [apply wp_ret|apply wp_throw]; by apply HQ'.
Qed.

(** The VMs of the files with the given names. *)
Definition listed (names : list string) (files : gmap string string) : list (PersistedVm Net) :=
  omap (λ name, if bool_decide (extension name = Some "json"%string)
                then files !! path_join d name ≫= parse_persisted else None) names.

Lemma load_entries_spec names w w0 :
  usable d w → host_files w = host_files w0 →
  (∀ name, name ∈ names → lacks "/"%char name ∧ is_Some (host_files w0 !! path_join d name)) →
  wp (load_entries d (inr <$> names)) (λ r _, r = Ok (listed names (host_files w0))) w.
Proof.
  revert w. induction names as [|name names IH]; intros w Hw F Hn; [done|].
  assert (∀ o w1, usable d w1 → host_files w1 = host_files w0 →
    wp (vms ← load_entries d (inr <$> names); mret match o with Some vm => vm :: vms | None => vms end)
      (λ r _, r = Ok match o with Some vm => vm :: listed names (host_files w0)
                     | None => listed names (host_files w0) end) w1) as Hrest.
  { intros o w1 Hw1 F1. apply wp_bind. eapply wp_mono; [apply (IH w1 Hw1 F1)|by intros r w2 ->].
    intros n' Hn'. apply Hn. set_solver. }
  destruct (Hn name ltac:(set_solver)) as [Hl [s Hs]].
  assert (∀ o, (if bool_decide (extension name = Some "json"%string)
      then host_files w0 !! path_join d name ≫= parse_persisted else None) = o →
    listed (name :: names) (host_files w0) =
      match o with Some vm => vm :: listed names (host_files w0) | None => listed names (host_files w0) end)
    as Hlisted by (by intros o <-).
  cbn [fmap list_fmap load_entries]. apply wp_bind. case_bool_decide as Hext.
  - rewrite <-F in Hs. pose proof (sd_read_ok name s w Hw Hl Hs) as Ho.
    pose proof (sd_read (d := d) Working (path_join d name) w Hw) as Hw1. pose proof (files_read (path_join d name) w) as F1.
    apply wp_bind, wp_attempt, wp_run_io; intros x w' Hr; rewrite Hr in Ho, Hw1, F1; simpl in *; [|done].
    injection Ho as ->. apply wp_ret. eapply wp_mono; [apply (Hrest (parse_persisted s)); [done|by rewrite F1]|].
    intros r w2 ->. f_equal. symmetry. apply (Hlisted (parse_persisted s)). by rewrite <-F, Hs.
  - apply wp_ret. eapply wp_mono; [by apply (Hrest None)|]. intros r w2 ->. f_equal. symmetry. by apply (Hlisted None).
Qed.

(** Loading is a function of the state files, up to their order. *)
Lemma load_all_vms_spec w :
  usable d w → ∃ names, (load_all_vms d w).1 = Ok (listed names (host_files w)) ∧ NoDup names ∧
    ∀ name, name ∈ names ↔ lacks "/"%char name ∧ is_Some (host_files w !! path_join d name).
Proof.
  intros Hw. pose proof (sd_list w Hw) as Hlist. pose proof (sd_read_dir (d := d) Working d w Hw) as Hw1.
  pose proof (files_read_dir d w) as F1. unfold load_all_vms, attempt, run_io, mbind, M_bind.
  destruct (host_read_dir d w) as [[e|es] w1]; simpl in Hlist, Hw1, F1.
  - destruct Hlist as [Hk Hnone]. exists []. cbv beta iota. rewrite Hk. split_and!; [done|by constructor|].
    intros name. split; [by intros ?%elem_of_nil|]. intros [Hl [s Hs]]. by rewrite Hnone in Hs.
  - destruct Hlist as (names & -> & Hnd & Hnames). exists names. cbv beta iota. split_and!; [|done|done].
    apply (load_entries_spec names w1 w Hw1 F1). intros name. by rewrite Hnames.
Qed.

Lemma quiet_load : quiet d (load_all_vms (Net := Net) (W := W) d).
Proof.
  unfold load_all_vms. apply quiet_bind; [quiet_tac|]. intros [es|e|p]; [|quiet_tac..].
  induction es as [|[e|name] es IH]; simpl; [quiet_tac|quiet_tac|].
  apply quiet_bind; [quiet_tac|]. intros o. apply quiet_bind; [exact IH|intros; quiet_tac].
Qed.
End files.

(** ** On the simulated host *)

Lemma sim_try_ok {A} (op : IO sim A) w : sim_fail w = [] → sim_try op w = op w.
Proof. destruct w. simpl. by intros ->. Qed.

Lemma state_join name : lacks "/"%char name → path_join "/state" name = ("/state/" ++ name)%str.
Proof. intros Hn. unfold path_join. by rewrite lacks_no_slash. Qed.

Definition state_entry (kv : string * string) : option string :=
  match strip_prefix "/state/" kv.1 with
  | Some n => if contains_char "/"%char n then None else Some n
  | None => None
  end.

(** The names that the listing finds, once each. *)
Lemma sim_names files :
  let names := omap state_entry (map_to_list files) in
  NoDup names ∧
  ∀ name, name ∈ names ↔ lacks "/"%char name ∧ is_Some (files !! path_join "/state" name).
Proof.
  cbv zeta. set (g := state_entry).
  assert (∀ kv n, g kv = Some n ↔ lacks "/"%char n ∧ kv.1 = path_join "/state" n) as Hg.
  { intros [k v] n. unfold g, state_entry. cbn [fst]. split.
    - destruct (strip_prefix "/state/" k) as [n'|] eqn:Hs; [|done]. apply strip_prefix_Some in Hs as ->.
      destruct (contains_char "/"%char n') eqn:Hc; [done|]. intros [= ->]. split; [done|]. by rewrite state_join.
    - intros [Hn ->]. rewrite state_join, strip_prefix_app by done. by rewrite Hn. }
  clearbody g. split.
  - pose proof (NoDup_fst_map_to_list files) as Hnd. induction (map_to_list files) as [|[k v] l IH]; simpl; [constructor|].
    inversion Hnd as [|? ? Hk Hnd']; subst. destruct (g (k, v)) as [n|] eqn:Hn; [|by apply IH].
    constructor; [|by apply IH]. apply Hg in Hn as [_ Hn]. simpl in Hn. subst k.
    intros ([k' v'] & Hin & [Hl Hk']%Hg)%list_elem_of_omap. simpl in Hk'. apply Hk. apply list_elem_of_fmap.
    by exists (k', v').
  - intros name. rewrite list_elem_of_omap. split.
    + intros ([k v] & Hin & [Hl Hk]%Hg). simpl in Hk. subst k. apply elem_of_map_to_list in Hin. by eexists.
    + intros [Hl [v Hv]]. exists (path_join "/state" name, v). split; [by apply elem_of_map_to_list|]. by apply Hg.
Qed.

Lemma sim_read_dir_names w :
  (sim_read_dir "/state" w).1 = inr (inr <$> omap state_entry (map_to_list (sim_files w))).
Proof.
  unfold sim_read_dir. cbn [fst]. f_equal. change ("/state" ++ "/")%str with "/state/"%string.
  induction (map_to_list (sim_files w)) as [|[k v] l IH]; [done|].
  cbn [omap list_omap fst]. rewrite IH. change (state_entry (k, v)) with
    (match strip_prefix "/state/" k with
     | Some n => if contains_char "/"%char n then None else Some n | None => None end).
  destruct (strip_prefix "/state/" k) as [n|]; [|done]. by destruct (contains_char _ n).
Qed.

(** A clock of 64 bits; on a host that works no operation fails. *)
Definition sim_fit (h : health) (w : sim) : Prop :=
  match h with Working => sim_fail w = [] | Faulty => True end ∧ 0 ≤ sim_clock w ≤ u64_max.

(** Every operation but the files it changes: what may be left of the oracle. *)
Lemma sim_fit_step {A} h (op : IO sim A) w :
  (∀ w, sim_fail (op w).2 = sim_fail w ∧ sim_clock (op w).2 = sim_clock w) →
  sim_fit h w → sim_fit h (sim_try op w).2.
Proof.
  intros Hop [Hf Hc]. unfold sim_try. set (w1 := mk_sim _ _ _ _ _ _).
  destruct (Hop w1) as [Ef Ec]. destruct (sim_fail w) as [|[] fs] eqn:Hw.
  - split; [destruct h; [by rewrite Ef|done]|by rewrite Ec].
  - destruct h; [done|]. by split.
  - destruct h; [done|]. split; [done|by rewrite Ec].
Qed.
Lemma sim_files_try {A} (op : IO sim A) w d :
  (∀ w, sim_files (op w).2 = sim_files w) → same_files d w (sim_try op w).2.
Proof.
  intros Hop p Hp. unfold sim_try, host_files. simpl. destruct (sim_fail w) as [|[] fs]; [|done|]; by rewrite Hop.
Qed.

Lemma sim_feed_state prog args w : (sim_feed prog args w).2 = (sim_try (sim_command prog args) w).2.
Proof. unfold sim_feed. by destruct (sim_try _ w) as [[e|o] w']. Qed.

#[export] Instance sim_state_dir : StateDir sim "/state".
Proof.
  refine {| fit := sim_fit |}.
  1: by intros w [_ Hc].
  all: unfold host_read, host_write, host_create, host_append, host_flush, host_sync, host_rename,
    host_create_dir_all, host_remove_file, host_read_dir, host_command, host_feed, host_set_mode, host_random_range,
    host_now; simpl.
  2: intros h prog args i w; rewrite sim_feed_state.
  1-3: intros; split; [apply sim_fit_step; [by intros|done]|by apply sim_files_try].
  1: by intros h lo hi w [Hf Hc].
  1-10: intros; apply sim_fit_step; [|done]; intros w1;
    unfold sim_read, sim_update, sim_append, sim_rename, sim_remove; by repeat case_match.
  1: by intros h w [_ Hc].
  all: try (intros; match goal with Hu : sim_fit Working _ |- _ => destruct Hu as [Hf Hc] end; rewrite sim_try_ok by done).
  all: cycle -1.
  1: { rewrite sim_read_dir_names. eexists. split; [done|]. exact (sim_names (sim_files w)). }
  all: unfold host_files in *; simpl in *.
  all: unfold sim_read, sim_update, sim_append, sim_rename, sim_remove; simpl;
    repeat case_match; simpl; repeat (match goal with Hs : is_Some _ |- _ => destruct Hs as [? Hs] end); by simplify_eq.
Defined.
