(* ===== verification/Manager.v ===== *)
(** * The VM manager

    [src/crates/aleph-compute-node/src/vm/manager.rs] and [vm/lifecycle.rs]. The state
    is the record [VmManager] next to the host; an operation is a function that may
    change both and may fail. Each public operation is one definition; the long ones
    are composed of phases in the order of the source. Locks are not modelled: an
    operation runs alone, so [try_lock] succeeds. *)

From S2P Require Import Prelude Strs Host Json Types NetTypes Tee Verity Qemu Persistence.
From S2P Require Bridge PortForwards Ipv6 Nft NdpProxy Numa.

Inductive VmState := Running | Stopped.
#[global] Instance VmState_eq_dec : EqDecision VmState.
Proof. solve_decision. Defined.
Definition print_state (s : VmState) : string :=
  match s with Running => "running" | Stopped => "stopped" end.

Record VmHandle (Net : Type) := mk_handle {
  h_config : VmConfig;
  h_state : VmState;
  h_ip : Ipv4Addr;
  h_ipv6 : option Net;
  h_process : option QemuProcess;
  h_tap_name : string;
  h_created_at_epoch : Z;
  h_numa_node : option Z;
}.
Arguments mk_handle {Net}.
Arguments h_config {Net}.
Arguments h_state {Net}.
Arguments h_ip {Net}.
Arguments h_ipv6 {Net}.
Arguments h_process {Net}.
Arguments h_tap_name {Net}.
Arguments h_created_at_epoch {Net}.
Arguments h_numa_node {Net}.

Record VmInfo := mk_info {
  i_vm_id : string;
  i_status : string;
  i_ip : string;
  i_ipv6 : string;
  i_tee : string;
  i_uptime_secs : Z;
  i_numa_node : option Z;
}.

Record VmManager (Net W : Type) := mk_manager {
  vms : gmap string (VmHandle Net);
  run_dir : string;
  state_dir : string;
  bridge : string;
  gateway_ip : Ipv4Addr;
  used_ip_offsets : gset Z;  (** BTreeSet<u8> *)
  backends : gmap TeeType (TeeBackend W);
  dhcp_hostsdir : option string;
  nftables : Nft.NftablesManager;
  port_forwards : PortForwards.PortForwardState;
  ipv6_allocator : option (Ipv6.Ipv6RangeAllocator Net);
  ndp_proxy : option (NdpProxy.NdpProxy Net);
  numa : Numa.NumaAllocator;
}.
Arguments mk_manager {Net W}.
Arguments vms {Net W}.
Arguments run_dir {Net W}.
Arguments state_dir {Net W}.
Arguments bridge {Net W}.
Arguments gateway_ip {Net W}.
Arguments used_ip_offsets {Net W}.
Arguments backends {Net W}.
Arguments dhcp_hostsdir {Net W}.
Arguments nftables {Net W}.
Arguments port_forwards {Net W}.
Arguments ipv6_allocator {Net W}.
Arguments ndp_proxy {Net W}.
Arguments numa {Net W}.

Section manager.
Context {Net W : Type} `{IpNet Net} `{Host W} `{SerdeJson}.
Implicit Types m : VmManager Net W.

(** ** Updating one part of the state *)

Definition upd_vms f m : VmManager Net W :=
  mk_manager (f (vms m)) (run_dir m) (state_dir m) (bridge m) (gateway_ip m) (used_ip_offsets m)
    (backends m) (dhcp_hostsdir m) (nftables m) (port_forwards m) (ipv6_allocator m) (ndp_proxy m)
    (numa m).
Definition upd_used f m : VmManager Net W :=
  mk_manager (vms m) (run_dir m) (state_dir m) (bridge m) (gateway_ip m) (f (used_ip_offsets m))
    (backends m) (dhcp_hostsdir m) (nftables m) (port_forwards m) (ipv6_allocator m) (ndp_proxy m)
    (numa m).
Definition upd_forwards f m : VmManager Net W :=
  mk_manager (vms m) (run_dir m) (state_dir m) (bridge m) (gateway_ip m) (used_ip_offsets m)
    (backends m) (dhcp_hostsdir m) (nftables m) (f (port_forwards m)) (ipv6_allocator m)
    (ndp_proxy m) (numa m).
Definition upd_ipv6 f m : VmManager Net W :=
  mk_manager (vms m) (run_dir m) (state_dir m) (bridge m) (gateway_ip m) (used_ip_offsets m)
    (backends m) (dhcp_hostsdir m) (nftables m) (port_forwards m) (f <$> ipv6_allocator m)
    (ndp_proxy m) (numa m).
Definition upd_ndp f m : VmManager Net W :=
  mk_manager (vms m) (run_dir m) (state_dir m) (bridge m) (gateway_ip m) (used_ip_offsets m)
    (backends m) (dhcp_hostsdir m) (nftables m) (port_forwards m) (ipv6_allocator m)
    (f <$> ndp_proxy m) (numa m).
Definition upd_numa f m : VmManager Net W :=
  mk_manager (vms m) (run_dir m) (state_dir m) (bridge m) (gateway_ip m) (used_ip_offsets m)
    (backends m) (dhcp_hostsdir m) (nftables m) (port_forwards m) (ipv6_allocator m) (ndp_proxy m)
    (f (numa m)).

(** An operation of the manager. *)
Definition Op (A : Type) : Type := M (VmManager Net W * W) error A.

Definition self : Op (VmManager Net W) := on_fst get.
Definition update (f : VmManager Net W → VmManager Net W) : Op unit := on_fst (modify f).
Definition host {A} (c : M W error A) : Op A := on_snd c.
(** [let _ = call]. *)
Definition ignore {A} (c : M W error A) : Op unit := attempt (host c);; mret tt.

(** Run an operation on a component that is present. *)
Definition on_ipv6 {A} (a : Ipv6.Ipv6RangeAllocator Net)
    (c : M (Ipv6.Ipv6RangeAllocator Net * W) error A) : Op A := λ '(m, w),
  let '(r, (a', w')) := c (a, w) in (r, (upd_ipv6 (λ _, a') m, w')).
Definition on_ndp {A} (p : NdpProxy.NdpProxy Net)
    (c : M (NdpProxy.NdpProxy Net * W) error A) : Op A := λ '(m, w),
  let '(r, (p', w')) := c (p, w) in (r, (upd_ndp (λ _, p') m, w')).
Definition on_numa {A} (c : M Numa.NumaAllocator error A) : Op A := λ '(m, w),
  let '(r, n') := c (numa m) in (r, (upd_numa (λ _, n') m, w)).

(** ** Construction and lookup *)

Definition new (run_dir state_dir bridge : string) (gateway_ip : Ipv4Addr)
    (backends : gmap TeeType (TeeBackend W)) (dhcp_hostsdir : option string)
    (external_interface : string) (ipv6_pool : option Net) (use_ndp_proxy : bool)
    (numa_topology : Numa.NumaTopology) : VmManager Net W :=
  let ipv6_enabled := match ipv6_pool with Some _ => true | None => false end in
  mk_manager ∅ run_dir state_dir bridge gateway_ip ∅ backends dhcp_hostsdir
    (Nft.mk_nft "aleph" external_interface ipv6_enabled)
    PortForwards.new
    ((λ pool, Ipv6.new pool 128) <$> ipv6_pool)
    (if ipv6_enabled && use_ndp_proxy then Some (NdpProxy.new external_interface) else None)
    (Numa.new numa_topology).

Definition from_handle (h : VmHandle Net) : M W error VmInfo :=
  now ← observe host_now;
  mret (mk_info (vm_id (h_config h)) (print_state (h_state h)) (print_ipv4 (h_ip h))
    (default ""%string (net_print <$> h_ipv6 h)) (tee_type_debug (t_backend (tee (h_config h))))
    (saturating_sub now (h_created_at_epoch h)) (h_numa_node h)).

Definition get_backend (tee_type : TeeType) m : result error (TeeBackend W) :=
  ok_or (mk_error ("no backend registered for TEE type: " ++ tee_type_debug tee_type)%str [])
    (backends m !! tee_type).

Definition setup_nftables : Op unit := m ← self; host (Nft.initialize (nftables m)).

(** ** Creating a VM: the phases of [create_vm] *)

(** The lowest free offset of 1 .. 254. *)
Definition allocate_offset : Op Z :=
  m ← self;
  match List.find (λ o, negb (bool_decide (o ∈ used_ip_offsets m))) (range 1 255) with
  | Some o => update (upd_used (λ used, {[o]} ∪ used));; mret o
  | None => throw (mk_error "IPv4 address pool exhausted (254 VMs max)" [])
  end.

Definition allocate_ipv6 (vm : string) (requested : option Net) : Op (option Net) :=
  m ← self;
  match ipv6_allocator m with
  | Some a => n ← on_ipv6 a (Ipv6.allocate vm requested); mret (Some n)
  | None => mret None
  end.

Definition release_ipv6 (vm : string) : Op unit := update (upd_ipv6 (λ a, (Ipv6.release vm a).2)).

(** DHCP and DHCPv6 reservations. *)
Definition write_reservations (vm mac : string) (ip : Ipv4Addr) (vm_ipv6 : option Net) : Op unit :=
  m ← self;
  match dhcp_hostsdir m with
  | None => mret tt
  | Some hostsdir =>
      host (with_context "failed to write DHCP reservation"
              (Bridge.write_dhcp_reservation hostsdir vm mac ip));;
      match vm_ipv6 with
      | None => mret tt
      | Some ipv6 =>
          r ← attempt (host (Bridge.write_dhcpv6_reservation hostsdir vm mac (net_addr ipv6)));
          match r with
          | Err e =>
              host (Bridge.remove_dhcp_reservation hostsdir vm);;
              release_ipv6 vm;;
              throw (add_context "failed to write DHCPv6 reservation" e)
          | _ => mret tt
          end
      end
  end.

Definition cleanup_reservations (vm : string) (has_ipv6 : bool) : Op unit :=
  m ← self;
  match dhcp_hostsdir m with
  | Some hostsdir =>
      host (Bridge.remove_dhcp_reservation hostsdir vm);;
      if has_ipv6 then host (Bridge.remove_dhcpv6_reservation hostsdir vm) else mret tt
  | None => mret tt
  end;;
  if has_ipv6 then
    (** [try_lock]: best effort *)
    free ← host (observe host_lock_free);
    if (free : bool) then release_ipv6 vm else mret tt
  else mret tt.

Definition is_some {A} (o : option A) : bool := match o with Some _ => true | None => false end.

(** TAP device, its IPv6 address, the nftables chains and the NDP proxy range. *)
Definition setup_network (vm tap_name : string) (vm_ipv6 : option Net) : Op unit :=
  m ← self;
  r ← attempt (host (Bridge.create_tap tap_name (bridge m)));
  match r with
  | Err e => cleanup_reservations vm (is_some vm_ipv6);; throw e
  | _ => mret tt
  end;;
  match vm_ipv6 with
  | Some ipv6 =>
      r ← attempt (host (Bridge.add_ipv6_to_tap tap_name ipv6));
      match r with
      | Err e => ignore (Bridge.delete_tap tap_name);; cleanup_reservations vm true;; throw e
      | _ => mret tt
      end
  | None => mret tt
  end;;
  r ← attempt (host (Nft.setup_vm (nftables m) vm tap_name));
  match r with
  | Err e =>
      ignore (Bridge.delete_tap tap_name);; cleanup_reservations vm (is_some vm_ipv6);; throw e
  | _ => mret tt
  end;;
  match vm_ipv6, ndp_proxy m with
  | Some ipv6, Some ndp => on_ndp ndp (NdpProxy.add_range tap_name ipv6)
  | _, _ => mret tt
  end.

Definition is_confidential (c : VmConfig) : bool := negb (bool_decide (t_backend (tee c) = TeeNone)).

(** [config.disks.insert(i, hashtree)] panics past the end. *)
Definition insert_disk (i : nat) (path : string) (c : VmConfig) : result error VmConfig :=
  if (i <=? length (disks c))%nat then
    Ok (set_disks (take i (disks c) ++ mk_disk path true "raw" :: drop i (disks c)) c)
  else Panic "insertion index should be <= len".

(** The disk list with its hash trees, and the kernel command line. *)
Definition prepare_boot (c : VmConfig) : M W error (VmConfig * option string) :=
  if negb (is_confidential c) then mret (c, None)
  else if encrypted c then mret (c, Some (build_kernel_cmdline None None true))
  else match disks c with
  | [] => mret (c, Some (build_kernel_cmdline None None false))
  | rootfs_disk :: _ =>
      let has_workload_disk := (1 <? length (disks c))%nat in
      vinfo ← with_context
        "dm-verity setup failed — refusing to boot without integrity verification"
        (ensure_verity (d_path rootfs_disk));
      c ← lift (insert_disk 1 (hashtree_path vinfo) c);
      cw ← (if has_workload_disk then
              workload_disk ← lift (index (disks c) 2);
              winfo ← with_context "dm-verity setup failed for workload volume"
                        (ensure_verity (d_path workload_disk));
              c ← lift (insert_disk 3 (hashtree_path winfo) c);
              mret (c, Some (root_hash winfo))
            else mret (c, None));
      let '(c, workload_roothash) := cw in
      mret (c, Some (build_kernel_cmdline (Some (root_hash vinfo)) workload_roothash false))
  end.

(** The NUMA placement, recorded in the configuration. *)
Definition place (c : VmConfig) (numa_hint : option Z) : Op (VmConfig * Numa.NumaPlacement) :=
  p ← on_numa (Numa.allocate (vcpus c) (memory_mb c) numa_hint (is_confidential c));
  m ← self;
  let c := if 1 <? Numa.num_nodes (numa m) then set_numa_node (Some (Numa.node p)) c else c in
  mret (set_hugepage_size (Some (Numa.placement_page p)) c, p).

(** Parent directories of the writable disks. *)
Definition writable_dirs (c : VmConfig) : list string :=
  omap (λ d, path_parent (d_path d)) (filter (λ d, d_readonly d = false) (disks c)).

Definition launch (vm tap_name mac : string) (vm_ipv6 : option Net) (b : TeeBackend W)
    (c : VmConfig) (p : Numa.NumaPlacement) (cmdline : option string) : Op QemuProcess :=
  m ← self;
  let paths := for_vm (run_dir m) vm in
  args ← lift (build_qemu_command c paths tap_name b mac cmdline);
  r ← attempt (host (spawn ("qemu-system-x86_64"%string :: args) paths vm (writable_dirs c)
                       (Some (Numa.cpuset p)) (is_confidential c)));
  match r with
  | Ok process => mret process
  | Err e =>
      update (upd_numa (Numa.release (Numa.node p) (vcpus c) (memory_mb c) (Numa.placement_page p)));;
      match vm_ipv6, ndp_proxy m with
      | Some _, Some ndp => on_ndp ndp (NdpProxy.delete_range tap_name)
      | _, _ => mret tt
      end;;
      ignore (Nft.teardown_vm (nftables m) vm);;
      ignore (Bridge.delete_tap tap_name);;
      cleanup_reservations vm (is_some vm_ipv6);;
      throw e
  | Panic q => lift (Panic q)
  end.

Definition tap_of (vm : string) : string := ("tap-" ++ vm)%str.

(** Persist, record and report the running VM. *)
Definition persist_vm (vm tap_name mac : string) (ip : Ipv4Addr) (vm_ipv6 : option Net)
    (c : VmConfig) (p : Numa.NumaPlacement) : Op Z :=
  m ← self;
  now_epoch ← host (observe host_now);
  ignore (save_vm (state_dir m) vm
    (mk_persisted c ip vm_ipv6 tap_name mac [] now_epoch (Some (Numa.node p))));;
  mret now_epoch.
Definition insert_vm (vm tap_name : string) (ip : Ipv4Addr) (vm_ipv6 : option Net)
    (c : VmConfig) (p : Numa.NumaPlacement) (process : QemuProcess) (now_epoch : Z) : Op VmInfo :=
  let handle := mk_handle c Running ip vm_ipv6 (Some process) tap_name now_epoch
                  (Some (Numa.node p)) in
  info ← host (from_handle handle);
  update (upd_vms (<[vm := handle]>));;
  mret info.
Definition record_vm (vm tap_name mac : string) (ip : Ipv4Addr) (vm_ipv6 : option Net)
    (c : VmConfig) (p : Numa.NumaPlacement) (process : QemuProcess) : Op VmInfo :=
  now_epoch ← persist_vm vm tap_name mac ip vm_ipv6 c p;
  insert_vm vm tap_name ip vm_ipv6 c p process now_epoch.

Definition create_vm (config : VmConfig) (requested_ipv6 : option Net) (numa_hint : option Z) :
    Op VmInfo :=
  let vm := vm_id config in
  m ← self;
  match vms m !! vm with
  | Some _ => throw (mk_error ("VM " ++ vm ++ " already exists")%str [])
  | None => mret tt
  end;;
  offset ← allocate_offset;
  let vm_ip := Bridge.allocate_vm_ip (gateway_ip m) offset in
  let mac_addr := Bridge.mac_for_vm_ip vm_ip in
  vm_ipv6 ← allocate_ipv6 vm requested_ipv6;
  write_reservations vm mac_addr vm_ip vm_ipv6;;
  let tap_name := tap_of vm in
  setup_network vm tap_name vm_ipv6;;
  tee_backend ← lift (get_backend (t_backend (tee config)) m);
  cb ← host (prepare_boot config);
  let '(config, kernel_cmdline) := cb in
  cp ← place config numa_hint;
  let '(config, placement) := cp in
  process ← launch vm tap_name mac_addr vm_ipv6 tee_backend config placement kernel_cmdline;
  record_vm vm tap_name mac_addr vm_ip vm_ipv6 config placement process.

(** ** Inspecting and deleting *)

Definition not_found (vm : string) : error := mk_error ("VM " ++ vm ++ " not found")%str [].

Definition get_vm (vm : string) : Op VmInfo :=
  m ← self;
  h ← lift (ok_or (not_found vm) (vms m !! vm));
  host (from_handle h).

Fixpoint infos (hs : list (VmHandle Net)) : M W error (list VmInfo) :=
  match hs with
  | [] => mret []
  | h :: hs' => i ← from_handle h; rest ← infos hs'; mret (i :: rest)
  end.
Definition list_vms : Op (list VmInfo) :=
  m ← self; host (infos (snd <$> map_to_list (vms m))).

(** Delete the DNAT rules of the forwards one by one, ignoring errors. *)
Fixpoint remove_nft_forwards (fs : list PortForward) : Op unit :=
  match fs with
  | [] => mret tt
  | f :: fs' =>
      m ← self;
      ignore (Nft.remove_port_forward (nftables m) (f_host_port f) (f_vm_port f) (f_protocol f));;
      remove_nft_forwards fs'
  end.

Definition release_numa (h : VmHandle Net) (n : Numa.NumaAllocator) : Numa.NumaAllocator :=
  match h_numa_node h with
  | Some node =>
      Numa.release node (vcpus (h_config h)) (memory_mb (h_config h))
        (default Size2M (hugepage_size (h_config h))) n
  | None => n
  end.

(** The phases of [delete_vm]: forwards, addresses, devices and reservations. *)
Definition delete_forwards (vm : string) : Op unit :=
  m ← self;
  let '(removed, pf) := PortForwards.remove_all_for_vm vm (port_forwards m) in
  update (upd_forwards (λ _, pf));;
  remove_nft_forwards removed.

Definition delete_addresses (vm : string) (h : VmHandle Net) : Op unit :=
  m ← self;
  match ndp_proxy m with
  | Some ndp => on_ndp ndp (NdpProxy.delete_range (h_tap_name h))
  | None => mret tt
  end;;
  if is_some (h_ipv6 h) then release_ipv6 vm else mret tt.

Definition delete_devices (vm : string) (h : VmHandle Net) : Op unit :=
  m ← self;
  ignore (Nft.teardown_vm (nftables m) vm);;
  ignore (Bridge.delete_tap (h_tap_name h));;
  match dhcp_hostsdir m with
  | Some hostsdir =>
      host (Bridge.remove_dhcp_reservation hostsdir (vm_id (h_config h)));;
      if is_some (h_ipv6 h) then host (Bridge.remove_dhcpv6_reservation hostsdir (vm_id (h_config h)))
      else mret tt
  | None => mret tt
  end.

Definition delete_vm (vm : string) : Op unit :=
  m ← self;
  h ← lift (ok_or (not_found vm) (vms m !! vm));
  update (upd_vms (delete vm));;
  match h_process h with Some p => ignore (stop p) | None => mret tt end;;
  update (upd_numa (release_numa h));;
  delete_forwards vm;;
  delete_addresses vm h;;
  delete_devices vm h;;
  update (upd_used (λ used, used ∖ {[Bridge.offset_of_ip (gateway_ip m) (h_ip h)]}));;
  ignore (Persistence.delete_vm (state_dir m) vm).

(** ** Port forwards *)

(** Rewrite the forwards in the VM's state file, if it can be read. *)
Definition update_persisted_port_forwards (vm : string) : Op unit :=
  m ← self;
  r ← attempt (host (io (host_read (state_path (state_dir m) vm))));
  match r with
  | Ok s =>
      match parse_persisted s with
      | Some pv =>
          ignore (save_vm (state_dir m) vm
            (mk_persisted (pv_config pv) (pv_ip pv) (pv_ipv6 pv) (pv_tap_name pv) (pv_mac_addr pv)
               (PortForwards.list_for_vm vm (port_forwards m)) (pv_created_at_epoch pv)
               (pv_numa_node pv)))
      | None => mret tt
      end
  | _ => mret tt
  end.

(** Under the lock: choose the host port and reserve it. *)
Definition reserve_port (vm : string) (host_port vm_port : Z) (protocol : Protocol) :
    Op PortForward :=
  m ← self;
  actual_host_port ←
    (if host_port =? 0 then
       lift (ok_or (mk_error "no available ports for auto-allocation" [])
               (PortForwards.auto_allocate protocol 10000 (port_forwards m)))
     else if PortForwards.is_available host_port protocol (port_forwards m) then mret host_port
     else throw (mk_error ("port " ++ print_dec host_port ++ " (" ++ print_protocol protocol ++
                           ") is already in use")%str []));
  let f := mk_forward vm actual_host_port vm_port protocol in
  update (upd_forwards (PortForwards.add f));;
  mret f.

Definition add_port_forward (vm : string) (host_port vm_port : Z) (protocol : Protocol) :
    Op PortForward :=
  m ← self;
  h ← lift (ok_or (not_found vm) (vms m !! vm));
  f ← reserve_port vm host_port vm_port protocol;
  r ← attempt (host (Nft.add_port_forward (nftables m) vm (h_ip h) (f_host_port f) vm_port protocol));
  match r with
  | Err e =>
      update (upd_forwards (λ pf, (PortForwards.remove (f_host_port f) (f_protocol f) pf).2));;
      throw (add_context "failed to add nftables port forward" e)
  | _ => mret tt
  end;;
  update_persisted_port_forwards vm;;
  mret f.

Definition remove_port_forward (host_port : Z) (protocol : Protocol) : Op unit :=
  m ← self;
  let '(o, pf) := PortForwards.remove host_port protocol (port_forwards m) in
  update (upd_forwards (λ _, pf));;
  f ← lift (ok_or (mk_error "port forward not found" []) o);
  host (Nft.remove_port_forward (nftables m) host_port (f_vm_port f) protocol);;
  update_persisted_port_forwards (f_vm_id f).

Definition list_port_forwards (vm : option string) m : list PortForward :=
  match vm with
  | Some vm => PortForwards.list_for_vm vm (port_forwards m)
  | None => PortForwards.list_all (port_forwards m)
  end.

(** ** Recovery *)

Fixpoint replay_forwards (vm : string) (ip : Ipv4Addr) (fs : list PortForward) : Op unit :=
  match fs with
  | [] => mret tt
  | f :: fs' =>
      m ← self;
      ignore (Nft.add_port_forward (nftables m) vm ip (f_host_port f) (f_vm_port f) (f_protocol f));;
      replay_forwards vm ip fs'
  end.

(** Kernel state of a running VM: nftables, forwards and the NDP proxy. *)
Definition replay_network (vm : string) (pv : PersistedVm Net) : Op unit :=
  m ← self;
  ignore (Nft.setup_vm (nftables m) vm (pv_tap_name pv));;
  replay_forwards vm (pv_ip pv) (pv_port_forwards pv);;
  match pv_ipv6 pv, ndp_proxy m with
  | Some ipv6, Some ndp => on_ndp ndp (NdpProxy.add_range (pv_tap_name pv) ipv6)
  | _, _ => mret tt
  end.

Definition recover_vm (pv : PersistedVm Net) : Op unit :=
  m ← self;
  let vm := vm_id (pv_config pv) in
  update (upd_used (λ used, {[Bridge.offset_of_ip (gateway_ip m) (pv_ip pv)]} ∪ used));;
  r ← attempt (host (reconnect (for_vm (run_dir m) vm) vm));
  let '(process, state) := match r with
                           | Ok p => (Some p, Running)
                           | _ => (None, Stopped)
                           end in
  match state, pv_numa_node pv with
  | Running, Some node =>
      attempt (E' := error) (on_numa (Numa.allocate (vcpus (pv_config pv)) (memory_mb (pv_config pv))
                 (Some node) (is_confidential (pv_config pv))));;
      mret tt
  | _, _ => mret tt
  end;;
  match pv_ipv6 pv, ipv6_allocator m with
  | Some n, Some a => attempt (E' := error) (on_ipv6 a (Ipv6.allocate vm (Some n)));; mret tt
  | _, _ => mret tt
  end;;
  update (upd_forwards (λ pf, foldl (λ pf f, PortForwards.add f pf) pf (pv_port_forwards pv)));;
  (if decide (state = Running) then replay_network vm pv else mret tt);;
  update (upd_vms (<[vm := mk_handle (pv_config pv) state (pv_ip pv) (pv_ipv6 pv) process
                            (pv_tap_name pv) (pv_created_at_epoch pv) (pv_numa_node pv)]>)).

Definition recover_vms : Op unit :=
  m ← self;
  persisted_vms ← host (load_all_vms (state_dir m));
  forM_ persisted_vms recover_vm.
End manager.
