(* ===== verification/ManagerFrame.v ===== *)
(** * The VM manager: what each phase may change

    A frame relation for the phases of [create_vm] and [delete_vm], and one lemma per
    phase that says how it changes the manager's state for every outcome, whatever
    the host does. *)

From S2P Require Import Prelude Strs Host Json Types NetTypes Tee Verity Qemu Persistence Manager.
From S2P Require Bridge PortForwards Ipv6 Nft NdpProxy Numa.

Section frame.
Context {Net W : Type} `{IpNet Net} `{Host W} `{SerdeJson}.
Implicit Types m : VmManager Net W.

(** ** Rules for the manager's own combinators *)

Lemma wp_self (Q : result error (VmManager Net W) → VmManager Net W * W → Prop) m w :
  Q (Ok m) (m, w) → wp self Q (m, w).
Proof. done. Qed.

Lemma wp_update f (Q : result error unit → VmManager Net W * W → Prop) m w :
  Q (Ok tt) (f m, w) → wp (update f) Q (m, w).
Proof. done. Qed.

Lemma wp_host {A} (c : M W error A) Q m w :
  total c → (∀ a w', Q (Ok a) (m, w')) → (∀ e w', Q (Err e) (m, w')) → wp (host c) Q (m, w).
Proof. intros. apply wp_on_snd', wp_total; auto. Qed.

Lemma wp_host_never {A} (c : M W error A) Q m w :
  never_fails c → (∀ a w', Q (Ok a) (m, w')) → wp (host c) Q (m, w).
Proof.
  intros Hc HQ. apply wp_on_snd'. unfold wp. destruct (Hc w) as [a Ha].
  destruct (c w) as [r w']; simpl in *; subst; apply HQ.
Qed.

Lemma wp_attempt_host {E' A} (c : M W error A)
    (Q : result E' (result error A) → VmManager Net W * W → Prop) m w :
  total c → (∀ a w', Q (Ok (Ok a)) (m, w')) → (∀ e w', Q (Ok (Err e)) (m, w')) →
  wp (attempt (host c)) Q (m, w).
Proof. intros. apply wp_attempt, wp_host; auto. Qed.

Lemma wp_ignore {A} (c : M W error A) Q m w :
  total c → (∀ w', Q (Ok tt) (m, w')) → wp (ignore c) Q (m, w).
Proof. intros. apply wp_bind, wp_attempt_host; intros; by try apply wp_ret. Qed.

Lemma wp_on_ipv6 {A} a (c : M (Ipv6.Ipv6RangeAllocator Net * W) error A) Q m w :
  wp c (λ r '(a', w'), Q r (upd_ipv6 (λ _, a') m, w')) (a, w) → wp (on_ipv6 a c) Q (m, w).
Proof. unfold wp, on_ipv6. by destruct (c (a, w)) as [r []]. Qed.

Lemma wp_on_ndp {A} p (c : M (NdpProxy.NdpProxy Net * W) error A) Q m w :
  wp c (λ r '(p', w'), Q r (upd_ndp (λ _, p') m, w')) (p, w) → wp (on_ndp p c) Q (m, w).
Proof. unfold wp, on_ndp. by destruct (c (p, w)) as [r []]. Qed.

(** ** The frame *)

(** Everything but the IPv6 allocator and the NDP proxy. *)
Definition core m :=
  (vms m, run_dir m, state_dir m, bridge m, gateway_ip m, used_ip_offsets m, backends m,
   dhcp_hostsdir m, nftables m, port_forwards m, numa m).

Definition ipv6_rel (vm : string) (o o' : option (Ipv6.Ipv6RangeAllocator Net)) : Prop :=
  match o, o' with
  | Some a, Some a' =>
      Ipv6.pool a' = Ipv6.pool a ∧ (Ipv6.ipv6_inv a → Ipv6.ipv6_inv a') ∧
      ∀ vm', vm' ≠ vm → Ipv6.allocations a' !! vm' = Ipv6.allocations a !! vm'
  | None, None => True
  | _, _ => False
  end.
Definition ndp_rel (vm : string) (o o' : option (NdpProxy.NdpProxy Net)) : Prop :=
  match o, o' with
  | Some p, Some p' =>
      NdpProxy.host_interface p' = NdpProxy.host_interface p ∧
      ∀ tap, tap ≠ tap_of vm → NdpProxy.ranges p' !! tap = NdpProxy.ranges p !! tap
  | None, None => True
  | _, _ => False
  end.

(** Between [m] and [m'] only what belongs to the VM [vm] in the IPv6 allocator and in
    the NDP proxy changed. *)
Definition frame (vm : string) m m' : Prop :=
  core m' = core m ∧ ipv6_rel vm (ipv6_allocator m) (ipv6_allocator m') ∧
  ndp_rel vm (ndp_proxy m) (ndp_proxy m').

Lemma ipv6_rel_refl vm o : ipv6_rel vm o o.
Proof. by destruct o. Qed.
Lemma ndp_rel_refl vm o : ndp_rel vm o o.
Proof. by destruct o. Qed.

Lemma frame_refl vm m : frame vm m m.
Proof. split_and!; [done|apply ipv6_rel_refl|apply ndp_rel_refl]. Qed.

Lemma frame_trans vm m1 m2 m3 : frame vm m1 m2 → frame vm m2 m3 → frame vm m1 m3.
Proof.
  intros (Hc1 & Hi1 & Hn1) (Hc2 & Hi2 & Hn2). split_and!; [congruence| |].
  - destruct (ipv6_allocator m1), (ipv6_allocator m2), (ipv6_allocator m3); simpl in *; try done.
    destruct Hi1 as (Hp1 & Hv1 & Ho1), Hi2 as (Hp2 & Hv2 & Ho2).
    split_and!; [congruence|auto|]. intros. rewrite Ho2, Ho1; done.
  - destruct (ndp_proxy m1), (ndp_proxy m2), (ndp_proxy m3); simpl in *; try done.
    destruct Hn1 as (Hh1 & Ho1), Hn2 as (Hh2 & Ho2). split; [congruence|].
    intros. rewrite Ho2, Ho1; done.
Qed.

#[global] Instance frame_preorder vm : PreOrder (frame vm).
Proof. split; [intros ?; apply frame_refl|intros ???; apply frame_trans]. Qed.

(** The parts of [core], one by one. *)
Lemma core_eq m m' :
  core m' = core m →
  vms m' = vms m ∧ run_dir m' = run_dir m ∧ state_dir m' = state_dir m ∧ bridge m' = bridge m ∧
  gateway_ip m' = gateway_ip m ∧ used_ip_offsets m' = used_ip_offsets m ∧
  backends m' = backends m ∧ dhcp_hostsdir m' = dhcp_hostsdir m ∧ nftables m' = nftables m ∧
  port_forwards m' = port_forwards m ∧ numa m' = numa m.
Proof. unfold core. intros Heq. by simplify_eq. Qed.

Definition free_ipv6 (vm : string) m : VmManager Net W := upd_ipv6 (λ a, (Ipv6.release vm a).2) m.

Lemma frame_free_ipv6 vm m : frame vm m (free_ipv6 vm m).
Proof.
  split_and!; [done| |apply ndp_rel_refl]. unfold free_ipv6. simpl.
  destruct (ipv6_allocator m) as [a|]; simpl; [|done].
  split_and!; [done|apply Ipv6.ipv6_inv_release|]. intros. by apply lookup_delete_ne.
Qed.

Lemma frame_ndp vm m p p' :
  ndp_proxy m = Some p → NdpProxy.host_interface p' = NdpProxy.host_interface p →
  (∀ tap, tap ≠ tap_of vm → NdpProxy.ranges p' !! tap = NdpProxy.ranges p !! tap) →
  frame vm m (upd_ndp (λ _, p') m).
Proof.
  intros Hp Hh Hr. split_and!; [done|apply ipv6_rel_refl|]. simpl. rewrite Hp. simpl. done.
Qed.

(** ** Phases *)

Lemma allocate_offset_spec (Q : result error Z → VmManager Net W * W → Prop) m w :
  (∀ o, 1 ≤ o ≤ 254 → o ∉ used_ip_offsets m → (∀ o', 1 ≤ o' < o → o' ∈ used_ip_offsets m) →
     Q (Ok o) (upd_used (λ used, {[o]} ∪ used) m, w)) →
  (∀ e, (∀ o, 1 ≤ o ≤ 254 → o ∈ used_ip_offsets m) → Q (Err e) (m, w)) →
  wp allocate_offset Q (m, w).
Proof.
  intros Hok Herr. unfold allocate_offset. apply wp_bind, wp_self.
  destruct (List.find _ _) as [o|] eqn:Hf.
  - apply PortForwards.find_range_Some in Hf as (Ho & Hfree & Hmin).
    apply wp_bind, wp_update, wp_ret, Hok; [lia| |].
    + by apply negb_true_iff, bool_decide_eq_false in Hfree.
    + intros o' Ho'. specialize (Hmin o' Ho'). by apply negb_false_iff, bool_decide_eq_true in Hmin.
  - apply wp_throw, Herr. rewrite PortForwards.find_range_None in Hf. intros o Ho.
    specialize (Hf o ltac:(lia)). by apply negb_false_iff, bool_decide_eq_true in Hf.
Qed.

(** The VM holds the range, or IPv6 is off. *)
Definition holds_ipv6 (vm : string) (o : option Net) m : Prop :=
  match o with
  | Some n => ∃ a, ipv6_allocator m = Some a ∧ Ipv6.allocations a !! vm = Some n
  | None => ipv6_allocator m = None
  end.

Lemma upd_ipv6_id m a : ipv6_allocator m = Some a → upd_ipv6 (λ _, a) m = m.
Proof. destruct m. unfold upd_ipv6. simpl. by intros ->. Qed.

Lemma allocate_ipv6_spec vm req (Q : result error (option Net) → VmManager Net W * W → Prop) m w :
  (∀ o m' w', frame vm m m' → holds_ipv6 vm o m' → Q (Ok o) (m', w')) →
  (∀ e w', Q (Err e) (m, w')) →
  (∀ p w' a, ipv6_allocator m = Some a → req = None → ¬ Ipv6.drawable a → Q (Panic p) (m, w')) →
  wp (allocate_ipv6 vm req) Q (m, w).
Proof.
  intros Hok Herr Hpanic. unfold allocate_ipv6. apply wp_bind, wp_self.
  destruct (ipv6_allocator m) as [a|] eqn:Ha; [|by apply wp_ret, Hok; [apply frame_refl|]].
  apply wp_bind, wp_on_ipv6, Ipv6.allocate_spec.
  - intros n a' w' Hal _. apply wp_ret, Hok.
    + split_and!; [done| |apply ndp_rel_refl]. simpl. rewrite Ha. simpl.
      split_and!; [by destruct Hal as (_ & _ & ->)|intros; by eapply Ipv6.allocated_inv|].
      destruct Hal as (_ & _ & ->). intros. by apply lookup_insert_ne.
    + simpl. rewrite Ha. simpl. eexists. split; [done|]. destruct Hal as (_ & _ & ->).
      apply lookup_insert_eq.
  - intros e w'. rewrite upd_ipv6_id by done. apply Herr.
  - intros p w' Hr Hd. rewrite upd_ipv6_id by done. by eapply Hpanic.
Qed.

Lemma write_reservations_spec vm mac ip o (Q : result error unit → VmManager Net W * W → Prop) m w :
  (∀ w', Q (Ok tt) (m, w')) → (∀ e m' w', frame vm m m' → Q (Err e) (m', w')) →
  wp (write_reservations vm mac ip o) Q (m, w).
Proof.
  intros Hok Herr. unfold write_reservations. apply wp_bind, wp_self.
  destruct (dhcp_hostsdir m) as [d|]; [|by apply wp_ret].
  apply wp_bind, wp_host; [apply total_with_context; auto with cvm| |intros; apply Herr, frame_refl].
  intros [] w1. destruct o as [n|]; [|by apply wp_ret].
  apply wp_bind, wp_attempt_host; [auto with cvm|intros; by apply wp_ret|]. intros e w2.
  apply wp_bind, wp_host_never; [apply Bridge.total_remove_dhcp|]. intros [] w3.
  apply wp_bind, wp_update, wp_throw, Herr, frame_free_ipv6.
Qed.

(** The IPv6 range is released when there is one and its lock is free. *)
Lemma cleanup_spec vm (b : bool) (Q : result error unit → VmManager Net W * W → Prop) m w :
  (∀ (b' : bool) w', Q (Ok tt) (if b' then free_ipv6 vm m else m, w')) → wp (cleanup_reservations vm b) Q (m, w).
Proof.
  intros HQ. unfold cleanup_reservations. apply wp_bind, wp_self, wp_bind.
  assert (∀ w', wp (if b then free ← host (observe host_lock_free);
    if (free : bool) then release_ipv6 vm else mret tt else mret tt) Q (m, w')) as Hlast.
  { intros w'. destruct b; [|apply wp_ret, (HQ false)]. apply wp_bind, wp_on_snd', wp_observe.
    destruct (host_lock_free w'); [apply wp_update, (HQ true)|apply wp_ret, (HQ false)]. }
  destruct (dhcp_hostsdir m) as [d|]; [|apply wp_ret, Hlast].
  apply wp_bind, wp_host_never; [apply Bridge.total_remove_dhcp|]. intros [] w1.
  destruct b; [|apply wp_ret, Hlast].
  apply wp_host_never; [apply Bridge.total_remove_dhcpv6|]. intros [] w2. apply Hlast.
Qed.

Lemma frame_cleanup vm (b : bool) m : frame vm m (if b then free_ipv6 vm m else m).
Proof. destruct b; [apply frame_free_ipv6|apply frame_refl]. Qed.

Lemma fail_after_cleanup {A} vm (b : bool) e (Q : result error A → VmManager Net W * W → Prop) m w :
  (∀ m' w', frame vm m m' → Q (Err e) (m', w')) →
  wp (cleanup_reservations vm b;; throw e) Q (m, w).
Proof. intros HQ. apply wp_bind, cleanup_spec. intros b' w'. apply wp_throw, HQ, frame_cleanup. Qed.

Lemma add_range_frame vm m p n w (Q : result error unit → VmManager Net W * W → Prop) :
  ndp_proxy m = Some p →
  (∀ m' w', frame vm m m' → ipv6_allocator m' = ipv6_allocator m → Q (Ok tt) (m', w')) →
  wp (on_ndp p (NdpProxy.add_range (tap_of vm) n)) Q (m, w).
Proof.
  intros Hp HQ. apply wp_on_ndp, NdpProxy.add_range_spec. intros w'. apply HQ; [|done].
  eapply frame_ndp; [done..|]. intros. by apply lookup_insert_ne.
Qed.

Lemma delete_range_frame vm m p w (Q : result error unit → VmManager Net W * W → Prop) :
  ndp_proxy m = Some p →
  (∀ m' w', frame vm m m' → ipv6_allocator m' = ipv6_allocator m →
     (∀ p', ndp_proxy m' = Some p' → NdpProxy.ranges p' !! tap_of vm = None) → Q (Ok tt) (m', w')) →
  wp (on_ndp p (NdpProxy.delete_range (tap_of vm))) Q (m, w).
Proof.
  intros Hp HQ. apply wp_on_ndp, NdpProxy.delete_range_spec. intros w'. apply HQ; [|done|].
  - eapply frame_ndp; [done..|]. intros. by apply lookup_delete_ne.
  - simpl. rewrite Hp. intros p' [= <-]. apply lookup_delete_eq.
Qed.
End frame.
