(* ===== verification/ManagerSpec.v ===== *)
(** * The VM manager: specifications of the operations

    The functional behaviour of [create_vm] and [delete_vm] on every outcome, as [wp]
    lemmas over the frame of [ManagerFrame], whatever the host does. *)

From S2P Require Import Prelude Strs Host Json Types NetTypes Tee Verity Qemu Persistence Manager.
From S2P Require Import ManagerFrame.
From S2P Require Bridge PortForwards Ipv6 Nft NdpProxy Numa.

(** ** Boot preparation *)

(** The hash tree disk that goes after a disk. *)
Definition hashtree_disk (d : DiskConfig) : DiskConfig := mk_disk (hashtree_of (d_path d)) true "raw".

Section boot.
Context {W : Type} `{Host W}.

(** What the disks and the command line of a VM become, from one state of the machine to
    another: the root disk, and then the workload disk if there is one, is followed by its
    hash tree, and its own root hash is on the command line. *)
Definition boot_run (c c' : VmConfig) (cmdline : option string) (w w' : W) : Prop :=
  if negb (is_confidential c) then c' = c ∧ cmdline = None
  else if encrypted c then c' = c ∧ cmdline = Some "console=ttyS0 luks=1"%string
  else match disks c with
  | [] => c' = c ∧ cmdline = Some "console=ttyS0 root=/dev/vda ro"%string
  | [r] => ∃ h, root_hash_of (d_path r) h w w' ∧ c' = set_disks [r; hashtree_disk r] c ∧
      cmdline = Some ("console=ttyS0 root=/dev/mapper/verity-root ro roothash=" ++ h)%str
  | r :: wl :: rest => ∃ h g w1, root_hash_of (d_path r) h w w1 ∧ root_hash_of (d_path wl) g w1 w' ∧
      c' = set_disks (r :: hashtree_disk r :: wl :: hashtree_disk wl :: rest) c ∧
      cmdline = Some (("console=ttyS0 root=/dev/mapper/verity-root ro roothash=" ++ h) ++
                      " workload_roothash=" ++ g)%str
  end.
(** The same for some states of the machine. *)
Definition boot_plan (c c' : VmConfig) (cmdline : option string) : Prop := ∃ w w', boot_run c c' cmdline w w'.

Lemma wp_ensure_verity_ctx msg rootfs (Q : result error VerityInfo → W → Prop) w :
  (∀ h w', root_hash_of rootfs h w w' → Q (Ok (mk_verity h (hashtree_of rootfs))) w') →
  (∀ e w', Q (Err e) w') → wp (with_context msg (ensure_verity rootfs)) Q w.
Proof. intros Hok Herr. apply wp_with_context, ensure_verity_spec; intros; simpl; auto. Qed.

Lemma prepare_boot_run c (Q : result error (VmConfig * option string) → W → Prop) w :
  (∀ c' cl w', boot_run c c' cl w w' → Q (Ok (c', cl)) w') → (∀ e w', Q (Err e) w') →
  wp (prepare_boot c) Q w.
Proof.
  intros Hok Herr. unfold prepare_boot. unfold boot_run in Hok.
  destruct (negb (is_confidential c)); [apply wp_ret, Hok; done|].
  destruct (encrypted c); [apply wp_ret, Hok; done|].
  destruct (disks c) as [|r [|wl rest]] eqn:Hd; [apply wp_ret, Hok; done|..].
  - apply wp_bind, wp_ensure_verity_ctx; [intros h w1 Hh|intros; apply Herr].
    unfold insert_disk. rewrite Hd. simpl. apply wp_bind, wp_lift, wp_bind, wp_ret, wp_ret, Hok. eauto.
  - apply wp_bind, wp_ensure_verity_ctx; [intros h w1 Hh|intros; apply Herr].
    unfold insert_disk. rewrite Hd. simpl. apply wp_bind, wp_lift, wp_bind. simpl.
    apply wp_bind, wp_lift. simpl.
    apply wp_bind, wp_ensure_verity_ctx; [intros g w2 Hg|intros; apply Herr]. simpl.
    apply wp_bind, wp_lift. simpl. apply wp_ret, wp_ret, Hok. eauto 7.
Qed.
Lemma prepare_boot_spec c (Q : result error (VmConfig * option string) → W → Prop) w :
  (∀ c' cl w', boot_plan c c' cl → Q (Ok (c', cl)) w') → (∀ e w', Q (Err e) w') →
  wp (prepare_boot c) Q w.
Proof. intros Hok Herr. apply prepare_boot_run; [|done]. intros c' cl w' Hrun. apply Hok. by eexists _, _. Qed.
End boot.
Arguments boot_plan W {_} c c' cmdline.

(** A configuration prepared for launch keeps what identifies the VM. *)
Definition same_request (c c' : VmConfig) : Prop :=
  vm_id c' = vm_id c ∧ vcpus c' = vcpus c ∧ memory_mb c' = memory_mb c ∧ tee c' = tee c ∧
  kernel c' = kernel c ∧ initrd c' = initrd c ∧ encrypted c' = encrypted c.

Section plan.
Context {W : Type} `{Host W}.

(** The disks of a plan. *)
Lemma boot_plan_shape c c' cl : boot_plan W c c' cl →
  c' = c ∨ ∃ r rest, disks c = r :: rest ∧
    (c' = set_disks (r :: hashtree_disk r :: rest) c ∨
     ∃ wl rest', rest = wl :: rest' ∧ c' = set_disks (r :: hashtree_disk r :: wl :: hashtree_disk wl :: rest') c).
Proof.
  intros (w & w' & Hrun). unfold boot_run in Hrun.
  destruct (negb _); [left; apply Hrun|]. destruct (encrypted c); [left; apply Hrun|].
  destruct (disks c) as [|r [|wl rest]]; [left; apply Hrun|right..].
  - destruct Hrun as (h & _ & -> & _). exists r, []. by split; [|left].
  - destruct Hrun as (h & g & w1 & _ & _ & -> & _). exists r, (wl :: rest). split; [done|right]. by exists wl, rest.
Qed.

Lemma boot_plan_same c c' cl : boot_plan W c c' cl → same_request c c'.
Proof. by intros [->|(r & rest & _ & [->|(wl & rest' & _ & ->)])]%boot_plan_shape. Qed.

Lemma boot_plan_wf c c' cl : boot_plan W c c' cl → config_wf c → config_wf c'.
Proof. by intros [->|(r & rest & _ & [->|(wl & rest' & _ & ->)])]%boot_plan_shape. Qed.

Lemma hashtree_disk_ok d : disk_ok d → disk_ok (hashtree_disk d).
Proof.
  intros [_ Hp]. split; [by left|]. simpl. unfold hashtree_of. by apply lacks_app.
Qed.

Lemma boot_plan_disks c c' cl : boot_plan W c c' cl → Forall disk_ok (disks c) → Forall disk_ok (disks c').
Proof.
  intros [->|(r & rest & -> & [->|(wl & rest' & -> & ->)])]%boot_plan_shape; [done|..]; simpl;
    rewrite !Forall_cons; intros HF; destruct_and! HF; split_and!; auto using hashtree_disk_ok.
Qed.
End plan.

Section spec.
Context {Net W : Type} `{IpNet Net} `{Host W} `{SerdeJson}.
Implicit Types m : VmManager Net W.

Lemma setup_network_spec vm o (Q : result error unit → VmManager Net W * W → Prop) m w :
  (∀ m' w', frame vm m m' → ipv6_allocator m' = ipv6_allocator m → Q (Ok tt) (m', w')) →
  (∀ e m' w', frame vm m m' → Q (Err e) (m', w')) →
  wp (setup_network vm (tap_of vm) o) Q (m, w).
Proof.
  intros Hok Herr. unfold setup_network. apply wp_bind, wp_self.
  apply wp_bind, wp_attempt_host; [auto with cvm|intros [] w1|
    intros; by apply wp_bind, fail_after_cleanup, Herr].
  apply wp_bind, wp_ret, wp_bind.
  assert (∀ w', wp (r ← attempt (host (Nft.setup_vm (nftables m) vm (tap_of vm)));
    match r with
    | Err e => ignore (Bridge.delete_tap (tap_of vm));; cleanup_reservations vm (is_some o);; throw e
    | _ => mret tt
    end;;
    match o, ndp_proxy m with
    | Some ipv6, Some ndp => on_ndp ndp (NdpProxy.add_range (tap_of vm) ipv6)
    | _, _ => mret tt
    end) Q (m, w')) as Hrest.
  { intros w'. apply wp_bind, wp_attempt_host; [auto with cvm|intros [] w2|intros e w2].
    - apply wp_bind, wp_ret. destruct o as [n|]; [|by apply wp_ret, Hok; [apply frame_refl|]].
      destruct (ndp_proxy m) as [p|] eqn:Hp; [|by apply wp_ret, Hok; [apply frame_refl|]].
      by apply add_range_frame.
    - apply wp_bind, wp_bind, wp_ignore; [auto with cvm|]. intros w3. by apply fail_after_cleanup, Herr. }
  destruct o as [n|]; [|by apply wp_ret, Hrest].
  apply wp_bind, wp_attempt_host; [auto with cvm|intros [] w2; by apply wp_ret, Hrest|].
  intros e w2. apply wp_bind, wp_ignore; [auto with cvm|]. intros w3. by apply fail_after_cleanup, Herr.
Qed.

(** [place]: the configuration gets the page size and, on a host with several nodes, the
    node; the allocator is charged. *)
Definition place_config m (p : Numa.NumaPlacement) (c : VmConfig) : VmConfig :=
  set_hugepage_size (Some (Numa.placement_page p))
    (if 1 <? Numa.num_nodes (numa m) then set_numa_node (Some (Numa.node p)) c else c).

Lemma place_config_same m p c :
  same_request c (place_config m p c) ∧ disks (place_config m p c) = disks c ∧
  hugepage_size (place_config m p c) = Some (Numa.placement_page p).
Proof. unfold place_config. by destruct (1 <? Numa.num_nodes (numa m)). Qed.

Lemma place_spec c hint (Q : result error (VmConfig * Numa.NumaPlacement) → VmManager Net W * W → Prop) m w :
  Numa.alloc_wf (numa m) → config_wf c →
  (∀ p n, Numa.allocate (vcpus c) (memory_mb c) hint (is_confidential c) (numa m) = (Ok p, n) →
     Q (Ok (place_config (upd_numa (λ _, n) m) p c, p)) (upd_numa (λ _, n) m, w)) →
  (∀ e, Q (Err e) (m, w)) →
  wp (place c hint) Q (m, w).
Proof.
  intros Hwf (Hv & Hm & _) Hok Herr. unfold place. apply wp_bind.
  unfold wp at 1, on_numa.
  pose proof (Numa.allocate_cases (numa m) (vcpus c) (memory_mb c) hint (is_confidential c) Hwf
    ltac:(lia) ltac:(lia)) as Hc.
  destruct (Numa.allocate _ _ _ _ (numa m)) as [[p|e|q] n] eqn:Hal; simpl; [|destruct Hc as [-> _]|done].
  - apply wp_bind, wp_self, wp_ret. by apply (Hok p n).
  - replace (upd_numa (λ _, numa m) m) with m by (by destruct m). apply Herr.
Qed.

Lemma launch_spec vm mac o (b : TeeBackend W) c p cl
    (Q : result error QemuProcess → VmManager Net W * W → Prop) m w :
  (∀ w', Forall disk_ok (disks c) → Q (Ok (mk_process (for_vm (run_dir m) vm) vm)) (m, w')) →
  (∀ e m' w',
     frame vm (upd_numa (Numa.release (Numa.node p) (vcpus c) (memory_mb c) (Numa.placement_page p)) m) m' →
     Q (Err e) (m', w')) →
  (∀ q, ¬ Forall disk_ok (disks c) → Q (Panic q) (m, w)) →
  wp (launch vm (tap_of vm) mac o b c p cl) Q (m, w).
Proof.
  intros Hok Herr Hpanic. unfold launch. apply wp_bind, wp_self, wp_bind, wp_lift.
  unfold build_qemu_command.
  destruct (drives_args_cases (disks c)) as [[-> Hgood]|[[q ->] Hbad]]; simpl; [|by apply Hpanic].
  apply wp_bind, wp_attempt, wp_on_snd', spawn_spec; [intros w1; by apply wp_ret, Hok|intros e w1].
  apply wp_bind, wp_update.
  set (m1 := upd_numa _ m) in *. apply wp_bind.
  assert (∀ m2 w2, frame vm m1 m2 →
    wp (ignore (Nft.teardown_vm (nftables m) vm);;
        ignore (Bridge.delete_tap (tap_of vm));;
        cleanup_reservations vm (is_some o);; throw e) Q (m2, w2)) as Hrest.
  { intros m2 w2 Hfr. apply wp_bind, wp_ignore; [auto with cvm|]. intros w3.
    apply wp_bind, wp_ignore; [auto with cvm|]. intros w4. apply fail_after_cleanup.
    intros m3 w5 Hfr'. apply Herr. by transitivity m2. }
  destruct o as [n|]; [|apply wp_ret, Hrest, frame_refl].
  destruct (ndp_proxy m) as [ndp|] eqn:Hn; [|apply wp_ret, Hrest, frame_refl].
  apply delete_range_frame; [done|]. intros m2 w2 Hfr _ _. by apply Hrest.
Qed.

Lemma persist_spec vm mac ip o c p (Q : result error Z → VmManager Net W * W → Prop) m w :
  (∀ now w', Q (Ok now) (m, w')) → wp (persist_vm vm (tap_of vm) mac ip o c p) Q (m, w).
Proof.
  intros HQ. unfold persist_vm. apply wp_bind, wp_self, wp_bind, wp_on_snd', wp_observe.
  apply wp_bind, wp_ignore; [apply total_save_vm|]. intros w1. by apply wp_ret.
Qed.
Lemma insert_spec vm ip o c p process now (Q : result error VmInfo → VmManager Net W * W → Prop) m w :
  (∀ i w', i_vm_id i = vm_id c → i_ip i = print_ipv4 ip →
     Q (Ok i) (upd_vms (<[vm := mk_handle c Running ip o (Some process) (tap_of vm) now
       (Some (Numa.node p))]>) m, w')) →
  wp (insert_vm vm (tap_of vm) ip o c p process now) Q (m, w).
Proof.
  intros HQ. unfold insert_vm. apply wp_bind, wp_on_snd'. unfold from_handle. apply wp_bind, wp_observe, wp_ret.
  apply wp_bind, wp_update, wp_ret. by apply HQ.
Qed.

Lemma record_spec vm mac ip o c p process
    (Q : result error VmInfo → VmManager Net W * W → Prop) m w :
  (∀ i now w', i_vm_id i = vm_id c → i_ip i = print_ipv4 ip →
     Q (Ok i) (upd_vms (<[vm := mk_handle c Running ip o (Some process) (tap_of vm) now
       (Some (Numa.node p))]>) m, w')) →
  wp (record_vm vm (tap_of vm) mac ip o c p process) Q (m, w).
Proof.
  intros HQ. apply wp_bind, persist_spec. intros now w1. apply insert_spec. intros i w2. apply HQ.
Qed.
End spec.
