(* ===== verification/ManagerOps.v ===== *)
(** * The VM manager: creating and deleting

    The specification of [create_vm] on success, error and panic, and of [delete_vm],
    composed from the phases of [ManagerSpec]. *)

From S2P Require Import Prelude Strs Host Json Types NetTypes Tee Verity Qemu Persistence Manager.
From S2P Require Import ManagerFrame ManagerSpec.
From S2P Require Bridge PortForwards Ipv6 Nft NdpProxy Numa.

Section ops.
Context {Net W : Type} `{IpNet Net} `{Host W} `{SerdeJson}.
Implicit Types m : VmManager Net W.

Lemma frame_upd_numa vm n m m' :
  frame vm m m' → frame vm (upd_numa (λ _, n) m) (upd_numa (λ _, n) m').
Proof.
  intros (Hc & Hi & Hn). split_and!; [|done|done].
  apply core_eq in Hc as (?&?&?&?&?&?&?&?&?&?&?). unfold core. simpl. congruence.
Qed.

(** The least offset that is free. *)
Definition least_free (o : Z) m : Prop :=
  1 ≤ o ≤ 254 ∧ o ∉ used_ip_offsets m ∧ ∀ o', 1 ≤ o' < o → o' ∈ used_ip_offsets m.
Definition take_offset (o : Z) m : VmManager Net W := upd_used (λ used, {[o]} ∪ used) m.

(** The request as NUMA sees it. *)
Definition numa_request (c : VmConfig) (hint : option Z) (n : Numa.NumaAllocator) :=
  Numa.allocate (vcpus c) (memory_mb c) hint (is_confidential c) n.
Definition numa_give_back (c : VmConfig) (p : Numa.NumaPlacement) : Numa.NumaAllocator → Numa.NumaAllocator :=
  Numa.release (Numa.node p) (vcpus c) (memory_mb c) (Numa.placement_page p).

(** What [create_vm] has done when it succeeds: taken the least free offset, charged one
    placement, and recorded one running VM whose disks and address follow from them. *)
Inductive created (config : VmConfig) (hint : option Z) m (i : VmInfo) : VmManager Net W → Prop :=
| mk_created o boot cmdline p n mid v6 process now :
    vms m !! vm_id config = None →
    least_free o m →
    boot_plan W config boot cmdline →
    Forall disk_ok (disks boot) →
    numa_request config hint (numa m) = (Ok p, n) →
    frame (vm_id config) (upd_numa (λ _, n) (take_offset o m)) mid →
    holds_ipv6 (vm_id config) v6 mid →
    i_vm_id i = vm_id config →
    i_ip i = print_ipv4 (Bridge.allocate_vm_ip (gateway_ip m) o) →
    created config hint m i (upd_vms (<[vm_id config :=
      mk_handle (place_config (upd_numa (λ _, n) m) p boot) Running
        (Bridge.allocate_vm_ip (gateway_ip m) o) v6 (Some process) (tap_of (vm_id config)) now
        (Some (Numa.node p))]>) mid).

(** What it leaves behind when it fails: nothing, or the offset it took; NUMA counters
    unchanged or charged and released. *)
Definition create_failed (config : VmConfig) (hint : option Z) m m' : Prop :=
  m' = m ∧ (is_Some (vms m !! vm_id config) ∨ ∀ o, 1 ≤ o ≤ 254 → o ∈ used_ip_offsets m) ∨
  vms m !! vm_id config = None ∧ ∃ o, least_free o m ∧
    (frame (vm_id config) (take_offset o m) m' ∨
     ∃ p n, numa_request config hint (numa m) = (Ok p, n) ∧
       frame (vm_id config) (upd_numa (λ _, numa_give_back config p n) (take_offset o m)) m').

(** A panic: only for a disk QEMU would not accept, or an IPv6 pool without host bits. *)
Definition create_panicked (config : VmConfig) (requested : option Net) (hint : option Z) m m' : Prop :=
  vms m !! vm_id config = None ∧ ∃ o, least_free o m ∧
  ((∃ a, ipv6_allocator m = Some a ∧ requested = None ∧ ¬ Ipv6.drawable a ∧ m' = take_offset o m) ∨
   (¬ Forall disk_ok (disks config) ∧ ∃ p n, numa_request config hint (numa m) = (Ok p, n) ∧
      frame (vm_id config) (upd_numa (λ _, n) (take_offset o m)) m')).

Lemma create_vm_spec config requested hint m w
    (Q : result error VmInfo → VmManager Net W * W → Prop) :
  Numa.alloc_wf (numa m) → config_wf config →
  (∀ i m' w', created config hint m i m' → Q (Ok i) (m', w')) →
  (∀ e m' w', create_failed config hint m m' → Q (Err e) (m', w')) →
  (∀ q m' w', create_panicked config requested hint m m' → Q (Panic q) (m', w')) →
  wp (create_vm config requested hint) Q (m, w).
Proof.
  intros Hwf Hcfg Hok Herr Hpanic. set (vm := vm_id config) in *.
  unfold create_vm. fold vm. apply wp_bind, wp_self, wp_bind.
  destruct (vms m !! vm) as [h|] eqn:Hvm; [apply wp_throw, Herr; left; split; [done|left; by eexists]|].
  apply wp_ret, wp_bind, allocate_offset_spec;
    [|intros e Hfull; apply Herr; left; split; [done|by right]].
  intros o Ho Hfree Hmin. fold (take_offset o m).
  assert (least_free o m) as Hleast by done.
  assert (∀ e m' w', frame vm (take_offset o m) m' → Q (Err e) (m', w')) as Herr1.
  { intros e m' w' Hfr. apply Herr. right. eauto. }
  apply wp_bind, allocate_ipv6_spec; [|intros; apply Herr1, frame_refl|].
  2: { intros q w' a Ha Hreq Hd. apply Hpanic. split; [done|]. exists o. split; [done|]. left. eauto. }
  intros v6 m1 w1 Hfr1 Hholds.
  apply wp_bind, write_reservations_spec; [|intros; apply Herr1; by transitivity m1].
  intros w2. apply wp_bind, setup_network_spec; [|intros; apply Herr1; by transitivity m1].
  intros m2 w3 Hfr2 Hsame. assert (frame vm (take_offset o m) m2) as Hfr by by transitivity m1.
  apply wp_bind, wp_lift. unfold get_backend, ok_or.
  destruct (backends m !! _) as [b|]; simpl; [|by apply Herr1].
  apply wp_bind, wp_on_snd', prepare_boot_spec; [|by intros; apply Herr1].
  intros cb cl w4 Hplan. pose proof (boot_plan_same _ _ _ Hplan) as (_ & Hv & Hm & Ht & _).
  assert (numa m2 = numa m) as Hnuma.
  { destruct Hfr as (Hc & _). apply core_eq in Hc. by destruct_and! Hc. }
  assert (is_confidential cb = is_confidential config) as Hconf by (unfold is_confidential; by rewrite Ht).
  apply wp_bind, place_spec; [by rewrite Hnuma|by eapply boot_plan_wf| |by intros; apply Herr1].
  rewrite Hnuma, Hconf, Hv, Hm. intros p n Hal. fold (numa_request config hint (numa m)) in Hal.
  pose proof (frame_upd_numa _ n _ _ Hfr) as Hfr3.
  change (place_config (upd_numa (λ _, n) m2) p cb) with (place_config (upd_numa (λ _, n) m) p cb).
  destruct (place_config_same (upd_numa (λ _, n) m) p cb) as ((Hi1 & Hv1 & Hm1 & _) & Hdisks & _).
  destruct (boot_plan_same _ _ _ Hplan) as (Hi0 & _).
  apply wp_bind, launch_spec.
  - intros w5 Hgood. apply record_spec. intros i now w6 Hi Hip.
    apply Hok. rewrite Hdisks in Hgood. eapply mk_created; try done.
    + unfold holds_ipv6 in *. simpl. by rewrite Hsame.
    + congruence.
  - intros e m3 w5 Hfr4. apply Herr. right. split; [done|]. exists o. split; [done|]. right.
    exists p, n. split; [done|]. transitivity (upd_numa (λ _, numa_give_back config p n) m2);
      [by apply frame_upd_numa|]. unfold numa_give_back. by rewrite <-Hv, <-Hm, <-Hv1, <-Hm1.
  - intros q Hbad. apply Hpanic. split; [done|]. exists o. split; [done|]. right. split.
    + intros Hd. apply Hbad. rewrite Hdisks. by eapply boot_plan_disks.
    + by exists p, n.
Qed.

(** ** Deleting *)

(** The state after [delete_vm], up to the VM's own IPv6 and NDP entries. *)
Definition without (vm : string) (h : VmHandle Net) m : VmManager Net W :=
  upd_used (λ used, used ∖ {[Bridge.offset_of_ip (gateway_ip m) (h_ip h)]})
    (upd_forwards (λ pf, (PortForwards.remove_all_for_vm vm pf).2)
       (upd_numa (release_numa h) (upd_vms (delete vm) m))).

(** Nothing of the VM is left in the NDP proxy, nor its range in the IPv6 allocator. *)
Definition forgotten (vm : string) (h : VmHandle Net) m : Prop :=
  (∀ p, ndp_proxy m = Some p → NdpProxy.ranges p !! tap_of vm = None) ∧
  (is_Some (h_ipv6 h) → ∀ a, ipv6_allocator m = Some a → Ipv6.allocations a !! vm = None).

Lemma remove_nft_forwards_spec fs (Q : result error unit → VmManager Net W * W → Prop) m w :
  (∀ w', Q (Ok tt) (m, w')) → wp (remove_nft_forwards fs) Q (m, w).
Proof.
  revert w. induction fs as [|f fs IH]; intros w HQ; simpl; [by apply wp_ret|].
  apply wp_bind, wp_self, wp_bind, wp_ignore; [auto with cvm|]. intros w1. by apply IH.
Qed.

Lemma delete_forwards_spec vm (Q : result error unit → VmManager Net W * W → Prop) m w :
  (∀ w', Q (Ok tt) (upd_forwards (λ pf, (PortForwards.remove_all_for_vm vm pf).2) m, w')) →
  wp (delete_forwards vm) Q (m, w).
Proof.
  intros HQ. unfold delete_forwards. apply wp_bind, wp_self.
  destruct (PortForwards.remove_all_for_vm vm (port_forwards m)) as [removed pf] eqn:Hpf.
  apply wp_bind, wp_update, remove_nft_forwards_spec. intros w'.
  specialize (HQ w'). unfold upd_forwards in *. simpl in *. by rewrite Hpf in HQ.
Qed.

Lemma delete_addresses_spec vm h (Q : result error unit → VmManager Net W * W → Prop) m w :
  h_tap_name h = tap_of vm →
  (∀ m' w', frame vm m m' → forgotten vm h m' → Q (Ok tt) (m', w')) →
  wp (delete_addresses vm h) Q (m, w).
Proof.
  intros Htap HQ. unfold delete_addresses. apply wp_bind, wp_self, wp_bind. rewrite Htap.
  assert (∀ m2 w2, frame vm m m2 →
    (∀ p, ndp_proxy m2 = Some p → NdpProxy.ranges p !! tap_of vm = None) →
    wp (if is_some (h_ipv6 h) then release_ipv6 vm else mret tt) Q (m2, w2)) as Hrest.
  { intros m2 w2 Hfr Hndp. destruct (is_some (h_ipv6 h)) eqn:Hv6.
    - apply wp_update, HQ; [transitivity m2; [done|apply frame_free_ipv6]|]. split; [done|].
      intros _ a. simpl. destruct (ipv6_allocator m2); simpl; [|done]. intros [= <-].
      apply lookup_delete_eq.
    - apply wp_ret, HQ; [done|]. split; [done|]. intros [? Hs]. by rewrite Hs in Hv6. }
  destruct (ndp_proxy m) as [p|] eqn:Hp.
  - apply delete_range_frame; [done|]. intros m2 w2 Hfr _ Hnone. by apply Hrest.
  - apply wp_ret, Hrest; [apply frame_refl|]. intros p'. by rewrite Hp.
Qed.

Lemma delete_devices_spec vm h (Q : result error unit → VmManager Net W * W → Prop) m w :
  (∀ w', Q (Ok tt) (m, w')) → wp (delete_devices vm h) Q (m, w).
Proof.
  intros HQ. unfold delete_devices. apply wp_bind, wp_self, wp_bind, wp_ignore; [auto with cvm|].
  intros w1. apply wp_bind, wp_ignore; [auto with cvm|]. intros w2.
  destruct (dhcp_hostsdir m) as [d|]; [|apply wp_ret, HQ].
  apply wp_bind, wp_host_never; [apply Bridge.total_remove_dhcp|]. intros [] w3.
  destruct (is_some _); [|apply wp_ret, HQ].
  apply wp_host_never; [apply Bridge.total_remove_dhcpv6|]. intros [] w4. apply HQ.
Qed.

Lemma stop_process_spec o (Q : result error unit → VmManager Net W * W → Prop) m w :
  (∀ w', Q (Ok tt) (m, w')) →
  wp match o with Some p => ignore (stop p) | None => mret tt end Q (m, w).
Proof.
  intros HQ. destruct o as [p|]; [apply wp_ignore; [apply total_stop|done]|apply wp_ret, HQ].
Qed.

Lemma delete_vm_spec vm (Q : result error unit → VmManager Net W * W → Prop) m w :
  (∀ h, vms m !! vm = Some h → h_tap_name h = tap_of vm) →
  (∀ h m' w', vms m !! vm = Some h → frame vm (without vm h m) m' → forgotten vm h m' →
     Q (Ok tt) (m', w')) →
  (∀ e, vms m !! vm = None → Q (Err e) (m, w)) →
  wp (delete_vm vm) Q (m, w).
Proof.
  intros Htap Hok Herr. unfold delete_vm. apply wp_bind, wp_self, wp_bind, wp_lift. unfold ok_or.
  destruct (vms m !! vm) as [h|] eqn:Hvm; [|by apply Herr].
  apply wp_bind, wp_update, wp_bind, stop_process_spec. intros w1.
  apply wp_bind, wp_update, wp_bind, delete_forwards_spec. intros w2.
  apply wp_bind, delete_addresses_spec; [by apply Htap|]. intros m2 w3 Hfr Hforgot.
  apply wp_bind, delete_devices_spec. intros w4.
  apply wp_bind, wp_update, wp_ignore; [apply total_delete_vm|]. intros w5.
  eapply Hok; [done| |done]. destruct Hfr as (Hc & Hi & Hn). split_and!; [|done|done].
  apply core_eq in Hc as (?&?&?&?&?&?&?&?&?&?&?). unfold core, without. simpl in *. congruence.
Qed.
End ops.
