(* ===== verification/ManagerInv.v ===== *)
(** * The VM manager: invariant, accounting, round trip

    The properties of the manager as a whole: an invariant that every operation keeps
    on every outcome, the NUMA accounting of the recorded VMs, and what creating and
    deleting a VM leaves behind. *)

From S2P Require Import Prelude Strs Host Json Types NetTypes Tee Verity Qemu Persistence Manager.
From S2P Require Import ManagerFrame ManagerSpec ManagerOps.
From S2P Require Bridge PortForwards Ipv6 Nft NdpProxy Numa.

Section invariant.
Context {Net W : Type} `{IpNet Net} `{Host W} `{SerdeJson}.
Implicit Types m : VmManager Net W.

(** ** Port forwards: specifications *)

Lemma update_persisted_spec vm (Q : result error unit → VmManager Net W * W → Prop) m w :
  (∀ w', Q (Ok tt) (m, w')) → wp (update_persisted_port_forwards vm) Q (m, w).
Proof.
  intros HQ. unfold update_persisted_port_forwards. apply wp_bind, wp_self, wp_bind.
  apply wp_attempt_host; [apply total_io| |intros; apply wp_ret, HQ].
  intros s w1. destruct (parse_persisted s); [|apply wp_ret, HQ].
  apply wp_ignore; [apply total_save_vm|apply HQ].
Qed.

(** [add_port_forward]: the forward is recorded, or nothing changed. *)
Lemma add_port_forward_spec vm hp vp p (Q : result error PortForward → VmManager Net W * W → Prop) m w :
  0 ≤ hp ≤ u16_max → 0 ≤ vp ≤ u16_max →
  (∀ f w', is_Some (vms m !! vm) → forward_wf f → f_vm_id f = vm → f_vm_port f = vp → f_protocol f = p →
     (hp ≠ 0 → f_host_port f = hp) → (hp = 0 → 10000 ≤ f_host_port f) →
     PortForwards.forwards (port_forwards m) !! (f_host_port f, p) = None →
     Q (Ok f) (upd_forwards (PortForwards.add f) m, w')) →
  (∀ e w', Q (Err e) (m, w')) →
  wp (add_port_forward vm hp vp p) Q (m, w).
Proof.
  intros Hhp Hvp Hok Herr. unfold add_port_forward. apply wp_bind, wp_self, wp_bind, wp_lift.
  unfold ok_or. destruct (vms m !! vm) as [h|] eqn:Hvm; [|apply Herr].
  assert (∀ port, 0 ≤ port ≤ u16_max → (hp ≠ 0 → port = hp) → (hp = 0 → 10000 ≤ port) →
    PortForwards.is_available port p (port_forwards m) = true →
    ∀ f, f = mk_forward vm port vp p →
    ∀ w', wp (r ← attempt (host (Nft.add_port_forward (nftables m) vm (h_ip h) (f_host_port f) vp p));
      match r with
      | Err e =>
          update (upd_forwards (λ pf, (PortForwards.remove (f_host_port f) (f_protocol f) pf).2));;
          throw (add_context "failed to add nftables port forward" e)
      | _ => mret tt
      end;;
      update_persisted_port_forwards vm;; mret f) Q (upd_forwards (PortForwards.add f) m, w')) as Hrest.
  { intros port Hport Hne Hz Hav f -> w'. simpl.
    assert (PortForwards.forwards (port_forwards m) !! (port, p) = None) as Hnone.
    { unfold PortForwards.is_available in Hav. destruct (PortForwards.forwards (port_forwards m) !! (port, p)) as [?|] eqn:E; [|done]. done. }
    apply wp_bind, wp_attempt_host; [auto with cvm|intros [] w1|intros e w1].
    - apply wp_bind, wp_ret, wp_bind, update_persisted_spec. intros w2.
      by apply wp_ret, Hok.
    - apply wp_bind, wp_bind, wp_update, wp_throw.
      replace (upd_forwards _ (upd_forwards _ m)) with m; [apply Herr|].
      destruct m as [????????? [fs] ???]. unfold upd_forwards, PortForwards.remove, PortForwards.add.
      simpl in *. by rewrite delete_insert_id. }
  apply wp_bind. unfold reserve_port. apply wp_bind, wp_self, wp_bind.
  destruct (Z.eqb_spec hp 0) as [->|Hne].
  - apply wp_lift. unfold ok_or. destruct (PortForwards.auto_allocate _ _ _) as [port|] eqn:Hauto;
      [|apply Herr].
    apply PortForwards.find_range_Some in Hauto as (Hport & Hav & _).
    apply wp_bind, wp_update, wp_ret. eapply (Hrest port); [unfold u16_max; lia|done|lia|done|done].
  - destruct (PortForwards.is_available hp p (port_forwards m)) eqn:Hav; [|apply wp_throw, Herr].
    apply wp_ret, wp_bind, wp_update, wp_ret. eapply (Hrest hp); [lia|done|done|done|done].
Qed.

(** [remove_port_forward]: the forward is gone as soon as it was found, even if the nft
    call that follows fails. *)
Lemma remove_port_forward_spec hp p (Q : result error unit → VmManager Net W * W → Prop) m w :
  (∀ f r w', PortForwards.forwards (port_forwards m) !! (hp, p) = Some f → (∀ q, r ≠ Panic q) →
     Q r (upd_forwards (λ pf, (PortForwards.remove hp p pf).2) m, w')) →
  (∀ e w', PortForwards.forwards (port_forwards m) !! (hp, p) = None →
     Q (Err e) (upd_forwards (λ pf, (PortForwards.remove hp p pf).2) m, w')) →
  wp (remove_port_forward hp p) Q (m, w).
Proof.
  intros Hok Herr. unfold remove_port_forward. apply wp_bind, wp_self. simpl.
  apply wp_bind, wp_update, wp_bind, wp_lift.
  change (upd_forwards (λ _, _) m) with (upd_forwards (λ pf, (PortForwards.remove hp p pf).2) m).
  unfold ok_or. destruct (PortForwards.forwards (port_forwards m) !! (hp, p)) as [f|] eqn:Hf;
    [|by apply Herr].
  apply wp_bind, wp_host; [auto with cvm|intros [] w1|intros; by eapply Hok].
  apply update_persisted_spec. intros w2. by eapply Hok.
Qed.

(** ** The invariant *)

Record handle_ok m (vm : string) (h : VmHandle Net) : Prop := mk_handle_ok {
  ho_id : vm_id (h_config h) = vm;
  ho_size : 0 ≤ vcpus (h_config h) ∧ 0 ≤ memory_mb (h_config h);
  ho_tap : h_tap_name h = tap_of vm;
  ho_ip : ∃ o, 1 ≤ o ≤ 254 ∧ o ∈ used_ip_offsets m ∧ h_ip h = Bridge.allocate_vm_ip (gateway_ip m) o;
  ho_ipv6 : holds_ipv6 vm (h_ipv6 h) m;
}.

Record mgr_inv m : Prop := mk_inv {
  inv_handles : map_Forall (handle_ok m) (vms m);
  inv_ips : map_pairwise (λ h h', h_ip h ≠ h_ip h') (vms m);
  inv_used : ∀ o, o ∈ used_ip_offsets m → 1 ≤ o ≤ 254;
  inv_ipv6 : ∀ a, ipv6_allocator m = Some a → Ipv6.ipv6_inv a;
  inv_forwards : PortForwards.pf_inv (port_forwards m);
  inv_owned : ∀ k f, PortForwards.forwards (port_forwards m) !! k = Some f → is_Some (vms m !! f_vm_id f);
  inv_numa : Numa.alloc_wf (numa m);
}.

Lemma holds_ipv6_rel vm vm' o m m' :
  vm' ≠ vm → ipv6_rel vm (ipv6_allocator m) (ipv6_allocator m') →
  holds_ipv6 vm' o m → holds_ipv6 vm' o m'.
Proof.
  intros Hne Hi. unfold holds_ipv6. destruct o as [n|].
  - intros (a & Ha & Hn). rewrite Ha in Hi. destruct (ipv6_allocator m') as [a'|]; [|done].
    destruct Hi as (_ & _ & Ho). exists a'. by rewrite Ho.
  - intros Ha. rewrite Ha in Hi. by destruct (ipv6_allocator m').
Qed.

Lemma holds_ipv6_frame vm vm' o m m' :
  vm' ≠ vm → frame vm m m' → holds_ipv6 vm' o m → holds_ipv6 vm' o m'.
Proof. intros Hne (_ & Hi & _). by apply (holds_ipv6_rel vm). Qed.

Lemma ipv6_rel_inv vm m m' :
  ipv6_rel vm (ipv6_allocator m) (ipv6_allocator m') →
  (∀ a, ipv6_allocator m = Some a → Ipv6.ipv6_inv a) →
  ∀ a', ipv6_allocator m' = Some a' → Ipv6.ipv6_inv a'.
Proof.
  intros Hi Hinv a' Ha'. rewrite Ha' in Hi. destruct (ipv6_allocator m) as [a|]; [|done].
  apply Hi, Hinv. done.
Qed.

Lemma frame_ipv6_inv vm m m' :
  frame vm m m' → (∀ a, ipv6_allocator m = Some a → Ipv6.ipv6_inv a) →
  ∀ a', ipv6_allocator m' = Some a' → Ipv6.ipv6_inv a'.
Proof. intros (_ & Hi & _). by apply (ipv6_rel_inv vm). Qed.

(** A frame step for a VM that is not recorded keeps the invariant. *)
Lemma frame_inv vm m m' : frame vm m m' → mgr_inv m → vms m !! vm = None → mgr_inv m'.
Proof.
  intros Hfr [Hh Hips Hused H6 Hpf Hown Hn] Hvm. pose proof Hfr as (Hc & _ & _).
  apply core_eq in Hc as (Ev & _ & _ & _ & Eg & Eu & _ & _ & _ & Ep & En).
  split; rewrite ?Ev, ?Eu, ?Ep, ?En; try done; [|by eapply frame_ipv6_inv].
  intros vm' h Hvm'. destruct (Hh vm' h Hvm') as [Hid Hsz Htap Hip H6h]. split; [done..| |].
  - by rewrite Eu, Eg.
  - eapply holds_ipv6_frame; [|done|done]. intros ->. congruence.
Qed.

Lemma take_offset_inv o m : 1 ≤ o ≤ 254 → mgr_inv m → mgr_inv (take_offset o m).
Proof.
  intros Ho [Hh Hips Hused H6 Hpf Hown Hn]. split; try done.
  - intros vm h Hvm. destruct (Hh vm h Hvm) as [Hid Hsz Htap (o' & Ho' & Hin & Hip) H6h].
    split; [done..| |done]. exists o'. simpl. set_solver.
  - intros o' Hin. simpl in Hin. set_solver.
Qed.

Lemma upd_numa_inv n m : Numa.alloc_wf n → mgr_inv m → mgr_inv (upd_numa (λ _, n) m).
Proof.
  intros Hn [Hh Hips Hused H6 Hpf Hown _]. split; try done.
  intros vm h Hvm. destruct (Hh vm h Hvm) as [Hid Hsz Htap Hip H6h]. by split.
Qed.

Lemma numa_request_wf c hint m p n :
  mgr_inv m → config_wf c → numa_request c hint (numa m) = (Ok p, n) → Numa.alloc_wf n.
Proof.
  intros Hinv (Hv & Hm & _) Hreq. pose proof (inv_numa m Hinv) as Hwf.
  pose proof (Numa.allocate_cases (numa m) (vcpus c) (memory_mb c) hint (is_confidential c) Hwf
    ltac:(lia) ltac:(lia)) as Hc.
  unfold numa_request in Hreq. rewrite Hreq in Hc. destruct Hc as (idx & k & _ & _ & Hp & _).
  eapply Numa.placed_wf; [exact Hwf|..|exact Hp]; lia.
Qed.

Lemma give_back_wf c p n : config_wf c → Numa.alloc_wf n → Numa.alloc_wf (numa_give_back c p n).
Proof. intros (Hv & Hm & _) Hn. apply Numa.release_wf; [done|lia|lia]. Qed.

(** The least free offset gives an address no recorded VM has. *)
Lemma least_free_ip m o vm h :
  mgr_inv m → least_free o m → vms m !! vm = Some h → h_ip h ≠ Bridge.allocate_vm_ip (gateway_ip m) o.
Proof.
  intros Hinv (Ho & Hfree & _) Hvm Heq.
  destruct (ho_ip _ _ _ (inv_handles m Hinv vm h Hvm)) as (o' & Ho' & Hin & Hip).
  rewrite Hip in Heq.
  assert (o' = o) as ->; [|done].
  rewrite <-(Bridge.offset_of_allocated (gateway_ip m) o'), <-(Bridge.offset_of_allocated (gateway_ip m) o) by lia.
  by rewrite Heq.
Qed.

Lemma created_inv config hint m i m' :
  config_wf config → mgr_inv m → created config hint m i m' → mgr_inv m'.
Proof.
  intros Hcfg Hinv Hcr. destruct Hcr as [o boot cl p n mid v6 process now Hnew Hleast Hplan _ Hreq Hfr Hh _ _].
  pose proof (take_offset_inv o m (proj1 Hleast) Hinv) as Hinv1.
  pose proof (upd_numa_inv n _ (numa_request_wf _ _ _ _ _ Hinv Hcfg Hreq) Hinv1) as Hinv2.
  pose proof (frame_inv _ _ _ Hfr Hinv2 Hnew) as Hmid.
  pose proof Hfr as (Hc & _ & _). apply core_eq in Hc as (Ev & _ & _ & _ & Eg & Eu & _ & _ & _ & Ep & En).
  simpl in *. destruct Hmid as [Hhm Hipsm Husedm H6m Hpfm Hownm Hnm].
  destruct (place_config_same (upd_numa (λ _, n) m) p boot) as ((Hid & Hv1 & Hm1 & _) & _ & _).
  destruct (boot_plan_same _ _ _ Hplan) as (Hid0 & Hv0 & Hm0 & _).
  split; simpl; try done.
  - apply map_Forall_insert_2.
    + split; simpl; [etransitivity; [exact Hid|exact Hid0]| |done| |exact Hh].
      { destruct Hcfg as (Hcv & Hcm & _). simpl in *. rewrite Hv1, Hm1, Hv0, Hm0. lia. }
      exists o. rewrite Eu, Eg.
      split_and!; [apply Hleast|apply Hleast|set_solver|done].
    + intros vm h Hvm. destruct (Hhm vm h Hvm) as [? ? ? ? ?]. by split.
  - apply map_pairwise_insert; [done|]. intros vm h Hvm Hne. rewrite Ev in Hvm. simpl.
    pose proof (least_free_ip m o vm h Hinv Hleast Hvm). split; congruence.
  - intros k f Hf. destruct (Hownm k f Hf) as [h Hvm].
    destruct (decide (f_vm_id f = vm_id config)) as [->|Hne]; [rewrite lookup_insert_eq; eauto|].
    rewrite lookup_insert_ne by done. eauto.
Qed.

Lemma create_failed_inv config hint m m' :
  config_wf config → mgr_inv m → create_failed config hint m m' → mgr_inv m'.
Proof.
  intros Hcfg Hinv [[-> _]|(Hnew & o & Hleast & Hcase)]; [done|].
  pose proof (take_offset_inv o m (proj1 Hleast) Hinv) as Hinv1.
  destruct Hcase as [Hfr|(p & n & Hreq & Hfr)]; [by apply (frame_inv _ _ _ Hfr Hinv1)|].
  apply (frame_inv _ _ _ Hfr); [|done]. apply upd_numa_inv; [|done].
  apply give_back_wf; [done|]. by eapply numa_request_wf.
Qed.

Lemma create_panicked_inv config req hint m m' :
  config_wf config → mgr_inv m → create_panicked config req hint m m' → mgr_inv m'.
Proof.
  intros Hcfg Hinv (Hnew & o & Hleast & Hcase).
  pose proof (take_offset_inv o m (proj1 Hleast) Hinv) as Hinv1.
  destruct Hcase as [(a & _ & _ & _ & ->)|(_ & p & n & Hreq & Hfr)]; [done|].
  apply (frame_inv _ _ _ Hfr); [|done]. apply upd_numa_inv; [|done]. by eapply numa_request_wf.
Qed.
End invariant.
