(* ===== verification/ManagerSafety.v ===== *)
(** * The VM manager: safety, accounting and what a deleted VM leaves

    The steps of a manager — its public operations, on any host and with any outcome —
    and what holds in every state they reach. *)

From S2P Require Import Prelude Strs Host HostSim Json Types NetTypes Instances Tee Verity Qemu.
From S2P Require Import Persistence Manager ManagerFrame ManagerSpec ManagerOps ManagerInv.
From S2P Require Bridge PortForwards Ipv6 Nft NdpProxy Numa.

Section safety.
Context {Net W : Type} `{IpNet Net} `{Host W} `{SerdeJson}.
Implicit Types m : VmManager Net W.

(** ** The invariant after deletion and with port forwards *)

(** Another recorded VM keeps its offset when this one gives its own back. *)
Lemma other_offset m vm h vm' h' :
  mgr_inv m → vms m !! vm = Some h → vms m !! vm' = Some h' → vm' ≠ vm →
  ∃ o, 1 ≤ o ≤ 254 ∧ o ∈ used_ip_offsets m ∖ {[Bridge.offset_of_ip (gateway_ip m) (h_ip h)]} ∧
    h_ip h' = Bridge.allocate_vm_ip (gateway_ip m) o.
Proof.
  intros Hinv Hvm Hvm' Hne.
  destruct (ho_ip _ _ _ (inv_handles m Hinv vm h Hvm)) as (o & Ho & Hin & Hip).
  destruct (ho_ip _ _ _ (inv_handles m Hinv vm' h' Hvm')) as (o' & Ho' & Hin' & Hip').
  exists o'. rewrite Hip, Bridge.offset_of_allocated by lia.
  split_and!; [lia..| |done]. apply elem_of_difference. split; [done|].
  rewrite elem_of_singleton. intros ->. apply (inv_ips m Hinv _ _ _ _ Hvm Hvm'); congruence.
Qed.

Lemma release_numa_wf h n :
  0 ≤ vcpus (h_config h) → 0 ≤ memory_mb (h_config h) → Numa.alloc_wf n →
  Numa.alloc_wf (release_numa (Net := Net) h n).
Proof. intros. unfold release_numa. destruct (h_numa_node h); [by apply Numa.release_wf|done]. Qed.

Lemma delete_inv vm h m m' :
  mgr_inv m → vms m !! vm = Some h → frame vm (without vm h m) m' → mgr_inv m'.
Proof.
  intros Hinv Hvm Hfr. pose proof Hfr as (Hc & _ & _).
  apply core_eq in Hc as (Ev & _ & _ & _ & Eg & Eu & _ & _ & _ & Ep & En). simpl in *.
  destruct (ho_size _ _ _ (inv_handles m Hinv vm h Hvm)) as [Hv Hm].
  pose proof Hinv as [Hh Hips Hused H6 Hpf Hown Hn].
  split; rewrite ?Ev, ?Eu, ?Ep, ?En; simpl; try done.
  - intros vm' h' Hvm'. apply lookup_delete_Some in Hvm' as [Hne Hvm'].
    destruct (Hh vm' h' Hvm') as [Hid Hsz Htap Hip H6h]. split; [done..| |].
    + rewrite Eu, Eg. by eapply other_offset.
    + eapply holds_ipv6_frame; [|exact Hfr|]; done.
  - by apply map_pairwise_delete.
  - intros o Ho. apply elem_of_difference in Ho as [Ho _]. by apply Hused.
  - by eapply frame_ipv6_inv.
  - by apply PortForwards.pf_inv_remove_all.
  - intros k f. rewrite PortForwards.remove_all_forwards, map_lookup_filter_Some.
    intros [Hf Hfvm]. simpl in *. destruct (Hown k f Hf) as [h' Hh']. exists h'.
    by rewrite lookup_delete_ne.
  - by apply release_numa_wf.
Qed.

Lemma upd_forwards_inv f m :
  PortForwards.pf_inv (f (port_forwards m)) →
  (∀ k g, PortForwards.forwards (f (port_forwards m)) !! k = Some g → is_Some (vms m !! f_vm_id g)) →
  mgr_inv m → mgr_inv (upd_forwards f m).
Proof.
  intros Hf Hg [Hh Hips Hused H6 Hpf Hown Hn]. split; try done.
  intros vm h Hvm. destruct (Hh vm h Hvm) as [? ? ? ? ?]. by split.
Qed.

Lemma add_forward_inv f m :
  is_Some (vms m !! f_vm_id f) → forward_wf f → mgr_inv m → mgr_inv (upd_forwards (PortForwards.add f) m).
Proof.
  intros Hf Hwf Hinv. apply upd_forwards_inv; [apply PortForwards.pf_inv_add; by try apply Hinv| |done].
  intros k g. simpl. rewrite lookup_insert_Some. intros [[_ <-]|[_ Hg]]; [done|].
  by eapply (inv_owned m Hinv).
Qed.

Lemma remove_forward_inv hp p m :
  mgr_inv m → mgr_inv (upd_forwards (λ pf, (PortForwards.remove hp p pf).2) m).
Proof.
  intros Hinv. apply upd_forwards_inv; [apply PortForwards.pf_inv_remove, Hinv| |done].
  intros k g. simpl. rewrite lookup_delete_Some. intros [_ Hg]. by eapply (inv_owned m Hinv).
Qed.

Lemma new_inv run st br gw bk dhcp ext (pool : option Net) ndp t :
  Numa.topology_wf t → mgr_inv (new (W := W) run st br gw bk dhcp ext pool ndp t).
Proof.
  intros Ht. split; simpl.
  - apply map_Forall_empty.
  - apply map_pairwise_empty.
  - set_solver.
  - intros a. destruct pool; simpl; [|done]. intros [= <-]. apply Ipv6.ipv6_inv_new.
  - apply PortForwards.pf_inv_new.
  - intros k f. by rewrite lookup_empty.
  - by apply Numa.new_wf.
Qed.

(** ** Steps *)

(** A request of a client. *)
Inductive request :=
| ReqCreate (c : VmConfig) (ipv6 : option Net) (hint : option Z)
| ReqDelete (vm : string)
| ReqGet (vm : string)
| ReqList
| ReqAddForward (vm : string) (host_port vm_port : Z) (p : Protocol)
| ReqRemoveForward (host_port : Z) (p : Protocol).

(** The integers of a request are within their types. *)
Definition request_wf (q : request) : Prop :=
  match q with
  | ReqCreate c _ _ => config_wf c
  | ReqAddForward _ hp vp _ => 0 ≤ hp ≤ u16_max ∧ 0 ≤ vp ≤ u16_max
  | _ => True
  end.

Definition discard {A} (c : Op (Net := Net) (W := W) A) : Op (Net := Net) (W := W) unit := c;; mret tt.

(** Serve a request, dropping the answer. *)
Definition serve (q : request) : Op (Net := Net) (W := W) unit :=
  match q with
  | ReqCreate c ipv6 hint => discard (create_vm c ipv6 hint)
  | ReqDelete vm => delete_vm vm
  | ReqGet vm => discard (get_vm vm)
  | ReqList => discard list_vms
  | ReqAddForward vm hp vp p => discard (add_port_forward vm hp vp p)
  | ReqRemoveForward hp p => remove_port_forward hp p
  end.

(** One request served; the host may have changed in between, and any outcome counts. *)
Inductive mgr_step : VmManager Net W → VmManager Net W → Prop :=
| step_serve q m w r m' w' :
    request_wf q → serve q (m, w) = (r, (m', w')) → mgr_step m m'.

Lemma discard_spec {A} (c : Op (Net := Net) (W := W) A) (P : VmManager Net W → Prop) s :
  wp c (λ _ '(m', _), P m') s → wp (discard c) (λ _ '(m', _), P m') s.
Proof.
  intros Hc. apply wp_bind. eapply wp_mono; [exact Hc|]. intros [a|e|q] [m' w'] HP; [|done..].
  by apply wp_ret.
Qed.

Lemma total_infos hs : total (infos (Net := Net) (W := W) hs).
Proof. induction hs as [|h hs IH]; simpl; unfold from_handle; total_tac; [by intros ??|exact IH]. Qed.

(** Serving a request keeps the invariant, whatever the outcome. *)
Lemma serve_inv q m w :
  request_wf q → mgr_inv m → wp (serve q) (λ _ '(m', _), mgr_inv m') (m, w).
Proof.
  intros Hq Hinv. destruct q as [c ipv6 hint|vm|vm| |vm hp vp p|hp p]; simpl in *.
  - apply discard_spec, create_vm_spec; [apply Hinv|done|..];
      [intros; by eapply created_inv|intros; by eapply create_failed_inv|
       intros; by eapply create_panicked_inv].
  - apply delete_vm_spec; [|intros; by eapply delete_inv|done].
    intros h Hvm. by apply (ho_tap _ _ _ (inv_handles m Hinv vm h Hvm)).
  - apply discard_spec, wp_bind, wp_self, wp_bind, wp_lift. unfold ok_or.
    destruct (vms m !! vm); [|done]. apply wp_host; [|done..]. unfold from_handle. total_tac. by intros ??.
  - apply discard_spec, wp_bind, wp_self, wp_host; [apply total_infos|done..].
  - destruct Hq as [Hhp Hvp]. apply discard_spec, add_port_forward_spec; [done..| |done].
    intros f w' Hvm Hf <- _ _ _ _ _. by apply add_forward_inv.
  - apply remove_port_forward_spec; intros; by apply remove_forward_inv.
Qed.

Lemma step_inv m m' : mgr_step m m' → mgr_inv m → mgr_inv m'.
Proof.
  intros [q m1 w r m2 w' Hq Hs] Hinv. pose proof (serve_inv q m1 w Hq Hinv) as Hwp.
  unfold wp in Hwp. by rewrite Hs in Hwp.
Qed.

Lemma steps_inv m m' : rtc mgr_step m m' → mgr_inv m → mgr_inv m'.
Proof. induction 1; eauto using step_inv. Qed.
End safety.
Arguments request : clear implicits.

(** ** NUMA accounting *)

Section accounting.
Context {Net W : Type} `{IpNet Net} `{Host W} `{SerdeJson}.
Implicit Types m : VmManager Net W.

(** What [delete_vm] will give back for a recorded VM. *)
Definition lease_of (h : VmHandle Net) : Numa.lease :=
  Numa.mk_lease (default 0 (h_numa_node h)) (vcpus (h_config h)) (memory_mb (h_config h))
    (default Size2M (hugepage_size (h_config h))).
Definition leases m : list Numa.lease := lease_of <$> (map_to_list (vms m)).*2.

Record accounted (t : Numa.NumaTopology) m : Prop := mk_accounted {
  acc_inv : mgr_inv m;
  acc_ledger : Numa.ledger_inv t (numa m, leases m);
  acc_node : map_Forall (λ _ h, is_Some (h_numa_node h)) (vms m);
}.

Definition confidential_request (q : request Net) : Prop :=
  match q with ReqCreate c _ _ => is_confidential c = true | _ => True end.

(** A step of a host that only runs confidential VMs, without a panic. *)
Inductive conf_step : VmManager Net W → VmManager Net W → Prop :=
| step_confidential q m w r m' w' :
    request_wf q → confidential_request q → serve q (m, w) = (r, (m', w')) →
    (∀ p, r ≠ Panic p) → conf_step m m'.

Lemma leases_insert vm h m :
  vms m !! vm = None → lease_of h :: leases m ≡ₚ leases (upd_vms <[vm := h]> m).
Proof. intros Hvm. unfold leases. simpl. by rewrite map_to_list_insert. Qed.

Lemma leases_delete vm h m :
  vms m !! vm = Some h → leases m ≡ₚ lease_of h :: leases (upd_vms (delete vm) m).
Proof. intros Hvm. unfold leases. simpl. by rewrite <-(map_to_list_delete _ _ _ Hvm). Qed.

Lemma leases_vms m m' : vms m' = vms m → leases m' = leases m.
Proof. unfold leases. by intros ->. Qed.

Lemma created_accounted t config hint m i m' :
  config_wf config → is_confidential config = true →
  accounted t m → created config hint m i m' → accounted t m'.
Proof.
  intros Hcfg Hconf [Hinv Hl Hn] Hcr. split; [by eapply created_inv|..];
    destruct Hcr as [o boot cl p n mid v6 process now Hnew Hleast Hplan _ Hreq Hfr Hh _ _];
    destruct Hfr as (Hc & _ & _); apply core_eq in Hc as (Ev & _ & _ & _ & _ & _ & _ & _ & _ & _ & En);
    cbn [vms numa upd_vms upd_numa take_offset upd_used] in *.
  - rewrite En. eapply Numa.ledger_inv_perm; [apply leases_insert; by rewrite Ev|].
    rewrite (leases_vms m mid Ev). destruct Hcfg as (Hv & Hm & _).
    destruct (place_config_same (upd_numa (λ _, n) m) p boot) as ((_ & Hv1 & Hm1 & _) & _ & Hpage).
    destruct (boot_plan_same _ _ _ Hplan) as (_ & Hv0 & Hm0 & _).
    eapply Numa.ledger_inv_step; [exact Hl|].
    unfold lease_of. cbn [h_config h_numa_node]. rewrite Hpage, Hv1, Hm1, Hv0, Hm0. unfold numa_request in Hreq. rewrite Hconf in Hreq.
    eapply Numa.ledger_allocate; [lia|lia|exact Hreq].
  - apply map_Forall_insert_2; [by eexists|]. by rewrite Ev.
Qed.

(** A VM that could not be launched leaves the ledger as it was. *)
Lemma give_back_ledger t config hint n p n' L :
  config_wf config → is_confidential config = true → Numa.ledger_inv t (n, L) →
  numa_request config hint n = (Ok p, n') → Numa.ledger_inv t (numa_give_back config p n', L).
Proof.
  intros (Hv & Hm & _) Hconf Hl Hreq. unfold numa_request in Hreq. rewrite Hconf in Hreq.
  apply (Numa.ledger_inv_steps t (n, L)); [done|].
  eapply rtc_l; [eapply Numa.ledger_allocate; [| |exact Hreq]; lia|].
  apply rtc_once. exact (Numa.ledger_release n' []
    (Numa.mk_lease (Numa.node p) (vcpus config) (memory_mb config) (Numa.placement_page p)) L).
Qed.

Lemma create_failed_accounted t config hint m m' :
  config_wf config → is_confidential config = true →
  accounted t m → create_failed config hint m m' → accounted t m'.
Proof.
  intros Hcfg Hconf [Hinv Hl Hn] Hf. split; [by eapply create_failed_inv|..];
    destruct Hf as [[-> _]|(_ & o & _ & [Hfr|(p & n & Hreq & Hfr)])]; try done;
    destruct Hfr as (Hc & _ & _); apply core_eq in Hc as (Ev & _ & _ & _ & _ & _ & _ & _ & _ & _ & En);
    simpl in *; rewrite ?En, ?Ev, ?(leases_vms m m' Ev); [done| |done..].
  by eapply give_back_ledger.
Qed.

Lemma delete_accounted t vm h m m' :
  accounted t m → vms m !! vm = Some h → frame vm (without vm h m) m' → accounted t m'.
Proof.
  intros [Hinv Hl Hn] Hvm Hfr. split; [by eapply delete_inv|..];
    destruct Hfr as (Hc & _ & _); apply core_eq in Hc as (Ev & _ & _ & _ & _ & _ & _ & _ & _ & _ & En);
    simpl in *.
  - rewrite En. rewrite (leases_vms (upd_vms (delete vm) m) m' Ev).
    eapply Numa.ledger_inv_perm in Hl; [|by apply leases_delete].
    eapply Numa.ledger_inv_step; [exact Hl|]. destruct (Hn vm h Hvm) as [node Hnode].
    unfold release_numa. rewrite Hnode. unfold lease_of. rewrite Hnode. simpl.
    exact (Numa.ledger_release (numa m) [] (Numa.mk_lease node _ _ _) _).
  - rewrite Ev. intros vm' h'. rewrite lookup_delete_Some. intros [_ Hvm']. by apply (Hn vm').
Qed.

Lemma forwards_accounted t f m :
  mgr_inv (upd_forwards f m) → accounted t m → accounted t (upd_forwards f m).
Proof. by intros Hinv' [Hinv Hl Hn]. Qed.

Lemma serve_accounted t q m w :
  request_wf q → confidential_request q → accounted t m →
  wp (serve q) (λ r '(m', _), (∀ p, r ≠ Panic p) → accounted t m') (m, w).
Proof.
  intros Hq Hconf Hacc. pose proof (acc_inv _ _ Hacc) as Hinv.
  destruct q as [c ipv6 hint|vm|vm| |vm hp vp p|hp p]; simpl in *.
  - apply wp_bind, create_vm_spec; [apply Hinv|done|..].
    + intros. apply wp_ret. intros _. by eapply created_accounted.
    + intros e m' w' Hf _. by eapply create_failed_accounted.
    + intros q m' w' _ Hp. by destruct (Hp q).
  - apply delete_vm_spec; [|intros; by eapply delete_accounted|done].
    intros h Hvm. by apply (ho_tap _ _ _ (inv_handles m Hinv vm h Hvm)).
  - apply wp_bind, wp_bind, wp_self, wp_bind, wp_lift. unfold ok_or.
    destruct (vms m !! vm); [|done]. apply wp_host; [|by intros; apply wp_ret|done]. unfold from_handle. total_tac. by intros ??.
  - apply wp_bind, wp_bind, wp_self, wp_host; [apply total_infos|by intros; apply wp_ret|by intros].
  - destruct Hq as [Hhp Hvp]. apply wp_bind, add_port_forward_spec; [done..| |done].
    intros f w' Hvm Hf <- _ _ _ _ _. apply wp_ret. intros _.
    apply forwards_accounted; [by apply add_forward_inv|exact Hacc].
  - apply remove_port_forward_spec; intros; (apply forwards_accounted; [by apply remove_forward_inv|done]).
Qed.

Lemma accounted_steps t m m' : rtc conf_step m m' → accounted t m → accounted t m'.
Proof.
  induction 1 as [|m1 m2 m3 Hs _ IH]; [done|]. intros Hacc. apply IH.
  destruct Hs as [q m w r m' w' Hq Hconf Hs Hp].
  pose proof (serve_accounted t q m w Hq Hconf Hacc) as Hwp. unfold wp in Hwp. rewrite Hs in Hwp.
  by apply Hwp.
Qed.
(** ** Creating, then deleting *)

(** Without a forward of the VM, removing its forwards changes nothing. *)
Lemma remove_all_none vm s :
  (∀ k f, PortForwards.forwards s !! k = Some f → f_vm_id f ≠ vm) →
  (PortForwards.remove_all_for_vm vm s).2 = s.
Proof.
  intros Hnone. pose proof (PortForwards.remove_all_forwards vm s) as Hf.
  destruct (PortForwards.remove_all_for_vm vm s) as [removed [fs]], s as [fs0]. simpl in *. f_equal.
  rewrite Hf. apply map_filter_id. intros k f Hk. simpl. by eapply Hnone.
Qed.

Lemma created_deleted config hint m i m1 h m2 :
  mgr_inv m → config_wf config → is_confidential config = true →
  created config hint m i m1 → vms m1 !! vm_id config = Some h →
  frame (vm_id config) (without (vm_id config) h m1) m2 → frame (vm_id config) m m2.
Proof.
  intros Hinv Hcfg Hconf Hcr Hh Hdel.
  destruct Hcr as [o boot cl p n mid v6 process now Hnew Hleast Hplan _ Hreq Hfr _ _ _].
  simpl in Hh. rewrite lookup_insert_eq in Hh. injection Hh as <-.
  pose proof Hfr as (Hc & _ & _).
  apply core_eq in Hc as (Ev & Er & Es & Eb & Eg & Eu & Ebk & Ed & Enf & Ep & En).
  destruct (place_config_same (upd_numa (λ _, n) m) p boot) as ((_ & Hv1 & Hm1 & _) & _ & Hpage).
  destruct (boot_plan_same _ _ _ Hplan) as (_ & Hv0 & Hm0 & _).
  transitivity (without (vm_id config) (mk_handle (place_config (upd_numa (λ _, n) m) p boot) Running
    (Bridge.allocate_vm_ip (gateway_ip m) o) v6 (Some process) (tap_of (vm_id config)) now
    (Some (Numa.node p))) (upd_vms <[vm_id config := mk_handle (place_config (upd_numa (λ _, n) m) p boot)
      Running (Bridge.allocate_vm_ip (gateway_ip m) o) v6 (Some process) (tap_of (vm_id config)) now
      (Some (Numa.node p))]> mid)); [|exact Hdel].
  assert (release_numa (mk_handle (place_config (upd_numa (λ _, n) m) p boot) Running
    (Bridge.allocate_vm_ip (gateway_ip m) o) v6 (Some process) (tap_of (vm_id config)) now
    (Some (Numa.node p))) n = numa m) as Hnuma.
  { unfold release_numa. cbn [h_numa_node h_config]. rewrite Hpage, Hv1, Hm1, Hv0, Hm0. simpl.
    destruct Hcfg as (Hv & Hm & _). unfold numa_request in Hreq. rewrite Hconf in Hreq.
    eapply Numa.release_allocated; [apply Hinv|lia|lia|exact Hreq]. }
  destruct Hfr as (_ & Hi & Hn). split_and!; [|exact Hi|exact Hn].
  unfold core, without.
  cbn [vms run_dir state_dir bridge gateway_ip used_ip_offsets backends dhcp_hostsdir nftables
    port_forwards numa upd_vms upd_used upd_forwards upd_numa take_offset] in *.
  cbn [h_ip]. rewrite Ev, Er, Es, Eb, Eg, Eu, Ebk, Ed, Enf, Ep, En, Hnuma.
  rewrite delete_insert_id by done. rewrite Bridge.offset_of_allocated by (destruct Hleast; lia).
  rewrite remove_all_none.
  - repeat f_equal. destruct Hleast as (_ & Hfree & _). set_solver.
  - intros k f Hf Heq. destruct (inv_owned m Hinv k f Hf) as [h Hvm]. congruence.
Qed.
End accounting.
