(* ===== verification/ManagerProps.v ===== *)
(** * The VM manager: properties

    What the manager promises its callers, and concrete runs on the simulated host. *)

From S2P Require Import Prelude Strs Host HostSim Json Types NetTypes Instances Tee Verity Qemu.
From S2P Require Import Persistence Manager ManagerFrame ManagerSpec ManagerOps ManagerInv.
From S2P Require Import ManagerSafety.
From S2P Require Bridge PortForwards Ipv6 Nft NdpProxy Numa.

(** ** A manager on the simulated host *)

Definition demo_backends : gmap TeeType (TeeBackend sim) :=
  {[ TeeNone := no_tee_backend sim; SevSnp := no_tee_backend sim ]}.
Definition demo_manager : VmManager sim_net sim :=
  new "/run" "/state" "br0" 167797761 demo_backends None "eth0" None false Numa.demo_topology.
(** A VM that boots from a kernel, without disks. *)
Definition demo_request (vm : string) : VmConfig :=
  mk_config vm (Some "/boot/vmlinuz"%string) (Some "/boot/initrd.img"%string) [] 2 1024
    (mk_tee SevSnp None) false None None.
Definition ok_output (s : string) : Output := mk_output true s "".
Definition nft_output : Output :=
  ok_output (json_print (JObj [("nftables"%string, JArr Nft.demo_ruleset)])).
(** A host on which the TAP device comes up and nft lists the supervisor chains. *)
Definition demo_host : sim :=
  mk_sim ∅ [] [ok_output ""; ok_output ""; ok_output ""; nft_output] [] 1700000000 [].
(** A host on which nft lists the chains of the VM [a]. *)
Definition demo_forward_host : sim :=
  mk_sim ∅ [] [ok_output (json_print (JObj [("nftables"%string,
    JArr (Nft.demo_chain "ip" "filter" "aleph-vm-filter-a" :: Nft.demo_ruleset))]))] [] 0 [].
(** A host on which every operation fails. *)
Definition broken_host : sim := mk_sim ∅ (replicate 2000 true) [] [] 0 [].

Lemma demo_request_wf vm : config_wf (demo_request vm).
Proof. unfold config_wf, u32_max. simpl. lia. Qed.

Lemma step_of {Net W} `{IpNet Net} `{Host W} `{SerdeJson} q (m : VmManager Net W) (w : W) :
  request_wf q → mgr_step m (serve q (m, w)).2.1.
Proof.
  intros Hq. destruct (serve q (m, w)) as [r [m' w']] eqn:Hs. by eapply step_serve.
Qed.

Lemma conf_step_of {Net W} `{IpNet Net} `{Host W} `{SerdeJson} q (m : VmManager Net W) (w : W) :
  request_wf q → confidential_request q → is_ok (serve q (m, w)).1 = true →
  conf_step m (serve q (m, w)).2.1.
Proof.
  intros Hq Hc Hok. destruct (serve q (m, w)) as [r [m' w']] eqn:Hs.
  eapply step_confidential; [done..|]. intros p ->. done.
Qed.

(** Every state the manager reaches by serving requests satisfies the invariant: the
    recorded VMs have distinct addresses with reserved offsets of 1 .. 254, each holds
    its own disjoint IPv6 range of the pool, forwards belong to recorded VMs and are
    stored under their own key, and the NUMA counters stay within the nodes. Whatever
    the host does between and during the requests, and whatever the outcomes, panics
    included. *)
Theorem manager_reachable_inv {Net W} `{IpNet Net} `{Host W} `{SerdeJson}
    run st br gw bk dhcp ext (pool : option Net) ndp t (m : VmManager Net W) :
  Numa.topology_wf t →
  rtc mgr_step (new run st br gw bk dhcp ext pool ndp t) m → mgr_inv m.
Proof. intros Ht Hs. eapply steps_inv; [exact Hs|]. by apply new_inv. Qed.

Definition demo_created : VmManager sim_net sim :=
  (serve (ReqCreate (demo_request "a") None None) (demo_manager, demo_host)).2.1.
Definition demo_forwarded : VmManager sim_net sim :=
  (serve (ReqAddForward "a" 8080 80 Tcp) (demo_created, demo_forward_host)).2.1.

Lemma manager_reachable_inv_witness :
  mgr_inv demo_forwarded ∧ h_ip <$> vms demo_forwarded !! "a"%string = Some 167797762 ∧
  list_port_forwards None demo_forwarded = [mk_forward "a" 8080 80 Tcp].
Proof.
  split; [|split; by vm_compute].
  apply (manager_reachable_inv "/run" "/state" "br0" 167797761 demo_backends None "eth0" None false
           Numa.demo_topology); [exact Numa.demo_topology_wf|].
  eapply rtc_l; [apply (step_of (ReqCreate (demo_request "a") None None) _ demo_host), demo_request_wf|].
  apply rtc_once, (step_of (ReqAddForward "a" 8080 80 Tcp) demo_created demo_forward_host).
  unfold request_wf, u16_max. lia.
Defined.

(** C5: NUMA accounting. From a new manager without VMs on, with requests taken one at a
    time, while all VMs are confidential and no request panics, the counters of each node
    are exactly the sums over the recorded VMs of what deleting them will give back, and no
    node is charged beyond its capacity: failed creations and deletions leak nothing. *)
Theorem numa_accounting {Net W} `{IpNet Net} `{Host W} `{SerdeJson}
    run st br gw bk dhcp ext (pool : option Net) ndp t (m : VmManager Net W) idx n :
  Numa.topology_wf t →
  rtc conf_step (new run st br gw bk dhcp ext pool ndp t) m →
  Numa.nodes t !! idx = Some n →
  Numa.slot_at (numa m) idx = Some (Numa.load (leases m) (Numa.id n)) ∧
  Numa.slot_le (Numa.load (leases m) (Numa.id n)) (Numa.capacity n).
Proof.
  intros Ht Hs Hn.
  assert (accounted t (new (W := W) run st br gw bk dhcp ext pool ndp t)) as Hnew.
  { split; [by apply new_inv|by apply Numa.ledger_inv_new|by apply map_Forall_empty]. }
  pose proof (accounted_steps t _ _ Hs Hnew) as [_ (Hwf & Htop & _ & Hload) _]. simpl in *.
  specialize (Hload _ _ Hn). split; [done|]. rewrite <-Htop in Hn.
  destruct (Numa.alloc_wf_slot _ _ _ Hwf Hn) as (s & Hs' & _ & Hle). by simplify_eq.
Qed.

Lemma numa_accounting_witness :
  Numa.slot_at (numa demo_created) 0 = Some (Numa.load (leases demo_created) 0) ∧
  Numa.s_vcpus (Numa.load (leases demo_created) 0) = 2.
Proof.
  split; [|by vm_compute].
  apply (numa_accounting "/run" "/state" "br0" 167797761 demo_backends None "eth0" None false
           Numa.demo_topology demo_created 0 (Numa.demo_node 0 0 4)).
  - exact Numa.demo_topology_wf.
  - apply rtc_once, conf_step_of; [apply demo_request_wf|done|by vm_compute].
  - reflexivity.
Defined.

(** C3: [create_vm] on every outcome. Success takes the least free offset, charges one
    NUMA placement and records exactly one running VM, whose disks are those of the
    boot plan and whose address is the gateway's plus the offset. An error records
    nothing, and leaves at most the offset it took and residue of this VM in the IPv6
    allocator and the NDP proxy, the NUMA counters being unchanged or charged and
    released. A panic needs a disk QEMU would not accept or a pool without host bits. *)
Theorem create_vm_outcomes {Net W} `{IpNet Net} `{Host W} `{SerdeJson}
    config requested hint (m : VmManager Net W) w :
  Numa.alloc_wf (numa m) → config_wf config →
  wp (create_vm config requested hint) (λ r '(m', _),
    match r with
    | Ok i => created config hint m i m'
    | Err _ => create_failed config hint m m'
    | Panic _ => create_panicked config requested hint m m'
    end) (m, w).
Proof. intros Hwf Hc. by apply create_vm_spec. Qed.

Lemma create_vm_outcomes_witness :
  ∃ i, (create_vm (demo_request "a") None None (demo_manager, demo_host)).1 = Ok i ∧
    created (demo_request "a") None demo_manager i demo_created.
Proof.
  pose proof (create_vm_outcomes (demo_request "a") None None demo_manager demo_host
    (Numa.new_wf _ Numa.demo_topology_wf) (demo_request_wf "a")) as Hwp.
  unfold wp in Hwp.
  assert (demo_created = (create_vm (demo_request "a") None None (demo_manager, demo_host)).2.1) as ->
    by by vm_compute.
  assert (is_ok (create_vm (demo_request "a") None None (demo_manager, demo_host)).1 = true) as Hok
    by by vm_compute.
  destruct (create_vm (demo_request "a") None None (demo_manager, demo_host)) as [[i|e|p] [m' w']];
    [|done..].
  exists i. split; [done|exact Hwp].
Defined.

(** C39: a creation that fails after its first check keeps the offset it took: no error
    path of [create_vm] gives it back, although the VM is not recorded and so can
    never be deleted. *)
Theorem failed_create_keeps_offset {Net W} `{IpNet Net} `{Host W} `{SerdeJson}
    config requested hint o (m : VmManager Net W) w :
  Numa.alloc_wf (numa m) → config_wf config → vms m !! vm_id config = None → least_free o m →
  wp (create_vm config requested hint) (λ r '(m', _),
    is_err r = true → vms m' = vms m ∧ used_ip_offsets m' = {[o]} ∪ used_ip_offsets m) (m, w).
Proof.
  intros Hwf Hc Hnew Hleast. apply create_vm_spec; [done..|done| |done].
  intros e m' w' Hf _.
  destruct Hf as [[-> [[? Hs]|Hfull]]|(_ & o' & Hleast' & Hf)]; [congruence| |].
  { destruct Hleast as (Ho & Hfree & _). destruct Hfree. by apply Hfull. }
  assert (o' = o) as ->.
  { destruct Hleast as (Ho & Hfree & Hmin), Hleast' as (Ho' & Hfree' & Hmin').
    destruct (Z.lt_trichotomy o o') as [Hlt|[Heq|Hlt]]; [|done|].
    - destruct Hfree. apply Hmin'. lia.
    - destruct Hfree'. apply Hmin. lia. }
  destruct Hf as [(Hcore & _)|(p & n & _ & (Hcore & _))]; apply core_eq in Hcore;
    by destruct_and! Hcore.
Qed.

(** On a broken host 254 failed creations exhaust the pool of a manager without VMs. *)
Definition fail_once (mw : VmManager sim_net sim * sim) : VmManager sim_net sim * sim :=
  (create_vm (demo_request "a") None None (mw.1, broken_host)).2.
Definition exhausted : VmManager sim_net sim := (Nat.iter 254 fail_once (demo_manager, broken_host)).1.

Lemma failed_create_keeps_offset_witness :
  used_ip_offsets (create_vm (demo_request "a") None None (demo_manager, broken_host)).2.1 = {[1]} ∪ ∅ ∧
  vms exhausted = ∅ ∧
  (create_vm (demo_request "a") None None (exhausted, demo_host)).1 =
    Err (mk_error "IPv4 address pool exhausted (254 VMs max)" []).
Proof.
  split; [|split; by vm_compute].
  assert (least_free 1 demo_manager) as Hleast.
  { split_and!; [lia..|set_solver|intros; lia]. }
  pose proof (failed_create_keeps_offset (demo_request "a") None None 1 demo_manager broken_host
    (Numa.new_wf _ Numa.demo_topology_wf) (demo_request_wf "a") eq_refl Hleast) as Hwp.
  unfold wp in Hwp.
  assert (is_err (create_vm (demo_request "a") None None (demo_manager, broken_host)).1 = true) as He
    by by vm_compute.
  destruct (create_vm (demo_request "a") None None (demo_manager, broken_host)) as [r [m' w']].
  exact (proj2 (Hwp He)).
Defined.

Lemma demo_created_ok : ∃ i, created (demo_request "a") None demo_manager i demo_created.
Proof.
  assert (wp (create_vm (demo_request "a") None None)
    (λ r '(m', _), is_ok r = true → ∃ i, created (demo_request "a") None demo_manager i m')
    (demo_manager, demo_host)) as Hwp.
  { apply create_vm_spec; [apply Numa.new_wf, Numa.demo_topology_wf|apply demo_request_wf|eauto|done..]. }
  unfold wp in Hwp. unfold demo_created, serve, discard, mbind, M_bind.
  assert (is_ok (create_vm (demo_request "a") None None (demo_manager, demo_host)).1 = true) as Hok
    by by vm_compute.
  destruct (create_vm (demo_request "a") None None (demo_manager, demo_host)) as [[i|e|p] [m' w']];
    [by apply Hwp|done..].
Qed.

(** C6: deleting a confidential VM right after it was created restores the manager: the
    offset, the NUMA counters, the forwards and the table of VMs are as before, other
    VMs' IPv6 ranges and NDP entries are untouched, and nothing of the VM is left in
    the NDP proxy. The deletion succeeds whatever the host does. *)
Theorem delete_undoes_create {Net W} `{IpNet Net} `{Host W} `{SerdeJson}
    config hint i (m m1 : VmManager Net W) w :
  mgr_inv m → config_wf config → is_confidential config = true → created config hint m i m1 →
  wp (delete_vm (vm_id config)) (λ r '(m2, _),
    r = Ok tt ∧ core m2 = core m ∧ frame (vm_id config) m m2 ∧
    ∃ h, vms m1 !! vm_id config = Some h ∧ forgotten (vm_id config) h m2) (m1, w).
Proof.
  intros Hinv Hcfg Hconf Hcr. pose proof (created_inv _ _ _ _ _ Hcfg Hinv Hcr) as Hinv1.
  apply delete_vm_spec.
  - intros h Hvm. by apply (ho_tap _ _ _ (inv_handles m1 Hinv1 _ h Hvm)).
  - intros h m2 w' Hh Hfr Hforgot. pose proof (created_deleted _ _ _ _ _ _ _ Hinv Hcfg Hconf Hcr Hh Hfr) as Hm.
    split_and!; [done|apply Hm|done|eauto].
  - intros e Hnone. destruct Hcr. simpl in Hnone. by rewrite lookup_insert_eq in Hnone.
Qed.

Lemma delete_undoes_create_witness :
  core (delete_vm "a" (demo_created, broken_host)).2.1 = core demo_manager ∧
  core demo_created ≠ core demo_manager.
Proof.
  assert (mgr_inv demo_manager) as Hinv by (apply new_inv, Numa.demo_topology_wf).
  destruct demo_created_ok as [i Hcr].
  pose proof (delete_undoes_create _ _ _ _ _ broken_host Hinv (demo_request_wf "a") eq_refl Hcr) as Hwp.
  unfold wp in Hwp. change (vm_id (demo_request "a")) with "a"%string in Hwp.
  split.
  - destruct (delete_vm "a" (demo_created, broken_host)) as [r [m2 w2]]. exact (proj1 (proj2 Hwp)).
  - intros Heq. apply core_eq in Heq as (Hvms & _). apply (f_equal (λ v, size v)) in Hvms.
    by vm_compute in Hvms.
Defined.

(** C30: [prepare_boot]: a VM whose memory is not encrypted boots as it was asked; an
    encrypted root disk boots with [luks=1]; otherwise the root disk, and the workload
    disk if there is one, is followed by its hash tree, and [roothash] on the command line
    is the root hash of the first image and [workload_roothash] that of the second: the
    content of the image's cache file when that is valid, what [veritysetup] printed for the
    image otherwise. The disk insertions never panic. *)
Theorem prepare_boot_verified {W} `{Host W} config w :
  wp (prepare_boot config) (λ r w',
    match r with
    | Ok (config', cmdline) => boot_run config config' cmdline w w' ∧ same_request config config'
    | Err _ => is_confidential config = true ∧ encrypted config = false ∧ disks config ≠ []
    | Panic _ => False
    end) w.
Proof.
  destruct (decide (is_confidential config = true ∧ encrypted config = false ∧ disks config ≠ []))
    as [Hv|Hv].
  - apply prepare_boot_run; [|done]. intros c' cl w' Hrun. split; [done|].
    eapply (boot_plan_same (W := W)). by eexists _, _.
  - assert (∃ cl, prepare_boot config w = (Ok (config, cl), w) ∧ boot_run config config cl w w)
      as (cl & Heq & Hplan).
    { unfold prepare_boot, boot_run. destruct (is_confidential config); simpl; [|by eexists].
      destruct (encrypted config); [by eexists|]. destruct (disks config); [by eexists|].
      destruct Hv. done. }
    unfold wp. rewrite Heq. simpl. done.
Qed.

(** C29: [add_port_forward] is all or nothing. Success registers one forward, for a
    recorded VM, on a port that was free for that protocol: the requested one, or one
    of at least 10000; any error, that of nft included, leaves the manager as it was. *)
Theorem add_port_forward_atomic {Net W} `{IpNet Net} `{Host W} `{SerdeJson}
    vm host_port vm_port protocol (m : VmManager Net W) w :
  0 ≤ host_port ≤ u16_max → 0 ≤ vm_port ≤ u16_max →
  wp (add_port_forward vm host_port vm_port protocol) (λ r '(m', _),
    match r with
    | Ok f => m' = upd_forwards (PortForwards.add f) m ∧ is_Some (vms m !! vm) ∧
        f = mk_forward vm (f_host_port f) vm_port protocol ∧
        PortForwards.forwards (port_forwards m) !! (f_host_port f, protocol) = None ∧
        (if host_port =? 0 then 10000 ≤ f_host_port f ≤ u16_max else f_host_port f = host_port)
    | Err _ => m' = m
    | Panic _ => False
    end) (m, w).
Proof.
  intros Hhp Hvp. apply add_port_forward_spec; [done..| |done].
  intros [v g h p] w' Hvm [Hwf _] Hid Hport Hproto Hne Hz Hfree. simpl in *. subst.
  split_and!; [done..|]. destruct (Z.eqb_spec host_port 0); [|by apply Hne]. split; [by apply Hz|lia].
Qed.

Lemma add_port_forward_atomic_witness :
  port_forwards (add_port_forward "a" 8080 80 Tcp (demo_created, broken_host)).2.1 =
    port_forwards demo_created ∧
  (add_port_forward "a" 8080 80 Tcp (demo_created, demo_forward_host)).1 =
    Ok (mk_forward "a" 8080 80 Tcp).
Proof.
  split; [|by vm_compute].
  pose proof (add_port_forward_atomic "a" 8080 80 Tcp demo_created broken_host
    ltac:(unfold u16_max; lia) ltac:(unfold u16_max; lia)) as Hwp. unfold wp in Hwp.
  assert (is_err (add_port_forward "a" 8080 80 Tcp (demo_created, broken_host)).1 = true) as He
    by by vm_compute.
  destruct (add_port_forward "a" 8080 80 Tcp (demo_created, broken_host)) as [[f|e|p] [m' w']];
    [done| |done].
  simpl in *. by rewrite Hwp.
Defined.

(** [remove_port_forward] forgets the forward whatever the outcome: when deleting
    the nft rule fails, the caller sees an error, but the forward is no longer
    registered and its port is free for another VM, although the rule may be there. *)
Theorem remove_port_forward_forgets {Net W} `{IpNet Net} `{Host W} `{SerdeJson}
    host_port protocol (m : VmManager Net W) w :
  wp (remove_port_forward host_port protocol) (λ r '(m', _),
    m' = upd_forwards (λ pf, (PortForwards.remove host_port protocol pf).2) m ∧
    PortForwards.is_available host_port protocol (port_forwards m') = true ∧
    (r = Ok tt → is_Some (PortForwards.forwards (port_forwards m) !! (host_port, protocol))) ∧
    ∀ p, r ≠ Panic p) (m, w).
Proof.
  assert (PortForwards.is_available host_port protocol (PortForwards.remove host_port protocol
    (port_forwards m)).2 = true) as Hav.
  { unfold PortForwards.is_available, PortForwards.remove. simpl. by rewrite lookup_delete_eq. }
  apply remove_port_forward_spec; intros; by split_and!.
Qed.
