(* ===== verification/ManagerRecover.v ===== *)
(** * The VM manager: recovery

    [recover_vms] on the VMs found in the state directory: what it records, and that it
    re-establishes the invariant of the manager that wrote the files. *)

From S2P Require Import Prelude Strs Host HostSim Json Types NetTypes Instances Tee Verity Qemu.
From S2P Require Import Persistence Manager ManagerFrame ManagerSpec ManagerOps ManagerInv.
From S2P Require Import ManagerSafety ManagerProps.
From S2P Require Bridge PortForwards Ipv6 Nft NdpProxy Numa.

Section recover.
Context {Net W : Type} `{IpNet Net} `{Host W} `{SerdeJson}.
Implicit Types m : VmManager Net W.
Implicit Types pv : PersistedVm Net.

(** The handle recorded for a persisted VM. *)
Definition recovered_handle pv (state : VmState) (process : option QemuProcess) : VmHandle Net :=
  mk_handle (pv_config pv) state (pv_ip pv) (pv_ipv6 pv) process (pv_tap_name pv)
    (pv_created_at_epoch pv) (pv_numa_node pv).
Definition add_forwards (fs : list PortForward) (pf : PortForwards.PortForwardState) :
    PortForwards.PortForwardState :=
  foldl (λ pf f, PortForwards.add f pf) pf fs.

(** Recovering one VM, up to the NUMA counters and the NDP proxy. *)
Record recovered pv m m' : Prop := mk_recovered {
  rec_vms : ∃ state process, (state = Running ↔ is_Some process) ∧
    vms m' = <[vm_id (pv_config pv) := recovered_handle pv state process]> (vms m);
  rec_used : used_ip_offsets m' = {[Bridge.offset_of_ip (gateway_ip m) (pv_ip pv)]} ∪ used_ip_offsets m;
  rec_gateway : gateway_ip m' = gateway_ip m;
  rec_forwards : port_forwards m' = add_forwards (pv_port_forwards pv) (port_forwards m);
  rec_numa : Numa.alloc_wf (numa m');
  rec_ipv6 :
    match pv_ipv6 pv, ipv6_allocator m with
    | Some n, Some a =>
        Ipv6.contains a n && negb (Ipv6.overlaps a n) = true →
        ∃ a', ipv6_allocator m' = Some a' ∧ Ipv6.allocated a (vm_id (pv_config pv)) n a'
    | _, _ => ipv6_allocator m' = ipv6_allocator m
    end;
}.

Lemma replay_forwards_spec vm ip fs (Q : result error unit → VmManager Net W * W → Prop) m w :
  (∀ w', Q (Ok tt) (m, w')) → wp (replay_forwards vm ip fs) Q (m, w).
Proof.
  revert w. induction fs as [|f fs IH]; intros w HQ; simpl; [by apply wp_ret|].
  apply wp_bind, wp_self, wp_bind, wp_ignore; [auto with cvm|]. intros w1. by apply IH.
Qed.

(** The parts recovery looks at, all but the NDP proxy. *)
Lemma replay_network_spec vm pv (Q : result error unit → VmManager Net W * W → Prop) m w :
  (∀ m' w', core m' = core m → ipv6_allocator m' = ipv6_allocator m → Q (Ok tt) (m', w')) →
  wp (replay_network vm pv) Q (m, w).
Proof.
  intros HQ. unfold replay_network. apply wp_bind, wp_self, wp_bind, wp_ignore; [auto with cvm|].
  intros w1. apply wp_bind, replay_forwards_spec. intros w2.
  destruct (pv_ipv6 pv) as [n|]; [|by apply wp_ret, HQ].
  destruct (ndp_proxy m) as [p|]; [|by apply wp_ret, HQ].
  apply wp_on_ndp, NdpProxy.add_range_spec. intros w3. by apply HQ.
Qed.

(** Charging a node again may fail; it never panics. *)
Lemma charge_again_spec c node m w (Q : result error unit → VmManager Net W * W → Prop) :
  0 ≤ vcpus c → 0 ≤ memory_mb c → Numa.alloc_wf (numa m) →
  (∀ n, Numa.alloc_wf n → Q (Ok tt) (upd_numa (λ _, n) m, w)) →
  wp (attempt (E' := error) (on_numa (Numa.allocate (vcpus c) (memory_mb c) (Some node)
        (is_confidential c)));; mret tt) Q (m, w).
Proof.
  intros Hv Hm Hwf HQ. apply wp_bind, wp_attempt. unfold wp at 1, on_numa.
  pose proof (Numa.allocate_cases (numa m) (vcpus c) (memory_mb c) (Some node) (is_confidential c)
    Hwf Hv Hm) as Hc.
  destruct (Numa.allocate _ _ _ _ (numa m)) as [[p|e|q] n]; simpl; [| |done].
  - apply wp_ret, HQ. destruct Hc as (idx & k & _ & _ & Hp & _). exact (Numa.placed_wf _ _ _ _ _ _ _ Hwf Hv Hm Hp).
  - destruct Hc as [-> _]. apply wp_ret. by apply HQ.
Qed.

(** Registering the range again: with a requested range nothing is drawn. *)
Lemma register_again_spec vm (o : option Net) m w (Q : result error unit → VmManager Net W * W → Prop) :
  (∀ o',
     match o, ipv6_allocator m with
     | Some n, Some a =>
         (Ipv6.contains a n && negb (Ipv6.overlaps a n) = true →
          ∃ a', o' = Some a' ∧ Ipv6.allocated a vm n a') ∧ is_Some o'
     | _, _ => o' = ipv6_allocator m
     end →
     Q (Ok tt) (match o' with Some a' => upd_ipv6 (λ _, a') m | None => m end, w)) →
  wp match o, ipv6_allocator m with
     | Some n, Some a => attempt (E' := error) (on_ipv6 a (Ipv6.allocate vm (Some n)));; mret tt
     | _, _ => mret tt
     end Q (m, w).
Proof.
  intros HQ. destruct o as [n|], (ipv6_allocator m) as [a|] eqn:Ha.
  2: { apply wp_ret. by apply (HQ None). }
  2: { apply wp_ret. specialize (HQ (Some a) eq_refl). simpl in HQ. by rewrite upd_ipv6_id in HQ. }
  2: { apply wp_ret. by apply (HQ None). }
  apply wp_bind, wp_attempt, wp_on_ipv6. unfold Ipv6.allocate. apply wp_bind, wp_on_fst, wp_get, wp_bind.
  destruct (Ipv6.contains a n) eqn:Hc; simpl in HQ |- *.
  2: { apply wp_throw, wp_ret, (HQ (Some a)). by split; [|by eexists]. }
  destruct (Ipv6.overlaps a n) eqn:Ho; simpl in HQ |- *.
  { apply wp_throw, wp_ret, (HQ (Some a)). by split; [|by eexists]. }
  apply wp_ret, wp_bind, wp_on_fst, wp_modify, wp_ret, wp_ret.
  apply (HQ (Some _)). split; [|by eexists]. intros _. eexists. split; [done|].
  split_and!; [by apply Ipv6.contains_within|by apply Ipv6.overlaps_disjoint|done].
Qed.

Lemma recover_vm_spec pv (Q : result error unit → VmManager Net W * W → Prop) m w :
  0 ≤ vcpus (pv_config pv) → 0 ≤ memory_mb (pv_config pv) → Numa.alloc_wf (numa m) →
  (∀ m' w', recovered pv m m' → Q (Ok tt) (m', w')) →
  wp (recover_vm pv) Q (m, w).
Proof.
  intros Hv Hm Hwf HQ. unfold recover_vm. apply wp_bind, wp_self, wp_bind, wp_update.
  set (m1 := upd_used _ m). apply wp_bind.
  assert (∀ state process (w1 : W), (state = Running ↔ is_Some process) →
    ∀ n, Numa.alloc_wf n → let m2 := upd_numa (λ _, n) m1 in
    wp (match pv_ipv6 pv, ipv6_allocator m with
        | Some n, Some a =>
            attempt (E' := error) (on_ipv6 a (Ipv6.allocate (vm_id (pv_config pv)) (Some n)));; mret tt
        | _, _ => mret tt
        end;;
        update (upd_forwards (add_forwards (pv_port_forwards pv)));;
        (if decide (state = Running) then replay_network (vm_id (pv_config pv)) pv else mret tt);;
        update (upd_vms (<[vm_id (pv_config pv) := recovered_handle pv state process]>))) Q (m2, w1))
    as Hrest.
  { intros state process w1 Hstate n Hn m2. apply wp_bind.
    change (ipv6_allocator m) with (ipv6_allocator m2). apply register_again_spec. intros o' Ho'.
    set (m3 := match o' with Some a' => upd_ipv6 (λ _, a') m2 | None => m2 end).
    assert (core m3 = core m2 ∧ ipv6_allocator m3 = o') as [Hc3 Hi3].
    { subst m3. destruct o' as [a'|]; simpl in *; [split; [done|]|split; [done|]].
      - destruct (ipv6_allocator m) as [a|]; [done|]. by destruct (pv_ipv6 pv).
      - destruct (pv_ipv6 pv), (ipv6_allocator m); [by destruct Ho' as [_ []]|done..]. }
    clearbody m3. apply core_eq in Hc3 as (Ev & _ & _ & _ & Eg & Eu & _ & _ & _ & Ep & En).
    assert (∀ m4 w4, core m4 = core (upd_forwards (add_forwards (pv_port_forwards pv)) m3) →
      ipv6_allocator m4 = o' →
      wp (update (upd_vms (<[vm_id (pv_config pv) := recovered_handle pv state process]>))) Q (m4, w4))
      as Hlast.
    { intros m4 w4 Hc4 Hi4. apply wp_update, HQ.
      apply core_eq in Hc4 as (Ev4 & _ & _ & _ & Eg4 & Eu4 & _ & _ & _ & Ep4 & En4). simpl in *.
      split; simpl; [| | | | |].
      - exists state, process. split; [done|]. by rewrite Ev4, Ev.
      - by rewrite Eu4, Eu.
      - by rewrite Eg4, Eg.
      - by rewrite Ep4, Ep.
      - by rewrite En4, En.
      - rewrite Hi4. destruct (pv_ipv6 pv), (ipv6_allocator m); [by apply Ho'|done..]. }
    apply wp_bind, wp_update, wp_bind. destruct (decide (state = Running)).
    - apply replay_network_spec. intros m4 w4 Hc4 Hi4. apply Hlast; [done|by rewrite Hi4].
    - by apply wp_ret, Hlast. }
  assert (m1 = upd_numa (λ _, numa m1) m1) as Hid by by destruct m.
  apply wp_attempt_host; [apply total_reconnect|intros p w1|intros e w1]; simpl.
  - change (mk_handle (pv_config pv) Running _ _ _ _ _ _) with (recovered_handle pv Running (Some p)).
    destruct (pv_numa_node pv) as [node|].
    + apply wp_bind, charge_again_spec; [done..|]. intros n Hn. by apply (Hrest Running (Some p)).
    + apply wp_bind, wp_ret. rewrite Hid. by apply (Hrest Running (Some p)).
  - apply wp_bind, wp_ret. rewrite Hid. apply (Hrest Stopped None); [|done].
    split; [done|by intros []].
Qed.

(** ** The invariant after recovery *)

(** A persisted VM that the manager can take in. *)
Definition pv_fits m pv : Prop :=
  let vm := vm_id (pv_config pv) in
  vms m !! vm = None ∧ (0 ≤ vcpus (pv_config pv) ∧ 0 ≤ memory_mb (pv_config pv)) ∧
  pv_tap_name pv = tap_of vm ∧
  (∃ o, 1 ≤ o ≤ 254 ∧ (o ∉ used_ip_offsets m) ∧ pv_ip pv = Bridge.allocate_vm_ip (gateway_ip m) o) ∧
  Forall (λ f, forward_wf f ∧ f_vm_id f = vm) (pv_port_forwards pv) ∧
  match pv_ipv6 pv, ipv6_allocator m with
  | Some n, Some a => Ipv6.contains a n && negb (Ipv6.overlaps a n) = true
  | None, None => True
  | _, _ => False
  end.

(** Two persisted VMs that do not clash. *)
Definition pv_apart pv pv' : Prop :=
  vm_id (pv_config pv) ≠ vm_id (pv_config pv') ∧ pv_ip pv ≠ pv_ip pv' ∧
  ∀ n n', pv_ipv6 pv = Some n → pv_ipv6 pv' = Some n' → Ipv6.disjoint_nets n n'.
Definition all_apart (pvs : list (PersistedVm Net)) : Prop :=
  ∀ i j pv pv', pvs !! i = Some pv → pvs !! j = Some pv' → i ≠ j → pv_apart pv pv'.

Lemma add_forwards_lookup fs s k g :
  PortForwards.forwards (add_forwards fs s) !! k = Some g →
  g ∈ fs ∨ PortForwards.forwards s !! k = Some g.
Proof.
  revert s. induction fs as [|f fs IH]; intros s Hk; simpl in Hk; [by right|].
  apply IH in Hk as [Hin|Hk]; [left; set_solver|]. simpl in Hk.
  apply lookup_insert_Some in Hk as [[_ <-]|[_ Hk]]; [left; set_solver|by right].
Qed.

Lemma pf_inv_add_forwards fs s :
  Forall forward_wf fs → PortForwards.pf_inv s → PortForwards.pf_inv (add_forwards fs s).
Proof.
  intros Hfs. revert s. induction Hfs as [|f fs Hf Hfs IH]; intros s Hs; simpl; [done|].
  by apply IH, PortForwards.pf_inv_add.
Qed.

Lemma recovered_offset m pv o :
  1 ≤ o ≤ 254 → pv_ip pv = Bridge.allocate_vm_ip (gateway_ip m) o →
  Bridge.offset_of_ip (gateway_ip m) (pv_ip pv) = o.
Proof. intros Ho ->. apply Bridge.offset_of_allocated. lia. Qed.

(** What recovery does to the IPv6 ranges of the others, and to the VM's own. *)
Lemma recovered_ipv6 pv m m' :
  pv_fits m pv → recovered pv m m' →
  holds_ipv6 (vm_id (pv_config pv)) (pv_ipv6 pv) m' ∧
  ipv6_rel (vm_id (pv_config pv)) (ipv6_allocator m) (ipv6_allocator m').
Proof.
  intros (_ & _ & _ & _ & _ & Hfit) [_ _ _ _ _ H6]. unfold holds_ipv6.
  destruct (pv_ipv6 pv) as [n|], (ipv6_allocator m) as [a|]; try done; [|by rewrite H6].
  destruct (H6 Hfit) as (a' & -> & Hal). pose proof Hal as (_ & _ & Heq). split.
  - eexists. split; [done|]. rewrite Heq. apply lookup_insert_eq.
  - split_and!; [by rewrite Heq|intros; by eapply Ipv6.allocated_inv|].
    rewrite Heq. intros. by apply lookup_insert_ne.
Qed.

Lemma recovered_inv pv m m' :
  mgr_inv m → pv_fits m pv → recovered pv m m' → mgr_inv m'.
Proof.
  intros Hinv Hfit Hrec. pose proof (recovered_ipv6 _ _ _ Hfit Hrec) as [Hown6 Hrel].
  destruct Hfit as (Hnew & Hsz & Htap & (o & Ho & Hfree & Hip) & Hfs & _).
  destruct Hrec as [(state & process & _ & Ev) Eu Eg Ep En _].
  rewrite (recovered_offset m pv o Ho Hip) in Eu.
  destruct Hinv as [Hh Hips Hused H6 Hpf Hown Hn].
  split; rewrite ?Ev, ?Eu, ?Ep; try done.
  - apply map_Forall_insert_2.
    + split; simpl; [done..| |done]. exists o. rewrite Eu, Eg. split_and!; [lia..|set_solver|done].
    + intros vm h Hvm. destruct (Hh vm h Hvm) as [Hid Hsz' Htap' (o' & Ho' & Hin & Hip') H6h].
      split; [done..| |].
      * exists o'. rewrite Eu, Eg. split_and!; [lia..|set_solver|done].
      * eapply holds_ipv6_rel; [|exact Hrel|done]. congruence.
  - apply map_pairwise_insert; [done|]. intros vm h Hvm _. simpl. rewrite Hip.
    destruct (ho_ip _ _ _ (Hh vm h Hvm)) as (o' & Ho' & Hin & Hip').
    assert (h_ip h ≠ Bridge.allocate_vm_ip (gateway_ip m) o); [|by split; congruence].
    intros Heq. rewrite Heq in Hip'. assert (o' = o); [|by subst].
    apply (f_equal (Bridge.offset_of_ip (gateway_ip m))) in Hip'.
    by rewrite !Bridge.offset_of_allocated in Hip' by lia.
  - intros o' Ho'. apply elem_of_union in Ho' as [->%elem_of_singleton|Ho']; [lia|auto].
  - by eapply ipv6_rel_inv.
  - apply pf_inv_add_forwards; [|done]. eapply Forall_impl; [exact Hfs|]. by intros f [? _].
  - intros k f Hf. apply add_forwards_lookup in Hf as [Hin|Hf].
    + rewrite Forall_forall in Hfs. destruct (Hfs f Hin) as [_ ->]. rewrite lookup_insert_eq. by eexists.
    + destruct (Hown k f Hf) as [h Hvm].
      destruct (decide (f_vm_id f = vm_id (pv_config pv))) as [->|Hne];
        [rewrite lookup_insert_eq; by eexists|]. rewrite lookup_insert_ne by done. by eexists.
Qed.

Lemma recovered_fits pv pv' m m' :
  recovered pv m m' → pv_fits m pv → pv_fits m pv' → pv_apart pv pv' → pv_fits m' pv'.
Proof.
  intros Hrec Hfit (Hnew & Hsz & Htap & (o' & Ho' & Hfree' & Hip') & Hfs & Hfit6) (Hid & Hips & Hdis).
  destruct Hfit as (_ & _ & _ & (o & Ho & Hfree & Hip) & _ & Hfit6').
  destruct Hrec as [(state & process & _ & Ev) Eu Eg _ _ H6].
  rewrite (recovered_offset m pv o Ho Hip) in Eu.
  unfold pv_fits. rewrite Ev, lookup_insert_ne by done. split_and!; [done|apply Hsz|apply Hsz|done| |done|].
  - exists o'. rewrite Eu, Eg. split_and!; [lia..| |done].
    rewrite not_elem_of_union, not_elem_of_singleton. split; [|done]. intros ->. congruence.
  - destruct (ipv6_allocator m) as [a|], (pv_ipv6 pv) as [n|], (pv_ipv6 pv') as [n'|]; try done;
      [|by rewrite H6].
    destruct (H6 Hfit6') as (a' & -> & Hin & _ & ->). clear H6.
    apply andb_true_iff in Hfit6 as [Hc Ho6]. apply andb_true_iff. split; [exact Hc|].
    apply negb_true_iff. apply negb_true_iff in Ho6. apply Ipv6.overlaps_disjoint. simpl.
    intros vm k Hk. apply lookup_insert_Some in Hk as [[_ <-]|[_ Hk]].
    + apply Ipv6.disjoint_sym. by apply Hdis.
    + rewrite Ipv6.overlaps_disjoint in Ho6. by eapply Ho6.
Qed.

(** What a handle keeps across a restart. *)
Definition durable (h : VmHandle Net) :=
  (h_config h, h_ip h, h_ipv6 h, h_tap_name h, h_created_at_epoch h, h_numa_node h).
Definition pv_durable pv :=
  (pv_config pv, pv_ip pv, pv_ipv6 pv, pv_tap_name pv, pv_created_at_epoch pv, pv_numa_node pv).

Lemma recover_all_spec pvs (Q : result error unit → VmManager Net W * W → Prop) m w :
  mgr_inv m → Forall (pv_fits m) pvs → all_apart pvs →
  (∀ m' w', mgr_inv m' →
     (∀ vm, durable <$> vms m' !! vm =
        match List.find (λ pv, bool_decide (vm_id (pv_config pv) = vm)) pvs with
        | Some pv => Some (pv_durable pv)
        | None => durable <$> vms m !! vm
        end) →
     used_ip_offsets m' = foldr (λ pv s, {[Bridge.offset_of_ip (gateway_ip m) (pv_ip pv)]} ∪ s)
                            (used_ip_offsets m) pvs →
     port_forwards m' = add_forwards (pvs ≫= pv_port_forwards) (port_forwards m) →
     Q (Ok tt) (m', w')) →
  wp (forM_ pvs recover_vm) Q (m, w).
Proof.
  revert m w. induction pvs as [|pv pvs IH]; intros m w Hinv Hfits Hapart HQ; simpl.
  { apply wp_ret. by apply HQ. }
  apply Forall_cons in Hfits as [Hfit Hfits]. pose proof Hfit as (Hnew & [Hv Hm] & _).
  apply wp_bind, recover_vm_spec; [done|done|apply Hinv|]. intros m1 w1 Hrec.
  apply IH.
  - by eapply recovered_inv.
  - apply Forall_forall. intros pv' Hin. rewrite Forall_forall in Hfits.
    eapply recovered_fits; [done..|by apply Hfits|].
    apply list_elem_of_lookup_1 in Hin as [j Hj]. by apply (Hapart 0%nat (S j)).
  - intros i j x y Hi Hj Hij. apply (Hapart (S i) (S j)); [done..|congruence].
  - pose proof Hrec as [(state & process & _ & Ev) Eu Eg Ep _ _].
    intros m' w' Hinv' Hvms Hu Hpf. apply HQ; [done| | |].
    + intros vm. rewrite Hvms, Ev. simpl.
      case_bool_decide as Hid.
      * rewrite Hid, lookup_insert_eq. simpl. destruct (List.find _ pvs) as [pv'|] eqn:Hf; [|done].
        exfalso. apply List.find_some in Hf as [Hin Hid']. apply bool_decide_eq_true in Hid'.
        apply list_elem_of_In, list_elem_of_lookup_1 in Hin as [j Hj].
        destruct (Hapart 0%nat (S j) pv pv') as [Hne _]; [done..|]. congruence.
      * destruct (List.find _ pvs); [done|]. by rewrite lookup_insert_ne.
    + rewrite Hu, Eu, Eg. simpl. clear. induction pvs as [|x pvs IH]; simpl; [done|].
      rewrite IH. set_solver.
    + rewrite Hpf, Ep. simpl. unfold add_forwards. by rewrite foldl_app.
Qed.

(** ** A restart *)

(** A state file is that of a recorded VM: the durable part is the handle's, and the
    forwards are those registered for the VM, in some order. *)
Record stored_as m (h : VmHandle Net) pv : Prop := mk_stored_as {
  sa_durable : pv_durable pv = durable h;
  sa_forwards : ∀ f, f ∈ pv_port_forwards pv ↔
    f ∈ PortForwards.list_for_vm (vm_id (h_config h)) (port_forwards m);
}.

(** A manager that has just started, with the configuration of [m]. *)
Record restarted m m0 : Prop := mk_restarted {
  rst_vms : vms m0 = ∅;
  rst_used : used_ip_offsets m0 = ∅;
  rst_forwards : port_forwards m0 = PortForwards.new;
  rst_gateway : gateway_ip m0 = gateway_ip m;
  rst_ipv6 : ipv6_allocator m0 = (λ a, Ipv6.new (Ipv6.pool a) (Ipv6.default_prefix a)) <$> ipv6_allocator m;
  rst_numa : Numa.alloc_wf (numa m0);
}.

Lemma restarted_inv m m0 : restarted m m0 → mgr_inv m0.
Proof.
  intros [Hv Hu Hf Hg H6 Hn]. split; rewrite ?Hv, ?Hu, ?Hf; [|auto with cvm|set_solver| |apply PortForwards.pf_inv_new| |done].
  - apply map_Forall_empty.
  - rewrite H6. intros a. destruct (ipv6_allocator m); simpl; [|done]. intros [= <-]. apply Ipv6.ipv6_inv_new.
  - intros k f. simpl. by rewrite lookup_empty.
Qed.

Lemma persisted_fits m m0 vm h pv :
  mgr_inv m → restarted m m0 → vms m !! vm = Some h → stored_as m h pv → pv_fits m0 pv.
Proof.
  intros Hinv [Hv Hu Hf Hg H6 Hn] Hvm [[= Hc Hi Hi6 Ht _ _] Hfs].
  destruct (inv_handles m Hinv vm h Hvm) as [Hid Hsz Htap Hip Hh6].
  unfold pv_fits. rewrite Hc, Hi, Hi6, Ht, Hv, Hu, Hg, H6.
  split_and!; [done|apply Hsz|apply Hsz|congruence| | |].
  - destruct Hip as (o & Ho & _ & Hip). exists o. split_and!; [lia..|set_solver|done].
  - apply Forall_forall. intros f Hfin%Hfs. apply PortForwards.elem_of_list_for_vm in Hfin as [Hfvm [k Hk]].
    split; [by eapply (inv_forwards m Hinv)|done].
  - unfold holds_ipv6 in Hh6. destruct (h_ipv6 h) as [n|]; [|by rewrite Hh6].
    destruct Hh6 as (a & Ha & Hn'). rewrite Ha. simpl.
    destruct (inv_ipv6 m Hinv a Ha) as [Hw _]. apply andb_true_iff. split.
    + apply Ipv6.contains_within. by eapply Hw.
    + apply negb_true_iff, Ipv6.overlaps_disjoint. simpl. intros vm' k. by rewrite lookup_empty.
Qed.

Lemma persisted_apart m vm vm' h h' pv pv' :
  mgr_inv m → vms m !! vm = Some h → vms m !! vm' = Some h' → vm ≠ vm' →
  stored_as m h pv → stored_as m h' pv' → pv_apart pv pv'.
Proof.
  intros Hinv Hvm Hvm' Hne [[= Hc Hi Hi6 _ _ _] _] [[= Hc' Hi' Hi6' _ _ _] _].
  destruct (inv_handles m Hinv vm h Hvm) as [Hid _ _ _ Hh6].
  destruct (inv_handles m Hinv vm' h' Hvm') as [Hid' _ _ _ Hh6'].
  split_and!; rewrite ?Hc, ?Hc', ?Hi, ?Hi', ?Hi6, ?Hi6'; [congruence| |].
  - by apply (inv_ips m Hinv vm vm').
  - intros n n' Hn Hn'. rewrite Hn in Hh6. rewrite Hn' in Hh6'.
    destruct Hh6 as (a & Ha & Hal), Hh6' as (a' & Ha' & Hal'). simplify_eq.
    by eapply (inv_ipv6 m Hinv a Ha).
Qed.

(** The state files of a manager's VMs, in any order: one for each VM and no other. *)
Record persisted_all m (pvs : list (PersistedVm Net)) : Prop := mk_persisted_all {
  pa_ids : NoDup ((λ pv, vm_id (pv_config pv)) <$> pvs);
  pa_stored : ∀ pv, pv ∈ pvs → ∃ vm h, vms m !! vm = Some h ∧ stored_as m h pv;
  pa_every : ∀ vm h, vms m !! vm = Some h → ∃ pv, pv ∈ pvs ∧ stored_as m h pv;
}.

Lemma stored_id m vm h pv :
  mgr_inv m → vms m !! vm = Some h → stored_as m h pv → vm_id (pv_config pv) = vm.
Proof.
  intros Hinv Hvm [[= -> _ _ _ _ _] _]. by apply (ho_id _ _ _ (inv_handles m Hinv vm h Hvm)).
Qed.

Lemma persisted_all_apart m pvs : mgr_inv m → persisted_all m pvs → all_apart pvs.
Proof.
  intros Hinv [Hnd Hst _] i j pv pv' Hi Hj Hij.
  destruct (Hst pv) as (vm & h & Hvm & Hpv); [by eapply list_elem_of_lookup_2|].
  destruct (Hst pv') as (vm' & h' & Hvm' & Hpv'); [by eapply list_elem_of_lookup_2|].
  eapply (persisted_apart m vm vm'); [done..| |done|done]. intros Heq. subst vm'.
  apply Hij. rewrite NoDup_alt in Hnd. eapply Hnd; rewrite list_lookup_fmap; [by rewrite Hi|].
  rewrite Hj. simpl. by rewrite (stored_id m vm h pv), (stored_id m vm h' pv').
Qed.

(** Adding back all forwards of a state gives the state. *)
Lemma add_forwards_is_Some fs s k :
  is_Some (PortForwards.forwards s !! k) ∨ (∃ f, f ∈ fs ∧ k = (f_host_port f, f_protocol f)) →
  is_Some (PortForwards.forwards (add_forwards fs s) !! k).
Proof.
  revert s. induction fs as [|f fs IH]; intros s; simpl; [intros [?|(f & Hf & _)]; [done|set_solver]|].
  intros Hk. apply IH. simpl. destruct (decide (k = (f_host_port f, f_protocol f))) as [->|Hne].
  - left. rewrite lookup_insert_eq. by eexists.
  - rewrite lookup_insert_ne by done. destruct Hk as [Hk|(g & Hg & Hk)]; [by left|right].
    exists g. split; [|done]. apply elem_of_cons in Hg as [->|Hg]; [done|done].
Qed.

Lemma add_forwards_restores fs s :
  PortForwards.pf_inv s → (∀ f, f ∈ fs ↔ ∃ k, PortForwards.forwards s !! k = Some f) →
  add_forwards fs PortForwards.new = s.
Proof.
  intros Hs Hfs.
  assert (PortForwards.pf_inv (add_forwards fs PortForwards.new)) as Hinv.
  { apply pf_inv_add_forwards; [|apply PortForwards.pf_inv_new].
    apply Forall_forall. intros f [k Hk]%Hfs. by eapply Hs. }
  assert (∀ k g, PortForwards.forwards (add_forwards fs PortForwards.new) !! k = Some g →
    PortForwards.forwards s !! k = Some g) as Hsub.
  { intros k g Hk. destruct (Hinv k g Hk) as [-> _].
    apply add_forwards_lookup in Hk as [Hin|Hk]; [|simpl in Hk; by rewrite lookup_empty in Hk].
    apply Hfs in Hin as [k' Hk']. by destruct (Hs k' g Hk') as [<- _]. }
  destruct s as [M]. pose proof (add_forwards_is_Some fs PortForwards.new) as Hsome.
  destruct (add_forwards fs PortForwards.new) as [M']. simpl in *. f_equal. apply map_eq. intros k.
  destruct (M !! k) as [f|] eqn:Hf.
  - destruct (Hs k f Hf) as [Hkf _].
    destruct (Hsome k) as [g Hg]; [right; exists f; split; [apply Hfs; eauto|done]|].
    specialize (Hsub k g Hg). congruence.
  - destruct (M' !! k) as [g|] eqn:Hg; [|done]. specialize (Hsub k g Hg). congruence.
Qed.

(** The list's lookup by id is the map's lookup. *)
Lemma find_persisted m pvs vm :
  mgr_inv m → persisted_all m pvs →
  match List.find (λ pv, bool_decide (vm_id (pv_config pv) = vm)) pvs with
  | Some pv => Some (pv_durable pv)
  | None => None
  end = durable <$> vms m !! vm.
Proof.
  intros Hinv [_ Hst Hev]. destruct (List.find _ pvs) as [pv|] eqn:Hf.
  - apply List.find_some in Hf as [Hin Hid]. apply bool_decide_eq_true in Hid.
    apply list_elem_of_In, Hst in Hin as (vm' & h & Hvm & Hpv).
    rewrite (stored_id m vm' h pv) in Hid by done. subst vm'. rewrite Hvm. simpl.
    by rewrite (sa_durable _ _ _ Hpv).
  - destruct (vms m !! vm) as [h|] eqn:Hvm; [|done]. exfalso.
    destruct (Hev vm h Hvm) as (pv & Hin & Hpv).
    apply list_elem_of_In in Hin. eapply List.find_none in Hin; [|exact Hf].
    apply bool_decide_eq_false in Hin. apply Hin. by eapply stored_id.
Qed.

Lemma elem_of_offsets gw pvs (s : gset Z) o :
  o ∈ foldr (λ pv s, {[Bridge.offset_of_ip gw (pv_ip pv)]} ∪ s) s pvs ↔
  o ∈ s ∨ ∃ pv, pv ∈ pvs ∧ o = Bridge.offset_of_ip gw (pv_ip pv).
Proof.
  induction pvs as [|pv pvs IH]; simpl; [set_solver|].
  rewrite elem_of_union, elem_of_singleton, IH. set_solver.
Qed.
(** What recovery finds again. *)
Record restored m m' : Prop := mk_restored {
  rs_inv : mgr_inv m';
  rs_vms : ∀ vm, durable <$> vms m' !! vm = durable <$> vms m !! vm;
  rs_forwards : port_forwards m' = port_forwards m;
  rs_offsets : ∀ o, o ∈ used_ip_offsets m' ↔
    ∃ vm h, vms m !! vm = Some h ∧ o = Bridge.offset_of_ip (gateway_ip m) (h_ip h);
}.

Lemma recover_vms_spec m m0 pvs w :
  mgr_inv m → restarted m m0 → persisted_all m pvs → (load_all_vms (state_dir m0) w).1 = Ok pvs →
  wp recover_vms (λ r '(m', _), r = Ok tt ∧ restored m m') (m0, w).
Proof.
  intros Hinv Hrst Hall Hload. unfold recover_vms. apply wp_bind, wp_self, wp_bind, wp_on_snd'.
  unfold wp at 1. rewrite Hload.
  apply recover_all_spec; [by eapply restarted_inv| |by eapply persisted_all_apart|].
  { apply Forall_forall. intros pv Hin. destruct (pa_stored _ _ Hall pv Hin) as (vm & h & Hvm & Hpv).
    by eapply persisted_fits. }
  intros m' w' Hinv' Hvms Hu Hpf. pose proof Hrst as [Hv0 Hu0 Hf0 Hg0 _ _].
  split; [done|]. split; [done| | |].
  - intros vm. rewrite Hvms, Hv0, lookup_empty. by rewrite <-(find_persisted m pvs vm Hinv Hall).
  - rewrite Hpf, Hf0. apply add_forwards_restores; [apply Hinv|]. intros f.
    rewrite list_elem_of_bind. split.
    + intros (pv & Hin & Hpv). destruct (pa_stored _ _ Hall pv Hpv) as (vm & h & Hvm & [_ Hfs]).
      apply Hfs, PortForwards.elem_of_list_for_vm in Hin as [_ ?]. done.
    + intros [k Hk]. destruct (inv_owned m Hinv k f Hk) as [h Hvm].
      destruct (pa_every _ _ Hall _ h Hvm) as (pv & Hin & [_ Hfs]). exists pv. split; [|done].
      apply Hfs, PortForwards.elem_of_list_for_vm. split; [|by exists k].
      by rewrite (ho_id _ _ _ (inv_handles m Hinv _ h Hvm)).
  - intros o. rewrite Hu, Hu0, Hg0, elem_of_offsets. split.
    + intros [Ho|(pv & Hin & ->)]; [set_solver|].
      destruct (pa_stored _ _ Hall pv Hin) as (vm & h & Hvm & [[= _ -> _ _ _ _] _]). eauto.
    + intros (vm & h & Hvm & ->). right. destruct (pa_every _ _ Hall vm h Hvm) as (pv & Hin & Hpv).
      exists pv. split; [done|]. by destruct Hpv as [[= _ -> _ _ _ _] _].
Qed.
End recover.

(** A restart loses nothing that was persisted. When the state directory holds the
    VMs of a manager that satisfies its invariant, in any order and each with its
    forwards in any order, [recover_vms] on a manager that has just started succeeds,
    records the same VMs with the same configuration, addresses and placement, registers
    the same forwards, reserves exactly the offsets of the recorded VMs, and
    re-establishes the invariant; whatever the host does, and whichever VMs still run. *)
Theorem restart_restores {Net W} `{IpNet Net} `{Host W} `{SerdeJson}
    (m m0 : VmManager Net W) pvs (w : W) :
  mgr_inv m → restarted m m0 → persisted_all m pvs → (load_all_vms (state_dir m0) w).1 = Ok pvs →
  wp recover_vms (λ r '(m', _),
    r = Ok tt ∧ mgr_inv m' ∧
    (∀ vm, durable <$> vms m' !! vm = durable <$> vms m !! vm) ∧
    port_forwards m' = port_forwards m ∧
    ∀ o, o ∈ used_ip_offsets m' ↔
      ∃ vm h, vms m !! vm = Some h ∧ o = Bridge.offset_of_ip (gateway_ip m) (h_ip h)) (m0, w).
Proof.
  intros Hinv Hrst Hall Hload. eapply wp_mono; [by eapply recover_vms_spec|].
  intros r [m' w'] [-> []]. by split_and!.
Qed.

(** What [save_vm] stores for a recorded VM, with the forwards of the moment. *)
Definition persisted_of (m : VmManager sim_net sim) (h : VmHandle sim_net) : PersistedVm sim_net :=
  mk_persisted (h_config h) (h_ip h) (h_ipv6 h) (h_tap_name h) (Bridge.mac_for_vm_ip (h_ip h))
    (PortForwards.list_for_vm (vm_id (h_config h)) (port_forwards m)) (h_created_at_epoch h)
    (h_numa_node h).

Lemma persisted_all_of m :
  mgr_inv m → persisted_all m (persisted_of m <$> (map_to_list (vms m)).*2).
Proof.
  intros Hinv. split.
  - rewrite <-!list_fmap_compose.
    rewrite (Forall_fmap_ext_1 _ fst); [apply NoDup_fst_map_to_list|].
    apply Forall_forall. intros [vm h] Hin. apply elem_of_map_to_list in Hin. simpl.
    by apply (ho_id _ _ _ (inv_handles m Hinv vm h Hin)).
  - intros pv (h & -> & ([vm h'] & -> & Hin)%list_elem_of_fmap)%list_elem_of_fmap.
    apply elem_of_map_to_list in Hin. exists vm, h'. by split.
  - intros vm h Hvm. exists (persisted_of m h). split; [|by split].
    apply list_elem_of_fmap. exists h. split; [done|]. apply list_elem_of_fmap. exists (vm, h).
    split; [done|]. by apply elem_of_map_to_list.
Qed.

(** One VM with a forward; its state file; a restart on a host without its unit. *)
Definition demo_state : sim :=
  mk_sim (list_to_map ((λ pv, (state_path "/state" (vm_id (pv_config pv)),
            json_print_pretty (persisted_json pv))) <$>
            (persisted_of demo_forwarded <$> (map_to_list (vms demo_forwarded)).*2)))
    [] [mk_output false "" ""] [] 0 [].
Lemma restart_restores_witness :
  port_forwards (recover_vms (demo_manager, demo_state)).2.1 = port_forwards demo_forwarded ∧
  length (list_port_forwards (Some "a"%string) demo_forwarded) = 1%nat.
Proof.
  split; [|by vm_compute].
  assert (mgr_inv demo_forwarded) as Hinv.
  { apply (steps_inv demo_manager); [|apply new_inv, Numa.demo_topology_wf].
    eapply rtc_l; [apply (step_of (ReqCreate (demo_request "a") None None) _ demo_host), demo_request_wf|].
    apply rtc_once, (step_of (ReqAddForward "a" 8080 80 Tcp) demo_created demo_forward_host).
    unfold request_wf, u16_max. lia. }
  assert (restarted demo_forwarded demo_manager) as Hrst.
  { split; [done..|by vm_compute|by vm_compute|apply Numa.new_wf, Numa.demo_topology_wf]. }
  assert ((load_all_vms (state_dir demo_manager) demo_state).1 =
    Ok (persisted_of demo_forwarded <$> (map_to_list (vms demo_forwarded)).*2)) as Hload by by vm_compute.
  pose proof (persisted_all_of demo_forwarded Hinv) as Hall.
  pose proof (restart_restores demo_forwarded demo_manager _ demo_state Hinv Hrst Hall Hload) as Hwp.
  unfold wp in Hwp. destruct (recover_vms (demo_manager, demo_state)) as [r [m' w']].
  destruct Hwp as (_ & _ & _ & Hpf & _). exact Hpf.
Defined.

(** A VM recovered as stopped is not charged to its NUMA node, but deleting it still
    releases its share. Here [a] is recovered stopped, [b] is created on the same node,
    and deleting [a] erases the charge of [b]: a node that runs a VM with two CPUs
    counts none as used. *)
Theorem delete_of_stopped_undercounts :
  let m1 := (recover_vms (demo_manager, demo_state)).2.1 in
  let m2 := (create_vm (demo_request "b") None None (m1, demo_host)).2.1 in
  let m3 := (delete_vm "a" (m2, empty_sim)).2.1 in
  h_state <$> vms m1 !! "a"%string = Some Stopped ∧
  Numa.s_vcpus <$> Numa.slot_at (numa m2) 0 = Some 2 ∧
  Numa.s_vcpus (Numa.load (leases m3) 0) = 2 ∧
  Numa.s_vcpus <$> Numa.slot_at (numa m3) 0 = Some 0.
Proof. split_and!; by vm_compute. Qed.
