(* ===== verification/ManagerDurable.v ===== *)
(** * The VM manager: a node across restarts

    What the manager keeps in its state directory while it serves requests, and that a
    restart finds it again: the state files track the recorded VMs through every request
    that is not answered with an error half-way, so that requests and restarts in any
    order are one history. *)

From S2P Require Import Prelude Strs Host HostSim Json Types NetTypes Instances Tee Verity Qemu.
From S2P Require Import Persistence StateDir Manager ManagerFrame ManagerSpec ManagerOps ManagerInv.
From S2P Require Import ManagerSafety ManagerProps ManagerRecover.
From S2P Require Bridge PortForwards Ipv6 Nft NdpProxy Numa.
#[local] Open Scope Z_scope.

(** ** Operations that leave the state files alone *)

Section quiet.
Context {Net W : Type} (d : string) `{!IpNet Net, !Host W, !HostFs W, !StateDir W d, !SerdeJson}.
Implicit Types m : VmManager Net W.
Context (hd : option string) (gw : Ipv4Addr) (pool : option Net).

(** What the command line gives and no operation changes: the directories of the state
    files and of the DHCP reservations, the gateway, and the pool of IPv6 addresses. *)
Definition settings m :=
  (state_dir m, dhcp_hostsdir m, gateway_ip m,
   (λ a, (Ipv6.pool a, Ipv6.default_prefix a)) <$> ipv6_allocator m).
Definition here m : Prop := settings m = (d, hd, gw, (λ p, (p, 128)) <$> pool).
Definition quiet_op {A} (c : Op (Net := Net) (W := W) A) : Prop := ∀ m w,
  here m → here (c (m, w)).2.1 ∧ undisturbed d w (c (m, w)).2.2.

Lemma qop_ret {A} (a : A) : quiet_op (mret a).
Proof. intros m w Hm. by split; [|apply undisturbed_refl]. Qed.
Lemma qop_throw {A} e : quiet_op (throw e : Op (Net := Net) (W := W) A).
Proof. intros m w Hm. by split; [|apply undisturbed_refl]. Qed.
Lemma qop_lift {A} (r : result error A) : quiet_op (lift r).
Proof. intros m w Hm. by split; [|apply undisturbed_refl]. Qed.
Lemma qop_update f : (∀ m, settings (f m) = settings m) → quiet_op (update f).
Proof. intros Hf m w Hm. split; [unfold here; simpl; by rewrite Hf|apply undisturbed_refl]. Qed.
Lemma qop_bind {A B} (c : Op (Net := Net) (W := W) A) (f : A → Op (Net := Net) (W := W) B) :
  quiet_op c → (∀ a, quiet_op (f a)) → quiet_op (c ≫= f).
Proof.
  intros Hc Hf m w Hm. unfold mbind, M_bind. specialize (Hc m w Hm).
  destruct (c (m, w)) as [[a|e|p] [m' w']]; simpl in *; [|done..]. destruct Hc as [Hm' Hw].
  destruct (Hf a m' w' Hm') as [Hm2 Hw2]. split; [done|]. by etransitivity.
Qed.
Lemma qop_self {B} (f : VmManager Net W → Op (Net := Net) (W := W) B) :
  (∀ m, here m → quiet_op (f m)) → quiet_op (self ≫= f).
Proof. intros Hf m w Hm. by apply Hf. Qed.
Lemma qop_attempt {A} (c : Op (Net := Net) (W := W) A) : quiet_op c → quiet_op (attempt (E' := error) c).
Proof. intros Hc m w Hm. unfold attempt. specialize (Hc m w Hm). by destruct (c (m, w)) as [[a|e|p] [m' w']]. Qed.
Lemma qop_host {A} (c : M W error A) : quiet d c → quiet_op (host c).
Proof. intros Hc m w Hm. unfold host, on_snd. specialize (Hc w). by destruct (c w) as [r w']. Qed.
Lemma qop_ignore {A} (c : M W error A) : quiet d c → quiet_op (ignore c).
Proof. intros. apply qop_bind; [by apply qop_attempt, qop_host|intros; apply qop_ret]. Qed.
(** An allocator that the manager had keeps its pool while it is used. *)
Lemma allocate_pool vm req (a : Ipv6.Ipv6RangeAllocator Net) (w : W) :
  let a' := (Ipv6.allocate vm req (a, w)).2.1 in
  Ipv6.pool a' = Ipv6.pool a ∧ Ipv6.default_prefix a' = Ipv6.default_prefix a.
Proof.
  unfold Ipv6.allocate, mbind, M_bind, on_fst, on_snd. simpl. destruct req as [n|].
  - by destruct (Ipv6.contains a n); simpl; [destruct (Ipv6.overlaps a n)|].
  - by destruct (Ipv6.random_address a w) as [[n|e|p] w'].
Qed.
Lemma qop_allocate m0 a vm req :
  here m0 → ipv6_allocator m0 = Some a → quiet_op (on_ipv6 a (Ipv6.allocate vm req)).
Proof.
  intros Hm0 Ha m w Hm. pose proof (quiet_allocate d vm req a w) as Hq.
  pose proof (allocate_pool vm req a w) as [Hp Hx].
  unfold on_ipv6. destruct (Ipv6.allocate vm req (a, w)) as [r [a' w']]. simpl in *.
  split; [|exact Hq]. injection Hm0 as _ _ _ H6. rewrite Ha in H6. simpl in H6.
  injection Hm as H1 H2 H3 H4. unfold here, settings. simpl. rewrite H1, H2, H3, <-H6, <-Hp, <-Hx.
  destruct (ipv6_allocator m); [done|]. rewrite <-H6 in H4. discriminate H4.
Qed.
Lemma qop_release vm : quiet_op (release_ipv6 vm).
Proof.
  apply qop_update. intros m. unfold settings. simpl. by destruct (ipv6_allocator m).
Qed.
Lemma qop_ndp {A} p (c : M (NdpProxy.NdpProxy Net * W) error A) : quiet_on d c → quiet_op (on_ndp p c).
Proof. intros Hc m w Hm. unfold on_ndp. specialize (Hc p w). by destruct (c (p, w)) as [r [p' w']]. Qed.
Lemma qop_numa {A} (c : M Numa.NumaAllocator error A) : quiet_op (on_numa c).
Proof.
  intros m w Hm. unfold on_numa. destruct (c (numa m)) as [r n]. by split; [|apply undisturbed_refl].
Qed.

Ltac qop_step :=
  lazymatch goal with
  | |- quiet_op (mret _) => apply qop_ret
  | |- quiet_op (throw _) => apply qop_throw
  | |- quiet_op (lift _) => apply qop_lift
  | |- quiet_op (on_numa _) => apply qop_numa
  | |- quiet_op (update _) => by apply qop_update
  | |- quiet_op (release_ipv6 _) => apply qop_release
  | |- quiet_op (self ≫= _) => apply qop_self; intros
  | |- quiet_op (host _) => apply qop_host; by eauto with cvm
  | |- quiet_op (ignore _) => apply qop_ignore; by eauto with cvm
  | |- quiet_op (attempt _) => apply qop_attempt
  | |- quiet_op (_ ≫= _) => apply qop_bind; [|intros]
  | Ha : ipv6_allocator ?m = Some ?a, Hm : here ?m |- quiet_op (on_ipv6 ?a _) =>
      apply (qop_allocate m a); [exact Hm|exact Ha]
  | |- quiet_op (on_ndp _ _) => apply qop_ndp; by eauto using quiet_add_range, quiet_delete_range
  | |- quiet_op (match _ with _ => _ end) => case_match
  | |- quiet_op _ => solve [eauto]
  end.
Ltac qop_tac := repeat qop_step.

(** The reservation of a VM is not a state file. *)
Definition dhcp_clear (vm : string) : Prop := ∀ h, hd = Some h → ¬ state_file d (Bridge.dhcp_path h vm).

Lemma qop_offset : quiet_op allocate_offset.
Proof. unfold allocate_offset. qop_tac. Qed.
Lemma qop_allocate_ipv6 vm req : quiet_op (allocate_ipv6 vm req).
Proof. unfold allocate_ipv6. qop_tac. Qed.
Lemma qop_reserve vm hp vp p : quiet_op (reserve_port vm hp vp p).
Proof. unfold reserve_port. qop_tac. Qed.
Lemma qop_place c hint : quiet_op (place c hint).
Proof. unfold place. qop_tac. Qed.
Lemma qop_reservations vm mac ip o : dhcp_clear vm → quiet_op (write_reservations vm mac ip o).
Proof.
  intros Hvm. unfold write_reservations. apply qop_self. intros m Hm.
  injection Hm as _ Hm _ _. destruct (dhcp_hostsdir m) as [h|]; [|qop_tac]. pose proof (Hvm h (eq_sym Hm)) as F4.
  apply qop_bind; [apply qop_host; apply quiet_with_context; eauto with cvm|intros]. qop_tac.
Qed.
Lemma qop_cleanup vm b : dhcp_clear vm → quiet_op (cleanup_reservations vm b).
Proof.
  intros Hvm. unfold cleanup_reservations. apply qop_self. intros m Hm.
  apply qop_bind; [|intros; qop_tac].
  injection Hm as _ Hm _ _. destruct (dhcp_hostsdir m) as [h|]; [|qop_tac]. pose proof (Hvm h (eq_sym Hm)) as F4. qop_tac.
Qed.
Lemma qop_network vm tap o : dhcp_clear vm → quiet_op (setup_network vm tap o).
Proof.
  intros Hvm. pose proof (λ b, qop_cleanup vm b Hvm). unfold setup_network. qop_tac.
Qed.
Lemma qop_launch vm tap mac o b c p cl : dhcp_clear vm → quiet_op (launch vm tap mac o b c p cl).
Proof.
  intros Hvm. pose proof (λ b, qop_cleanup vm b Hvm). unfold launch. qop_tac.
Qed.
Lemma qop_nft_forwards fs : quiet_op (remove_nft_forwards fs).
Proof. induction fs; simpl; qop_tac. Qed.
Lemma qop_delete_forwards vm : quiet_op (delete_forwards vm).
Proof.
  unfold delete_forwards. apply qop_self. intros m _. destruct (PortForwards.remove_all_for_vm _ _) as [fs pf].
  apply qop_bind; [qop_tac|intros; apply qop_nft_forwards].
Qed.
Lemma qop_delete_addresses vm h : quiet_op (delete_addresses vm h).
Proof. unfold delete_addresses. qop_tac. Qed.
Lemma qop_delete_devices vm h : dhcp_clear (vm_id (h_config h)) → quiet_op (delete_devices vm h).
Proof.
  intros Hvm. unfold delete_devices. apply qop_self. intros m Hm.
  do 2 (apply qop_bind; [qop_tac|intros _]).
  injection Hm as _ Hm _ _. destruct (dhcp_hostsdir m) as [h'|]; [|qop_tac]. pose proof (Hvm h' (eq_sym Hm)) as F4. qop_tac.
Qed.

Lemma quiet_prepare_boot c : quiet d (prepare_boot c).
Proof. unfold prepare_boot. quiet_tac. Qed.

(** ** What creating a VM writes *)

Definition file_text (pv : PersistedVm Net) : string := json_print_pretty (persisted_json pv).
Definition saved (vm : string) (pv : PersistedVm Net) (w : W) : Prop :=
  host_files w !! state_path d vm = Some (file_text pv).

Lemma persist_files h vm tap mac ip o c p m w :
  here m → fit d h w → id_ok vm →
  wp (persist_vm vm tap mac ip o c p) (λ r '(m', w'),
    ∃ now, r = Ok now ∧ 0 ≤ now ≤ u64_max ∧ fit d h w' ∧ same_but d vm w w' ∧ m' = m ∧
      rewritten d h vm (file_text (mk_persisted c ip o tap mac [] now (Some (Numa.node p)))) w w') (m, w).
Proof.
  intros Hm Hw Hvm. injection Hm as Hd _ _ _. unfold persist_vm.
  apply wp_bind, wp_self, wp_bind, wp_on_snd', wp_observe.
  pose proof (sd_now (d := d) h w Hw) as Hnow. rewrite Hd.
  apply wp_bind, wp_bind, wp_attempt, wp_on_snd', (save_vm_spec d h); [done..|].
  intros [u|e|q] w' Hw' Hbut Hfile Hq; [| |by destruct (Hq q)]; apply wp_ret, wp_ret; by exists (host_now w).
Qed.

Lemma record_files h vm tap mac ip o c p process m w :
  here m → fit d h w → id_ok vm →
  wp (record_vm vm tap mac ip o c p process) (λ r '(m', w'),
    ∃ i now, r = Ok i ∧ 0 ≤ now ≤ u64_max ∧ fit d h w' ∧ same_but d vm w w' ∧ here m' ∧
      vms m' !! vm = Some (mk_handle c Running ip o (Some process) tap now (Some (Numa.node p))) ∧
      rewritten d h vm (file_text (mk_persisted c ip o tap mac [] now (Some (Numa.node p)))) w w') (m, w).
Proof.
  intros Hm Hw Hvm. apply wp_bind. eapply wp_mono; [by apply (persist_files h)|].
  intros r [m' w'] (now & -> & Hnow & Hw' & Hbut & -> & Hfile).
  unfold insert_vm, from_handle. apply wp_bind, wp_on_snd', wp_bind, wp_observe, wp_ret, wp_bind, wp_update, wp_ret.
  eexists _, now. refine (conj eq_refl (conj Hnow (conj Hw' (conj Hbut (conj Hm (conj _ Hfile)))))).
  simpl. apply lookup_insert_eq.
Qed.

(** After a call: [Q] on success, else the settings and the state files are as before. *)
Definition outcome {A} (w0 : W) (Q : A → VmManager Net W * W → Prop) (r : result error A) mw : Prop :=
  match r with Ok a => Q a mw | _ => here mw.1 ∧ undisturbed d w0 mw.2 end.

Lemma quiet_then {A B} w0 (c : Op (Net := Net) (W := W) A) (f : A → Op (Net := Net) (W := W) B) Q m w :
  quiet_op c → here m → undisturbed d w0 w →
  (∀ a m' w', here m' → undisturbed d w0 w' → wp (f a) (outcome w0 Q) (m', w')) →
  wp (c ≫= f) (outcome w0 Q) (m, w).
Proof.
  intros Hc Hm Hw Hf. apply wp_bind. destruct (Hc m w Hm) as [Hm' Hw']. unfold wp at 1.
  destruct (c (m, w)) as [[a|e|p] [m' w']]; simpl in *; [apply Hf; [done|]|split; [done|]..]; by etransitivity.
Qed.

Lemma undisturbed_but h vm w0 w w' : undisturbed d w0 w → fit d h w0 → same_but d vm w w' → same_but d vm w0 w'.
Proof.
  intros Hu Hw Hbut name Hn Hne. destruct (Hu h Hw) as [_ Hsame]. rewrite Hbut by done. apply Hsame. by exists name.
Qed.
Lemma undisturbed_file h vm w0 w :
  undisturbed d w0 w → fit d h w0 → id_ok vm → host_files w !! state_path d vm = host_files w0 !! state_path d vm.
Proof. intros Hu Hw Hvm. destruct (Hu h Hw) as [_ Hsame]. by apply Hsame, state_path_file. Qed.
Lemma undisturbed_rewritten h vm s w0 w w' : undisturbed d w0 w → fit d h w0 → id_ok vm →
  rewritten d h vm s w w' → rewritten d h vm s w0 w'.
Proof.
  intros Hu Hw Hvm [Hf|[Hh Hf]]; [by left|right]. by rewrite Hf, (undisturbed_file h vm w0 w).
Qed.
Lemma undisturbed_erased h vm w0 w w' : undisturbed d w0 w → fit d h w0 → id_ok vm →
  erased d h vm w w' → erased d h vm w0 w'.
Proof.
  intros Hu Hw Hvm [Hf|[Hh Hf]]; [by left|right]. by rewrite Hf, (undisturbed_file h vm w0 w).
Qed.

Lemma create_files h c v6 hint m w :
  here m → fit d h w → id_ok (vm_id c) → dhcp_clear (vm_id c) →
  wp (create_vm c v6 hint) (outcome w (λ _ '(m', w'), here m' ∧ ∃ hl pv,
    vms m' !! vm_id c = Some hl ∧ rewritten d h (vm_id c) (file_text pv) w w' ∧ pv_durable pv = durable hl ∧
    pv_port_forwards pv = [] ∧ 0 ≤ pv_created_at_epoch pv ≤ u64_max ∧
    fit d h w' ∧ same_but d (vm_id c) w w')) (m, w).
Proof.
  intros Hm Hw Hvm Hdhcp. unfold create_vm. apply wp_bind, wp_self.
  apply (quiet_then w); [qop_tac|done|apply undisturbed_refl|]. intros _ m1 w1 Hm1 F1.
  apply (quiet_then w); [apply qop_offset|done..|]. intros o m2 w2 Hm2 F2. cbv zeta.
  apply (quiet_then w); [apply qop_allocate_ipv6|done..|]. intros o6 m3 w3 Hm3 F3.
  apply (quiet_then w); [by apply qop_reservations|done..|]. intros _ m4 w4 Hm4 F4.
  apply (quiet_then w); [by apply qop_network|done..|]. intros _ m5 w5 Hm5 F5.
  apply (quiet_then w); [apply qop_lift|done..|]. intros b m6 w6 Hm6 F6.
  apply (quiet_then w); [apply qop_host, quiet_prepare_boot|done..|]. intros [c' cl] m7 w7 Hm7 F7.
  apply (quiet_then w); [apply qop_place|done..|]. intros [c2 p] m8 w8 Hm8 F8.
  apply (quiet_then w); [by apply qop_launch|done..|]. intros process m9 w9 Hm9 F9.
  destruct (F9 h Hw) as [Hw9 Hsame]. eapply wp_mono; [by apply (record_files h)|].
  intros r [m' w'] (i & now & -> & Hnow & Hw' & Hbut & Hm' & Hh & Hfile). simpl.
  split; [exact Hm'|]. eexists _, _. split; [exact Hh|]. split; [by eapply undisturbed_rewritten|].
  split_and!; [done|done|apply Hnow|apply Hnow|done|]. by eapply undisturbed_but.
Qed.

(** ** What the other operations do to the files *)

Lemma delete_files h vm hl m w :
  here m → fit d h w → id_ok vm → dhcp_clear (vm_id (h_config hl)) → vms m !! vm = Some hl →
  is_Some (host_files w !! state_path d vm) →
  wp (Manager.delete_vm vm) (outcome w (λ _ '(m', w'), here m' ∧ fit d h w' ∧ same_but d vm w w' ∧
    erased d h vm w w')) (m, w).
Proof.
  intros Hm Hw Hvm Hdhcp Hh Hfile.
  unfold Manager.delete_vm. apply wp_bind, wp_self, wp_bind, wp_lift.
  rewrite Hh. cbn [ok_or]. apply (quiet_then w); [qop_tac|done|apply undisturbed_refl|]. intros _ m1 w1 Hm1 F1.
  apply (quiet_then w); [|done..|].
  { destruct (h_process hl); [apply qop_ignore, quiet_stop|apply qop_ret]. }
  intros _ m2 w2 Hm2 F2. apply (quiet_then w); [qop_tac|done..|]. intros _ m3 w3 Hm3 F3.
  apply (quiet_then w); [apply qop_delete_forwards|done..|]. intros _ m4 w4 Hm4 F4.
  apply (quiet_then w); [apply qop_delete_addresses|done..|]. intros _ m5 w5 Hm5 F5.
  apply (quiet_then w); [by apply qop_delete_devices|done..|]. intros _ m6 w6 Hm6 F6.
  apply (quiet_then w); [qop_tac|done..|]. intros _ m7 w7 Hm7 F7.
  destruct (F7 h Hw) as [Hw7 _]. injection Hm as -> _ _ _.
  apply wp_bind, wp_attempt, wp_on_snd', (delete_file_spec d h);
    [done|done|by rewrite (undisturbed_file h vm w w7)|].
  intros [u|e|q] w8 Hw8 Hbut Her Hq; [| |by destruct (Hq q)]; apply wp_ret; simpl; split_and!; try done;
    first [by eapply undisturbed_but|by eapply undisturbed_erased].
Qed.

(** The state file with the forwards of the moment. *)
Definition relisted (vm : string) m (pv : PersistedVm Net) : PersistedVm Net :=
  mk_persisted (pv_config pv) (pv_ip pv) (pv_ipv6 pv) (pv_tap_name pv) (pv_mac_addr pv)
    (PortForwards.list_for_vm vm (port_forwards m)) (pv_created_at_epoch pv) (pv_numa_node pv).

Lemma update_files h vm m w s pv (Q : result error unit → VmManager Net W * W → Prop) :
  here m → fit d h w → id_ok vm → host_files w !! state_path d vm = Some s → parse_persisted s = Some pv →
  (∀ w', fit d h w' → same_but d vm w w' → rewritten d h vm (file_text (relisted vm m pv)) w w' → Q (Ok tt) (m, w')) →
  wp (update_persisted_port_forwards vm) Q (m, w).
Proof.
  intros Hm Hw Hvm Hs Hpv HQ. injection Hm as Hd _ _ _. unfold update_persisted_port_forwards.
  apply wp_bind, wp_self, wp_bind, wp_attempt, wp_on_snd'. rewrite Hd.
  pose proof (still_read d (state_path d vm) w h Hw) as [Hw1 F1].
  pose proof (λ H, sd_read_ok (file_of vm) s w H (proj1 (file_of_name vm Hvm)) Hs) as Hread.
  change (path_join d (file_of vm)) with (state_path d vm) in Hread.
  apply wp_io; intros x w1 Hr; rewrite Hr in Hw1, F1, Hread; simpl in *.
  - pose proof (files_read_ok (state_path d vm) w x) as Ho. rewrite Hr in Ho. specialize (Ho eq_refl).
    rewrite Hs in Ho. injection Ho as <-. rewrite Hpv. apply wp_bind, wp_attempt, wp_on_snd', (save_vm_spec d h); [done..|].
    intros r w2 Hw2 Hbut Hfile Hq. assert (Q (Ok tt) (m, w2)) as HQ2.
    { apply HQ; [done| |].
      - intros name Hn Hne. rewrite Hbut by done. apply F1. by exists name.
      - destruct Hfile as [Hf|[Hh Hf]]; [by left|right]. split; [done|]. rewrite Hf. by apply F1, state_path_file. }
    destruct r as [u|e|q]; [by apply wp_ret..|by destruct (Hq q)].
  - apply wp_ret, HQ; [done|intros name Hn _; apply F1; by exists name|]. right.
    destruct h; [by specialize (Hread Hw)|]. split; [done|]. by apply F1, state_path_file.
Qed.

Lemma add_files h vm hp vp p m w s pv :
  here m → fit d h w → id_ok vm → host_files w !! state_path d vm = Some s → parse_persisted s = Some pv →
  wp (add_port_forward vm hp vp p) (outcome w (λ _ '(m', w'), fit d h w' ∧ same_but d vm w w' ∧
    rewritten d h vm (file_text (relisted vm m' pv)) w w')) (m, w).
Proof.
  intros Hm Hw Hvm Hs Hpv. unfold add_port_forward. apply wp_bind, wp_self, wp_bind, wp_lift.
  destruct (vms m !! vm) as [hd'|]; [|by split; [|apply undisturbed_refl]]. cbn [ok_or].
  apply (quiet_then w); [apply qop_reserve|done|apply undisturbed_refl|]. intros f m1 w1 Hm1 F1.
  apply (quiet_then w); [apply qop_attempt, qop_host, quiet_add_forward|done..|]. intros r m2 w2 Hm2 F2.
  apply (quiet_then w); [destruct r; qop_tac|done..|]. intros _ m3 w3 Hm3 F3. destruct (F3 h Hw) as [Hw3 _].
  apply wp_bind. apply (update_files h vm m3 w3 s pv); [done..|by rewrite (undisturbed_file h vm w w3)|done|].
  intros w4 Hw4 Hbut Hfile. apply wp_ret. simpl.
  split_and!; [done|by eapply undisturbed_but|by eapply undisturbed_rewritten].
Qed.

Lemma remove_files h hp p f m w s pv :
  here m → fit d h w → PortForwards.forwards (port_forwards m) !! (hp, p) = Some f → id_ok (f_vm_id f) →
  host_files w !! state_path d (f_vm_id f) = Some s → parse_persisted s = Some pv →
  wp (remove_port_forward hp p) (outcome w (λ _ '(m', w'), fit d h w' ∧ same_but d (f_vm_id f) w w' ∧
    rewritten d h (f_vm_id f) (file_text (relisted (f_vm_id f) m' pv)) w w')) (m, w).
Proof.
  intros Hm Hw Hf Hvm Hs Hpv. unfold remove_port_forward. apply wp_bind, wp_self. cbn [PortForwards.remove].
  apply (quiet_then w); [qop_tac|done|apply undisturbed_refl|]. intros _ m1 w1 Hm1 F1.
  apply wp_bind, wp_lift. rewrite Hf. cbn [ok_or].
  apply (quiet_then w); [apply qop_host, quiet_remove_forward|done..|]. intros _ m2 w2 Hm2 F2.
  destruct (F2 h Hw) as [Hw2 _].
  apply (update_files h (f_vm_id f) m2 w2 s pv); [done..|by rewrite (undisturbed_file h (f_vm_id f) w w2)|done|].
  intros w4 Hw4 Hbut Hfile. simpl. split_and!; [done|by eapply undisturbed_but|by eapply undisturbed_rewritten].
Qed.

Lemma quiet_result {A} (c : Op (Net := Net) (W := W) A) m w :
  quiet_op c → here m → wp c (λ _ '(m', w'), here m' ∧ undisturbed d w w') (m, w).
Proof. intros Hc Hm. specialize (Hc m w Hm). unfold wp. by destruct (c (m, w)) as [r [m' w']]. Qed.

Lemma wp_both {S E A} (c : M S E A) (Q Q' : result E A → S → Prop) s :
  wp c Q s → wp c Q' s → wp c (λ r s', Q r s' ∧ Q' r s') s.
Proof. by split. Qed.

(** ** The state files track the manager *)

Definition vm_ok (vm : string) : Prop := id_ok vm ∧ dhcp_clear vm.

(** The state files are those of the recorded VMs, each up to date. *)
Record tracked m w : Prop := mk_tracked {
  tr_here : here m;
  tr_names : ∀ name, state_name name → is_Some (host_files w !! path_join d name) →
    ∃ vm, name = file_of vm ∧ is_Some (vms m !! vm);
  tr_vms : ∀ vm h, vms m !! vm = Some h → vm_ok vm ∧ ∃ s pv,
    host_files w !! state_path d vm = Some s ∧ parse_persisted s = Some pv ∧
    persisted_wf pv ∧ stored_as m h pv;
}.

(** [m'] has the forwards that [m] has for [vm]. *)
Definition same_forwards (vm : string) m m' : Prop := ∀ f,
  f ∈ PortForwards.list_for_vm vm (port_forwards m') ↔ f ∈ PortForwards.list_for_vm vm (port_forwards m).

Lemma stored_as_same m m' h pv :
  same_forwards (vm_id (h_config h)) m m' → stored_as m h pv → stored_as m' h pv.
Proof. intros Hf [Hd Hfs]. split; [done|]. intros f. rewrite Hfs. symmetry. apply Hf. Qed.

Lemma tracked_same m m' w w' :
  here m' → vms m' = vms m → (∀ vm, same_forwards vm m m') → same_files d w w' → tracked m w → tracked m' w'.
Proof.
  intros Hm' Ev Hf Hsame [Hm Hn Hv]. split; [done| |].
  - intros name Hname Hfile. rewrite Ev. apply Hn; [done|]. rewrite <-Hsame; [done|by exists name].
  - intros vm h Hvm. rewrite Ev in Hvm. destruct (Hv vm h Hvm) as ([Hid Hd] & s & pv & Hs & Hpv & Hwf & Hst).
    split; [done|]. exists s, pv. rewrite Hsame by by apply state_path_file.
    split_and!; [done..|]. by eapply stored_as_same.
Qed.
Lemma tracked_files m w w' : same_files d w w' → tracked m w → tracked m w'.
Proof. intros Hs Htr. eapply tracked_same; [apply Htr|done|by intros vm f|done|done]. Qed.
Lemma tracked_quiet h m w w' : undisturbed d w w' → fit d h w → tracked m w → tracked m w'.
Proof. intros Hu Hw. apply tracked_files. by apply (Hu h Hw). Qed.

(** Files that are as before, that of [vm] included. *)
Lemma same_but_same vm w w' :
  same_but d vm w w' → host_files w' !! state_path d vm = host_files w !! state_path d vm → same_files d w w'.
Proof.
  intros Hbut Hf p (name & Hname & ->). destruct (decide (name = file_of vm)) as [->|Hne]; [exact Hf|by apply Hbut].
Qed.

(** What a request leaves behind, when the files tracked [m] before: they track the manager
    of before or that of after, and on a machine that works that of after, once [P]. *)
Definition committed (h : health) (P : Prop) m : VmManager Net W * W → Prop := λ '(m', w'),
  fit d h w' ∧ (tracked m w' ∨ tracked m' w') ∧ (h = Working → P → tracked m' w').

Lemma committed_new h P m m' w' : fit d h w' → tracked m' w' → committed h P m (m', w').
Proof. intros Hw Htr. split_and!; auto. Qed.
Lemma committed_old h P m m' w' : fit d h w' → h = Faulty → tracked m w' → committed h P m (m', w').
Proof. intros Hw -> Htr. split_and!; auto. done. Qed.

(** One file is written: that of a VM that is new or whose forwards have changed. *)
Lemma tracked_saved m m' vm h pv w w' :
  here m' → vms m' = <[vm := h]> (vms m) → (∀ vm', vm' ≠ vm → same_forwards vm' m m') →
  map_Forall (λ vm h, vm_id (h_config h) = vm) (vms m) →
  same_but d vm w w' → saved vm pv w' → vm_ok vm → persisted_wf pv → stored_as m' h pv →
  tracked m w → tracked m' w'.
Proof.
  intros Hm' Ev Hf Hids Hbut Hsaved Hok Hwf Hst [Hm Hn Hv]. split; [done| |].
  - intros name Hname Hfile. destruct (decide (name = file_of vm)) as [->|Hne].
    + exists vm. by rewrite Ev, lookup_insert_eq.
    + rewrite Hbut in Hfile by done. destruct (Hn name Hname Hfile) as (vm' & -> & Hvm'). exists vm'.
      rewrite Ev, lookup_insert_is_Some. split; [done|]. by right; split; [congruence|].
  - intros vm' h'. rewrite Ev. intros [[<- <-]|[Hne Hvm']]%lookup_insert_Some.
    + split; [done|]. exists (file_text pv), pv.
      split_and!; [done|by apply parse_persisted_print|done|done].
    + destruct (Hv vm' h' Hvm') as ([Hid Hd] & s & pv' & Hs & Hpv' & Hwf' & Hst').
      split; [done|]. exists s, pv'. split_and!; [|done|done|].
      * change (host_files w' !! path_join d (file_of vm') = Some s). rewrite Hbut; [done|by apply file_of_name|].
        intros Heq. apply Hne. symmetry. by apply file_of_inj.
      * eapply stored_as_same; [|done]. rewrite (Hids vm' h' Hvm'). by apply Hf.
Qed.

(** One file is removed, with its VM. *)
Lemma tracked_removed m m' vm w w' :
  here m' → vms m' = delete vm (vms m) → (∀ vm', vm' ≠ vm → same_forwards vm' m m') →
  map_Forall (λ vm h, vm_id (h_config h) = vm) (vms m) →
  same_but d vm w w' → host_files w' !! state_path d vm = None →
  tracked m w → tracked m' w'.
Proof.
  intros Hm' Ev Hf Hids Hbut Hgone [Hm Hn Hv]. split; [done| |].
  - intros name Hname Hfile. destruct (decide (name = file_of vm)) as [->|Hne].
    + change (path_join d (file_of vm)) with (state_path d vm) in Hfile. rewrite Hgone in Hfile. by destruct Hfile.
    + rewrite Hbut in Hfile by done. destruct (Hn name Hname Hfile) as (vm' & -> & Hvm'). exists vm'.
      split; [done|]. rewrite Ev, lookup_delete_ne; [done|congruence].
  - intros vm' h'. rewrite Ev. intros [Hne Hvm']%lookup_delete_Some.
    destruct (Hv vm' h' Hvm') as ([Hid Hd] & s & pv' & Hs & Hpv' & Hwf' & Hst').
    split; [done|]. exists s, pv'. split_and!; [|done|done|].
    + change (host_files w' !! path_join d (file_of vm') = Some s). rewrite Hbut; [done|by apply file_of_name|].
      intros Heq. apply Hne. symmetry. by apply file_of_inj.
    + eapply stored_as_same; [|done]. rewrite (Hids vm' h' Hvm'). by apply Hf.
Qed.

(** *** Loading *)

Lemma tracked_ids names m w :
  mgr_inv m → tracked m w → NoDup names → (∀ name, name ∈ names → lacks "/"%char name) →
  NoDup ((λ pv, vm_id (pv_config pv)) <$> listed d names (host_files w)).
Proof.
  intros Hinv [Hm Hn Hv] Hnd Hl.
  assert (∀ name pv, lacks "/"%char name →
    (if bool_decide (extension name = Some "json"%string)
     then host_files w !! path_join d name ≫= parse_persisted else None) = Some pv →
    name = file_of (vm_id (pv_config pv))) as Hname.
  { intros name pv Hs. case_bool_decide as Hext; [|done]. intros (s & Hs' & Hpv)%bind_Some.
    destruct (Hn name) as (vm & -> & [h Hvm]); [done|by eexists|].
    destruct (Hv vm h Hvm) as (_ & s2 & pv2 & Hs2 & Hpv2 & _ & Hst).
    change (host_files w !! state_path d vm = Some s) in Hs'. simplify_eq.
    by rewrite (stored_id m vm h pv). }
  unfold listed. induction Hnd as [|name names Hnot Hnd IH]; [constructor|].
  cbn [omap list_omap]. specialize (IH (λ n Hin, Hl n (list_elem_of_further _ _ _ Hin))).
  destruct (if bool_decide _ then _ else _) as [pv|] eqn:Hpv; [|exact IH].
  constructor; [|exact IH]. intros (pv' & Heq & (name' & Hin & Hpv')%list_elem_of_omap)%list_elem_of_fmap.
  apply Hname in Hpv; [|apply Hl; set_solver]. apply Hname in Hpv'; [|apply Hl; set_solver].
  apply Hnot. congruence.
Qed.

Lemma tracked_load m w :
  mgr_inv m → usable d w → tracked m w → ∃ pvs, (load_all_vms d w).1 = Ok pvs ∧ persisted_all m pvs.
Proof.
  intros Hinv Hu Htr. pose proof Htr as [Hm Hn Hv].
  destruct (load_all_vms_spec (Net := Net) d w Hu) as (names & Hload & Hnd & Hnames).
  exists (listed d names (host_files w)). split; [done|]. split.
  - eapply tracked_ids; [done..|]. intros name Hin. by apply Hnames.
  - intros pv (name & Hin & Hpv)%list_elem_of_omap. case_bool_decide as Hext; [|done].
    apply bind_Some in Hpv as (s & Hs & Hpv). apply Hnames in Hin as [Hl _].
    destruct (Hn name) as (vm & -> & [h Hvm]); [done|by eexists|].
    destruct (Hv vm h Hvm) as (_ & s2 & pv2 & Hs2 & Hpv2 & _ & Hst).
    change (host_files w !! state_path d vm = Some s) in Hs. simplify_eq. by exists vm, h.
  - intros vm h Hvm. destruct (Hv vm h Hvm) as ([Hid _] & s & pv & Hs & Hpv & _ & Hst). exists pv. split; [|done].
    destruct (file_of_name vm Hid) as [Hl Hext]. apply list_elem_of_omap. exists (file_of vm). split.
    + apply Hnames. split; [done|]. by exists s.
    + rewrite bool_decide_eq_true_2 by done. change (host_files w !! state_path d vm ≫= parse_persisted = Some pv).
      by rewrite Hs.
Qed.

(** *** Creating *)

Lemma created_handle c hint m i m' :
  mgr_inv m → config_wf c → created c hint m i m' →
  ∃ h, vms m' = <[vm_id c := h]> (vms m) ∧ vms m !! vm_id c = None ∧ vm_id (h_config h) = vm_id c ∧
    config_wf (h_config h) ∧ ipv4_wf (h_ip h) ∧
    match h_numa_node h with Some n => 0 ≤ n ≤ u32_max | None => True end ∧
    port_forwards m' = port_forwards m.
Proof.
  intros Hinv Hc [o boot cl p n mid v6 process now Hnew Hleast Hplan _ Hreq Hfr _ _ _].
  pose proof Hfr as (Hcore & _ & _). apply core_eq in Hcore as (Ev & _ & _ & _ & _ & _ & _ & _ & _ & Ep & _).
  destruct Hc as (Hvc & Hmc & Hnc).
  pose proof (Numa.allocate_cases (numa m) (vcpus c) (memory_mb c) hint (is_confidential c) (inv_numa m Hinv)
    ltac:(lia) ltac:(lia)) as Hcase. unfold numa_request in Hreq. rewrite Hreq in Hcase.
  destruct Hcase as (idx & k & Hk & _ & (k' & ? & ? & Hk' & _ & _ & Hnode & _) & _). simplify_eq.
  assert (0 ≤ Numa.node p ≤ u32_max) as Hbound.
  { rewrite Hnode. destruct (inv_numa m Hinv) as ((_ & Hwf) & _). rewrite Forall_forall in Hwf.
    destruct (Hwf k) as [Hb _]; [by eapply list_elem_of_lookup_2|exact Hb]. }
  pose proof (boot_plan_wf _ _ _ Hplan (conj Hvc (conj Hmc Hnc))) as (Hvb & Hmb & Hnb).
  destruct (boot_plan_same _ _ _ Hplan) as (Hid & _).
  eexists. split; [simpl; rewrite Ev; done|]. simpl. split; [done|].
  split; [unfold place_config; by destruct (1 <? _)|].
  split; [unfold config_wf, place_config; by destruct (1 <? _)|].
  split; [unfold ipv4_wf, Bridge.allocate_vm_ip, wrap, u32_max; pose proof (Z.mod_pos_bound (gateway_ip m + o) (2 ^ 32)); lia|].
  split; [exact Hbound|done].
Qed.

Lemma failed_same c hint m m' :
  create_failed c hint m m' → vms m' = vms m ∧ port_forwards m' = port_forwards m.
Proof.
  by intros [[-> _]|(_ & o & _ & [(Hc & _)|(p & n & _ & (Hc & _))])]; [done|..];
    apply core_eq in Hc as (Ev & _ & _ & _ & _ & _ & _ & _ & _ & Ep & _).
Qed.
Lemma panicked_same c req hint m m' :
  create_panicked c req hint m m' → vms m' = vms m ∧ port_forwards m' = port_forwards m.
Proof.
  intros (_ & o & _ & [(a & _ & _ & _ & ->)|(_ & p & n & _ & (Hc & _))]); [done|].
  by apply core_eq in Hc as (Ev & _ & _ & _ & _ & _ & _ & _ & _ & Ep & _).
Qed.

Lemma same_forwards_eq vm m m' : port_forwards m' = port_forwards m → same_forwards vm m m'.
Proof. intros E f. by rewrite E. Qed.

Lemma ids_of m : mgr_inv m → map_Forall (λ vm h, vm_id (h_config h) = vm) (vms m).
Proof. intros Hinv vm h Hvm. by apply (ho_id _ _ _ (inv_handles m Hinv vm h Hvm)). Qed.

(** The handle and the text that a creation leaves. *)
Lemma created_file c m m' hl pv :
  mgr_inv m → vms m !! vm_id c = None → vm_id (h_config hl) = vm_id c → config_wf (h_config hl) → ipv4_wf (h_ip hl) →
  match h_numa_node hl with Some n => 0 ≤ n ≤ u32_max | None => True end →
  port_forwards m' = port_forwards m → pv_durable pv = durable hl → pv_port_forwards pv = [] →
  0 ≤ pv_created_at_epoch pv ≤ u64_max → persisted_wf pv ∧ stored_as m' hl pv.
Proof.
  intros Hinv Hnew Hih Hwf Hip Hnode Ep Hdur Hfs Hnow. injection Hdur as E1 E2 E3 E4 E5 E6. split.
  - unfold persisted_wf. rewrite E1, E2, E6, Hfs.
    exact (conj Hwf (conj Hip (conj (List.Forall_nil _) (conj Hnow Hnode)))).
  - split; [unfold pv_durable, durable; congruence|]. intros f. rewrite Hfs, Hih, Ep. split; [by intros ?%elem_of_nil|].
    intros [Hf [k Hk]]%PortForwards.elem_of_list_for_vm. destruct (inv_owned m Hinv k f Hk) as [h2 Hh2].
    rewrite Hf in Hh2. congruence.
Qed.

Lemma tracked_create h c v6 hint m w :
  mgr_inv m → config_wf c → vm_ok (vm_id c) → fit d h w → tracked m w →
  wp (create_vm c v6 hint) (λ _, committed h True m) (m, w).
Proof.
  intros Hinv Hc [Hid Hdhcp] Hw Htr. pose proof Htr as [Hm _ _].
  eapply wp_mono; [apply wp_both; [by apply (create_files h)|]|].
  { apply (create_vm_spec c v6 hint m w (λ r '(m', _), match r with
      | Ok i => created c hint m i m' | Err _ => create_failed c hint m m'
      | Panic _ => create_panicked c v6 hint m m' end)); [apply Hinv|done|done..]. }
  intros r [m' w'] [Hfiles Hmgr]. destruct r as [i|e|p]; simpl in *.
  - destruct (created_handle _ _ _ _ _ Hinv Hc Hmgr) as (hl & Ev & Hnew & Hih & Hwf & Hip & Hnode & Ep).
    destruct Hfiles as (Hm' & hl' & pv & Hh' & Hfile & Hdur & Hfs & Hnow & Hu' & Hbut).
    rewrite Ev, lookup_insert_eq in Hh'. injection Hh' as <-.
    destruct (created_file c m m' hl pv) as [Hpwf Hst]; [done..|].
    destruct Hfile as [Hsaved|[Hh Hsame]]; [apply committed_new; [done|]|apply committed_old; [done..|]].
    + apply (tracked_saved m m' (vm_id c) hl pv w w'); [done|done|intros; by apply same_forwards_eq|by apply ids_of|done..].
    + eapply tracked_files; [by eapply same_but_same|done].
  - destruct (failed_same _ _ _ _ Hmgr) as (Ev & Ep). destruct Hfiles as [Hm' Hu]. destruct (Hu h Hw) as [Hw' Hsame].
    apply committed_new; [done|]. eapply tracked_same; [done|done|intros; by apply same_forwards_eq|done|done].
  - destruct (panicked_same _ _ _ _ _ Hmgr) as (Ev & Ep). destruct Hfiles as [Hm' Hu]. destruct (Hu h Hw) as [Hw' Hsame].
    apply committed_new; [done|]. eapply tracked_same; [done|done|intros; by apply same_forwards_eq|done|done].
Qed.

(** *** Deleting *)

Lemma tracked_delete h vm m w :
  mgr_inv m → fit d h w → tracked m w → wp (Manager.delete_vm vm) (λ _, committed h True m) (m, w).
Proof.
  intros Hinv Hw Htr. pose proof Htr as [Hm _ Hv].
  assert (∀ Q, (∀ hl m' w', vms m !! vm = Some hl → frame vm (without vm hl m) m' → Q (Ok tt) (m', w')) →
    (∀ e, vms m !! vm = None → Q (Err e) (m, w)) → wp (Manager.delete_vm vm) Q (m, w)) as Hspec.
  { intros Q HQ Herr. apply delete_vm_spec; [|intros; by eapply HQ|done].
    intros hl Hvm. by apply (ho_tap _ _ _ (inv_handles m Hinv vm hl Hvm)). }
  destruct (vms m !! vm) as [hl|] eqn:Hvm; [|by apply Hspec; [|intros; by apply committed_new]].
  destruct (Hv vm hl Hvm) as ([Hid Hdhcp] & s & pv & Hs & _).
  pose proof (ids_of m Hinv vm hl Hvm) as Hih. simpl in Hih.
  eapply wp_mono; [apply wp_both; [apply (delete_files h vm hl m w); [done..|by rewrite Hih|done|by eexists]|]|].
  { apply (Hspec (λ r '(m', _), r = Ok tt ∧ frame vm (without vm hl m) m')); [|by intros e Hnone].
    intros h' m' w' Hh' Hfr. by simplify_eq. }
  intros r [m' w'] [Hfiles [-> Hfr]]. simpl in Hfiles. destruct Hfiles as (Hm' & Hw' & Hbut & Hgone).
  destruct Hgone as [Hgone|[Hh Hsame]].
  2: { apply committed_old; [done..|]. eapply tracked_files; [by eapply same_but_same|done]. }
  apply committed_new; [done|]. destruct Hfr as (Hc & _).
  apply core_eq in Hc as (Ev & _ & _ & _ & _ & _ & _ & _ & _ & Ep & _). simpl in Ev, Ep.
  apply (tracked_removed m m' vm w w'); [done|done| |by apply ids_of|done..].
  intros vm' Hne f. rewrite Ep, !PortForwards.elem_of_list_for_vm. split.
  - intros [Hf [k Hk]]. rewrite PortForwards.remove_all_forwards, map_lookup_filter_Some in Hk. naive_solver.
  - intros [Hf [k Hk]]. split; [done|]. exists k. rewrite PortForwards.remove_all_forwards.
    apply map_lookup_filter_Some. split; [done|]. simpl. congruence.
Qed.

(** *** Forwards *)

(** The state file of a recorded VM is written again with its forwards of the moment. *)
Lemma tracked_relisted m m' vm h pv w w' :
  mgr_inv m' → here m' → vms m' = vms m → vms m !! vm = Some h → (∀ vm', vm' ≠ vm → same_forwards vm' m m') →
  same_but d vm w w' → saved vm (relisted vm m' pv) w' → vm_ok vm → persisted_wf pv →
  pv_durable pv = durable h → tracked m w → tracked m' w'.
Proof.
  intros Hinv' Hm' Ev Hh Hf Hbut Hsaved Hok (Hc & Hi & _ & He & Hn) Hdur Htr.
  assert (map_Forall (λ vm h, vm_id (h_config h) = vm) (vms m)) as Hids by (rewrite <-Ev; by apply ids_of).
  apply (tracked_saved m m' vm h (relisted vm m' pv) w w'); [done|by rewrite Ev, insert_id|done..| | |done].
  - split; [done|]. split; [done|]. split; [|by split]. simpl. apply Forall_forall.
    intros f [_ [k Hk]]%PortForwards.elem_of_list_for_vm. by apply (inv_forwards m' Hinv' k f).
  - split; [exact Hdur|]. intros f. simpl. by rewrite (Hids vm h Hh).
Qed.

(** The file of [vm] is rewritten with its forwards, or, on a faulty machine, is not. *)
Lemma committed_relisted h P m m' vm hl pv w w' :
  mgr_inv m' → here m' → vms m' = vms m → vms m !! vm = Some hl → (∀ vm', vm' ≠ vm → same_forwards vm' m m') →
  fit d h w' → same_but d vm w w' → rewritten d h vm (file_text (relisted vm m' pv)) w w' → vm_ok vm →
  persisted_wf pv → stored_as m hl pv → tracked m w → committed h P m (m', w').
Proof.
  intros Hinv' Hm' Ev Hvm Hf Hw' Hbut [Hs|[Hh Hsame]] Hok Hwf [Hdur _] Htr.
  - apply committed_new; [done|]. by eapply tracked_relisted.
  - apply committed_old; [done..|]. eapply tracked_files; [by eapply same_but_same|done].
Qed.

Lemma tracked_add h vm hp vp p m w :
  0 ≤ hp ≤ u16_max → 0 ≤ vp ≤ u16_max → mgr_inv m → fit d h w → tracked m w →
  wp (add_port_forward vm hp vp p) (λ _, committed h True m) (m, w).
Proof.
  intros Hhp Hvp Hinv Hw Htr. pose proof Htr as [Hm _ Hv].
  destruct (vms m !! vm) as [hl|] eqn:Hvm.
  2: { unfold add_port_forward. apply wp_bind, wp_self, wp_bind, wp_lift. rewrite Hvm. by apply committed_new. }
  destruct (Hv vm hl Hvm) as ([Hid Hdhcp] & s & pv & Hs & Hpv & Hwf & Hst).
  eapply wp_mono; [apply wp_both; [by apply (add_files h vm hp vp p m w s pv)|]|].
  { apply (add_port_forward_spec vm hp vp p (λ r '(m', _), match r with
      | Ok f => m' = upd_forwards (PortForwards.add f) m ∧ f_vm_id f = vm ∧ forward_wf f ∧
          PortForwards.forwards (port_forwards m) !! (f_host_port f, f_protocol f) = None
      | Err _ => m' = m | Panic _ => False end) m w Hhp Hvp); [|done].
    intros f w' _ Hf Hfvm _ Hp _ _ Hfree. by rewrite Hp. }
  intros r [m' w'] [Hfiles Hmgr]. destruct r as [f|e|q]; simpl in Hfiles; [|subst m'|done].
  - destruct Hmgr as (-> & Hfvm & Hfwf & Hfree). destruct Hfiles as (Hw' & Hbut & Hfile).
    apply (committed_relisted h True m _ vm hl pv w w'); try done.
    + apply add_forward_inv; [by rewrite Hfvm|done|done].
    + intros vm' Hne g. rewrite !PortForwards.elem_of_list_for_vm. simpl. split.
      * intros [Hg [k [[_ <-]|[_ Hk]]%lookup_insert_Some]]; [congruence|eauto].
      * intros [Hg [k Hk]]. split; [done|]. exists k. rewrite lookup_insert_ne; [done|]. intros <-. congruence.
  - destruct Hfiles as [_ Hu]. destruct (Hu h Hw). apply committed_new; [done|]. by eapply tracked_files.
Qed.

Lemma tracked_remove h hp p m w :
  mgr_inv m → fit d h w → tracked m w →
  wp (remove_port_forward hp p) (λ r,
    committed h (is_ok r = true ∨ PortForwards.forwards (port_forwards m) !! (hp, p) = None) m) (m, w).
Proof.
  intros Hinv Hw Htr. pose proof Htr as [Hm _ Hv].
  destruct (PortForwards.forwards (port_forwards m) !! (hp, p)) as [f|] eqn:Hf.
  - destruct (inv_owned m Hinv _ _ Hf) as [hl Hvm].
    destruct (Hv _ hl Hvm) as ([Hid Hdhcp] & s & pv & Hs & Hpv & Hwf & Hst).
    eapply wp_mono; [apply wp_both; [by apply (remove_files h hp p f m w s pv)|]|].
    { apply (remove_port_forward_spec hp p (λ _ '(m', _),
        m' = upd_forwards (λ pf, (PortForwards.remove hp p pf).2) m)); [done|done]. }
    intros r [m' w'] [Hfiles ->]. destruct r as [u|e|q]; simpl in Hfiles.
    2,3: destruct Hfiles as [_ Hu]; destruct (Hu h Hw) as [Hw' Hsame]; split; [done|];
      split; [left; by eapply tracked_files|by intros _ [?|?]].
    destruct Hfiles as (Hw' & Hbut & Hfile).
    apply (committed_relisted h _ m _ (f_vm_id f) hl pv w w'); try done.
    + by apply remove_forward_inv.
    + intros vm' Hne g. rewrite !PortForwards.elem_of_list_for_vm. simpl. split.
      * intros [Hg [k [_ Hk]%lookup_delete_Some]]. eauto.
      * intros [Hg [k Hk]]. split; [done|]. exists k. rewrite lookup_delete_ne; [done|]. intros <-. congruence.
  - unfold remove_port_forward. apply wp_bind, wp_self. cbn [PortForwards.remove].
    apply wp_bind, wp_update, wp_bind, wp_lift. rewrite Hf. apply committed_new; [done|].
    eapply (tracked_same m); [exact Hm|done| |by intros q Hq|done].
    intros vm g. rewrite !PortForwards.elem_of_list_for_vm. simpl. by rewrite delete_id.
Qed.

(** *** Queries and recovery *)

Lemma infos_same hs w : wp (infos hs) (λ _ w', w' = w) w.
Proof.
  induction hs as [|h hs IH]; simpl; [by apply wp_ret|].
  apply wp_bind, wp_bind, wp_observe, wp_ret, wp_bind. eapply wp_mono; [exact IH|].
  intros [l|e|p] w' ->; [by apply wp_ret|done..].
Qed.

Lemma qop_replay_forwards vm ip fs : quiet_op (replay_forwards vm ip fs).
Proof. induction fs as [|f fs IH]; simpl; qop_tac. Qed.

Lemma qop_recover pv : quiet_op (recover_vm pv).
Proof.
  pose proof qop_replay_forwards. unfold recover_vm, replay_network. qop_tac.
Qed.

Lemma qop_recover_all pvs : quiet_op (forM_ pvs recover_vm).
Proof. induction pvs as [|pv pvs IH]; simpl; [qop_tac|]. apply qop_bind; [apply qop_recover|by intros]. Qed.

Lemma qop_recover_vms : quiet_op recover_vms.
Proof.
  unfold recover_vms. apply qop_self. intros m1 [= -> _ _ _].
  apply qop_bind; [apply qop_host, quiet_load|intros; apply qop_recover_all].
Qed.

Lemma new_here run br bk ext ndp t : here (new run d br gw bk hd ext pool ndp t).
Proof. unfold here, settings. simpl. by destruct pool. Qed.
Lemma new_restarted m run br bk ext ndp t :
  here m → Numa.topology_wf t → restarted m (new run d br gw bk hd ext pool ndp t).
Proof.
  intros [= _ _ Hg H6] Ht. split; [done..|by rewrite Hg| |by apply Numa.new_wf]. simpl.
  destruct (ipv6_allocator m) as [a|], pool as [p|]; try done. simpl in *. by injection H6 as -> ->.
Qed.

Lemma tracked_restart m m0 w :
  mgr_inv m → usable d w → tracked m w → restarted m m0 → here m0 →
  wp recover_vms (λ r '(m', w'), (r = Ok tt ∧ restored m m') ∧ usable d w' ∧ tracked m' w') (m0, w).
Proof.
  intros Hinv Hu Htr Hrst Hm0. destruct (tracked_load m w Hinv Hu Htr) as (pvs & Hload & Hall).
  pose proof Hm0 as [= Hd _ _ _]. rewrite <-Hd in Hload.
  eapply wp_mono; [apply wp_both; [by eapply recover_vms_spec|apply quiet_result; [apply qop_recover_vms|exact Hm0]]|].
  intros r [m' w'] [[-> Hres] [Hm' Hw']]. split; [done|]. pose proof Hres as [_ Hvms Hfw _].
  destruct Htr as [Hm Hn Hv]. destruct (Hw' Working Hu) as [Hu' Hsame]. split; [done|]. split; [done| |].
  - intros name Hname Hfile. rewrite Hsame in Hfile by (by exists name).
    destruct (Hn name Hname Hfile) as (vm & -> & [h Hvm]). exists vm. split; [done|].
    specialize (Hvms vm). rewrite Hvm in Hvms. destruct (vms m' !! vm); [by eexists|done].
  - intros vm h' Hvm'. specialize (Hvms vm). rewrite Hvm' in Hvms.
    destruct (vms m !! vm) as [h|] eqn:Hvm; [|done]. injection Hvms as Hc Hi H6 Ht He Hnu.
    destruct (Hv vm h Hvm) as ([Hid Hdhcp] & s & pv & Hs & Hpv & Hwf & [Hdur Hfs]).
    split; [done|]. exists s, pv. rewrite Hsame by by apply state_path_file. split_and!; [done..|].
    split; [rewrite Hdur; unfold durable; congruence|]. intros f. by rewrite Hfs, Hfw, Hc.
Qed.

Lemma tracked_new run br bk ext ndp t w :
  (∀ p, state_file d p → host_files w !! p = None) →
  tracked (new run d br gw bk hd ext pool ndp t) w.
Proof.
  intros Hnone. split; [apply new_here| |done].
  intros name Hname Hfile. rewrite Hnone in Hfile by (by exists name). by destruct Hfile.
Qed.

(** ** The history of a node *)

(** A created VM has an id that names a file, and its reservation is not a state file. *)
Definition request_ok (q : request Net) : Prop :=
  match q with ReqCreate c _ _ => vm_ok (vm_id c) | _ => True end.
(** The removal of a forward is answered, or there was none. *)
Definition settled (q : request Net) (r : result error unit) m : Prop :=
  match q with
  | ReqRemoveForward hp p => is_ok r = true ∨ PortForwards.forwards (port_forwards m) !! (hp, p) = None
  | _ => True
  end.

(** A request is served; the node restarts with the same settings, the other arguments
    and the topology being free; or the machine changes without touching the state files. *)
Inductive node_step : VmManager Net W * W → VmManager Net W * W → Prop :=
| node_serve q m w r m' w' :
    request_wf q → request_ok q → serve q (m, w) = (r, (m', w')) → settled q r m →
    node_step (m, w) (m', w')
| node_restart m run br bk ext ndp t w r m' w' :
    Numa.topology_wf t → recover_vms (new run d br gw bk hd ext pool ndp t, w) = (r, (m', w')) →
    node_step (m, w) (m', w')
| node_change m w w' : undisturbed d w w' → node_step (m, w) (m, w').

Lemma wp_discard {A} (c : Op (Net := Net) (W := W) A) (P : VmManager Net W → W → Prop) s :
  wp c (λ _ '(m', w'), P m' w') s → wp (discard c) (λ _ '(m', w'), P m' w') s.
Proof.
  intros Hc. apply wp_bind. eapply wp_mono; [exact Hc|]. intros [a|e|q] [m' w'] HP; [|done..].
  by apply wp_ret.
Qed.

(** A request on any machine that is fit to keep its clock and its files. *)
Lemma tracked_serve h q m w :
  request_wf q → request_ok q → mgr_inv m → fit d h w → tracked m w →
  wp (serve q) (λ r, committed h (settled q r m) m) (m, w).
Proof.
  intros Hq Hok Hinv Hw Htr.
  assert (∀ A (c : Op A) P, wp c (λ _, committed h True m) (m, w) →
    wp (discard c) (λ r, committed h (P r) m) (m, w)) as Hdiscard.
  { intros A c P Hc. apply wp_bind. eapply wp_mono; [exact Hc|].
    intros [a|e|p] [m' w'] (H1 & H2 & H3); [apply wp_ret|..]; (split; [done|]; split; [done|]; auto). }
  destruct q as [c v6 hint|vm|vm| |vm hp vp p|hp p]; simpl in *.
  - by apply Hdiscard, tracked_create.
  - by apply tracked_delete.
  - apply Hdiscard. apply wp_bind, wp_self, wp_bind, wp_lift. destruct (vms m !! vm); [|by apply committed_new].
    apply wp_on_snd'. unfold from_handle. by apply wp_bind, wp_observe, wp_ret, committed_new.
  - apply Hdiscard. apply wp_bind, wp_self, wp_on_snd'. eapply wp_mono; [apply infos_same|].
    intros r w' ->. by apply committed_new.
  - destruct Hq as [Hhp Hvp]. by apply Hdiscard, tracked_add.
  - by apply tracked_remove.
Qed.

Definition sound m w : Prop := mgr_inv m ∧ usable d w ∧ tracked m w.

Lemma node_step_inv m w m' w' : node_step (m, w) (m', w') → sound m w → sound m' w'.
Proof.
  intros Hs (Hinv & Hw & Htr).
  inversion Hs as [q ? ? r ? ? Hq Hok Hserve Hset|? run br bk ext ndp t ? r ? ? Ht Hrec|? ? ? Hch]; subst.
  - pose proof (serve_inv q m w Hq Hinv) as H1. pose proof (tracked_serve Working q m w Hq Hok Hinv Hw Htr) as H2.
    unfold wp in H1, H2. rewrite Hserve in H1, H2. destruct H2 as (Hw' & _ & H2). split; [exact H1|]. split; [exact Hw'|].
    by apply H2.
  - pose proof (tracked_restart m _ w Hinv Hw Htr (new_restarted m run br bk ext ndp t (tr_here _ _ Htr) Ht)
      (new_here _ _ _ _ _ _)) as H1. unfold wp in H1. rewrite Hrec in H1.
    destruct H1 as [[_ [Hinv' _ _ _]] Htr']. by split.
  - destruct (Hch Working Hw) as [Hw' Hsame]. split; [done|]. split; [done|]. by eapply tracked_files.
Qed.

Lemma node_steps_inv s s' : rtc node_step s s' → sound s.1 s.2 → sound s'.1 s'.2.
Proof.
  induction 1 as [|[m1 w1] [m2 w2] s3 Hs _ IH]; [done|]. intros Hso. apply IH. by eapply node_step_inv.
Qed.
End quiet.

(** ** Properties *)

(** The history of a manager and its state files. It starts with an empty state directory
    on which the file operations succeed, and goes through any series of requests, restarts,
    and changes of the machine outside that directory; requests may fail or panic in any way,
    except that the removal of a forward does not fail after it has found the forward. At
    any moment between requests the manager has its invariant, the state directory loads
    as exactly the recorded VMs, each with its configuration, its addresses and its
    forwards of that moment, and a restart with the same settings succeeds and finds
    the same VMs, forwards and offsets. *)
Theorem node_history {Net W} (d : string) (hd : option string)
    `{!IpNet Net, !Host W, !HostFs W, !StateDir W d, !SerdeJson}
    run br gw bk ext (pool : option Net) ndp t (w w' : W) (m : VmManager Net W) :
  Numa.topology_wf t → usable d w → (∀ p, state_file d p → host_files w !! p = None) →
  rtc (node_step d hd gw pool) (new run d br gw bk hd ext pool ndp t, w) (m, w') →
  mgr_inv m ∧
  (∃ pvs, (load_all_vms d w').1 = Ok pvs ∧ persisted_all m pvs) ∧
  ∀ run' br' bk' ext' ndp' t', Numa.topology_wf t' →
    wp recover_vms (λ r '(m2, _), r = Ok tt ∧ restored m m2) (new run' d br' gw bk' hd ext' pool ndp' t', w').
Proof.
  intros Ht Hw Hnone Hrun.
  destruct (node_steps_inv d hd gw pool _ _ Hrun) as (Hinv & Hw' & Htr).
  { split; [by apply new_inv|]. split; [done|by apply tracked_new]. }
  simpl in Hinv, Hw', Htr. split; [done|]. split; [by apply (tracked_load d hd gw pool)|].
  intros run' br' bk' ext' ndp' t' Ht'.
  eapply wp_mono; [apply (tracked_restart d hd gw pool m); [done|done|done| |apply new_here]|by intros r [m2 w2] [? _]].
  apply new_restarted; [apply Htr|done].
Qed.
