(* ===== verification/ManagerConc.v ===== *)
(** * The VM manager: creations that overlap

    [create_vm] holds a lock only within each of its phases, so the phases of several
    creations interleave with each other and with the other requests. A creation in
    flight is a phase with its local variables; a step runs one phase of one creation
    against the shared manager, or serves another request. [delete_vm] keeps the table
    of VMs locked from its first to its last line and is one step; the other requests are
    one step each as well. *)

From S2P Require Import Prelude Strs Host HostSim Json Types NetTypes Instances Tee Verity Qemu.
From S2P Require Import Persistence Manager ManagerFrame ManagerSpec ManagerOps ManagerInv.
From S2P Require Import ManagerSafety ManagerProps.
From S2P Require Bridge PortForwards Ipv6 Nft NdpProxy Numa.
#[local] Open Scope Z_scope.

(** The arguments of [create_vm]. *)
Record job (Net : Type) := mk_job {
  j_config : VmConfig;
  j_ipv6 : option Net;
  j_hint : option Z;
}.
Arguments mk_job {_}.
Arguments j_config {_}.
Arguments j_ipv6 {_}.
Arguments j_hint {_}.

(** Where a creation is, with what it has computed so far. *)
Inductive phase (Net W : Type) :=
| AtCheck
| AtOffset
| AtIpv6 (ip : Ipv4Addr)
| AtReserve (ip : Ipv4Addr) (v6 : option Net)
| AtNetwork (ip : Ipv4Addr) (v6 : option Net)
| AtBoot (ip : Ipv4Addr) (v6 : option Net)
| AtPlace (ip : Ipv4Addr) (v6 : option Net) (b : TeeBackend W) (c : VmConfig) (cmdline : option string)
| AtLaunch (ip : Ipv4Addr) (v6 : option Net) (b : TeeBackend W) (c : VmConfig)
    (p : Numa.NumaPlacement) (cmdline : option string)
| AtRecord (ip : Ipv4Addr) (v6 : option Net) (c : VmConfig) (p : Numa.NumaPlacement)
    (process : QemuProcess)
| AtInsert (ip : Ipv4Addr) (v6 : option Net) (c : VmConfig) (p : Numa.NumaPlacement)
    (process : QemuProcess) (now_epoch : Z).
Arguments AtCheck {_ _}.
Arguments AtOffset {_ _}.
Arguments AtIpv6 {_ _}.
Arguments AtReserve {_ _}.
Arguments AtNetwork {_ _}.
Arguments AtBoot {_ _}.
Arguments AtPlace {_ _}.
Arguments AtLaunch {_ _}.
Arguments AtRecord {_ _}.
Arguments AtInsert {_ _}.

Section conc.
Context {Net W : Type} `{IpNet Net} `{Host W} `{SerdeJson}.
Implicit Types (m : VmManager Net W) (j : job Net) (ph : phase Net W).

Definition job_vm j : string := vm_id (j_config j).

(** One phase; [inr] is the answer. *)
Definition advance j ph : Op (Net := Net) (W := W) (phase Net W + VmInfo) :=
  let vm := job_vm j in
  match ph with
  | AtCheck =>
      m ← self;
      match vms m !! vm with
      | Some _ => throw (mk_error ("VM " ++ vm ++ " already exists")%str [])
      | None => mret (inl AtOffset)
      end
  | AtOffset =>
      m ← self; o ← allocate_offset;
      mret (inl (AtIpv6 (Bridge.allocate_vm_ip (gateway_ip m) o)))
  | AtIpv6 ip => v6 ← allocate_ipv6 vm (j_ipv6 j); mret (inl (AtReserve ip v6))
  | AtReserve ip v6 =>
      write_reservations vm (Bridge.mac_for_vm_ip ip) ip v6;; mret (inl (AtNetwork ip v6))
  | AtNetwork ip v6 => setup_network vm (tap_of vm) v6;; mret (inl (AtBoot ip v6))
  | AtBoot ip v6 =>
      m ← self;
      b ← lift (get_backend (t_backend (tee (j_config j))) m);
      cb ← host (prepare_boot (j_config j));
      mret (inl (AtPlace ip v6 b cb.1 cb.2))
  | AtPlace ip v6 b c cmdline =>
      cp ← place c (j_hint j); mret (inl (AtLaunch ip v6 b cp.1 cp.2 cmdline))
  | AtLaunch ip v6 b c p cmdline =>
      process ← launch vm (tap_of vm) (Bridge.mac_for_vm_ip ip) v6 b c p cmdline;
      mret (inl (AtRecord ip v6 c p process))
  | AtRecord ip v6 c p process =>
      now ← persist_vm vm (tap_of vm) (Bridge.mac_for_vm_ip ip) ip v6 c p;
      mret (inl (AtInsert ip v6 c p process now))
  | AtInsert ip v6 c p process now =>
      i ← insert_vm vm (tap_of vm) ip v6 c p process now; mret (inr i)
  end.

(** A creation that is not interrupted. *)
Fixpoint run_phases (n : nat) j ph : Op (Net := Net) (W := W) VmInfo :=
  match n with
  | O => throw (mk_error "" [])
  | S n => r ← advance j ph; match r with inl ph' => run_phases n j ph' | inr i => mret i end
  end.

(** The manager and the creations in flight. *)
Record world := mk_world { w_mgr : VmManager Net W; w_jobs : gmap nat (job Net * phase Net W) }.

Definition creates (q : request Net) : bool := match q with ReqCreate _ _ _ => true | _ => false end.

(** A step of the world: a creation arrives, advances or ends, or another request is
    served. The host may change in between. Without [overlap] a creation arrives only
    when none of the same id is in flight. *)
Inductive conc_step (overlap : bool) : world → world → Prop :=
| conc_arrive m js i j :
    js !! i = None → config_wf (j_config j) →
    (overlap = false → ∀ i' jp, js !! i' = Some jp → job_vm jp.1 ≠ job_vm j) →
    conc_step overlap (mk_world m js) (mk_world m (<[i := (j, AtCheck)]> js))
| conc_advance m js i j ph w ph' m' w' :
    js !! i = Some (j, ph) → advance j ph (m, w) = (Ok (inl ph'), (m', w')) →
    conc_step overlap (mk_world m js) (mk_world m' (<[i := (j, ph')]> js))
| conc_end m js i j ph w r m' w' :
    js !! i = Some (j, ph) → advance j ph (m, w) = (r, (m', w')) →
    (∀ ph', r ≠ Ok (inl ph')) →
    conc_step overlap (mk_world m js) (mk_world m' (delete i js))
| conc_serve m js q w r m' w' :
    request_wf q → creates q = false → serve q (m, w) = (r, (m', w')) →
    conc_step overlap (mk_world m js) (mk_world m' js).

(** ** The invariant without the ownership of forwards *)

(** A forward that is being added and the deletion of its VM may cross, so the other parts
    of the invariant are kept apart from [owned]. *)
Definition clear_forwards m : VmManager Net W := upd_forwards (λ _, PortForwards.new) m.
Record loose_inv m : Prop := mk_loose {
  lo_cleared : mgr_inv (clear_forwards m);
  lo_forwards : PortForwards.pf_inv (port_forwards m);
}.
Definition owned m : Prop :=
  ∀ k f, PortForwards.forwards (port_forwards m) !! k = Some f → is_Some (vms m !! f_vm_id f).

Lemma clear_forwards_handle m vm h : handle_ok (clear_forwards m) vm h ↔ handle_ok m vm h.
Proof. split; intros [? ? ? ? ?]; by split. Qed.

Lemma mgr_inv_loose m : mgr_inv m ↔ loose_inv m ∧ owned m.
Proof.
  split.
  - intros [Hh Hips Hused H6 Hpf Hown Hn]. split; [|done]. split; [|done]. split; try done.
    intros vm h Hvm. by apply clear_forwards_handle, Hh.
  - intros [[[Hh Hips Hused H6 _ _ Hn] Hpf] Hown]. split; try done.
    intros vm h Hvm. by apply clear_forwards_handle, Hh.
Qed.

Lemma loose_handle m vm h : loose_inv m → vms m !! vm = Some h → handle_ok m vm h.
Proof. intros [Hinv _] Hvm. by apply clear_forwards_handle, (inv_handles _ Hinv). Qed.

Lemma loose_numa m : loose_inv m → Numa.alloc_wf (numa m).
Proof. intros [Hinv _]. exact (inv_numa _ Hinv). Qed.

Lemma loose_forwards f m : PortForwards.pf_inv (f (port_forwards m)) → loose_inv m → loose_inv (upd_forwards f m).
Proof. intros Hf [Hinv _]. by split. Qed.

Lemma frame_clear vm m m' : frame vm m m' → frame vm (clear_forwards m) (clear_forwards m').
Proof.
  intros (Hc & Hi & Hn). split_and!; [|done|done].
  apply core_eq in Hc as (?&?&?&?&?&?&?&?&?&?&?). unfold core. simpl. congruence.
Qed.

Lemma frame_loose vm m m' : frame vm m m' → loose_inv m → vms m !! vm = None → loose_inv m'.
Proof.
  intros Hfr [Hinv Hpf] Hvm. split.
  - by eapply frame_inv; [by apply frame_clear|..].
  - destruct Hfr as (Hc & _ & _). apply core_eq in Hc as (_&_&_&_&_&_&_&_&_&Ep&_). by rewrite Ep.
Qed.

Lemma take_offset_loose o m : 1 ≤ o ≤ 254 → loose_inv m → loose_inv (take_offset o m).
Proof. intros Ho [Hinv Hpf]. split; [|done]. exact (take_offset_inv o _ Ho Hinv). Qed.

Lemma upd_numa_loose n m : Numa.alloc_wf n → loose_inv m → loose_inv (upd_numa (λ _, n) m).
Proof. intros Hn [Hinv Hpf]. split; [|done]. exact (upd_numa_inv n _ Hn Hinv). Qed.

(** ** What a creation in flight holds *)

Definition phase_ip ph : option Ipv4Addr :=
  match ph with
  | AtCheck | AtOffset => None
  | AtIpv6 ip | AtReserve ip _ | AtNetwork ip _ | AtBoot ip _ | AtPlace ip _ _ _ _
  | AtLaunch ip _ _ _ _ _ | AtRecord ip _ _ _ _
  | AtInsert ip _ _ _ _ _ => Some ip
  end.
Definition phase_v6 ph : option (option Net) :=
  match ph with
  | AtCheck | AtOffset | AtIpv6 _ => None
  | AtReserve _ v6 | AtNetwork _ v6 | AtBoot _ v6 | AtPlace _ v6 _ _ _
  | AtLaunch _ v6 _ _ _ _ | AtRecord _ v6 _ _ _
  | AtInsert _ v6 _ _ _ _ => Some v6
  end.
Definition phase_config ph : option VmConfig :=
  match ph with
  | AtPlace _ _ _ c _ | AtLaunch _ _ _ c _ _ | AtRecord _ _ c _ _
  | AtInsert _ _ c _ _ _ => Some c
  | _ => None
  end.

(** The address comes from an offset that is reserved. *)
Definition reserved m (ip : Ipv4Addr) : Prop :=
  ∃ o, 1 ≤ o ≤ 254 ∧ o ∈ used_ip_offsets m ∧ ip = Bridge.allocate_vm_ip (gateway_ip m) o.

Record claim m j ph : Prop := mk_claim {
  cl_job : config_wf (j_config j);
  cl_new : ph ≠ AtCheck → vms m !! job_vm j = None;
  cl_ip : ∀ ip, phase_ip ph = Some ip → reserved m ip;
  cl_v6 : ∀ v6, phase_v6 ph = Some v6 → holds_ipv6 (job_vm j) v6 m;
  cl_config : ∀ c, phase_config ph = Some c → same_request (j_config j) c;
  cl_place : match ph with AtPlace _ _ _ c _ => config_wf c | _ => True end;
}.

(** The invariant of the world: that of the manager, the claims, and no address twice. *)
Record world_inv (s : world) : Prop := mk_world_inv {
  wi_mgr : mgr_inv (w_mgr s);
  wi_claims : map_Forall (λ _ jp, claim (w_mgr s) jp.1 jp.2) (w_jobs s);
  wi_apart : map_pairwise (λ jp jp', job_vm jp.1 ≠ job_vm jp'.1 ∧
    ∀ ip, phase_ip jp.2 = Some ip → phase_ip jp'.2 ≠ Some ip) (w_jobs s);
  wi_fresh : ∀ i jp vm h ip, w_jobs s !! i = Some jp → vms (w_mgr s) !! vm = Some h →
    phase_ip jp.2 = Some ip → h_ip h ≠ ip;
}.

(** ** One phase *)

(** What a phase may do to the rest: everything reserved stays, other VMs keep their
    ranges, and a new address is one that was not reserved. *)
Record advanced m j ph (r : result error (phase Net W + VmInfo)) m' : Prop := mk_advanced {
  ad_inv : loose_inv m';
  ad_forwards : port_forwards m' = port_forwards m;
  ad_gateway : gateway_ip m' = gateway_ip m;
  ad_used : used_ip_offsets m ⊆ used_ip_offsets m';
  ad_v6 : ∀ vm o, vm ≠ job_vm j → holds_ipv6 vm o m → holds_ipv6 vm o m';
  ad_result : match r with
    | Ok (inl ph') => vms m' = vms m ∧ claim m' j ph' ∧
        ∀ ip, phase_ip ph' = Some ip → phase_ip ph = Some ip ∨ ¬ reserved m ip
    | Ok (inr _) => vms m !! job_vm j = None ∧
        ∃ h, vms m' = <[job_vm j := h]> (vms m) ∧ phase_ip ph = Some (h_ip h)
    | _ => vms m' = vms m
    end;
}.

Lemma reserved_mono m m' ip :
  gateway_ip m' = gateway_ip m → used_ip_offsets m ⊆ used_ip_offsets m' → reserved m ip → reserved m' ip.
Proof. intros Hg Hu (o & Ho & Hin & ->). exists o. rewrite Hg. split_and!; [lia|lia|by apply Hu|done]. Qed.

Lemma advanced_same m j ph r :
  loose_inv m →
  match r with
  | Ok (inl ph') => claim m j ph' ∧ phase_ip ph' = phase_ip ph
  | Ok (inr _) => False
  | _ => True
  end → advanced m j ph r m.
Proof.
  intros Hinv Hr. split; [done..|]. destruct r as [[ph'|i]|e|p]; [|done..].
  destruct Hr as [Hcl Hip]. split_and!; [done|done|]. intros ip. rewrite Hip. by left.
Qed.

Lemma advanced_frame m j ph r m' :
  loose_inv m → vms m !! job_vm j = None → frame (job_vm j) m m' →
  match r with
  | Ok (inl ph') => claim m' j ph' ∧ phase_ip ph' = phase_ip ph
  | Ok (inr _) => False
  | _ => True
  end → advanced m j ph r m'.
Proof.
  intros Hinv Hnew Hfr Hr. pose proof Hfr as (Hc & _ & _).
  apply core_eq in Hc as (Ev & _ & _ & _ & Eg & Eu & _ & _ & _ & Ep & _).
  split; [by eapply frame_loose|done|done|by rewrite Eu|intros; by eapply holds_ipv6_frame|].
  destruct r as [[ph'|i]|e|p]; [|done..]. destruct Hr as [Hcl Hip]. split_and!; [done|done|].
  intros ip. rewrite Hip. by left.
Qed.

(** The claim of the job itself after a phase that left the table of VMs alone. *)
Lemma claim_frame m m' j ph ph' :
  claim m j ph → frame (job_vm j) m m' → ph ≠ AtCheck →
  phase_ip ph' = phase_ip ph →
  (∀ v6, phase_v6 ph' = Some v6 → holds_ipv6 (job_vm j) v6 m') →
  (∀ c, phase_config ph' = Some c → same_request (j_config j) c) →
  match ph' with AtPlace _ _ _ c _ => config_wf c | _ => True end →
  claim m' j ph'.
Proof.
  intros Hcl (Hc & _ & _) Hne Hip Hv6 Hcfg Hpl.
  apply core_eq in Hc as (Ev & _ & _ & _ & Eg & Eu & _).
  split; [apply Hcl|intros _; rewrite Ev; by apply Hcl| |done|done|done].
  intros ip. rewrite Hip. intros Hip'. apply (reserved_mono m); [done|by rewrite Eu|by eapply cl_ip].
Qed.

Lemma holds_ipv6_same vm o m m' :
  ipv6_allocator m' = ipv6_allocator m → holds_ipv6 vm o m → holds_ipv6 vm o m'.
Proof. unfold holds_ipv6. by intros ->. Qed.

Definition phase_spec j ph : Prop := ∀ m w,
  loose_inv m → claim m j ph →
  (∀ vm h ip, vms m !! vm = Some h → phase_ip ph = Some ip → h_ip h ≠ ip) →
  wp (advance j ph) (λ r '(m', _), advanced m j ph r m') (m, w).

Lemma check_phase j : phase_spec j AtCheck.
Proof.
  intros m w Hinv Hcl _. simpl. apply wp_bind, wp_self. destruct (vms m !! job_vm j) eqn:Hvm.
  - apply wp_throw. by apply advanced_same.
  - apply wp_ret, advanced_same; [done|]. split; [|done]. by split; [apply Hcl|..].
Qed.

Lemma offset_phase j : phase_spec j AtOffset.
Proof.
  intros m w Hinv Hcl _. simpl. apply wp_bind, wp_self, wp_bind, allocate_offset_spec.
  - intros o Ho Hfree Hmin. apply wp_ret. split; [by apply take_offset_loose|done|done|simpl; set_solver|done|].
    split; [done|]. split.
    + split; [apply Hcl|intros _; by apply Hcl| |done..]. intros ip [= <-]. exists o. simpl.
      split_and!; [lia|lia|set_solver|done].
    + intros ip [= <-]. right. intros (o' & Ho' & Hin & Heq).
      apply (f_equal (Bridge.offset_of_ip (gateway_ip m))) in Heq.
      rewrite !Bridge.offset_of_allocated in Heq by lia. congruence.
  - intros e _. by apply advanced_same.
Qed.

Lemma ipv6_phase j ip : phase_spec j (AtIpv6 ip).
Proof.
  intros m w Hinv Hcl _. assert (vms m !! job_vm j = None) as Hnew by by apply Hcl.
  simpl. apply wp_bind, allocate_ipv6_spec.
  - intros o m' w' Hfr Hh. apply wp_ret, advanced_frame; [done..|]. split; [|done].
    eapply claim_frame; try done. by intros v6 [= <-].
  - intros e w'. by apply advanced_same.
  - intros p w' a _ _ _. by apply advanced_same.
Qed.

Lemma reserve_phase j ip v6 : phase_spec j (AtReserve ip v6).
Proof.
  intros m w Hinv Hcl _. assert (vms m !! job_vm j = None) as Hnew by by apply Hcl.
  simpl. apply wp_bind, write_reservations_spec.
  - intros w'. apply wp_ret, advanced_same; [done|]. split; [|done].
    eapply claim_frame; [exact Hcl|apply frame_refl|done..|apply Hcl|done|done].
  - intros e m' w' Hfr. by apply advanced_frame.
Qed.

Lemma network_phase j ip v6 : phase_spec j (AtNetwork ip v6).
Proof.
  intros m w Hinv Hcl _. assert (vms m !! job_vm j = None) as Hnew by by apply Hcl.
  simpl. apply wp_bind, setup_network_spec.
  - intros m' w' Hfr Hsame. apply wp_ret, advanced_frame; [done..|]. split; [|done].
    eapply claim_frame; try done. intros o Ho. eapply holds_ipv6_same; [done|by apply Hcl].
  - intros e m' w' Hfr. by apply advanced_frame.
Qed.

Lemma boot_phase j ip v6 : phase_spec j (AtBoot ip v6).
Proof.
  intros m w Hinv Hcl _. simpl. apply wp_bind, wp_self, wp_bind, wp_lift.
  unfold get_backend, ok_or. destruct (backends m !! _) as [b|]; [|by apply advanced_same].
  apply wp_bind, wp_on_snd', prepare_boot_spec; [|intros; by apply advanced_same].
  intros c cl w' Hplan. apply wp_ret, advanced_same; [done|]. split; [|done].
  eapply claim_frame; [exact Hcl|apply frame_refl|done|done|apply Hcl| |].
  - intros c' [= <-]. by eapply boot_plan_same.
  - by eapply boot_plan_wf; [|apply Hcl].
Qed.

(** The phases that charge and release NUMA nodes. *)
Lemma advanced_numa m j ph r n m' :
  loose_inv m → vms m !! job_vm j = None → Numa.alloc_wf n → frame (job_vm j) (upd_numa (λ _, n) m) m' →
  match r with
  | Ok (inl ph') => claim m' j ph' ∧ phase_ip ph' = phase_ip ph
  | Ok (inr _) => False
  | _ => True
  end → advanced m j ph r m'.
Proof.
  intros Hinv Hnew Hn Hfr Hr.
  destruct (advanced_frame (upd_numa (λ _, n) m) j ph r m' (upd_numa_loose _ _ Hn Hinv) Hnew Hfr Hr).
  by split.
Qed.

Lemma place_phase j ip v6 b c cl : phase_spec j (AtPlace ip v6 b c cl).
Proof.
  intros m w Hinv Hcl _. assert (vms m !! job_vm j = None) as Hnew by by apply Hcl.
  assert (config_wf c) as Hwf by apply Hcl.
  simpl. apply wp_bind, place_spec; [by apply loose_numa|done| |intros; by apply advanced_same].
  intros p n Hal. apply wp_ret. eapply advanced_numa; [done|done| |apply frame_refl|].
  - by apply (numa_request_wf c (j_hint j) (clear_forwards m) p); [apply Hinv|..].
  - split; [|done]. split; [apply Hcl|by intros _|apply Hcl|apply Hcl| |done].
    intros c' [= <-]. simpl.
    destruct (place_config_same (upd_numa (λ _, n) m) p c) as (Hsame & _ & _).
    pose proof (cl_config _ _ _ Hcl c eq_refl) as Hreq.
    unfold same_request in *. intuition congruence.
Qed.

Lemma launch_phase j ip v6 b c p cl : phase_spec j (AtLaunch ip v6 b c p cl).
Proof.
  intros m w Hinv Hcl _. assert (vms m !! job_vm j = None) as Hnew by by apply Hcl.
  simpl. apply wp_bind, launch_spec.
  - intros w' Hd. apply wp_ret, advanced_same; [done|]. split; [|done].
    eapply claim_frame; [exact Hcl|apply frame_refl|done|done|apply Hcl|apply Hcl|done].
  - intros e m' w' Hfr. eapply advanced_numa; [done|done| |exact Hfr|done].
    destruct (cl_config _ _ _ Hcl c eq_refl) as (_ & Hv & Hm & _).
    destruct (cl_job _ _ _ Hcl) as (? & ? & _).
    apply Numa.release_wf; [by apply loose_numa|lia|lia].
  - intros q _. by apply advanced_same.
Qed.

(** Recording a VM under an address that is reserved and that no recorded VM has. *)
Lemma record_inv m vm ip v6 c process now node :
  mgr_inv m → vms m !! vm = None → vm_id c = vm → 0 ≤ vcpus c ∧ 0 ≤ memory_mb c →
  reserved m ip → holds_ipv6 vm v6 m → (∀ vm' h, vms m !! vm' = Some h → h_ip h ≠ ip) →
  mgr_inv (upd_vms (<[vm := mk_handle c Running ip v6 (Some process) (tap_of vm) now node]>) m).
Proof.
  intros [Hh Hips Hused H6 Hpf Hown Hn] Hnew Hid Hsz (o & Ho & Hin & ->) Hv6 Hne.
  split; simpl; try done.
  - apply map_Forall_insert_2.
    + split; simpl; [done|done|done|by exists o|done].
    + intros vm' h Hvm. destruct (Hh vm' h Hvm) as [? ? ? ? ?]. by split.
  - apply map_pairwise_insert; [done|]. intros vm' h Hvm _. simpl.
    pose proof (Hne vm' h Hvm). split; congruence.
  - intros k f Hf. destruct (Hown k f Hf) as [h Hvm].
    destruct (decide (f_vm_id f = vm)) as [->|Hvm']; [rewrite lookup_insert_eq; eauto|].
    rewrite lookup_insert_ne by done. eauto.
Qed.

Lemma record_loose m vm ip v6 c process now node :
  loose_inv m → vms m !! vm = None → vm_id c = vm → 0 ≤ vcpus c ∧ 0 ≤ memory_mb c →
  reserved m ip → holds_ipv6 vm v6 m → (∀ vm' h, vms m !! vm' = Some h → h_ip h ≠ ip) →
  loose_inv (upd_vms (<[vm := mk_handle c Running ip v6 (Some process) (tap_of vm) now node]>) m).
Proof.
  intros [Hinv Hpf] Hnew Hid Hsz Hres Hv6 Hne. split; [|done].
  exact (record_inv (clear_forwards m) vm ip v6 c process now node Hinv Hnew Hid Hsz Hres Hv6 Hne).
Qed.

Lemma record_phase j ip v6 c p process : phase_spec j (AtRecord ip v6 c p process).
Proof.
  intros m w Hinv Hcl _. assert (vms m !! job_vm j = None) as Hnew by by apply Hcl.
  simpl. apply wp_bind, persist_spec. intros now w'. apply wp_ret, advanced_same; [done|]. split; [|done].
  eapply claim_frame; [exact Hcl|apply frame_refl|done|done|apply Hcl|apply Hcl|done].
Qed.

Lemma insert_phase j ip v6 c p process now : phase_spec j (AtInsert ip v6 c p process now).
Proof.
  intros m w Hinv Hcl Hfresh. assert (vms m !! job_vm j = None) as Hnew by by apply Hcl.
  destruct (cl_config _ _ _ Hcl c eq_refl) as (Hid & Hv & Hm & _).
  destruct (cl_job _ _ _ Hcl) as (? & ? & _).
  simpl. apply wp_bind, insert_spec. intros i w' _ _. apply wp_ret. split; [|done|done|done|done|].
  - apply record_loose; [done|done|exact Hid|lia|by apply Hcl|by apply Hcl|].
    intros vm' h Hvm. by apply (Hfresh vm').
  - split; [done|]. eexists. by split.
Qed.

Lemma advance_spec j ph : phase_spec j ph.
Proof.
  destruct ph; [apply check_phase|apply offset_phase|apply ipv6_phase|apply reserve_phase
    |apply network_phase|apply boot_phase|apply place_phase|apply launch_phase|apply record_phase
    |apply insert_phase].
Qed.

(** ** The world *)

Lemma claim_others m m' j j' ph ph' r :
  advanced m j ph r m' → job_vm j' ≠ job_vm j → claim m j' ph' → claim m' j' ph'.
Proof.
  intros [_ _ Hg Hu H6 Hr] Hne Hcl. split; try apply Hcl.
  - intros Hph. pose proof (cl_new _ _ _ Hcl Hph) as Hnone.
    destruct r as [[ph2|i]|e|p]; [by destruct Hr as [-> _]| |by rewrite Hr..].
    destruct Hr as (_ & h & -> & _). by rewrite lookup_insert_ne.
  - intros ip Hip. eapply reserved_mono; [done|done|by eapply cl_ip].
  - intros v6 Hv6. apply H6; [done|]. by eapply cl_v6.
Qed.

(** A phase of a creation keeps forwards with recorded VMs: it removes no VM. *)
Lemma advanced_owned m j ph r m' : advanced m j ph r m' → owned m → owned m'.
Proof.
  intros [_ Hpf _ _ _ Hr] Hown k f. rewrite Hpf. intros Hf. specialize (Hown k f Hf).
  destruct r as [[ph'|i]|e|p]; [by destruct Hr as [-> _]| |by rewrite Hr..].
  destruct Hr as (_ & h & -> & _). destruct (decide (f_vm_id f = job_vm j)) as [->|Hne].
  - rewrite lookup_insert_eq. by eexists.
  - by rewrite lookup_insert_ne.
Qed.

Lemma world_advance m js i j ph r m' :
  world_inv (mk_world m js) → js !! i = Some (j, ph) → advanced m j ph r m' →
  world_inv (mk_world m' (match r with Ok (inl ph') => <[i := (j, ph')]> js | _ => delete i js end)).
Proof.
  intros [Hinv Hcl Hap Hfr] Hi Had. simpl in *.
  assert (∀ i' jp, i' ≠ i → js !! i' = Some jp → claim m' jp.1 jp.2) as Hothers.
  { intros i' jp Hne Hi'. eapply claim_others; [exact Had| |by eapply Hcl].
    apply (Hap i' i jp (j, ph) Hi' Hi Hne). }
  assert (∀ i' jp ip, js !! i' = Some jp → phase_ip jp.2 = Some ip → reserved m ip) as Hres
    by (intros i' jp ip Hi'; apply (cl_ip _ _ _ (Hcl i' jp Hi'))).
  assert (mgr_inv m') as Hinv'.
  { apply mgr_inv_loose. apply mgr_inv_loose in Hinv as [_ Hown].
    split; [apply Had|by eapply advanced_owned]. }
  pose proof (ad_result _ _ _ _ _ Had) as Hr.
  destruct r as [[ph'|a]|e|p].
  - destruct Hr as (Hv & Hcl' & Hip). split; simpl; [done|..].
    + intros i' jp [[<- <-]|[Hne Hi']]%lookup_insert_Some; [done|by apply (Hothers i')].
    + apply map_pairwise_insert; [done|]. intros i' jp Hi' Hne. simpl.
      destruct (Hap i i' _ _ Hi Hi' (not_eq_sym Hne)) as [Hvm Hips]. simpl in *.
      split; (split; [congruence|]); intros ip Hip1.
      * destruct (Hip ip Hip1) as [Hold|Hnew]; [by apply Hips|].
        intros Hip2. by apply Hnew, (Hres i' jp).
      * intros Hip2. destruct (Hip ip Hip2) as [Hold|Hnew]; [by eapply Hips|].
        by apply Hnew, (Hres i' jp).
    + intros i' jp vm h ip [[<- <-]|[Hne Hi']]%lookup_insert_Some; rewrite Hv; [|by apply (Hfr i')].
      intros Hvm Hip1. destruct (Hip ip Hip1) as [Hold|Hnew]; [by apply (Hfr i (j, ph) vm)|].
      intros <-. apply Hnew, (ho_ip _ _ _ (inv_handles m Hinv vm h Hvm)).
  - destruct Hr as (Hnew & h & Hv & Hip). split; simpl; [done| |by apply map_pairwise_delete|].
    + intros i' jp [Hne Hi']%lookup_delete_Some. by apply (Hothers i').
    + intros i' jp vm h' ip [Hne Hi']%lookup_delete_Some. rewrite Hv.
      intros [[<- <-]|[_ Hvm]]%lookup_insert_Some Hip'; [|by apply (Hfr i' jp vm)].
      intros <-. by apply (proj2 (Hap i i' _ _ Hi Hi' Hne) (h_ip h)).
  - split; simpl; [done| |by apply map_pairwise_delete|].
    + intros i' jp [Hne Hi']%lookup_delete_Some. by apply (Hothers i').
    + intros i' jp vm h ip [Hne Hi']%lookup_delete_Some. rewrite Hr. by apply (Hfr i').
  - split; simpl; [done| |by apply map_pairwise_delete|].
    + intros i' jp [Hne Hi']%lookup_delete_Some. by apply (Hothers i').
    + intros i' jp vm h ip [Hne Hi']%lookup_delete_Some. rewrite Hr. by apply (Hfr i').
Qed.

(** ** Other requests between the phases *)

(** Another request neither records a VM nor takes what a creation holds. *)
Record bystander m m' : Prop := mk_bystander {
  by_inv : mgr_inv m';
  by_vms : ∀ vm h, vms m' !! vm = Some h → vms m !! vm = Some h;
  by_gateway : gateway_ip m' = gateway_ip m;
  by_ip : ∀ ip, reserved m ip → (∀ vm h, vms m !! vm = Some h → h_ip h ≠ ip) → reserved m' ip;
  by_v6 : ∀ vm o, vms m !! vm = None → holds_ipv6 vm o m → holds_ipv6 vm o m';
}.

Lemma bystander_refl m : mgr_inv m → bystander m m.
Proof. by split. Qed.

Lemma bystander_forwards f m : mgr_inv (upd_forwards f m) → bystander m (upd_forwards f m).
Proof. by split. Qed.

Lemma bystander_delete vm h m m' :
  mgr_inv m → vms m !! vm = Some h → frame vm (without vm h m) m' → bystander m m'.
Proof.
  intros Hinv Hvm Hfr. pose proof (delete_inv _ _ _ _ Hinv Hvm Hfr) as Hinv'.
  pose proof Hfr as (Hc & _ & _). apply core_eq in Hc as (Ev & _ & _ & _ & Eg & Eu & _). simpl in *.
  split; [done| |done| |].
  - intros vm' h'. rewrite Ev, lookup_delete_Some. by intros [_ ?].
  - intros ip (o & Ho & Hin & ->) Hne. exists o. rewrite Eg, Eu. split_and!; [lia|lia| |done].
    apply elem_of_difference. split; [done|]. rewrite elem_of_singleton. intros ->.
    destruct (ho_ip _ _ _ (inv_handles m Hinv vm h Hvm)) as (o' & Ho' & _ & Hip).
    apply (Hne vm h Hvm). by rewrite Hip, Bridge.offset_of_allocated by lia.
  - intros vm' o Hnone Hh. eapply (holds_ipv6_frame vm vm'); [by intros ->; congruence|exact Hfr|done].
Qed.

Lemma serve_bystander q m w :
  request_wf q → creates q = false → mgr_inv m → wp (serve q) (λ _ '(m', _), bystander m m') (m, w).
Proof.
  intros Hq Hcr Hinv. destruct q as [c ipv6 hint|vm|vm| |vm hp vp p|hp p]; simpl in *; [done|..].
  - apply delete_vm_spec; [|intros; by eapply bystander_delete|intros; by apply bystander_refl].
    intros h Hvm. by apply (ho_tap _ _ _ (inv_handles m Hinv vm h Hvm)).
  - apply discard_spec, wp_bind, wp_self, wp_bind, wp_lift. unfold ok_or.
    destruct (vms m !! vm); [|by apply bystander_refl].
    apply wp_host; [|intros; by apply bystander_refl..]. unfold from_handle. total_tac. by intros ??.
  - apply discard_spec, wp_bind, wp_self, wp_host; [apply total_infos|intros; by apply bystander_refl..].
  - destruct Hq as [Hhp Hvp]. apply discard_spec, add_port_forward_spec;
      [done..| |intros; by apply bystander_refl].
    intros f w' Hvm Hf <- _ _ _ _ _. by apply bystander_forwards, add_forward_inv.
  - apply remove_port_forward_spec; intros; by apply bystander_forwards, remove_forward_inv.
Qed.

Lemma world_bystander m m' js :
  world_inv (mk_world m js) → bystander m m' → world_inv (mk_world m' js).
Proof.
  intros [Hinv Hcl Hap Hfr] [Hinv' Hv Hg Hip H6]. simpl in *. split; simpl; [done| |done|].
  - intros i jp Hi. pose proof (Hcl i jp Hi) as [Hj Hnew Hres Hv6 Hc Hp]. split; [done| | | |done|done].
    + intros Hph. destruct (vms m' !! job_vm jp.1) as [h|] eqn:Hvm; [|done].
      apply Hv in Hvm. by rewrite (Hnew Hph) in Hvm.
    + intros ip Hph. apply Hip; [by apply Hres|]. intros vm h Hvm. by apply (Hfr i jp vm).
    + intros v6 Hph. apply H6; [|by apply Hv6]. apply Hnew. intros He. by rewrite He in Hph.
  - intros i jp vm h ip Hi Hvm. apply (Hfr i jp vm); [done|by apply Hv].
Qed.

Lemma world_arrive m js i j :
  world_inv (mk_world m js) → js !! i = None → config_wf (j_config j) →
  (∀ i' jp, js !! i' = Some jp → job_vm jp.1 ≠ job_vm j) →
  world_inv (mk_world m (<[i := (j, AtCheck)]> js)).
Proof.
  intros [Hinv Hcl Hap Hfr] Hi Hwf Hids. simpl in *. split; simpl; [done|..].
  - apply map_Forall_insert_2; [by split|done].
  - apply map_pairwise_insert; [done|]. intros i' jp Hi' Hne. simpl.
    pose proof (Hids i' jp Hi'). split; (split; [congruence|by intros ip Hip]).
  - intros i' jp vm h ip [[<- <-]|[Hne Hi']]%lookup_insert_Some; [done|by apply (Hfr i')].
Qed.

Lemma conc_step_inv s s' : conc_step false s s' → world_inv s → world_inv s'.
Proof.
  intros Hs Hw. destruct Hs as [m js i j Hi Hwf Hids|m js i j ph w ph' m' w' Hi Ha
    |m js i j ph w r m' w' Hi Ha Hr|m js q w r m' w' Hq Hcr Hs].
  - apply world_arrive; [done..|by apply Hids].
  - pose proof Hw as [Hinv Hcl _ Hfr]. simpl in *.
    pose proof (advance_spec j ph m w (proj1 (proj1 (mgr_inv_loose m) Hinv)) (Hcl i _ Hi) (λ vm h ip Hvm, Hfr i _ vm h ip Hi Hvm)) as Hwp.
    unfold wp in Hwp. rewrite Ha in Hwp. exact (world_advance _ _ _ _ _ _ _ Hw Hi Hwp).
  - pose proof Hw as [Hinv Hcl _ Hfr]. simpl in *.
    pose proof (advance_spec j ph m w (proj1 (proj1 (mgr_inv_loose m) Hinv)) (Hcl i _ Hi) (λ vm h ip Hvm, Hfr i _ vm h ip Hi Hvm)) as Hwp.
    unfold wp in Hwp. rewrite Ha in Hwp. pose proof (world_advance _ _ _ _ _ _ _ Hw Hi Hwp) as Hend.
    destruct r as [[ph'|a]|e|p]; [by destruct (Hr ph')|done..].
  - pose proof Hw as [Hinv _ _ _]. simpl in *. pose proof (serve_bystander q m w Hq Hcr Hinv) as Hwp.
    unfold wp in Hwp. rewrite Hs in Hwp. by eapply world_bystander.
Qed.

Lemma conc_steps_inv s s' : rtc (conc_step false) s s' → world_inv s → world_inv s'.
Proof. induction 1; eauto using conc_step_inv. Qed.

Lemma world_inv_new m : mgr_inv m → world_inv (mk_world m ∅).
Proof. intros Hinv. split; simpl; [done|apply map_Forall_empty|apply map_pairwise_empty|by intros i jp]. Qed.

(** ** Without interruption *)

Lemma bind_at {A B} (c : Op (Net := Net) (W := W) A) (f : A → Op (Net := Net) (W := W) B) s :
  (c ≫= f) s = match c s with
    | (Ok a, s') => f a s' | (Err e, s') => (Err e, s') | (Panic p, s') => (Panic p, s') end.
Proof. unfold mbind, M_bind. by destruct (c s) as [[a|e|p] s']. Qed.

Lemma run_at n j ph s :
  run_phases (S n) j ph s = match advance j ph s with
    | (Ok (inl ph'), s') => run_phases n j ph' s' | (Ok (inr i), s') => (Ok i, s')
    | (Err e, s') => (Err e, s') | (Panic p, s') => (Panic p, s') end.
Proof. cbn [run_phases]. rewrite bind_at. by destruct (advance j ph s) as [[[ph'|i]|e|p] s']. Qed.

Definition keeps_backends {A} (c : Op (Net := Net) (W := W) A) : Prop := ∀ m w,
  wp c (λ _ '(m', _), backends m' = backends m) (m, w).

Lemma frame_backends vm m m' : frame vm m m' → backends m' = backends m.
Proof. intros (Hc & _ & _). apply core_eq in Hc. by destruct_and! Hc. Qed.

Lemma keeps_offset : keeps_backends allocate_offset.
Proof. intros m w. by apply allocate_offset_spec. Qed.
Lemma keeps_ipv6 vm req : keeps_backends (allocate_ipv6 vm req).
Proof. intros m w. apply allocate_ipv6_spec; [intros o m' w' Hfr _; by eapply frame_backends|done..]. Qed.
Lemma keeps_reservations vm mac ip o : keeps_backends (write_reservations vm mac ip o).
Proof. intros m w. apply write_reservations_spec; [done|]. intros e m' w' Hfr. by eapply frame_backends. Qed.
Lemma keeps_network vm o : keeps_backends (setup_network vm (tap_of vm) o).
Proof. intros m w. apply setup_network_spec; intros; by eapply frame_backends. Qed.

Lemma self_at m w : (self : Op (Net := Net) (W := W) _) (m, w) = (Ok m, (m, w)).
Proof. done. Qed.
Lemma ret_at {A} (a : A) s : (mret a : Op (Net := Net) (W := W) A) s = (Ok a, s).
Proof. done. Qed.

Ltac next_phase := rewrite run_at; unfold advance at 1; rewrite !bind_at, ?self_at, ?bind_at.

(** The phases in a row are [create_vm]: the decomposition loses nothing. *)
Lemma phases_compose j s : run_phases 10 j AtCheck s = create_vm (j_config j) (j_ipv6 j) (j_hint j) s.
Proof.
  destruct s as [m w]. unfold create_vm. next_phase. fold (job_vm j).
  destruct (vms m !! job_vm j); [done|]. rewrite !ret_at, bind_at. next_phase.
  pose proof (keeps_offset m w) as K1. unfold wp in K1.
  destruct (allocate_offset (m, w)) as [[o|e|p] [m1 w1]]; [|done..].
  rewrite ret_at, bind_at. set (ip := Bridge.allocate_vm_ip (gateway_ip m) o). next_phase.
  pose proof (keeps_ipv6 (job_vm j) (j_ipv6 j) m1 w1) as K2. unfold wp in K2.
  destruct (allocate_ipv6 _ _ (m1, w1)) as [[v6|e|p] [m2 w2]]; [|done..].
  rewrite ret_at, bind_at. next_phase.
  pose proof (keeps_reservations (job_vm j) (Bridge.mac_for_vm_ip ip) ip v6 m2 w2) as K3. unfold wp in K3.
  destruct (write_reservations _ _ _ _ (m2, w2)) as [[[]|e|p] [m3 w3]]; [|done..].
  rewrite ret_at, bind_at. next_phase.
  pose proof (keeps_network (job_vm j) v6 m3 w3) as K4. unfold wp in K4.
  destruct (setup_network _ _ _ (m3, w3)) as [[[]|e|p] [m4 w4]]; [|done..].
  rewrite ret_at, bind_at. next_phase.
  assert (get_backend (t_backend (tee (j_config j))) m4 = get_backend (t_backend (tee (j_config j))) m) as ->
    by (unfold get_backend; by rewrite K4, K3, K2, K1).
  unfold lift. destruct (get_backend _ m) as [b|e|p]; [|done..]. rewrite !bind_at.
  destruct (host (prepare_boot (j_config j)) (m4, w4)) as [[[c cl]|e|p] [m5 w5]]; [|done..].
  rewrite ret_at, bind_at. next_phase. cbn [fst snd].
  destruct (place c (j_hint j) (m5, w5)) as [[[c' pl]|e|p] [m6 w6]]; [|done..].
  rewrite ret_at, bind_at. next_phase. cbn [fst snd].
  destruct (launch _ _ _ _ _ _ _ _ (m6, w6)) as [[process|e|p] [m7 w7]]; [|done..].
  rewrite ret_at. next_phase.
  unfold record_vm. rewrite bind_at.
  destruct (persist_vm _ _ _ _ _ _ _ (m7, w7)) as [[now|e|p] [m8 w8]]; [|done..].
  rewrite ret_at. next_phase. by destruct (insert_vm _ _ _ _ _ _ _ _ (m8, w8)) as [[i|e|p] [m9 w9]].
Qed.

(** ** Schedules *)

(** Run one phase of creation [i]. *)
Definition conc_run (s : world) (i : nat) (w : W) : world :=
  match w_jobs s !! i with
  | None => s
  | Some (j, ph) =>
      match advance j ph (w_mgr s, w) with
      | (Ok (inl ph'), (m', _)) => mk_world m' (<[i := (j, ph')]> (w_jobs s))
      | (_, (m', _)) => mk_world m' (delete i (w_jobs s))
      end
  end.
Definition schedule (s : world) (l : list (nat * W)) : world :=
  foldl (λ s iw, conc_run s iw.1 iw.2) s l.

Lemma conc_run_steps overlap s i w : rtc (conc_step overlap) s (conc_run s i w).
Proof.
  destruct s as [m js]. unfold conc_run. simpl. destruct (js !! i) as [[j ph]|] eqn:Hi; [|done].
  destruct (advance j ph (m, w)) as [[[ph'|a]|e|p] [m' w']] eqn:Ha; apply rtc_once.
  - by eapply conc_advance.
  - by eapply conc_end.
  - by eapply conc_end.
  - by eapply conc_end.
Qed.

Lemma schedule_steps overlap s l : rtc (conc_step overlap) s (schedule s l).
Proof.
  revert s. induction l as [|[i w] l IH]; intros s; [done|]. simpl.
  etransitivity; [apply conc_run_steps|apply IH].
Qed.
End conc.
Arguments world : clear implicits.

(** ** Properties *)

(** Creations that overlap. The phases of any number of creations of different VMs,
    interleaved in any order with each other and with deletions, queries and forwards, on
    any host and with any outcome of each phase, keep the invariant of the manager:
    distinct addresses, disjoint IPv6 ranges, forwards of recorded VMs, NUMA counters
    within the nodes. Beyond that every creation in flight keeps what it has reserved:
    its id stays free, its offset reserved, its IPv6 range its own, and its address
    differs from that of every recorded VM and of every other creation. Run without
    interruption the phases are [create_vm] itself. *)
Theorem overlapping_creations {Net W} `{IpNet Net} `{Host W} `{SerdeJson}
    run st br gw bk dhcp ext (pool : option Net) ndp t (s : world Net W) :
  Numa.topology_wf t →
  rtc (conc_step false) (mk_world (new run st br gw bk dhcp ext pool ndp t) ∅) s →
  world_inv s ∧
  ∀ j sw, run_phases 10 j AtCheck sw = create_vm (j_config j) (j_ipv6 j) (j_hint j) sw.
Proof.
  intros Ht Hs. split; [|exact phases_compose].
  eapply conc_steps_inv; [exact Hs|]. by apply world_inv_new, new_inv.
Qed.

Definition demo_pool_manager : VmManager sim_net sim :=
  new "/run" "/state" "br0" 167797761 demo_backends None "eth0" (sim_net_new (2 ^ 124) 64) false
    Numa.demo_topology.
Definition demo_net_host : sim :=
  mk_sim ∅ [] [ok_output ""; ok_output ""; ok_output ""; ok_output ""; nft_output] [] 1700000000 [].
Definition demo_addr (k : Z) : option sim_net := sim_net_new (2 ^ 124 + k) 128.
Definition demo_job (vm : string) (k : Z) : job sim_net := mk_job (demo_request vm) (demo_addr k) None.
(** Creation [i] runs [n] phases. *)
Definition phases_of (i n : nat) : list (nat * sim) := replicate n (i, demo_net_host).

(** Two creations, [b] starting and ending while [a] is between its phases. *)
Definition demo_overlap : world sim_net sim :=
  schedule (mk_world demo_pool_manager {[ 0%nat := (demo_job "a" 1, AtCheck); 1%nat := (demo_job "b" 2, AtCheck) ]})
    (phases_of 0 4 ++ phases_of 1 10 ++ phases_of 0 6).

Lemma arrive_two overlap (m : VmManager sim_net sim) j j' :
  config_wf (j_config j) → config_wf (j_config j') → job_vm j ≠ job_vm j' ∨ overlap = true →
  rtc (conc_step overlap) (mk_world m ∅) (mk_world m {[ 0%nat := (j, AtCheck); 1%nat := (j', AtCheck) ]}).
Proof.
  intros Hj Hj' Hne. rewrite <-insert_empty.
  eapply rtc_l; [apply (conc_arrive _ _ _ 1%nat j'); [done|done|by intros _ i' jp]|].
  apply rtc_once, conc_arrive; [done|done|].
  intros -> i' jp [[<- <-]|[_ ?]]%lookup_insert_Some; [|done]. destruct Hne as [Hne|]; [|done].
  by apply not_eq_sym.
Qed.

Lemma overlapping_creations_witness :
  world_inv demo_overlap ∧ (h_ip <$> vms (w_mgr demo_overlap) !! "a"%string) = Some 167797762 ∧
  (h_ip <$> vms (w_mgr demo_overlap) !! "b"%string) = Some 167797763.
Proof.
  split; [|split; by vm_compute].
  apply (overlapping_creations "/run" "/state" "br0" 167797761 demo_backends None "eth0"
    (sim_net_new (2 ^ 124) 64) false Numa.demo_topology demo_overlap Numa.demo_topology_wf).
  etransitivity; [apply (arrive_two _ _ (demo_job "a" 1) (demo_job "b" 2)); [apply demo_request_wf..|by left]|].
  apply schedule_steps.
Defined.

(** A machine on which the TAP device exists: [ip tuntap add] fails with [EBUSY]. *)
Definition busy_host : sim :=
  mk_sim ∅ [] [mk_output false "" "ioctl(TUNSETIFF): Device or resource busy"] [] 1700000000 [].
(** Two creations of [a]: the second passes the check while the first, which has its TAP
    device, is before its last phases, and ends where it creates the device again. *)
Definition demo_race : world sim_net sim :=
  schedule (mk_world demo_pool_manager {[ 0%nat := (demo_job "a" 1, AtCheck); 1%nat := (demo_job "a" 2, AtCheck) ]})
    (phases_of 0 5 ++ phases_of 1 4 ++ (1%nat, busy_host) :: phases_of 0 5).
(** C37: the check for a duplicate id and the insertion of the VM are apart, so a second
    creation of an id can pass the check while the first is under way. The second then fails
    where it creates the TAP device, which exists, and its error path cleans up what belongs
    to the id: the offset it took stays reserved for no VM, and the IPv6 range it releases
    under the id was the only one recorded for it. The first creation succeeds, and the VM
    runs with an address that the allocator holds for nobody: a later creation gets the same
    address, and two VMs have it. *)
Theorem same_id_race :
  ∃ m, rtc (conc_step true) (mk_world demo_pool_manager ∅) (mk_world m ∅) ∧
    dom (vms m) = {["a"%string]} ∧ used_ip_offsets m = {[1; 2]} ∧
    (∀ a, ipv6_allocator m = Some a → Ipv6.allocations a = ∅) ∧
    ∃ i m' w', create_vm (demo_request "b") (demo_addr 1) None (m, demo_net_host) = (Ok i, (m', w')) ∧
      ∃ ha hb n, vms m' !! "a"%string = Some ha ∧ vms m' !! "b"%string = Some hb ∧
        h_ipv6 ha = Some n ∧ h_ipv6 hb = Some n.
Proof.
  exists (w_mgr demo_race).
  assert (demo_race = mk_world (w_mgr demo_race) ∅) as Hend.
  { assert (w_jobs demo_race = ∅) as Hj by by vm_compute. destruct demo_race; simpl in *. by subst. }
  split_and!.
  - rewrite <-Hend.
    etransitivity; [apply (arrive_two _ _ (demo_job "a" 1) (demo_job "a" 2)); [apply demo_request_wf..|by right]|].
    apply schedule_steps.
  - by vm_compute.
  - by vm_compute.
  - intros a Ha. assert (Ipv6.allocations <$> ipv6_allocator (w_mgr demo_race) = Some ∅) as Hn by (vm_compute; reflexivity).
    rewrite Ha in Hn. by injection Hn.
  - set (out := create_vm (demo_request "b") (demo_addr 1) None (w_mgr demo_race, demo_net_host)).
    assert (is_ok out.1 = true) as Hok by by vm_compute.
    assert (∃ ha, vms out.2.1 !! "a"%string = Some ha ∧ h_ipv6 ha = demo_addr 1) as (ha & Ha & Ha6).
    { eexists. split; [by vm_compute|]. by vm_compute. }
    assert (∃ hb, vms out.2.1 !! "b"%string = Some hb ∧ h_ipv6 hb = demo_addr 1) as (hb & Hb & Hb6).
    { eexists. split; [by vm_compute|]. by vm_compute. }
    assert (is_Some (demo_addr 1)) as [n En].
    { assert (is_some (demo_addr 1) = true) as Hn by (vm_compute; reflexivity).
      destruct (demo_addr 1); [by eexists|done]. }
    clearbody out.
    destruct out as [[i|e|p] [m' w']]; [|discriminate Hok..]. cbn [fst snd] in Ha, Hb.
    exists i, m', w'. split; [exact eq_refl|]. exists ha, hb, n. rewrite Ha6, Hb6, En. exact (conj Ha (conj Hb (conj eq_refl eq_refl))).
Qed.
