(* ===== verification/ManagerPhases.v ===== *)
(** * The VM manager: the phases of an operation

    [ManagerConc] has the phases of creations; here are those of deletions and of
    adding and removing forwards. A phase reads or
    changes one locked part of the manager or the state file, with the calls that belong to
    it; the phases in a row are the operation ([run_whole]). *)

From S2P Require Import Prelude Strs Host HostSim Json Types NetTypes Instances Tee Verity Qemu.
From S2P Require Import Persistence Manager ManagerFrame ManagerSpec ManagerOps ManagerInv.
From S2P Require Import ManagerSafety ManagerProps ManagerConc.
From S2P Require Bridge PortForwards Ipv6 Nft NdpProxy Numa.
#[local] Open Scope Z_scope.

(** ** Operations and their phases *)

Record add_args := mk_add {
  aa_vm : string;
  aa_host_port : Z;
  aa_vm_port : Z;
  aa_protocol : Protocol;
}.

(** The operations that change the manager. *)
Inductive operation (Net : Type) :=
| OpCreate (j : job Net)
| OpDelete (vm : string)
| OpAdd (a : add_args)
| OpRemove (host_port : Z) (p : Protocol).
Arguments OpCreate {_}.
Arguments OpDelete {_}.
Arguments OpAdd {_}.
Arguments OpRemove {_}.

Inductive answer := AnsInfo (i : VmInfo) | AnsForward (f : PortForward) | AnsUnit.

(** Where an operation is. The phases of a deletion carry the handle it took out. *)
Inductive pc (Net W : Type) :=
| Creating (j : job Net) (ph : phase Net W)
| DelTake (vm : string)
| DelStop (vm : string) (h : VmHandle Net)
| DelNuma (vm : string) (h : VmHandle Net)
| DelForwards (vm : string) (h : VmHandle Net)
| DelAddresses (vm : string) (h : VmHandle Net)
| DelDevices (vm : string) (h : VmHandle Net)
| DelOffset (vm : string) (h : VmHandle Net)
| DelFile (vm : string)
| AddCheck (a : add_args)
| AddReserve (a : add_args) (ip : Ipv4Addr)
| AddNft (a : add_args) (ip : Ipv4Addr) (f : PortForward)
| AddRollback (f : PortForward) (e : error)
| AddRead (a : add_args) (f : PortForward)
| AddList (a : add_args) (f : PortForward) (pv : option (PersistedVm Net))
| AddSave (a : add_args) (f : PortForward) (pv : option (PersistedVm Net))
| RemTake (host_port : Z) (p : Protocol)
| RemNft (host_port : Z) (p : Protocol) (f : PortForward)
| RemRead (f : PortForward)
| RemList (f : PortForward) (pv : option (PersistedVm Net))
| RemSave (f : PortForward) (pv : option (PersistedVm Net)).
Arguments Creating {_ _}.
Arguments DelTake {_ _}.
Arguments DelStop {_ _}.
Arguments DelNuma {_ _}.
Arguments DelForwards {_ _}.
Arguments DelAddresses {_ _}.
Arguments DelDevices {_ _}.
Arguments DelOffset {_ _}.
Arguments DelFile {_ _}.
Arguments AddCheck {_ _}.
Arguments AddReserve {_ _}.
Arguments AddNft {_ _}.
Arguments AddRollback {_ _}.
Arguments AddRead {_ _}.
Arguments AddList {_ _}.
Arguments AddSave {_ _}.
Arguments RemTake {_ _}.
Arguments RemNft {_ _}.
Arguments RemRead {_ _}.
Arguments RemList {_ _}.
Arguments RemSave {_ _}.

Section phases.
Context {Net W : Type} `{IpNet Net} `{Host W} `{SerdeJson}.
Implicit Types (m : VmManager Net W) (c : pc Net W).

(** The parts of [update_persisted_port_forwards]: the file is read, the forwards are
    listed under their lock, and the file is written after the lock is gone. *)
Definition read_persisted (vm : string) : Op (Net := Net) (W := W) (option (PersistedVm Net)) :=
  m ← self;
  r ← attempt (host (io (host_read (state_path (state_dir m) vm))));
  mret match r with Ok s => parse_persisted s | _ => None end.
Definition with_listed (vm : string) m (pv : PersistedVm Net) : PersistedVm Net :=
  mk_persisted (pv_config pv) (pv_ip pv) (pv_ipv6 pv) (pv_tap_name pv) (pv_mac_addr pv)
    (PortForwards.list_for_vm vm (port_forwards m)) (pv_created_at_epoch pv) (pv_numa_node pv).
Definition list_persisted (vm : string) (o : option (PersistedVm Net)) :
    Op (Net := Net) (W := W) (option (PersistedVm Net)) :=
  m ← self; mret (with_listed vm m <$> o).
Definition save_persisted (vm : string) (o : option (PersistedVm Net)) : Op (Net := Net) (W := W) unit :=
  m ← self;
  match o with Some pv => ignore (save_vm (state_dir m) vm pv) | None => mret tt end.

(** One phase of an operation. *)
Definition advance_pc c : Op (Net := Net) (W := W) (pc Net W + answer) :=
  match c with
  | Creating j ph =>
      r ← advance j ph;
      mret match r with inl ph' => inl (Creating j ph') | inr i => inr (AnsInfo i) end
  | DelTake vm =>
      m ← self;
      h ← lift (ok_or (not_found vm) (vms m !! vm));
      update (upd_vms (delete vm));; mret (inl (DelStop vm h))
  | DelStop vm h =>
      match h_process h with Some p => ignore (stop p) | None => mret tt end;;
      mret (inl (DelNuma vm h))
  | DelNuma vm h => update (upd_numa (release_numa h));; mret (inl (DelForwards vm h))
  | DelForwards vm h => delete_forwards vm;; mret (inl (DelAddresses vm h))
  | DelAddresses vm h => delete_addresses vm h;; mret (inl (DelDevices vm h))
  | DelDevices vm h => delete_devices vm h;; mret (inl (DelOffset vm h))
  | DelOffset vm h =>
      m ← self;
      update (upd_used (λ used, used ∖ {[Bridge.offset_of_ip (gateway_ip m) (h_ip h)]}));;
      mret (inl (DelFile vm))
  | DelFile vm => m ← self; ignore (Persistence.delete_vm (state_dir m) vm);; mret (inr AnsUnit)
  | AddCheck a =>
      m ← self;
      h ← lift (ok_or (not_found (aa_vm a)) (vms m !! aa_vm a));
      mret (inl (AddReserve a (h_ip h)))
  | AddReserve a ip =>
      f ← reserve_port (aa_vm a) (aa_host_port a) (aa_vm_port a) (aa_protocol a);
      mret (inl (AddNft a ip f))
  | AddNft a ip f =>
      m ← self;
      r ← attempt (host (Nft.add_port_forward (nftables m) (aa_vm a) ip (f_host_port f)
                           (aa_vm_port a) (aa_protocol a)));
      mret (inl match r with Err e => AddRollback f e | _ => AddRead a f end)
  | AddRollback f e =>
      update (upd_forwards (λ pf, (PortForwards.remove (f_host_port f) (f_protocol f) pf).2));;
      throw (add_context "failed to add nftables port forward" e)
  | AddRead a f => o ← read_persisted (aa_vm a); mret (inl (AddList a f o))
  | AddList a f o => o ← list_persisted (aa_vm a) o; mret (inl (AddSave a f o))
  | AddSave a f o => save_persisted (aa_vm a) o;; mret (inr (AnsForward f))
  | RemTake host_port p =>
      m ← self;
      let '(o, pf) := PortForwards.remove host_port p (port_forwards m) in
      update (upd_forwards (λ _, pf));;
      f ← lift (ok_or (mk_error "port forward not found" []) o);
      mret (inl (RemNft host_port p f))
  | RemNft host_port p f =>
      m ← self;
      host (Nft.remove_port_forward (nftables m) host_port (f_vm_port f) p);;
      mret (inl (RemRead f))
  | RemRead f => o ← read_persisted (f_vm_id f); mret (inl (RemList f o))
  | RemList f o => o ← list_persisted (f_vm_id f) o; mret (inl (RemSave f o))
  | RemSave f o => save_persisted (f_vm_id f) o;; mret (inr AnsUnit)
  end.

Definition first (o : operation Net) : pc Net W :=
  match o with
  | OpCreate j => Creating j AtCheck
  | OpDelete vm => DelTake vm
  | OpAdd a => AddCheck a
  | OpRemove host_port p => RemTake host_port p
  end.

(** The operation as one call. *)
Definition whole (o : operation Net) : Op (Net := Net) (W := W) answer :=
  match o with
  | OpCreate j => i ← create_vm (j_config j) (j_ipv6 j) (j_hint j); mret (AnsInfo i)
  | OpDelete vm => Manager.delete_vm vm;; mret AnsUnit
  | OpAdd a =>
      f ← add_port_forward (aa_vm a) (aa_host_port a) (aa_vm_port a) (aa_protocol a);
      mret (AnsForward f)
  | OpRemove host_port p => remove_port_forward host_port p;; mret AnsUnit
  end.

(** An operation that is not interrupted. *)
Fixpoint run_pc (n : nat) c : Op (Net := Net) (W := W) answer :=
  match n with
  | O => throw (mk_error "" [])
  | S n => r ← advance_pc c; match r with inl c' => run_pc n c' | inr a => mret a end
  end.

(** ** Without interruption *)

Lemma run_pc_at n c s :
  run_pc (S n) c s = match advance_pc c s with
    | (Ok (inl c'), s') => run_pc n c' s' | (Ok (inr a), s') => (Ok a, s')
    | (Err e, s') => (Err e, s') | (Panic p, s') => (Panic p, s') end.
Proof. cbn [run_pc]. rewrite bind_at. by destruct (advance_pc c s) as [[[c'|a]|e|p] s']. Qed.

Lemma run_creating n j ph s :
  run_pc n (Creating j ph) s = (i ← run_phases n j ph; mret (AnsInfo i)) s.
Proof.
  revert ph s. induction n as [|n IH]; intros ph s; [done|].
  rewrite run_pc_at, bind_at, run_at. unfold advance_pc. rewrite bind_at.
  destruct (advance j ph s) as [[[ph'|i]|e|p] s']; [|done..]. rewrite ret_at, IH, bind_at. done.
Qed.

Lemma bind_state {S E A B} (k : M S E A) (f : A → M S E B) s :
  (k ≫= f) s = match k s with
    | (Ok a, s') => f a s' | (Err e, s') => (Err e, s') | (Panic p, s') => (Panic p, s') end.
Proof. unfold mbind, M_bind. by destruct (k s) as [[a|e|p] s']. Qed.
Lemma ret_state {S E A} (a : A) s : (mret a : M S E A) s = (Ok a, s).
Proof. done. Qed.
Lemma update_at f m w : (update f : Op (Net := Net) (W := W) unit) (m, w) = (Ok tt, (f m, w)).
Proof. done. Qed.

(** Run both sides up to the next call; let an operation go to its next phase. *)
Ltac settle :=
  repeat (rewrite bind_state || rewrite bind_at || rewrite update_at || rewrite self_at || rewrite ret_state || rewrite ret_at; cbv beta match).
Ltac next_pc := settle; rewrite run_pc_at; unfold advance_pc at 1; settle.

(** The deletion's phases leave the directories and the gateway alone. *)
Definition fixed m : string * Ipv4Addr := (state_dir m, gateway_ip m).

Lemma delete_addresses_fixed vm h m w :
  wp (delete_addresses vm h) (λ _ '(m', _), fixed m' = fixed m) (m, w).
Proof.
  unfold delete_addresses. apply wp_bind, wp_self, wp_bind.
  assert (∀ m2 w2, fixed m2 = fixed m →
    wp (if is_some (h_ipv6 h) then release_ipv6 vm else mret tt) (λ _ '(m', _), fixed m' = fixed m) (m2, w2))
    as Hrest by (intros m2 w2 Hf; destruct (is_some (h_ipv6 h)); [by apply wp_update|by apply wp_ret]).
  destruct (ndp_proxy m) as [p|]; [|by apply wp_ret, Hrest].
  apply wp_on_ndp, NdpProxy.delete_range_spec. intros w'. by apply Hrest.
Qed.

Lemma run_delete vm s : run_pc 10 (DelTake vm) s = (Manager.delete_vm vm;; mret AnsUnit) s.
Proof.
  destruct s as [m w]. unfold Manager.delete_vm. next_pc.
  unfold lift. destruct (ok_or (not_found vm) (vms m !! vm)) as [h|e|p]; [|done..].
  next_pc. set (m1 := upd_vms _ m).
  match goal with |- context [?call (m1, w)] => assert (wp call (λ _ '(m', _), m' = m1) (m1, w)) as K1
    by (by apply stop_process_spec); unfold wp in K1; destruct (call (m1, w)) as [[[]|e|p] [m2 w2]]; [|done..]
  end.
  next_pc. next_pc. set (m3 := upd_numa _ m2).
  pose proof (delete_forwards_spec vm (λ _ '(m', _), fixed m' = fixed m3) m3 w2 (λ w', eq_refl)) as K2.
  unfold wp in K2. destruct (delete_forwards vm (m3, w2)) as [[[]|e|p] [m4 w4]]; [|done..].
  next_pc. pose proof (delete_addresses_fixed vm h m4 w4) as K3. unfold wp in K3.
  destruct (delete_addresses vm h (m4, w4)) as [[[]|e|p] [m5 w5]]; [|done..].
  next_pc. pose proof (delete_devices_spec vm h (λ _ '(m', _), m' = m5) m5 w5 (λ w', eq_refl)) as K4.
  unfold wp in K4. destruct (delete_devices vm h (m5, w5)) as [[[]|e|p] [m6 w6]]; [|done..].
  assert (fixed m6 = fixed m) as Hfix.
  { simpl in K1, K4. subst m6. rewrite K3, K2. subst m3 m2. done. }
  unfold fixed in Hfix. injection Hfix as Hdir Hgw. next_pc. next_pc. rewrite ?Hgw.
  simpl (state_dir (upd_used _ m6)). rewrite Hdir.
  by destruct (ignore _ _) as [[[]|e|p] [m7 w7]].
Qed.

(** A call of the host leaves the manager as it is. *)
Lemma host_at {A} (k : M W error A) m w :
  (host k : Op (Net := Net) (W := W) A) (m, w) = ((k w).1, (m, (k w).2)).
Proof. unfold host, on_snd. by destruct (k w). Qed.

Lemma persist_split vm s :
  update_persisted_port_forwards vm s = (o ← read_persisted vm; o ← list_persisted vm o; save_persisted vm o) s.
Proof.
  destruct s as [m w]. unfold update_persisted_port_forwards, read_persisted. settle.
  unfold attempt. rewrite host_at.
  destruct ((io _ w).1) as [x|e|p]; settle; unfold list_persisted; settle; unfold save_persisted; settle;
    [|done..].
  by destruct (parse_persisted x).
Qed.

Lemma reserve_port_fixed vm hp vp p m w :
  wp (reserve_port vm hp vp p) (λ _ '(m', _), nftables m' = nftables m) (m, w).
Proof.
  unfold reserve_port. apply wp_bind, wp_self, wp_bind.
  assert (∀ port, wp (update (upd_forwards (PortForwards.add (mk_forward vm port vp p)));;
      mret (mk_forward vm port vp p)) (λ _ '(m', _), nftables m' = nftables m) (m, w)) as Hrest
    by (intros port; by apply wp_bind, wp_update, wp_ret).
  destruct (hp =? 0).
  - apply wp_lift. unfold ok_or. by destruct (PortForwards.auto_allocate _ _ _).
  - destruct (PortForwards.is_available _ _ _); [by apply wp_ret|by apply wp_throw].
Qed.

Lemma run_add a s :
  run_pc 10 (AddCheck a) s =
    (f ← add_port_forward (aa_vm a) (aa_host_port a) (aa_vm_port a) (aa_protocol a); mret (AnsForward f)) s.
Proof.
  destruct s as [m w]. unfold add_port_forward. next_pc.
  unfold lift. destruct (vms m !! aa_vm a) as [h|]; cbn [ok_or]; [|done]. next_pc.
  pose proof (reserve_port_fixed (aa_vm a) (aa_host_port a) (aa_vm_port a) (aa_protocol a) m w) as K1.
  unfold wp in K1.
  destruct (reserve_port _ _ _ _ (m, w)) as [[f|e|p] [m1 w1]]; [|done..]. next_pc. rewrite K1.
  unfold attempt. rewrite host_at. destruct ((_ w1).1) as [[]|e|p]; [| |done].
  - next_pc. rewrite persist_split. settle.
    destruct (read_persisted (aa_vm a) _) as [[o|e|p] [m2 w2]]; [|done..]. next_pc.
    destruct (list_persisted _ _ _) as [[o'|e|p] [m4 w4]]; [|done..]. next_pc.
    by destruct (save_persisted _ _ _) as [[[]|e|p] [m3 w3]].
  - next_pc. done.
Qed.

Lemma run_remove hp p s :
  run_pc 10 (RemTake hp p) s = (remove_port_forward hp p;; mret AnsUnit) s.
Proof.
  destruct s as [m w]. unfold remove_port_forward. next_pc.
  destruct (PortForwards.remove hp p (port_forwards m)) as [o pf]. settle.
  unfold lift. destruct o as [f|]; cbn [ok_or]; [|done]. next_pc.
  change (nftables (upd_forwards _ m)) with (nftables m). rewrite !host_at.
  destruct ((_ w).1) as [[]|e|q]; [|done..]. next_pc. rewrite persist_split. settle.
  destruct (read_persisted _ _) as [[o|e|q] [m2 w2]]; [|done..]. next_pc.
  destruct (list_persisted _ _ _) as [[o'|e|q] [m4 w4]]; [|done..]. next_pc.
  by destruct (save_persisted _ _ _) as [[[]|e|q] [m3 w3]].
Qed.

(** The phases of an operation in a row are the operation. *)
Lemma run_whole o s : run_pc 10 (first o) s = whole o s.
Proof.
  destruct o as [j|vm|a|hp p]; cbn [first whole].
  - rewrite run_creating. settle. by rewrite phases_compose.
  - apply run_delete.
  - apply run_add.
  - apply run_remove.
Qed.
End phases.
