(* ===== verification/ManagerOverlap.v ===== *)
(** * The VM manager: operations that overlap

    The phases of [ManagerPhases] interleave. [delete_vm] has the table of VMs locked from
    its first phase to its last, so the phases that need the table wait for it. An
    operation in flight has a claim on the manager, which the phases of the others keep. *)

From S2P Require Import Prelude Strs Host HostSim Json Types NetTypes Instances Tee Verity Qemu.
From S2P Require Import Persistence Manager ManagerFrame ManagerSpec ManagerOps ManagerInv.
From S2P Require Import ManagerSafety ManagerProps ManagerConc ManagerPhases.
From S2P Require Bridge PortForwards Ipv6 Nft NdpProxy Numa.
#[local] Open Scope Z_scope.

Section overlap.
Context {Net W : Type} `{IpNet Net} `{Host W} `{SerdeJson}.
Implicit Types (m : VmManager Net W) (c : pc Net W).

(** ** Steps *)

(** The manager and the operations in flight. *)
Record shared := mk_shared { sh_mgr : VmManager Net W; sh_ops : gmap nat (pc Net W) }.

(** The table of VMs is locked by a deletion between its first and its last phase, and
    these phases wait for it. *)
Definition holds_table c : bool :=
  match c with
  | DelStop _ _ | DelNuma _ _ | DelForwards _ _ | DelAddresses _ _ | DelDevices _ _ | DelOffset _ _
  | DelFile _ => true
  | _ => false
  end.
Definition needs_table c : bool :=
  match c with
  | Creating _ AtCheck | Creating _ (AtInsert _ _ _ _ _ _) | DelTake _ | AddCheck _ => true
  | _ => false
  end.
Definition table_free (js : gmap nat (pc Net W)) : Prop := map_Forall (λ _ c, holds_table c = false) js.

(** The integers of an operation are within their types. *)
Definition add_wf (a : add_args) : Prop :=
  0 ≤ aa_host_port a ≤ u16_max ∧ 0 ≤ aa_vm_port a ≤ u16_max.
Definition operation_wf (o : operation Net) : Prop :=
  match o with OpCreate j => config_wf (j_config j) | OpAdd a => add_wf a | _ => True end.

(** An operation arrives, goes on by one phase, or ends. The host may change in between;
    [compat] limits which operations may arrive while others are in flight. *)
Inductive op_step (compat : pc Net W → operation Net → Prop) : shared → shared → Prop :=
| op_arrive m js i o :
    js !! i = None → operation_wf o → (∀ i' c, js !! i' = Some c → compat c o) →
    op_step compat (mk_shared m js) (mk_shared m (<[i := first o]> js))
| op_advance m js i c w c' m' w' :
    js !! i = Some c → (needs_table c = true → table_free js) →
    advance_pc c (m, w) = (Ok (inl c'), (m', w')) →
    op_step compat (mk_shared m js) (mk_shared m' (<[i := c']> js))
| op_end m js i c w r m' w' :
    js !! i = Some c → (needs_table c = true → table_free js) →
    advance_pc c (m, w) = (r, (m', w')) → (∀ c', r ≠ Ok (inl c')) →
    op_step compat (mk_shared m js) (mk_shared m' (delete i js)).

(** No two creations of one VM at once. *)
Definition create_id c : option string := match c with Creating j _ => Some (job_vm j) | _ => None end.
Definition distinct_creations c (o : operation Net) : Prop :=
  match o with OpCreate j => create_id c ≠ Some (job_vm j) | _ => True end.

(** ** What an operation in flight holds *)

(** An id that stays free of a recorded VM, and an address. *)
Definition held_vm c : option string :=
  match c with
  | Creating _ AtCheck => None
  | Creating j _ => Some (job_vm j)
  | DelStop vm _ | DelNuma vm _ | DelForwards vm _ | DelAddresses vm _ | DelDevices vm _ | DelOffset vm _
  | DelFile vm => Some vm
  | _ => None
  end.
Definition held_ip c : option Ipv4Addr :=
  match c with
  | Creating _ ph => phase_ip ph
  | DelStop _ h | DelNuma _ h | DelForwards _ h | DelAddresses _ h | DelDevices _ h | DelOffset _ h =>
      Some (h_ip h)
  | _ => None
  end.

(** The handle a deletion took out of the table. *)
Record taken m (vm : string) (h : VmHandle Net) : Prop := mk_taken {
  tk_absent : vms m !! vm = None;
  tk_ip : reserved m (h_ip h);
  tk_size : 0 ≤ vcpus (h_config h) ∧ 0 ≤ memory_mb (h_config h);
  tk_tap : h_tap_name h = tap_of vm;
}.

Definition pc_claim m c : Prop :=
  match c with
  | Creating j ph => claim m j ph
  | DelStop vm h | DelNuma vm h | DelForwards vm h | DelAddresses vm h | DelDevices vm h
  | DelOffset vm h => taken m vm h
  | DelFile vm => vms m !! vm = None
  | AddCheck a | AddReserve a _ => add_wf a
  | _ => True
  end.

Definition apart c c' : Prop :=
  (∀ vm, held_vm c = Some vm → held_vm c' ≠ Some vm) ∧
  (∀ vm, create_id c = Some vm → create_id c' ≠ Some vm) ∧
  (∀ ip, held_ip c = Some ip → held_ip c' ≠ Some ip).

Lemma apart_sym c c' : apart c c' → apart c' c.
Proof. intros (F1 & F2 & F3). split_and!; intros x Hx Hx'; [by eapply F1|by eapply F2|by eapply F3]. Qed.

Record shared_inv (s : shared) : Prop := mk_shared_inv {
  si_mgr : loose_inv (sh_mgr s);
  si_claims : map_Forall (λ _ c, pc_claim (sh_mgr s) c) (sh_ops s);
  si_apart : map_pairwise apart (sh_ops s);
  si_fresh : ∀ i c vm h ip, sh_ops s !! i = Some c → vms (sh_mgr s) !! vm = Some h →
    held_ip c = Some ip → h_ip h ≠ ip;
}.

(** ** One phase *)

(** What a phase may do: what others hold stays, and what is newly held was free. *)
Record moved m c (r : result error (pc Net W + answer)) m' : Prop := mk_moved {
  mv_inv : loose_inv m';
  mv_reserved : ∀ ip, held_ip c ≠ Some ip → reserved m ip → reserved m' ip;
  mv_absent : ∀ vm, held_vm c ≠ Some vm → vms m !! vm = None → vms m' !! vm = None;
  mv_v6 : ∀ vm o, held_vm c ≠ Some vm → vms m !! vm = None → holds_ipv6 vm o m → holds_ipv6 vm o m';
  mv_handles : ∀ vm h, vms m' !! vm = Some h → vms m !! vm = Some h ∨ held_ip c = Some (h_ip h);
  mv_next : match r with
    | Ok (inl c') => pc_claim m' c' ∧ create_id c' = create_id c ∧
        (∀ vm, held_vm c' = Some vm → held_vm c = Some vm ∨ is_Some (vms m !! vm) ∨
           needs_table c = true ∧ create_id c = Some vm) ∧
        (∀ ip, held_ip c' = Some ip → held_ip c = Some ip ∨ ¬ reserved m ip ∨
           ∃ vm h, vms m !! vm = Some h ∧ h_ip h = ip) ∧
        (∀ vm h ip, vms m' !! vm = Some h → held_ip c' = Some ip → h_ip h ≠ ip)
    | _ => True
    end;
}.

Definition pc_spec c : Prop := ∀ m w,
  loose_inv m → pc_claim m c →
  (∀ vm h ip, vms m !! vm = Some h → held_ip c = Some ip → h_ip h ≠ ip) →
  wp (advance_pc c) (λ r '(m', _), moved m c r m') (m, w).

(** A phase that leaves the table, the offsets and the ranges of other VMs alone. *)
Lemma moved_quiet m c r m' :
  loose_inv m' → vms m' = vms m → gateway_ip m' = gateway_ip m →
  used_ip_offsets m' = used_ip_offsets m →
  (∀ vm o, held_vm c ≠ Some vm → holds_ipv6 vm o m → holds_ipv6 vm o m') →
  (∀ vm h ip, vms m !! vm = Some h → held_ip c = Some ip → h_ip h ≠ ip) →
  match r with
  | Ok (inl c') => pc_claim m' c' ∧ create_id c' = create_id c ∧ held_vm c' = held_vm c ∧
      held_ip c' = held_ip c
  | _ => True
  end → moved m c r m'.
Proof.
  intros Hinv Ev Eg Eu H6 Hfresh Hr. split; [done| | | | |].
  - intros ip _. by apply reserved_mono; rewrite ?Eu.
  - intros vm _. by rewrite Ev.
  - intros vm o Hvm _. by apply H6.
  - intros vm h. rewrite Ev. by left.
  - destruct r as [[c'|a]|e|p]; [|done..]. destruct Hr as (Hcl & Hid & Hvm & Hip).
    rewrite Hvm, Hip, Ev. split_and!; [done|done|auto|auto|done].
Qed.

Lemma moved_creating m j ph r m' :
  loose_inv m → ph ≠ AtCheck → claim m j ph → advanced m j ph r m' →
  (∀ vm h ip, vms m !! vm = Some h → phase_ip ph = Some ip → h_ip h ≠ ip) →
  moved m (Creating j ph) (match r with
    | Ok (inl ph') => Ok (inl (Creating j ph')) | Ok (inr i) => Ok (inr (AnsInfo i))
    | Err e => Err e | Panic q => Panic q end) m'.
Proof.
  intros Hloose Hph Hcl [Hinv Hpf Hg Hu H6 Hr] Hfresh.
  assert (held_vm (Creating j ph) = Some (job_vm j)) as Hheld by by destruct ph.
  split; [done| | | | |].
  - intros ip _. by apply reserved_mono.
  - intros vm Hne Hnone. destruct r as [[ph'|i]|e|p]; [by destruct Hr as [-> _]| |by rewrite Hr..].
    destruct Hr as (_ & h & -> & _). rewrite lookup_insert_ne; [done|]. by intros <-.
  - intros vm o Hne _. apply H6. by intros ->.
  - intros vm h. destruct r as [[ph'|i]|e|p]; [destruct Hr as [-> _]; auto| |rewrite Hr; auto..].
    destruct Hr as (_ & h' & -> & Hip). intros [[<- <-]|[_ Hvm]]%lookup_insert_Some; auto.
  - destruct r as [[ph'|i]|e|p]; [|done..]. destruct Hr as (Ev & Hcl' & Hip). split_and!; [done|done| | |].
    + intros vm Hvm. left. rewrite Hheld, <-Hvm. destruct ph'; [discriminate Hvm|done..].
    + intros ip Hip'. destruct (Hip ip Hip'); auto.
    + intros vm h ip. rewrite Ev. intros Hvm Hip'. destruct (Hip ip Hip') as [Hold|Hnew].
      * by eapply Hfresh.
      * intros <-. apply Hnew. destruct (ho_ip _ _ _ (loose_handle _ _ _ Hloose Hvm)) as (o & ? & ? & ?).
        by exists o.
Qed.

Lemma creating_spec j ph : pc_spec (Creating j ph).
Proof.
  intros m w Hinv Hcl Hfresh. unfold advance_pc. apply wp_bind.
  assert (ph = AtCheck ∨ ph ≠ AtCheck) as [->|Hph] by (destruct ph; [by left|by right..]).
  - simpl. apply wp_bind, wp_self. destruct (vms m !! job_vm j) eqn:Hvm.
    + apply wp_throw. by apply moved_quiet.
    + apply wp_ret, wp_ret. split; auto. split_and!; try done.
      * by split; [apply Hcl|..].
      * intros vm [= <-]. right. by right.
  - eapply wp_mono; [by apply advance_spec|]. intros r [m' w'] Had.
    pose proof (moved_creating _ _ _ _ _ Hinv Hph Hcl Had Hfresh).
    by destruct r as [[ph'|i]|e|p].
Qed.
(** *** Deletions *)

Lemma taken_same m m' vm h :
  vms m' = vms m → gateway_ip m' = gateway_ip m → used_ip_offsets m' = used_ip_offsets m →
  taken m vm h → taken m' vm h.
Proof.
  intros Ev Eg Eu [Hnone Hip Hsz Htap]. split; [by rewrite Ev| |done|done].
  apply (reserved_mono m); [done|by rewrite Eu|done].
Qed.

(** A step of a deletion that keeps the handle it took. *)
Lemma moved_deletion m c vm h m' c' :
  pc_claim m c = taken m vm h → held_vm c = Some vm → held_ip c = Some (h_ip h) → create_id c = None →
  pc_claim m' c' = taken m' vm h → held_vm c' = Some vm → held_ip c' = Some (h_ip h) →
  create_id c' = None →
  pc_claim m c → (∀ vm' h' ip, vms m !! vm' = Some h' → held_ip c = Some ip → h_ip h' ≠ ip) →
  loose_inv m' → vms m' = vms m → gateway_ip m' = gateway_ip m →
  used_ip_offsets m' = used_ip_offsets m → ipv6_rel vm (ipv6_allocator m) (ipv6_allocator m') →
  moved m c (Ok (inl c')) m'.
Proof.
  intros Ec Evm Eip Eid Ec' Evm' Eip' Eid' Hcl Hfresh Hinv Ev Eg Eu Hi.
  apply moved_quiet; [exact Hinv|exact Ev|exact Eg|exact Eu| |exact Hfresh|].
  - intros vm' o. rewrite Evm. intros Hne. apply (holds_ipv6_rel vm); [congruence|done].
  - rewrite Ec', Eid', Evm', Eip', Evm, Eip, Eid. split; [|done]. rewrite Ec in Hcl.
    by apply (taken_same m).
Qed.

Lemma reserved_handle m vm h : loose_inv m → vms m !! vm = Some h → reserved m (h_ip h).
Proof. intros Hinv Hvm. apply (ho_ip _ _ _ (loose_handle m vm h Hinv Hvm)). Qed.

Lemma remove_vm_loose m vm : loose_inv m → loose_inv (upd_vms (delete vm) m).
Proof.
  intros [[Hh Hips Hused H6 Hpf Hown Hn] Hpf']. split; [|done]. split; try done; simpl.
  - intros vm' h [_ Hvm]%lookup_delete_Some. destruct (Hh vm' h Hvm). by split.
  - by apply map_pairwise_delete.
Qed.

Lemma drop_offset_loose m ip :
  loose_inv m → reserved m ip → (∀ vm h, vms m !! vm = Some h → h_ip h ≠ ip) →
  let m' := upd_used (λ used, used ∖ {[Bridge.offset_of_ip (gateway_ip m) ip]}) m in
  loose_inv m' ∧ ∀ ip', ip' ≠ ip → reserved m ip' → reserved m' ip'.
Proof.
  intros [[Hh Hips Hused H6 Hpf Hown Hn] Hpf'] (o & Ho & Hin & Hip) Hne m'.
  assert (∀ ip', ip' ≠ ip → reserved m ip' → reserved m' ip') as Hres.
  { intros ip' Hip' (o' & Ho' & Hin' & ->). exists o'. simpl. split_and!; [lia|lia| |done].
    apply elem_of_difference. split; [done|]. rewrite elem_of_singleton. intros ->. apply Hip'.
    by rewrite Hip, Bridge.offset_of_allocated by lia. }
  split; [|exact Hres]. split; [|done]. split; try done; simpl.
  - intros vm h Hvm. destruct (Hh vm h Hvm) as [? ? ? Hr ?]. split; [done..| |done].
    apply (Hres (h_ip h)); [by apply (Hne vm)|exact Hr].
  - intros o'. rewrite elem_of_difference. intros [? _]. by apply Hused.
Qed.

Lemma take_spec vm : pc_spec (DelTake vm).
Proof.
  intros m w Hinv _ Hfresh. simpl. apply wp_bind, wp_self, wp_bind, wp_lift. unfold ok_or.
  destruct (vms m !! vm) as [h|] eqn:Hvm; [|by apply moved_quiet].
  apply wp_bind, wp_update, wp_ret. pose proof (loose_handle m vm h Hinv Hvm) as Hok.
  assert (taken (upd_vms (delete vm) m) vm h) as Htaken.
  { split; [simpl; by rewrite lookup_delete_eq|by apply (reserved_handle m vm)|apply Hok|apply Hok]. }
  split; [by apply remove_vm_loose|done| |done| |].
  - intros vm' _ Hnone. simpl. rewrite lookup_delete_None. by right.
  - intros vm' h'. simpl. intros [_ ?]%lookup_delete_Some. by left.
  - split_and!; [done|done| | |].
    + intros vm' [= <-]. right. left. by eexists.
    + intros ip [= <-]. right. right. by exists vm, h.
    + simpl. intros vm' h' ip [Hne Hvm']%lookup_delete_Some [= <-].
      destruct Hinv as [Hm _]. by apply (inv_ips _ Hm vm' vm).
Qed.

Lemma unit_spec vm h : pc_spec (DelStop vm h).
Proof.
  intros m w Hinv Hcl Hfresh. simpl. apply wp_bind, stop_process_spec. intros w'. apply wp_ret.
  by eapply moved_deletion; [..|apply ipv6_rel_refl].
Qed.

Lemma numa_spec vm h : pc_spec (DelNuma vm h).
Proof.
  intros m w Hinv Hcl Hfresh. simpl. apply wp_bind, wp_update, wp_ret.
  eapply moved_deletion; [done..| |done|done|done|apply ipv6_rel_refl].
  apply (upd_numa_loose (release_numa h (numa m))); [|done].
  by apply release_numa_wf; [apply Hcl..|apply loose_numa].
Qed.

Lemma forwards_spec vm h : pc_spec (DelForwards vm h).
Proof.
  intros m w Hinv Hcl Hfresh. simpl. apply wp_bind, delete_forwards_spec. intros w'. apply wp_ret.
  eapply moved_deletion; [done..| |done|done|done|apply ipv6_rel_refl].
  apply loose_forwards; [|done]. apply PortForwards.pf_inv_remove_all, Hinv.
Qed.

Lemma addresses_spec vm h : pc_spec (DelAddresses vm h).
Proof.
  intros m w Hinv Hcl Hfresh. simpl. apply wp_bind, delete_addresses_spec; [apply Hcl|].
  intros m' w' Hfr _. apply wp_ret. pose proof Hfr as (Hc & Hi & _).
  apply core_eq in Hc as (Ev & _ & _ & _ & Eg & Eu & _).
  eapply moved_deletion; [done..| |exact Ev|exact Eg|exact Eu|exact Hi].
  by eapply frame_loose; [..|apply Hcl].
Qed.

Lemma devices_spec vm h : pc_spec (DelDevices vm h).
Proof.
  intros m w Hinv Hcl Hfresh. simpl. apply wp_bind, delete_devices_spec. intros w'. apply wp_ret.
  by eapply moved_deletion; [..|apply ipv6_rel_refl].
Qed.

Lemma drop_spec vm h : pc_spec (DelOffset vm h).
Proof.
  intros m w Hinv Hcl Hfresh. simpl. apply wp_bind, wp_self, wp_bind, wp_update, wp_ret.
  destruct (drop_offset_loose m (h_ip h)) as [Hinv' Hres];
    [done|apply Hcl|intros vm' h' Hvm'; by apply (Hfresh vm')|].
  split; [done| |done|done|by left|].
  - intros ip Hne. apply Hres. simpl in Hne. congruence.
  - split_and!; [apply Hcl|done|by left|done|done].
Qed.

Lemma file_spec vm : pc_spec (DelFile vm).
Proof.
  intros m w Hinv Hcl Hfresh. simpl. apply wp_bind, wp_self, wp_bind, wp_ignore; [apply total_delete_vm|].
  intros w'. apply wp_ret. by apply moved_quiet.
Qed.
(** *** Forwards *)

Lemma reserve_port_spec vm hp vp p (Q : result error PortForward → VmManager Net W * W → Prop) m w :
  0 ≤ hp ≤ u16_max → 0 ≤ vp ≤ u16_max →
  (∀ f, f_vm_id f = vm → forward_wf f → f_protocol f = p →
     PortForwards.forwards (port_forwards m) !! (f_host_port f, p) = None →
     Q (Ok f) (upd_forwards (PortForwards.add f) m, w)) →
  (∀ e, Q (Err e) (m, w)) →
  wp (reserve_port vm hp vp p) Q (m, w).
Proof.
  intros Hhp Hvp Hok Herr. unfold reserve_port. apply wp_bind, wp_self, wp_bind.
  assert (∀ port, 0 ≤ port ≤ u16_max → PortForwards.is_available port p (port_forwards m) = true →
    wp (update (upd_forwards (PortForwards.add (mk_forward vm port vp p)));;
      mret (mk_forward vm port vp p)) Q (m, w)) as Hrest.
  { intros port Hport Hav. apply wp_bind, wp_update, wp_ret, Hok; [done|by split|done|]. simpl.
    unfold PortForwards.is_available in Hav. by destruct (_ !! _). }
  destruct (Z.eqb_spec hp 0) as [->|Hne].
  - apply wp_lift. unfold ok_or. destruct (PortForwards.auto_allocate _ _ _) as [port|] eqn:Hauto;
      [|apply Herr].
    apply PortForwards.find_range_Some in Hauto as (Hport & Hav & _). apply Hrest; [unfold u16_max; lia|done].
  - destruct (PortForwards.is_available _ _ _) eqn:Hav; [by apply wp_ret, Hrest|by apply wp_throw].
Qed.

(** An operation that holds nothing and touches only the forwards. *)
Lemma moved_forwards m c r pf :
  loose_inv m → PortForwards.pf_inv pf →
  match r with
  | Ok (inl c') => pc_claim (upd_forwards (λ _, pf) m) c' ∧ create_id c' = create_id c ∧
      held_vm c' = held_vm c ∧ held_ip c' = held_ip c
  | _ => True
  end →
  (∀ vm h ip, vms m !! vm = Some h → held_ip c = Some ip → h_ip h ≠ ip) →
  moved m c r (upd_forwards (λ _, pf) m).
Proof. intros Hinv Hpf Hr Hfresh. apply moved_quiet; try done. by apply loose_forwards. Qed.

Lemma check_spec a : pc_spec (AddCheck a).
Proof.
  intros m w Hinv Hcl Hfresh. simpl. apply wp_bind, wp_self, wp_bind, wp_lift. unfold ok_or.
  destruct (vms m !! aa_vm a); [apply wp_ret|]; by apply moved_quiet.
Qed.

Lemma reserve_spec a ip : pc_spec (AddReserve a ip).
Proof.
  intros m w Hinv [Hhp Hvp] Hfresh. simpl. apply wp_bind, reserve_port_spec; [done..| |].
  - intros f _ Hf _ _. apply wp_ret, (moved_forwards _ _ _ (PortForwards.add f (port_forwards m)));
      [done| |done|done]. by apply PortForwards.pf_inv_add, Hinv.
  - intros e. by apply moved_quiet.
Qed.

Lemma nft_spec a ip f : pc_spec (AddNft a ip f).
Proof.
  intros m w Hinv Hcl Hfresh. simpl. apply wp_bind, wp_self, wp_bind.
  apply wp_attempt_host; [auto with cvm|intros; apply wp_ret; by apply moved_quiet..].
Qed.

Lemma rollback_spec f e : pc_spec (AddRollback f e).
Proof.
  intros m w Hinv Hcl Hfresh. simpl. apply wp_bind, wp_update, wp_throw.
  apply (moved_forwards _ _ _ (PortForwards.remove (f_host_port f) (f_protocol f) (port_forwards m)).2);
    [done| |done|done]. apply PortForwards.pf_inv_remove, Hinv.
Qed.

Lemma read_persisted_spec vm (Q : result error (option (PersistedVm Net)) → VmManager Net W * W → Prop) m w :
  (∀ o w', Q (Ok o) (m, w')) → wp (read_persisted vm) Q (m, w).
Proof.
  intros HQ. apply wp_bind, wp_self, wp_bind, wp_attempt_host; [apply total_io|intros; by apply wp_ret..].
Qed.
Lemma save_persisted_spec vm o (Q : result error unit → VmManager Net W * W → Prop) m w :
  (∀ w', Q (Ok tt) (m, w')) → wp (save_persisted vm o) Q (m, w).
Proof.
  intros HQ. apply wp_bind, wp_self. destruct o; [by apply wp_ignore; [apply total_save_vm|]|by apply wp_ret].
Qed.

Lemma read_spec a f : pc_spec (AddRead a f).
Proof.
  intros m w Hinv Hcl Hfresh. apply wp_bind, read_persisted_spec. intros o w'. apply wp_ret.
  by apply moved_quiet.
Qed.
Lemma list_spec a f o : pc_spec (AddList a f o).
Proof. intros m w Hinv Hcl Hfresh. apply wp_bind, wp_ret, wp_ret. by apply moved_quiet. Qed.
Lemma save_spec a f o : pc_spec (AddSave a f o).
Proof.
  intros m w Hinv Hcl Hfresh. apply wp_bind, save_persisted_spec. intros w'. apply wp_ret.
  by apply moved_quiet.
Qed.

Lemma unlist_spec hp p : pc_spec (RemTake hp p).
Proof.
  intros m w Hinv Hcl Hfresh. simpl. apply wp_bind, wp_self, wp_bind, wp_update, wp_bind, wp_lift.
  assert (PortForwards.pf_inv (PortForwards.remove hp p (port_forwards m)).2) as Hpf
    by apply PortForwards.pf_inv_remove, Hinv.
  unfold ok_or. destruct (PortForwards.forwards (port_forwards m) !! (hp, p)); [apply wp_ret|];
    by apply moved_forwards.
Qed.
Lemma unroute_spec hp p f : pc_spec (RemNft hp p f).
Proof.
  intros m w Hinv Hcl Hfresh. simpl. apply wp_bind, wp_self, wp_bind.
  apply wp_host; [auto with cvm|intros; apply wp_ret|intros]; by apply moved_quiet.
Qed.
Lemma reread_spec f : pc_spec (RemRead f).
Proof.
  intros m w Hinv Hcl Hfresh. apply wp_bind, read_persisted_spec. intros o w'. apply wp_ret.
  by apply moved_quiet.
Qed.
Lemma relist_spec f o : pc_spec (RemList f o).
Proof. intros m w Hinv Hcl Hfresh. apply wp_bind, wp_ret, wp_ret. by apply moved_quiet. Qed.
Lemma resave_spec f o : pc_spec (RemSave f o).
Proof.
  intros m w Hinv Hcl Hfresh. apply wp_bind, save_persisted_spec. intros w'. apply wp_ret.
  by apply moved_quiet.
Qed.

Lemma advance_pc_spec c : pc_spec c.
Proof.
  destruct c; [apply creating_spec|apply take_spec|apply unit_spec|apply numa_spec|apply forwards_spec
    |apply addresses_spec|apply devices_spec|apply drop_spec|apply file_spec|apply check_spec
    |apply reserve_spec|apply nft_spec|apply rollback_spec|apply read_spec|apply list_spec|apply save_spec
    |apply unlist_spec|apply unroute_spec|apply reread_spec|apply relist_spec|apply resave_spec].
Qed.

(** ** All operations *)

(** What another operation holds, it keeps. *)
Lemma claim_kept m c r m' c' :
  moved m c r m' → apart c' c → pc_claim m c' → pc_claim m' c'.
Proof.
  intros [_ Hres Habs H6 _ _] (Avm & _ & Aip).
  assert (∀ vm, held_vm c' = Some vm → vms m !! vm = None → vms m' !! vm = None) as Kvm
    by (intros vm Hvm; apply Habs; by eapply Avm).
  assert (∀ ip, held_ip c' = Some ip → reserved m ip → reserved m' ip) as Kip
    by (intros ip Hip; apply Hres; by eapply Aip).
  assert (∀ vm h, held_vm c' = Some vm → held_ip c' = Some (h_ip h) → taken m vm h → taken m' vm h) as Ktaken
    by (intros vm h Hvm Hip [? ? ? ?]; split; auto).
  destruct c' as [j ph|vm|vm h|vm h|vm h|vm h|vm h|vm h|vm|a|a ip|a ip f|f e|a f|a f pv|a f pv|hp p|hp p f|f|f pv|f pv];
    try (by apply Ktaken); try done; [|by apply Kvm].
  intros [Hj Hnew Hip Hv6 Hcfg Hpl]. simpl in *. split; [done| | | |done|done].
  - intros Hph. apply Kvm; [by destruct ph|by apply Hnew].
  - intros ip Hph. by apply Kip, Hip.
  - intros v6 Hph. assert (ph ≠ AtCheck) as Hne by by intros ->.
    assert (held_vm (Creating j ph) = Some (job_vm j)) as Hheld by by destruct ph.
    apply H6; [by eapply Avm|by apply Hnew|by apply Hv6].
Qed.
(** The operations in flight after one of them has run a phase. *)
Definition after (i : nat) (r : result error (pc Net W + answer)) (js : gmap nat (pc Net W)) :=
  match r with Ok (inl c') => <[i := c']> js | _ => delete i js end.

(** What an operation takes over by its phase, no other holds. *)
Lemma apart_next m js i c c' m' i' c2 :
  shared_inv (mk_shared m js) → js !! i = Some c → (needs_table c = true → table_free js) →
  moved m c (Ok (inl c')) m' → js !! i' = Some c2 → i' ≠ i → apart c' c2.
Proof.
  intros [_ Hcl Hap Hfr] Hi Htab [_ _ _ _ _ (_ & Hid & Hvm & Hip & _)] Hi' Hne. simpl in *.
  pose proof (Hap i i' c c2 Hi Hi' (not_eq_sym Hne)) as (Avm & Aid & Aip).
  pose proof (Hcl i' c2 Hi') as Hcl2. split_and!.
  - intros vm Hheld Hheld2. destruct (Hvm vm Hheld) as [Hold|[[h Hrec]|(Hneeds & Hcid)]].
    + by apply (Avm vm).
    + assert (vms m !! vm = None) as Hnone by (destruct c2 as [j [| | | | | | | | |]|?|?|?|?|?|?|?|?|?|?|?|?|?|?|?|?|?|?|?|?];
        simplify_eq/=; by apply Hcl2). congruence.
    + pose proof (Htab Hneeds i' c2 Hi') as Hfree. simpl in Hfree.
      apply (Aid vm Hcid). by destruct c2 as [j [| | | | | | | | |]|?|?|?|?|?|?|?|?|?|?|?|?|?|?|?|?|?|?|?|?].
  - intros vm. rewrite Hid. by apply Aid.
  - intros ip Hheld Hheld2. destruct (Hip ip Hheld) as [Hold|[Hnew|(vm & h & Hrec & Heq)]].
    + by apply (Aip ip).
    + apply Hnew. destruct c2; simpl in *; simplify_eq; try by apply Hcl2.
    + by apply (Hfr i' c2 vm h ip Hi' Hrec Hheld2).
Qed.

Lemma shared_advance m js i c r m' :
  shared_inv (mk_shared m js) → js !! i = Some c → (needs_table c = true → table_free js) →
  moved m c r m' → shared_inv (mk_shared m' (after i r js)).
Proof.
  intros Hs Hi Htab Hmv. pose proof Hs as [_ Hcl Hap Hfr]. simpl in *.
  assert (∀ i' c2, js !! i' = Some c2 → i' ≠ i → apart c2 c) as Hothers
    by (intros i' c2 Hi' Hne; by apply (Hap i' i)).
  assert (∀ i' c2, js !! i' = Some c2 → i' ≠ i → pc_claim m' c2) as Hkeep
    by (intros i' c2 Hi' Hne; eapply claim_kept; [exact Hmv|by eapply Hothers|by apply (Hcl i')]).
  assert (∀ i' c2 vm h ip, js !! i' = Some c2 → i' ≠ i → vms m' !! vm = Some h →
    held_ip c2 = Some ip → h_ip h ≠ ip) as Hfresh.
  { intros i' c2 vm h ip Hi' Hne Hvm Hip. destruct (mv_handles _ _ _ _ Hmv vm h Hvm) as [Hold|Hown].
    - by eapply Hfr.
    - intros <-. by apply (proj2 (proj2 (Hothers i' c2 Hi' Hne)) _ Hip). }
  assert (shared_inv (mk_shared m' (delete i js))) as Hgone.
  { split; simpl; [apply Hmv| |by apply map_pairwise_delete|].
    - intros i' c2 [Hne Hi']%lookup_delete_Some. by apply (Hkeep i').
    - intros i' c2 vm h ip [Hne Hi']%lookup_delete_Some. by apply (Hfresh i'). }
  destruct r as [[c'|a]|e|p]; [|exact Hgone..]. simpl.
  pose proof (mv_next _ _ _ _ Hmv) as (Hcl' & _ & _ & _ & Hf'). split; simpl; [apply Hmv| | |].
  - intros i' c2 [[<- <-]|[Hne Hi']]%lookup_insert_Some; [done|by apply (Hkeep i')].
  - apply map_pairwise_insert; [done|]. intros i' c2 Hi' Hne.
    pose proof (apart_next m js i c c' m' i' c2 Hs Hi Htab Hmv Hi' Hne). split; [done|by apply apart_sym].
  - intros i' c2 vm h ip [[<- <-]|[Hne Hi']]%lookup_insert_Some Hvm; [by apply (Hf' vm)|by apply (Hfresh i' c2 vm h ip Hi' (not_eq_sym Hne))].
Qed.

Lemma shared_arrive m js i o :
  shared_inv (mk_shared m js) → js !! i = None → operation_wf o →
  (∀ i' c, js !! i' = Some c → distinct_creations c o) →
  shared_inv (mk_shared m (<[i := first o]> js)).
Proof.
  intros [Hinv Hcl Hap Hfr] Hi Hwf Hids. simpl in *.
  assert (held_vm (first o) = None ∧ held_ip (first o) = None) as [Evm Eip] by by destruct o.
  split; simpl; [done|..].
  - apply map_Forall_insert_2; [|done]. by destruct o.
  - apply map_pairwise_insert; [done|]. intros i' c Hi' Hne. pose proof (Hids i' c Hi').
    assert (apart (first o) c) as Hapart; [|by split; [|apply apart_sym]].
    split_and!; [by rewrite Evm| |by rewrite Eip]. destruct o; simpl in *; [|done..]. intros vm [= <-]. done.
  - intros i' c vm h ip [[<- <-]|[Hne Hi']]%lookup_insert_Some; [by rewrite Eip|by apply (Hfr i')].
Qed.

(** A step is an arrival or a phase. *)
Lemma op_step_phase compat m js s' (P : shared → Prop) :
  op_step compat (mk_shared m js) s' →
  (∀ i o, js !! i = None → operation_wf o → (∀ i' c, js !! i' = Some c → compat c o) →
     P (mk_shared m (<[i := first o]> js))) →
  (∀ i c w r m' w', js !! i = Some c → (needs_table c = true → table_free js) →
     advance_pc c (m, w) = (r, (m', w')) → P (mk_shared m' (after i r js))) →
  P s'.
Proof.
  intros Hs Harr Hph. inversion Hs as [? ? i o Hi Hwf Hc|? ? i c w c' m' w' Hi Htab Ha
    |? ? i c w r m' w' Hi Htab Ha Hr]; subst.
  - by apply Harr.
  - by apply (Hph i c w _ m' w' Hi Htab Ha).
  - pose proof (Hph i c w r m' w' Hi Htab Ha) as HP.
    destruct r as [[c'|a]|e|p]; [by destruct (Hr c')|done..].
Qed.

Lemma op_step_inv compat s s' :
  (∀ c o, compat c o → distinct_creations c o) → op_step compat s s' → shared_inv s → shared_inv s'.
Proof.
  intros Hc Hs Hinv. destruct s as [m js]. eapply op_step_phase; [exact Hs| |].
  - intros i o Hi Hwf Hall. apply shared_arrive; eauto.
  - intros i c w r m' w' Hi Htab Ha. eapply shared_advance; [done..|].
    pose proof (advance_pc_spec c m w (si_mgr _ Hinv) (si_claims _ Hinv i c Hi)
      (λ vm h ip Hvm, si_fresh _ Hinv i c vm h ip Hi Hvm)) as Hwp.
    unfold wp in Hwp. by rewrite Ha in Hwp.
Qed.
Lemma op_steps_inv compat s s' :
  (∀ c o, compat c o → distinct_creations c o) → rtc (op_step compat) s s' → shared_inv s → shared_inv s'.
Proof. intros Hc. induction 1; eauto using op_step_inv. Qed.

(** ** Whose forwards they are *)

(** A forward of a VM that is not recorded belongs to a deletion that is about to clear it,
    as long as no forward is being added to a VM whose deletion waits to begin. *)
Definition adds_to c : option string :=
  match c with AddCheck a | AddReserve a _ => Some (aa_vm a) | _ => None end.
Definition deletes c : option string := match c with DelTake vm => Some vm | _ => None end.
Definition clearing c : option string :=
  match c with DelStop vm _ | DelNuma vm _ | DelForwards vm _ => Some vm | _ => None end.
Definition separate c (o : operation Net) : Prop :=
  distinct_creations c o ∧
  match o with
  | OpDelete vm => adds_to c ≠ Some vm
  | OpAdd a => deletes c ≠ Some (aa_vm a)
  | _ => True
  end.

Record owned_inv (s : shared) : Prop := mk_owned_inv {
  oi_apart : ∀ i i' c c' vm, sh_ops s !! i = Some c → sh_ops s !! i' = Some c' →
    deletes c = Some vm → adds_to c' ≠ Some vm;
  oi_adds : ∀ i a ip, sh_ops s !! i = Some (AddReserve a ip) → is_Some (vms (sh_mgr s) !! aa_vm a);
  oi_forwards : ∀ k f, PortForwards.forwards (port_forwards (sh_mgr s)) !! k = Some f →
    is_Some (vms (sh_mgr s) !! f_vm_id f) ∨
    ∃ i c, sh_ops s !! i = Some c ∧ clearing c = Some (f_vm_id f);
}.

Definition clears (r : result error (pc Net W + answer)) (vm : string) : Prop :=
  ∃ c', r = Ok (inl c') ∧ clearing c' = Some vm.
Record keeps m c (r : result error (pc Net W + answer)) m' : Prop := mk_keeps {
  ke_vms : ∀ vm, is_Some (vms m !! vm) → is_Some (vms m' !! vm) ∨ deletes c = Some vm ∧ clears r vm;
  ke_forwards : ∀ k f, PortForwards.forwards (port_forwards m') !! k = Some f →
    is_Some (vms m' !! f_vm_id f) ∨
    PortForwards.forwards (port_forwards m) !! k = Some f ∧
      (clearing c = Some (f_vm_id f) → clears r (f_vm_id f));
  ke_next : ∀ c', r = Ok (inl c') → deletes c' = None ∧ (∀ vm, adds_to c' = Some vm → adds_to c = Some vm) ∧
    ∀ a ip, c' = AddReserve a ip → is_Some (vms m' !! aa_vm a);
}.
Definition ready m c : Prop :=
  loose_inv m ∧ pc_claim m c ∧
  ∀ vm h ip, vms m !! vm = Some h → held_ip c = Some ip → h_ip h ≠ ip.
Definition keeps_spec c : Prop := ∀ m w,
  ready m c → (∀ a ip, c = AddReserve a ip → is_Some (vms m !! aa_vm a)) →
  wp (advance_pc c) (λ r '(m', _), keeps m c r m') (m, w).

(** A phase that neither removes a VM nor registers a forward. *)
Lemma keeps_quiet m c r m' :
  vms m' = vms m →
  (∀ k f, PortForwards.forwards (port_forwards m') !! k = Some f →
     PortForwards.forwards (port_forwards m) !! k = Some f ∧
     (clearing c = Some (f_vm_id f) → clears r (f_vm_id f))) →
  (∀ c', r = Ok (inl c') → deletes c' = None ∧ (∀ vm, adds_to c' = Some vm → adds_to c = Some vm) ∧
     ∀ a ip, c' = AddReserve a ip → is_Some (vms m' !! aa_vm a)) →
  keeps m c r m'.
Proof. intros Ev Hf Hn. split; [intros vm; rewrite Ev; by left|intros k f Hk; right; by apply Hf|done]. Qed.

Lemma keeps_same m c r m' :
  vms m' = vms m → port_forwards m' = port_forwards m → (∀ vm, clearing c = Some vm → clears r vm) →
  (∀ c', r = Ok (inl c') → deletes c' = None ∧ adds_to c' = None) →
  keeps m c r m'.
Proof.
  intros Ev Ef Hc Hn. apply keeps_quiet; [done|intros k f; rewrite Ef; auto|].
  intros c' Hr. destruct (Hn c' Hr) as [Hd Ha]. rewrite Ha. split_and!; [done|done|]. by intros a ip ->.
Qed.

Lemma keeps_creating j ph : keeps_spec (Creating j ph).
Proof.
  intros m w (Hinv & Hcl & Hfresh) _. unfold advance_pc.
  apply wp_bind. eapply wp_mono; [by apply advance_spec|]. intros r [m' w'] [_ Hf _ _ _ Hr].
  assert (∀ vm, is_Some (vms m !! vm) → is_Some (vms m' !! vm)) as Hv.
  { intros vm Hvm. destruct r as [[ph'|i]|e|p]; [by destruct Hr as [-> _]| |by rewrite Hr..].
    destruct Hr as (_ & h & -> & _). rewrite lookup_insert. case_decide; [by eexists|done]. }
  assert (∀ r' : result error (pc Net W + answer),
    (∀ c', r' = Ok (inl c') → deletes c' = None ∧ adds_to c' = None) →
    keeps m (Creating j ph) r' m') as Hkeep.
  { intros r' Hn. split; [intros vm; left; by apply Hv|rewrite Hf; by right|].
    intros c' Hr'. destruct (Hn c' Hr') as [Hd Ha]. rewrite Ha. split_and!; [done|done|by intros a ip ->]. }
  destruct r as [[ph'|i]|e|p]; apply Hkeep; try done. by intros c' [= <-].
Qed.

Lemma keeps_take vm : keeps_spec (DelTake vm).
Proof.
  intros m w _ _. simpl. apply wp_bind, wp_self, wp_bind, wp_lift. unfold ok_or.
  destruct (vms m !! vm) as [h|] eqn:Hvm; [|by apply keeps_same].
  apply wp_bind, wp_update, wp_ret. split; simpl.
  - intros vm' Hvm'. destruct (decide (vm' = vm)) as [->|Hne].
    + right. split; [done|]. by exists (DelStop vm h).
    + left. by rewrite lookup_delete_ne.
  - intros k f Hk. by right.
  - intros c' [= <-]. by split_and!.
Qed.

Lemma keeps_stop vm h : keeps_spec (DelStop vm h).
Proof.
  intros m w _ _. simpl. apply wp_bind, stop_process_spec. intros w'. apply wp_ret, keeps_same; [done..| |].
  - intros vm' [= <-]. by exists (DelNuma vm h).
  - by intros c' [= <-].
Qed.
Lemma keeps_numa vm h : keeps_spec (DelNuma vm h).
Proof.
  intros m w _ _. simpl. apply wp_bind, wp_update, wp_ret, keeps_same; [done..| |].
  - intros vm' [= <-]. by exists (DelForwards vm h).
  - by intros c' [= <-].
Qed.

(** The forwards of the VM are gone when its deletion is past clearing them. *)
Lemma keeps_forwards vm h : keeps_spec (DelForwards vm h).
Proof.
  intros m w _ _. simpl. apply wp_bind, delete_forwards_spec. intros w'. apply wp_ret, keeps_quiet; [done| |].
  - intros k f. simpl. rewrite PortForwards.remove_all_forwards, map_lookup_filter_Some.
    intros [Hk Hne]. split; [done|]. intros [= Heq]. by destruct Hne.
  - intros c' [= <-]. by split_and!.
Qed.

Lemma keeps_addresses vm h : keeps_spec (DelAddresses vm h).
Proof.
  intros m w (_ & Hcl & _) _. simpl. apply wp_bind, delete_addresses_spec; [apply Hcl|].
  intros m' w' (Hc & _) _. apply core_eq in Hc as (Ev & _ & _ & _ & _ & _ & _ & _ & _ & Ep & _).
  apply wp_ret, keeps_same; [done..|]. by intros c' [= <-].
Qed.
Lemma keeps_devices vm h : keeps_spec (DelDevices vm h).
Proof.
  intros m w _ _. simpl. apply wp_bind, delete_devices_spec. intros w'. apply wp_ret, keeps_same; [done..|].
  by intros c' [= <-].
Qed.
Lemma keeps_drop vm h : keeps_spec (DelOffset vm h).
Proof.
  intros m w _ _. apply wp_bind, wp_self, wp_bind, wp_update, wp_ret, keeps_same; [done..|].
  by intros c' [= <-].
Qed.
Lemma keeps_file vm : keeps_spec (DelFile vm).
Proof.
  intros m w _ _. simpl. apply wp_bind, wp_self, wp_bind, wp_ignore; [apply total_delete_vm|].
  intros w'. by apply wp_ret, keeps_same.
Qed.

Lemma keeps_check a : keeps_spec (AddCheck a).
Proof.
  intros m w _ _. simpl. apply wp_bind, wp_self, wp_bind, wp_lift. unfold ok_or.
  destruct (vms m !! aa_vm a) as [h|] eqn:Hvm; [apply wp_ret|by apply keeps_same].
  apply keeps_quiet; [done|by intros|]. intros c' [= <-]. split_and!; [done|done|].
  intros a' ip [= <- <-]. by eexists.
Qed.
Lemma keeps_reserve a ip : keeps_spec (AddReserve a ip).
Proof.
  intros m w (_ & [Hhp Hvp] & _) Hvm. simpl. apply wp_bind, reserve_port_spec; [done..| |].
  - intros f Hid _ _ _. apply wp_ret. split; simpl; [by left| |].
    + intros k g [[<- <-]|[_ Hk]]%lookup_insert_Some; [left|by right]. rewrite Hid. by eapply Hvm.
    + intros c' [= <-]. by split_and!.
  - intros e. by apply keeps_same.
Qed.
Lemma keeps_nft a ip f : keeps_spec (AddNft a ip f).
Proof.
  intros m w _ _. simpl. apply wp_bind, wp_self, wp_bind.
  apply wp_attempt_host; [auto with cvm|intros; apply wp_ret, keeps_same; [done..|by intros c' [= <-]]..].
Qed.

(** Removing a forward leaves the others with their VMs. *)
Lemma keeps_removal m c r hp p :
  clearing c = None → (∀ c', r = Ok (inl c') → deletes c' = None ∧ adds_to c' = None) →
  keeps m c r (upd_forwards (λ _, (PortForwards.remove hp p (port_forwards m)).2) m).
Proof.
  intros Hc Hn. apply keeps_quiet; [done| |].
  - intros k f. simpl. intros [_ Hk]%lookup_delete_Some. split; [done|congruence].
  - intros c' Hr. destruct (Hn c' Hr) as [Hd Ha]. rewrite Ha. split_and!; [done|done|]. by intros a ip ->.
Qed.
Lemma keeps_rollback f e : keeps_spec (AddRollback f e).
Proof. intros m w _ _. simpl. apply wp_bind, wp_update, wp_throw. by apply keeps_removal. Qed.
Lemma keeps_unlist hp p : keeps_spec (RemTake hp p).
Proof.
  intros m w _ _. simpl. apply wp_bind, wp_self, wp_bind, wp_update, wp_bind, wp_lift.
  unfold ok_or. destruct (PortForwards.forwards (port_forwards m) !! (hp, p)); [apply wp_ret|];
    apply (keeps_removal m _ _ hp p); [done|by intros c' [= <-]|done|done].
Qed.

Lemma keeps_read a f : keeps_spec (AddRead a f).
Proof.
  intros m w _ _. apply wp_bind, read_persisted_spec. intros o w'. apply wp_ret, keeps_same; [done..|].
  by intros c' [= <-].
Qed.
Lemma keeps_list a f o : keeps_spec (AddList a f o).
Proof. intros m w _ _. apply wp_bind, wp_ret, wp_ret, keeps_same; [done..|]. by intros c' [= <-]. Qed.
Lemma keeps_save a f o : keeps_spec (AddSave a f o).
Proof. intros m w _ _. apply wp_bind, save_persisted_spec. intros w'. by apply wp_ret, keeps_same. Qed.
Lemma keeps_unroute hp p f : keeps_spec (RemNft hp p f).
Proof.
  intros m w _ _. simpl. apply wp_bind, wp_self, wp_bind.
  apply wp_host; [auto with cvm|intros; apply wp_ret|intros]; apply keeps_same; try done.
  by intros c' [= <-].
Qed.
Lemma keeps_reread f : keeps_spec (RemRead f).
Proof.
  intros m w _ _. apply wp_bind, read_persisted_spec. intros o w'. apply wp_ret, keeps_same; [done..|].
  by intros c' [= <-].
Qed.
Lemma keeps_relist f o : keeps_spec (RemList f o).
Proof. intros m w _ _. apply wp_bind, wp_ret, wp_ret, keeps_same; [done..|]. by intros c' [= <-]. Qed.
Lemma keeps_resave f o : keeps_spec (RemSave f o).
Proof. intros m w _ _. apply wp_bind, save_persisted_spec. intros w'. by apply wp_ret, keeps_same. Qed.

Lemma keeps_phase c : keeps_spec c.
Proof.
  destruct c; [apply keeps_creating|apply keeps_take|apply keeps_stop|apply keeps_numa|apply keeps_forwards
    |apply keeps_addresses|apply keeps_devices|apply keeps_drop|apply keeps_file|apply keeps_check
    |apply keeps_reserve|apply keeps_nft|apply keeps_rollback|apply keeps_read|apply keeps_list
    |apply keeps_save|apply keeps_unlist|apply keeps_unroute|apply keeps_reread|apply keeps_relist
    |apply keeps_resave].
Qed.

Lemma owned_arrive m js i o :
  owned_inv (mk_shared m js) → js !! i = None → (∀ i' c, js !! i' = Some c → separate c o) →
  owned_inv (mk_shared m (<[i := first o]> js)).
Proof.
  intros [Hap Hadd Hf] Hi Hsep. simpl in *. split; simpl.
  - intros i1 i2 c1 c2 vm [[<- <-]|[Hne1 Hi1]]%lookup_insert_Some [[<- <-]|[Hne2 Hi2]]%lookup_insert_Some Hd.
    + by destruct o.
    + destruct (Hsep i2 c2 Hi2) as [_ Hs]. destruct o; try done. by injection Hd as <-.
    + destruct (Hsep i1 c1 Hi1) as [_ Hs]. destruct o; try done. simpl. congruence.
    + by apply (Hap i1 i2 c1 c2).
  - intros i1 a ip [[<- He]|[Hne1 Hi1]]%lookup_insert_Some; [by destruct o|by apply (Hadd i1 a ip)].
  - intros k f Hk. destruct (Hf k f Hk) as [?|(i1 & c1 & Hi1 & Hc)]; [by left|right].
    exists i1, c1. split; [|done]. rewrite lookup_insert_ne; congruence.
Qed.

Lemma after_Some i r js i' c :
  after i r js !! i' = Some c → i' ≠ i ∧ js !! i' = Some c ∨ i' = i ∧ r = Ok (inl c).
Proof.
  destruct r as [[c'|a]|e|p]; simpl; [|intros [Hne Hi]%lookup_delete_Some; left; by split..].
  intros [[<- <-]|[Hne Hi]]%lookup_insert_Some; [by right|left; by split].
Qed.
Lemma after_ne i r js i' : i' ≠ i → after i r js !! i' = js !! i'.
Proof.
  intros Hne. destruct r as [[c'|a]|e|p]; simpl; [by apply lookup_insert_ne|by apply lookup_delete_ne..].
Qed.

Lemma owned_advance m js i c r m' :
  owned_inv (mk_shared m js) → js !! i = Some c → keeps m c r m' →
  owned_inv (mk_shared m' (after i r js)).
Proof.
  intros [Hap Hadd Hf] Hi [Hv Hfw Hn]. simpl in *. split; simpl.
  - intros i1 i2 c1 c2 vm [[Hne1 Hi1]|[-> Hr]]%after_Some Hi2 Hd; [|by destruct (Hn c1 Hr) as [Hno _]; congruence].
    apply after_Some in Hi2 as [[Hne2 Hi2]|[-> Hr]]; [by apply (Hap i1 i2 c1 c2)|].
    intros Ha. destruct (Hn c2 Hr) as (_ & Hback & _). by apply (Hap i1 i c1 c vm Hi1 Hi Hd), Hback.
  - intros i1 a ip [[Hne1 Hi1]|[-> Hr]]%after_Some; [|by destruct (Hn _ Hr) as (_ & _ & Hsome); eapply Hsome].
    destruct (Hv (aa_vm a)) as [?|[Hd _]]; [by eapply Hadd|done|].
    by destruct (Hap i i1 _ _ _ Hi Hi1 Hd).
  - assert (∀ vm, clears r vm → ∃ i1 c1, after i r js !! i1 = Some c1 ∧ clearing c1 = Some vm) as Hclears.
    { intros vm (c' & -> & Hc). exists i, c'. simpl. by rewrite lookup_insert_eq. }
    intros k f Hk. destruct (Hfw k f Hk) as [?|[Hk' Hc]]; [by left|].
    destruct (Hf k f Hk') as [Hvm|(i1 & c1 & Hi1 & Hc1)].
    + destruct (Hv _ Hvm) as [?|[_ Hcl]]; [by left|right; by apply Hclears].
    + right. destruct (decide (i1 = i)) as [->|Hne].
      * rewrite Hi in Hi1. injection Hi1 as <-. by apply Hclears, Hc.
      * exists i1, c1. by rewrite after_ne.
Qed.

Lemma op_step_owned s s' :
  op_step separate s s' → shared_inv s → owned_inv s → owned_inv s'.
Proof.
  intros Hs Hinv Hown. destruct s as [m js]. eapply op_step_phase; [exact Hs| |].
  - intros i o Hi Hwf Hall. by apply owned_arrive.
  - intros i c w r m' w' Hi Htab Ha. eapply owned_advance; [done..|].
    assert (ready m c) as Hready.
    { split_and!; [apply (si_mgr _ Hinv)|by apply (si_claims _ Hinv i)|].
      intros vm h ip. by apply (si_fresh _ Hinv i). }
    pose proof (keeps_phase c m w Hready (λ a ip Hc, oi_adds _ Hown i a ip (eq_trans Hi (f_equal Some Hc)))) as Hwp.
    unfold wp in Hwp. by rewrite Ha in Hwp.
Qed.

Lemma op_steps_owned s s' :
  rtc (op_step separate) s s' → shared_inv s → owned_inv s → shared_inv s' ∧ owned_inv s'.
Proof.
  induction 1 as [|s1 s2 s3 Hs _ IH]; [done|]. intros Hinv Hown.
  apply IH; [eapply op_step_inv; [|done..]; by intros c o []|by eapply op_step_owned].
Qed.

(** At rest both parts make the invariant of the manager. *)
Lemma at_rest m : shared_inv (mk_shared m ∅) → owned_inv (mk_shared m ∅) → mgr_inv m.
Proof.
  intros [Hinv _ _ _] [_ _ Hf]. simpl in *. apply mgr_inv_loose. split; [done|].
  intros k f Hk. destruct (Hf k f Hk) as [?|(i & c & Hi & _)]; [done|]. by rewrite lookup_empty in Hi.
Qed.
Lemma start m : mgr_inv m → shared_inv (mk_shared m ∅) ∧ owned_inv (mk_shared m ∅).
Proof.
  intros Hinv. apply mgr_inv_loose in Hinv as [Hloose Hown]. split; split; simpl; try done.
  intros k f Hk. left. by eapply Hown.
Qed.

(** ** Schedules *)

(** Run one phase of operation [i] on the host as it is, or wait for the table of VMs. *)
Definition waits c (js : gmap nat (pc Net W)) : bool :=
  needs_table c && negb (bool_decide (table_free js)).
Definition run_one (sw : shared * W) (i : nat) : shared * W :=
  match sh_ops sw.1 !! i with
  | None => sw
  | Some c =>
      if waits c (sh_ops sw.1) then sw else
      let '(r, (m', w')) := advance_pc c (sh_mgr sw.1, sw.2) in (mk_shared m' (after i r (sh_ops sw.1)), w')
  end.
Definition run_order (sw : shared * W) (order : list nat) : shared * W := foldl run_one sw order.

Lemma run_one_steps compat sw i : rtc (op_step compat) sw.1 (run_one sw i).1.
Proof.
  destruct sw as [[m js] w]. unfold run_one. simpl. destruct (js !! i) as [c|] eqn:Hi; [|done].
  unfold waits. destruct (needs_table c && _) eqn:Hw; [done|].
  assert (needs_table c = true → table_free js) as Htab.
  { intros Hn. rewrite Hn in Hw. by apply negb_false_iff, bool_decide_eq_true in Hw. }
  destruct (advance_pc c (m, w)) as [r [m' w']] eqn:Ha. simpl. apply rtc_once.
  destruct r as [[c'|a]|e|p]; simpl; [by eapply op_advance|by eapply op_end..].
Qed.

Lemma run_order_steps compat sw order : rtc (op_step compat) sw.1 (run_order sw order).1.
Proof.
  revert sw. induction order as [|i order IH]; intros sw; [done|]. simpl.
  etransitivity; [apply run_one_steps|apply IH].
Qed.

Lemma arrive_two_ops (compat : pc Net W → operation Net → Prop) m o o' :
  operation_wf o → operation_wf o' → compat (first o') o →
  rtc (op_step compat) (mk_shared m ∅) (mk_shared m {[ 0%nat := first o; 1%nat := first o' ]}).
Proof.
  intros Ho Ho' Hc. rewrite <-insert_empty.
  eapply rtc_l; [apply (op_arrive _ _ _ 1%nat o'); [done|done|by intros i c]|].
  apply rtc_once, op_arrive; [done|done|].
  by intros i c [[<- <-]|[_ ?]]%lookup_insert_Some.
Qed.
End overlap.
Arguments shared : clear implicits.

(** ** Properties *)

(** C1: operations that overlap. The phases of any number of creations, deletions and
    additions and removals of forwards interleave in any order, on any host and with any
    outcome of each phase. If no two creations of one id overlap, then at any time the
    addresses of the recorded VMs differ, their IPv6 ranges are disjoint, the NUMA counters
    are within the nodes, and each operation in flight keeps what it claims: the id of a
    creation stays free, the offset and the range it took are its own, and the address a
    deletion has still to give back is given to nobody. If moreover no forward is added to
    a VM whose deletion waits to begin, then whenever no operation is in flight the whole
    invariant holds, each forward belonging to a recorded VM. Run without interruption the
    phases are the operations. *)
Theorem overlapping_operations {Net W} `{IpNet Net} `{Host W} `{SerdeJson} (m : VmManager Net W) :
  mgr_inv m →
  (∀ s, rtc (op_step distinct_creations) (mk_shared m ∅) s → shared_inv s) ∧
  (∀ m', rtc (op_step separate) (mk_shared m ∅) (mk_shared m' ∅) → mgr_inv m') ∧
  ∀ o sw, run_pc 10 (first o) sw = whole o sw.
Proof.
  intros Hinv. destruct (start m Hinv) as [Hs Ho]. split_and!; [|
  |exact run_whole].
  - intros s Hrun. by eapply op_steps_inv; [|exact Hrun|exact Hs].
  - intros m' Hrun. destruct (op_steps_owned _ _ Hrun Hs Ho). by apply at_rest.
Qed.

(** The creation of [b] takes its offset before [a] is deleted and is recorded after. *)
Definition demo_crossing : shared sim_net sim * sim :=
  run_order (mk_shared demo_created
      {[ 0%nat := first (OpCreate (mk_job (demo_request "b") None None)); 1%nat := first (OpDelete "a") ]},
    demo_host)
    ([0; 0; 1] ++ replicate 6 0 ++ replicate 7 1 ++ [0; 0])%nat.
Definition demo_crossed : VmManager sim_net sim := sh_mgr demo_crossing.1.

Lemma demo_created_inv : mgr_inv demo_created.
Proof.
  apply (steps_inv demo_manager); [|apply new_inv, Numa.demo_topology_wf].
  apply rtc_once, (step_of (ReqCreate (demo_request "a") None None) _ demo_host), demo_request_wf.
Qed.

Lemma overlapping_operations_witness :
  mgr_inv demo_crossed ∧ dom (vms demo_crossed) = {["b"%string]} ∧ used_ip_offsets demo_crossed = {[2]}.
Proof.
  split; [|split; by vm_compute].
  apply (proj1 (proj2 (overlapping_operations demo_created demo_created_inv))).
  assert (sh_ops demo_crossing.1 = ∅) as Hend by by vm_compute.
  assert (demo_crossing.1 = mk_shared demo_crossed ∅) as <-
    by (unfold demo_crossed; destruct demo_crossing.1; simpl in *; by subst).
  etransitivity; [|apply run_order_steps].
  apply arrive_two_ops; [apply demo_request_wf|done|by split].
Defined.
