(* ===== verification/ManagerRaces.v ===== *)
(** * The VM manager: orders that go wrong

    Orders of phases, run on the simulated host, that the conditions of [ManagerOverlap]
    exclude or that concern what it does not speak of, the state files. *)

From S2P Require Import Prelude Strs Host HostSim Json Types NetTypes Instances Tee Verity Qemu.
From S2P Require Import Persistence Manager ManagerFrame ManagerSpec ManagerOps ManagerInv.
From S2P Require Import ManagerSafety ManagerProps ManagerRecover ManagerDurable ManagerConc ManagerPhases ManagerOverlap.
From S2P Require Bridge PortForwards Ipv6 Nft NdpProxy Numa.
#[local] Open Scope Z_scope.

(** ** The scene: one VM, its state file, and a host that answers *)

Definition forward_ruleset : Output :=
  ok_output (json_print (JObj [("nftables"%string,
    JArr (Nft.demo_chain "ip" "filter" "aleph-vm-filter-a" :: Nft.demo_ruleset))])).
(** The files that the creation of [a] has written, and the answers to the next commands. *)
Definition scene (outputs : list Output) : sim :=
  mk_sim (sim_files (create_vm (demo_request "a") None None (demo_manager, demo_host)).2.2) [] outputs
    [] 1700000000 [].
Definition add_a (port : Z) : operation sim_net := OpAdd (mk_add "a" port 80 Tcp).
Definition two (o o' : operation sim_net) : shared sim_net sim :=
  mk_shared demo_created {[ 0%nat := first o; 1%nat := first o' ]}.

(** Restart on the files that are left; no unit runs. *)
Definition reboot (w : sim) : sim := mk_sim (sim_files w) [] (replicate 8 (mk_output false "" "")) [] 0 [].
Definition restarted_on (w : sim) : VmManager sim_net sim := (recover_vms (demo_manager, reboot w)).2.1.

Lemma shared_ends (out : shared sim_net sim * sim) :
  sh_ops out.1 = ∅ → out = (mk_shared (sh_mgr out.1) ∅, out.2).
Proof. destruct out as [[m js] w]. simpl. by intros ->. Qed.

(** A recorded id cannot be created again. *)
Lemma taken_id c v6 hint (m : VmManager sim_net sim) w i :
  is_Some (vms m !! vm_id c) → (create_vm c v6 hint (m, w)).1 ≠ Ok i.
Proof.
  intros [h Hvm]. assert (wp (create_vm c v6 hint) (λ r _, r ≠ Ok i) (m, w)) as Hwp; [|exact Hwp].
  apply wp_bind, wp_self, wp_bind. rewrite Hvm. by apply wp_throw.
Qed.

(** ** A forward without a VM *)

(** The addition has checked that [a] exists; the deletion clears the forwards of [a]; the
    addition reserves the port and adds its rules; the deletion tears down the rest. *)
Definition outlive : shared sim_net sim * sim :=
  run_order (two (add_a 8080) (OpDelete "a"), scene [ok_output ""; forward_ruleset])
    ([0] ++ replicate 4 1 ++ [0; 0] ++ replicate 4 1 ++ replicate 4 0)%nat.

(** No other request can have a host port that is taken. *)
Lemma taken_port vm hp vp p (m : VmManager sim_net sim) w f :
  hp ≠ 0 → PortForwards.is_available hp p (port_forwards m) = false →
  (add_port_forward vm hp vp p (m, w)).1 ≠ Ok f.
Proof.
  intros Hne Hav. assert (wp (add_port_forward vm hp vp p) (λ r _, r ≠ Ok f) (m, w)) as Hwp; [|exact Hwp].
  unfold add_port_forward. apply wp_bind, wp_self, wp_bind, wp_lift. unfold ok_or.
  destruct (vms m !! vm); [|done]. apply wp_bind. unfold reserve_port. apply wp_bind, wp_self, wp_bind.
  apply Z.eqb_neq in Hne. rewrite Hne, Hav. by apply wp_throw.
Qed.

(** The check that the VM exists and the reservation of the port are apart, so a
    deletion of the VM can come between them. In this order both operations run to their
    end and no VM is left, but the forward is registered: the invariant does not hold, and
    the port is refused to every VM, whatever the host answers, until an operator removes
    the forward or the node restarts. *)
Theorem forward_outlives_vm :
  ∃ m w, outlive = (mk_shared m ∅, w) ∧ rtc (op_step distinct_creations) (mk_shared demo_created ∅) (mk_shared m ∅) ∧
    vms m = ∅ ∧ list_port_forwards None m = [mk_forward "a" 8080 80 Tcp] ∧ ¬ mgr_inv m ∧
    ∀ vm vp w' f, (add_port_forward vm 8080 vp Tcp (m, w')).1 ≠ Ok f.
Proof.
  assert (sh_ops outlive.1 = ∅) as Hend by (vm_compute; reflexivity).
  set (m := sh_mgr outlive.1). exists m, outlive.2.
  pose proof (shared_ends outlive Hend) as Hout. fold m in Hout.
  assert (vms m = ∅) as Hvms by (vm_compute; reflexivity).
  assert (list_port_forwards None m = [mk_forward "a" 8080 80 Tcp]) as Hlist by (vm_compute; reflexivity).
  assert (PortForwards.forwards (port_forwards m) !! (8080, Tcp) = Some (mk_forward "a" 8080 80 Tcp)) as Hfwd
    by (vm_compute; reflexivity).
  assert (rtc (op_step distinct_creations) (mk_shared demo_created ∅) outlive.1) as Hrun.
  { etransitivity; [|apply run_order_steps]. apply arrive_two_ops; [|done..].
    unfold operation_wf, add_wf, u16_max. simpl. lia. }
  split_and!.
  - exact Hout.
  - rewrite Hout in Hrun. exact Hrun.
  - exact Hvms.
  - exact Hlist.
  - intros Hinv. destruct (inv_owned m Hinv _ _ Hfwd) as [h Hh]. rewrite Hvms in Hh. by apply lookup_empty_Some in Hh.
  - intros vm vp w' f. apply taken_port; [done|]. unfold PortForwards.is_available. by rewrite Hfwd.
Qed.

(** ** The state files *)

(** The deletion of [a] comes after the addition has read the state file. *)
Definition returns : shared sim_net sim * sim :=
  run_order (two (add_a 8080) (OpDelete "a"), scene [forward_ruleset])
    (replicate 4 0 ++ replicate 8 1 ++ replicate 2 0)%nat.
(** The second addition comes after the first has listed the forwards. *)
Definition lost : shared sim_net sim * sim :=
  run_order (two (add_a 8080) (add_a 9090), scene [forward_ruleset; ok_output ""; ok_output ""; forward_ruleset])
    (replicate 5 0 ++ replicate 6 1 ++ [0])%nat.

(** [a] is created and gets a forward; the forward is removed on a host where the first
    command fails. *)
Definition history_created : VmManager sim_net sim * sim :=
  (serve (ReqCreate (demo_request "a") None None) (demo_manager, demo_host)).2.
Definition history_forwarded : VmManager sim_net sim * sim :=
  (serve (ReqAddForward "a" 8080 80 Tcp) (history_created.1,
    mk_sim (sim_files history_created.2) [] (sim_outputs demo_forward_host) [] 1700000000 [])).2.
Definition unremoved : result error unit * (VmManager sim_net sim * sim) :=
  remove_port_forward 8080 Tcp
    (history_forwarded.1, mk_sim (sim_files history_forwarded.2) [true] [] [] 1700000000 []).

(** C38: where the state files and the manager part. Reading, listing and writing a state
    file are apart, and a deletion or another forward can come between them. In the first
    order a deletion removes the VM and its state file and the addition then writes the
    file back: no VM is recorded, but after a restart the deleted VM is there again, with
    its offset taken, and cannot be created. In the second order two forwards are added and
    both are registered, but the file ends with the first alone: a restart loses the other.
    The last case needs no second request: a removal that fails in nft has already
    unregistered the forward and leaves it in the file, so that a restart brings it back. *)
Theorem state_file_races :
  (∃ m w, returns = (mk_shared m ∅, w) ∧ vms m = ∅ ∧ used_ip_offsets m = ∅ ∧
     dom (vms (restarted_on w)) = {["a"%string]} ∧ used_ip_offsets (restarted_on w) = {[1]} ∧
     ∀ w' i, (create_vm (demo_request "a") None None (restarted_on w, w')).1 ≠ Ok i) ∧
  (∃ m w, lost = (mk_shared m ∅, w) ∧
     (∀ port, port = 8080 ∨ port = 9090 →
       PortForwards.forwards (port_forwards m) !! (port, Tcp) = Some (mk_forward "a" port 80 Tcp)) ∧
     list_port_forwards (Some "a"%string) (restarted_on w) = [mk_forward "a" 8080 80 Tcp]) ∧
  (is_err unremoved.1 = true ∧ list_port_forwards None unremoved.2.1 = [] ∧
     list_port_forwards None (restarted_on unremoved.2.2) = [mk_forward "a" 8080 80 Tcp]).
Proof.
  split; [|split; [|split_and!; vm_compute; reflexivity]].
  - assert (sh_ops returns.1 = ∅) as Hend by (vm_compute; reflexivity).
    assert (vms (sh_mgr returns.1) = ∅) as Hvms by (vm_compute; reflexivity).
    assert (used_ip_offsets (sh_mgr returns.1) = ∅) as Hused by (vm_compute; reflexivity).
    assert (dom (vms (restarted_on returns.2)) = {["a"%string]}) as Hback by (vm_compute; reflexivity).
    assert (used_ip_offsets (restarted_on returns.2) = {[1]}) as Hoff by (vm_compute; reflexivity).
    exists (sh_mgr returns.1), returns.2.
    split_and!; [exact (shared_ends returns Hend)|exact Hvms|exact Hused|exact Hback|exact Hoff|].
    intros w' i. apply taken_id. clear - Hback. revert Hback. generalize (restarted_on returns.2).
    intros m2 Hback. apply elem_of_dom. rewrite Hback. by apply elem_of_singleton.
  - assert (sh_ops lost.1 = ∅) as Hend by (vm_compute; reflexivity).
    assert (PortForwards.forwards (port_forwards (sh_mgr lost.1)) !! (8080, Tcp) = Some (mk_forward "a" 8080 80 Tcp))
      as H1 by (vm_compute; reflexivity).
    assert (PortForwards.forwards (port_forwards (sh_mgr lost.1)) !! (9090, Tcp) = Some (mk_forward "a" 9090 80 Tcp))
      as H2 by (vm_compute; reflexivity).
    assert (list_port_forwards (Some "a"%string) (restarted_on lost.2) = [mk_forward "a" 8080 80 Tcp]) as Hlist
      by (vm_compute; reflexivity).
    exists (sh_mgr lost.1), lost.2.
    split_and!; [exact (shared_ends lost Hend)| |exact Hlist].
    intros port [Hp | Hp]; rewrite Hp; [exact H1|exact H2].
Qed.
