(* ===== verification/Startup.v ===== *)
(** * The start of the compute node

    [src/crates/aleph-compute-node/src/main.rs] and [ComputeNodeServer::serve] of
    [grpc/service.rs]: from the command line to a manager that serves requests on a Unix
    socket. *)

From S2P Require Import Prelude Strs Host Json Types NetTypes Crypto SevCerts Tee SevVerify.
From S2P Require Import Persistence Manager.
From S2P Require Numa Hugepages Bridge.
#[local] Open Scope Z_scope.

(** ** Arguments *)

Record Cli (Net : Type) := mk_cli {
  grpc_socket : string;
  cli_bridge : string;
  cli_gateway_ip : Ipv4Addr;
  cli_run_dir : string;
  cli_state_dir : string;
  amd_product : string;
  cli_dhcp_hostsdir : option string;
  cli_ovmf_path : option string;
  external_interface : option string;
  ipv6_pool : option Net;
  use_ndp_proxy : option bool;
  memory_limit : option Z;      (** u32, MiB *)
  hugepage_headroom : Z;        (** u32, MiB *)
}.
Arguments grpc_socket {_}.
Arguments cli_bridge {_}.
Arguments cli_gateway_ip {_}.
Arguments cli_run_dir {_}.
Arguments cli_state_dir {_}.
Arguments amd_product {_}.
Arguments cli_dhcp_hostsdir {_}.
Arguments cli_ovmf_path {_}.
Arguments external_interface {_}.
Arguments ipv6_pool {_}.
Arguments use_ndp_proxy {_}.
Arguments memory_limit {_}.
Arguments hugepage_headroom {_}.

(** [str::parse::<u32>] with the text of its error. *)
Definition parse_u32 (s : string) : result string Z := map_err err_msg (parse_int u32_max s).

(** [strip_suffix(a).or_else(|| strip_suffix(b))]. *)
Definition strip_either (a b s : string) : option string :=
  match strip_suffix a s with Some t => Some t | None => strip_suffix b s end.

Definition parse_size_mb (s : string) : result string Z :=
  let s := to_uppercase (trim s) in
  match strip_either "G" "GB" s with
  | Some gb =>
      g ← parse_u32 (trim gb);
      match checked_mul u32_max g 1024 with
      | Some mb => Ok mb
      | None => Err (print_dec g ++ "G overflows u32 MB")%str
      end
  | None =>
      match strip_either "M" "MB" s with
      | Some mb => parse_u32 (trim mb)
      | None => parse_u32 s
      end
  end.

(** The first line whose destination is the default route. *)
Fixpoint default_route (ls : list string) : option string :=
  match ls with
  | [] => None
  | line :: ls' =>
      match split_whitespace line with
      | name :: dest :: _ => if String.eqb dest "00000000" then Some name else default_route ls'
      | _ => default_route ls'
      end
  end.

Section start.
Context `{SevCrate, OpenSsl, Hex} {Net W : Type} `{IpNet Net} `{Host W} `{SerdeJson} `{Web W, SevGuest W}.

Definition detect_default_interface : M W error (option string) :=
  content ← attempt (io (host_read "/proc/net/route"));
  mret match content with Ok c => default_route (drop 1 (lines c)) | _ => None end.

(** Run an operation of a component on its state; the caller sees its error and the state. *)
Definition run_on {S A} (s : S) (op : M (S * W) error A) : M W error (result error A * S) := λ w,
  match op (s, w) with
  | (Panic p, (_, w')) => (Panic p, w')
  | (r, (s', w')) => (Ok (r, s'), w')
  end.

Definition tee_backends (cli : Cli Net) : gmap TeeType (TeeBackend W) :=
  let sev := new_backend (amd_product cli) in
  let sev := match cli_ovmf_path cli with Some p => with_ovmf_path sev p | None => sev end in
  <[TeeNone := no_tee_backend W]> {[SevSnp := sev_snp_backend sev]}.

(** The bridge and IPv6 forwarding; the external interface. *)
Definition prepare_host (cli : Cli Net) : M W error string :=
  external ← match external_interface cli with
             | Some i => mret i
             | None => d ← detect_default_interface; mret (default "eth0"%string d)
             end;
  with_context "failed to ensure bridge"
    (Bridge.ensure_bridge (cli_bridge cli) (cli_gateway_ip cli) 24);;
  match ipv6_pool cli with
  | Some _ =>
      attempt (E' := error) (io (host_write "/proc/sys/net/ipv6/conf/all/forwarding" "1"));; mret tt
  | None => mret tt
  end;;
  mret external.

(** [main] up to the server. *)
Definition start_node (cli : Cli Net) : M W error (VmManager Net W) :=
  external ← prepare_host cli;
  let use_ndp := default (match ipv6_pool cli with Some _ => true | None => false end)
                   (use_ndp_proxy cli) in
  topology ← with_context "failed to detect NUMA topology" Numa.detect;
  reserved ← run_on topology
    (Hugepages.allocate_hugepages (hugepage_headroom cli) (memory_limit cli)
       "/sys/devices/system/node");
  let manager := new (cli_run_dir cli) (cli_state_dir cli) (cli_bridge cli) (cli_gateway_ip cli)
    (tee_backends cli) (cli_dhcp_hostsdir cli) external (ipv6_pool cli) use_ndp reserved.2 in
  ready ← run_on manager setup_nftables;
  lift (context "failed to initialize nftables" ready.1);;
  recovered ← run_on ready.2 recover_vms;
  mret recovered.2.
End start.

(** ** service.rs: the server *)

(** tokio's listener and tonic's server, which runs until a signal. *)
Class NodeServer (Net W : Type) := {
  uds_bind : string → W → (string + unit) * W;
  reflection_service : string + unit;
  serve_until_shutdown : VmManager Net W → W → (string + unit) * W;
}.

Section serve.
Context `{SevCrate, OpenSsl, Hex} {Net W : Type} `{IpNet Net} `{Host W} `{SerdeJson} `{Web W, SevGuest W}.
Context `{!NodeServer Net W}.

Definition serve (manager : VmManager Net W) (socket_path : string) : M W error unit :=
  stale ← observe (host_exists socket_path);
  (if (stale : bool) then io (host_remove_file socket_path) else mret tt);;
  match path_parent socket_path with
  | Some parent => io (host_create_dir_all parent)
  | None => mret tt
  end;;
  run_q (uds_bind socket_path);;
  io (host_set_mode socket_path (6 * 8 ^ 2));;
  _ ← lift (ext reflection_service);
  run_q (serve_until_shutdown manager);;
  attempt (run_io (host_remove_file socket_path));; mret tt.

Definition main (cli : Cli Net) : M W error unit :=
  manager ← start_node cli;
  serve manager (grpc_socket cli).
End serve.

(** ** Sizes *)

Definition white (s : string) : Prop := all_chars Ascii.is_space s = true.

Lemma trim_start_white a s : white a →
  trim_start_by Ascii.is_space (a ++ s) = trim_start_by Ascii.is_space s.
Proof.
  unfold white. induction a as [|c a IH]; simpl; [done|].
  rewrite andb_true_iff. intros [-> Ha]. by apply IH.
Qed.

Lemma trim_end_white s c : white c →
  trim_end_by Ascii.is_space (s ++ c) = trim_end_by Ascii.is_space s.
Proof.
  unfold white. intros Hc. induction s as [|d s IH]; simpl; [|by rewrite IH].
  change ("" ++ c)%str with c. induction c as [|d c IH]; simpl in *; [done|].
  apply andb_true_iff in Hc as [Hd Hc]. by rewrite IH, Hd.
Qed.

Lemma trim_around a n s c : 0 ≤ n → white a → white c →
  trim (a ++ (print_dec n ++ s) ++ c) = trim_end_by Ascii.is_space (print_dec n ++ s).
Proof.
  intros Hn Ha Hc. unfold trim. rewrite trim_start_white by done.
  pose proof (print_dec_digits n Hn) as Hd.
  destruct (print_dec_cons n) as (d & t & Hp). rewrite Hp in *.
  simpl in Hd. apply andb_true_iff in Hd as [Hd _].
  assert (Ascii.is_space d = false) as Hs by by destruct d as [[] [] [] [] [] [] [] []].
  change (trim_start_by Ascii.is_space ((String d t ++ s) ++ c)) with
    (if Ascii.is_space d then trim_start_by Ascii.is_space ((t ++ s) ++ c)
     else (String d t ++ s) ++ c)%str.
  rewrite Hs. by apply trim_end_white.
Qed.

Lemma to_uppercase_app s t : to_uppercase (s ++ t) = (to_uppercase s ++ to_uppercase t)%str.
Proof.
  unfold to_uppercase. induction s as [|c s IH]; [done|].
  change (map_chars to_upper_char (String c s ++ t)) with
    (String (to_upper_char c) (map_chars to_upper_char (s ++ t))). by rewrite IH.
Qed.

Lemma to_uppercase_id p s :
  (∀ c, p c = true → is_ascii_lowercase c = false) → all_chars p s = true → to_uppercase s = s.
Proof.
  intros Hp. unfold to_uppercase. induction s as [|c s IH]; simpl; [done|].
  rewrite andb_true_iff. intros [Hc Hs]. unfold to_upper_char at 1. by rewrite Hp, IH.
Qed.

Lemma strip_suffix_chars p q s :
  all_chars q s = true → all_chars q p = false → strip_suffix p s = None.
Proof.
  intros Hs Hp. destruct (strip_suffix p s) as [r|] eqn:Hr; [|done].
  apply strip_suffix_Some in Hr. subst s. rewrite all_chars_app, Hp, andb_false_r in Hs. done.
Qed.

(** What is left of the text once the white space around it is gone. *)
Lemma parse_size_mb_unit n a b c u : 0 ≤ n → white a → white b → white c →
  u ≠ ""%string → trim_end_by Ascii.is_space u = u →
  to_uppercase (trim (a ++ (print_dec n ++ b ++ u) ++ c)) =
    ((print_dec n ++ b) ++ to_uppercase u)%str.
Proof.
  intros Hn Ha Hb Hc Hu Ht. rewrite trim_around by done.
  rewrite <-str_app_assoc, trim_end_by_app, Ht by congruence.
  rewrite !to_uppercase_app. do 2 f_equal.
  - apply (to_uppercase_id is_ascii_digit); [|by apply print_dec_digits].
    by intros [[] [] [] [] [] [] [] []].
  - apply (to_uppercase_id Ascii.is_space); [|done]. by intros [[] [] [] [] [] [] [] []].
Qed.

Definition fits_u32 (n : Z) : result string Z := if n <=? u32_max then Ok n else Err too_large.

Lemma parse_u32_print n : 0 ≤ n → parse_u32 (print_dec n) = fits_u32 n.
Proof.
  intros Hn. unfold parse_u32, fits_u32. rewrite parse_int_print_dec by done. by destruct (n <=? u32_max).
Qed.

Lemma parse_u32_number n b : 0 ≤ n → white b → parse_u32 (trim (print_dec n ++ b)) = fits_u32 n.
Proof.
  intros Hn Hb. pose proof (trim_around "" n "" b ltac:(lia) eq_refl Hb) as Ht.
  rewrite str_app_nil_l, !str_app_nil_r in Ht. rewrite Ht, trim_end_by_id.
  - by apply parse_u32_print.
  - eapply all_chars_impl; [|apply print_dec_digits; lia]. by intros [[] [] [] [] [] [] [] []].
Qed.

(** A text that ends in other characters has no such suffix. *)
Ltac no_suffix :=
  match goal with
  | |- context [strip_suffix ?p ?s] =>
      let E := fresh in
      destruct (strip_suffix p s) eqn:E;
      [apply strip_suffix_Some, (f_equal String.rev) in E; rewrite !str_rev_app in E; discriminate E|]
  end.

Lemma strip_units x :
  strip_either "G" "GB" (x ++ "G") = Some x ∧ strip_either "G" "GB" (x ++ "GB") = Some x ∧
  strip_either "G" "GB" (x ++ "M") = None ∧ strip_either "G" "GB" (x ++ "MB") = None ∧
  strip_either "M" "MB" (x ++ "M") = Some x ∧ strip_either "M" "MB" (x ++ "MB") = Some x.
Proof.
  unfold strip_either.
  repeat split; try (by rewrite strip_suffix_app); repeat no_suffix; rewrite ?strip_suffix_app; done.
Qed.

Lemma strip_digits a b s :
  all_chars is_ascii_digit s = true →
  all_chars is_ascii_digit a = false → all_chars is_ascii_digit b = false →
  strip_either a b s = None.
Proof.
  intros Hs Ha Hb. unfold strip_either. by rewrite !(strip_suffix_chars _ is_ascii_digit).
Qed.

(** Sizes without a unit, in MiB and in GiB, with white space around each part. *)
Lemma parse_size_plain n a c : 0 ≤ n → white a → white c →
  parse_size_mb (a ++ print_dec n ++ c) = fits_u32 n.
Proof.
  intros Hn Ha Hc. pose proof (print_dec_digits n ltac:(lia)) as Hd.
  assert (to_uppercase (trim (a ++ print_dec n ++ c)) = print_dec n) as Hu.
  { pose proof (trim_around a n "" c ltac:(lia) Ha Hc) as Ht. rewrite str_app_nil_r in Ht.
    rewrite Ht, trim_end_by_id.
    - apply (to_uppercase_id is_ascii_digit); [|done]. by intros [[] [] [] [] [] [] [] []].
    - eapply all_chars_impl; [|exact Hd]. by intros [[] [] [] [] [] [] [] []]. }
  unfold parse_size_mb. rewrite Hu, !strip_digits by done.
  by apply parse_u32_print.
Qed.

(** The MiB of so many GiB. *)
Definition gib_in_mib (n : Z) : result string Z :=
  if n <=? u32_max then
    if n * 1024 <=? u32_max then Ok (n * 1024) else Err (print_dec n ++ "G overflows u32 MB")%str
  else Err too_large.

Lemma parse_size_units n a b c u : 0 ≤ n → white a → white b → white c →
  (u ∈ ["M"; "m"; "MB"; "mB"; "Mb"; "mb"]%string →
   parse_size_mb (a ++ (print_dec n ++ b ++ u) ++ c) = fits_u32 n) ∧
  (u ∈ ["G"; "g"; "GB"; "gB"; "Gb"; "gb"]%string →
   parse_size_mb (a ++ (print_dec n ++ b ++ u) ++ c) = gib_in_mib n).
Proof.
  intros Hn Ha Hb Hc.
  destruct (strip_units (print_dec n ++ b)) as (Hg & Hgb & Hgm & Hgmb & Hm & Hmb).
  pose proof (parse_u32_number n b Hn Hb) as Hp.
  assert (∀ v, v = "M" ∨ v = "MB" →
    strip_either "G" "GB" ((print_dec n ++ b) ++ v) = None ∧
    strip_either "M" "MB" ((print_dec n ++ b) ++ v) = Some (print_dec n ++ b)%str)%string as HM
    by (by intros v [->| ->]).
  assert (∀ v, v = "G" ∨ v = "GB" →
    strip_either "G" "GB" ((print_dec n ++ b) ++ v) = Some (print_dec n ++ b)%str)%string as HG
    by (by intros v [->| ->]).
  split; intros Hu; rewrite !elem_of_cons, elem_of_nil in Hu;
    (unfold parse_size_mb; rewrite parse_size_mb_unit;
     [|lia|done|done|done|by destruct_or!; subst|by destruct_or!; subst]).
  - assert (to_uppercase u = "M" ∨ to_uppercase u = "MB")%string as Hv by (destruct_or!; subst; auto).
    destruct (HM _ Hv) as [-> ->]. exact Hp.
  - assert (to_uppercase u = "G" ∨ to_uppercase u = "GB")%string as Hv by (destruct_or!; subst; auto).
    rewrite (HG _ Hv), Hp. unfold fits_u32, gib_in_mib. destruct (n <=? u32_max); [|done].
    cbn [mbind result_bind]. unfold checked_mul. case_decide as Hg1; [by rewrite (proj2 (Z.leb_le _ _) Hg1)|].
    by rewrite (proj2 (Z.leb_gt _ _)) by lia.
Qed.

Lemma parse_size_mb_bounds s :
  match parse_size_mb s with Ok n => 0 ≤ n ≤ u32_max | Err _ => True | Panic _ => False end.
Proof.
  assert (∀ x, match parse_u32 x with Ok n => 0 ≤ n ≤ u32_max | Err _ => True | Panic _ => False end) as Hu.
  { intros x. unfold parse_u32. destruct (parse_int u32_max x) as [n|e|p] eqn:Hx; cbn; [|done|].
    - by apply (parse_int_bounds u32_max x).
    - by apply (parse_int_no_panic u32_max x p). }
  unfold parse_size_mb. destruct (strip_either "G" "GB" _) as [g|].
  - specialize (Hu (trim g)). destruct (parse_u32 (trim g)) as [n|e|p]; cbn; [|done|done].
    unfold checked_mul. case_decide; cbn; [lia|done].
  - destruct (strip_either "M" "MB" _); apply Hu.
Qed.

(** C40: sizes on the command line, for the printed decimal of any number. It means that
    many MiB when it stands alone or before M or MB, and 1024 times as many before G or GB,
    in either case and with white space around each part. A number above the u32 range is
    refused in each place, and one of GiB whose MiB are above it too, never wrapped.
    Whatever the text, the parser does not panic and an accepted size is a u32. *)
Theorem parse_size_mb_exact :
  (∀ n a b c u, 0 ≤ n → white a → white b → white c →
    parse_size_mb (a ++ print_dec n ++ c) = (if n <=? u32_max then Ok n else Err too_large) ∧
    (u ∈ ["M"; "m"; "MB"; "mB"; "Mb"; "mb"]%string →
     parse_size_mb (a ++ (print_dec n ++ b ++ u) ++ c) =
       if n <=? u32_max then Ok n else Err too_large) ∧
    (u ∈ ["G"; "g"; "GB"; "gB"; "Gb"; "gb"]%string →
     parse_size_mb (a ++ (print_dec n ++ b ++ u) ++ c) =
       if n <=? u32_max then
         if n * 1024 <=? u32_max then Ok (n * 1024)
         else Err (print_dec n ++ "G overflows u32 MB")%str
       else Err too_large)) ∧
  (∀ s, match parse_size_mb s with
        | Ok n => 0 ≤ n ≤ u32_max | Err _ => True | Panic _ => False end).
Proof.
  split; [|exact parse_size_mb_bounds].
  intros n a b c u Hn Ha Hb Hc. split; [by apply parse_size_plain|by apply parse_size_units].
Qed.

Lemma parse_size_mb_exact_witness :
  parse_size_mb " 4 GB " = Ok 4096 ∧
  parse_size_mb "4294967297" = Err "number too large to fit in target type"%string ∧
  parse_size_mb "4194304G" = Err "4194304G overflows u32 MB"%string.
Proof.
  split; [|split].
  - exact (proj2 (proj2 (proj1 parse_size_mb_exact 4 " " " " " " "GB"
      ltac:(done) eq_refl eq_refl eq_refl)) ltac:(set_solver)).
  - exact (proj1 (proj1 parse_size_mb_exact 4294967297 "" "" "" "" ltac:(done) eq_refl eq_refl eq_refl)).
  - exact (proj2 (proj2 (proj1 parse_size_mb_exact 4194304 "" "" "" "G"
      ltac:(done) eq_refl eq_refl eq_refl)) ltac:(set_solver)).
Defined.
