(* ===== verification/NodeStart.v ===== *)
(** * A node over its life

    [start_node] of [Startup] joined to the manager and its state files: a process starts,
    serves requests and ends, again and again, on one machine; it may also die in the middle
    of a request or of its start. What the manager recorded is in the state files when the
    process ends, and the next process starts with it; a request that was under way is in
    them as a whole or not at all. *)

From S2P Require Import Prelude Strs Host HostSim Json Types NetTypes Instances Crypto SevCerts Tee SevVerify.
From S2P Require Import CryptoSim.
From S2P Require Import Startup Verity Qemu Persistence StateDir Manager ManagerFrame ManagerSpec ManagerOps ManagerInv.
From S2P Require Import ManagerSafety ManagerProps ManagerRecover ManagerDurable NumaSysfs.
From S2P Require Bridge PortForwards Ipv6 Nft NdpProxy Numa Hugepages.
#[local] Open Scope Z_scope.

(** ** The calls of the start *)

Section quiet.
Context {Net W : Type} (d : string) `{!IpNet Net, !Host W, !HostFs W, !StateDir W d, !SerdeJson}.

Lemma quiet_ensure_bridge br ip len : quiet d (Bridge.ensure_bridge br ip len).
Proof. pose proof (quiet_run_ip d). unfold Bridge.ensure_bridge. quiet_tac. Qed.
Lemma total_ensure_bridge br ip len : total (Bridge.ensure_bridge br ip len : M W error unit).
Proof. unfold Bridge.ensure_bridge. total_tac; apply Bridge.total_run_ip. Qed.

Lemma quiet_prepare (cli : Cli Net) : quiet d (prepare_host cli).
Proof.
  pose proof quiet_ensure_bridge. pose proof (other_path d "/proc/sys/net/ipv6/conf/all/forwarding" eq_refl).
  unfold prepare_host, detect_default_interface. quiet_tac.
Qed.
Lemma total_prepare (cli : Cli Net) : total (prepare_host cli : M W error string).
Proof. unfold prepare_host, detect_default_interface. total_tac. all: apply total_ensure_bridge. Qed.

Lemma quiet_from_sysfs base : quiet d (Numa.from_sysfs base).
Proof.
  unfold Numa.from_sysfs. apply quiet_bind; [quiet_tac|intros es]. apply quiet_bind; [|intros; quiet_tac].
  induction (Numa.node_entries es) as [|n ns IH]; simpl; [quiet_tac|].
  apply quiet_bind; [unfold Numa.read_node; quiet_tac|intros]. apply quiet_bind; [exact IH|intros; quiet_tac].
Qed.

Lemma quiet_initialize m : quiet d (Nft.initialize m).
Proof.
  pose proof (quiet_list_ruleset d). pose proof (quiet_nft_commands d).
  unfold Nft.initialize, Nft.find_or_create_table_for_hook. quiet_tac.
Qed.

Lemma quiet_allocate_loop base h cap ns f t : quiet d (Hugepages.allocate_loop base h cap ns f t).
Proof.
  assert (∀ i, ¬ state_file d (path_join (path_join base i) "hugepages/hugepages-2048kB/nr_hugepages"))
    as Hp by (intros; by apply other_join).
  revert f t. induction ns as [|n ns IH]; intros f t; cbn [Hugepages.allocate_loop]; [quiet_tac|].
  assert (∀ n' f' t', quiet d ('(done, f, t) ← Hugepages.allocate_loop base h cap ns f' t';
    mret (n' :: done, f, t))) as Hrest.
  { intros. apply quiet_bind; [apply IH|intros [[done f2] t2]; quiet_tac]. }
  case_match; [apply Hrest|]. apply quiet_bind.
  - unfold Hugepages.allocate_2m_pages_on_node. quiet_tac.
  - intros [c|e|p]; apply Hrest.
Qed.
Lemma quiet_hugepages h limit base : quiet_on d (Hugepages.allocate_hugepages h limit base).
Proof.
  apply quiet_on_bind; [apply quiet_on_fst|intros t]. cbv zeta. case_match; [apply quiet_on_ret|].
  apply quiet_on_bind; [apply quiet_on_snd, quiet_allocate_loop|intros [[ns f] n]].
  apply quiet_on_bind; [apply quiet_on_fst|intros _]. case_match; [apply quiet_on_throw|apply quiet_on_ret].
Qed.
End quiet.

(** ** The start *)

Section start.
Context `{!SevCrate, !OpenSsl, !Hex} {Net W : Type} `{!IpNet Net, !Host W, !HostFs W, !SerdeJson}.
Context `{!Web W, !SevGuest W} (cli : Cli Net) `{!StateDir W (cli_state_dir cli)}.
Abbreviation d := (cli_state_dir cli).

(** The manager has the settings of the command line, and its VMs are in the state files. *)
Definition kept (m : VmManager Net W) (w : W) : Prop :=
  mgr_inv m ∧ tracked d (cli_dhcp_hostsdir cli) (cli_gateway_ip cli) (ipv6_pool cli) m w.

(** When the start comes to read the topology, sysfs is as Linux lays it out. *)
Definition machine_ok (w : W) : Prop := ∀ external w1,
  prepare_host cli w = (Ok external, w1) → sysfs_ok "/sys/devices/system/node" w1.

(** The steps at which a start may fail. *)
Definition start_errors : list string :=
  ["failed to ensure bridge"; "failed to detect NUMA topology"; "failed to initialize nftables"].

(** The end of a start: [Q] for a manager that serves, or an error of an early step, which
    leaves the state files alone. *)
Definition started (w0 : W) (Q : VmManager Net W → W → Prop) (r : result error (VmManager Net W)) (w : W) : Prop :=
  match r with
  | Ok m => Q m w
  | Err e => err_msg e ∈ start_errors ∧ undisturbed d w0 w
  | Panic _ => False
  end.

Lemma early_step {A} w0 (c : M W error A) (f : A → M W error (VmManager Net W)) Q w :
  quiet d c → total c → (∀ e w', c w = (Err e, w') → err_msg e ∈ start_errors) → undisturbed d w0 w →
  (∀ a w', c w = (Ok a, w') → undisturbed d w0 w' → wp (f a) (started w0 Q) w') →
  wp (c ≫= f) (started w0 Q) w.
Proof.
  intros Hq Ht He Hw Hf. apply wp_bind. unfold wp at 1. specialize (Hq w). specialize (Ht w).
  destruct (c w) as [[a|e|p] w'] eqn:Hc; simpl in *.
  - apply Hf; [done|]. by etransitivity.
  - split; [by eapply He|by etransitivity].
  - by destruct (Ht p).
Qed.

Lemma with_context_msg {A} msg (c : M W error A) w e w' :
  with_context msg c w = (Err e, w') → err_msg e = msg.
Proof. unfold with_context. destruct (c w) as [[a|e'|p] w1]; [done| |done]. by intros [= <- <-]. Qed.

Lemma run_on_spec {S A} (s : S) (op : M (S * W) error A) Q w :
  wp op (λ r '(s', w'), match r with Panic p => Q (Panic p) w' | _ => Q (Ok (r, s')) w' end) (s, w) →
  wp (run_on s op) Q w.
Proof. unfold wp, run_on. by destruct (op (s, w)) as [[a|e|p] [s' w']]. Qed.

(** [prepare_host] fails only when the bridge cannot be set up. *)
Lemma prepare_errors w e w' : prepare_host cli w = (Err e, w') → err_msg e ∈ start_errors.
Proof.
  intros Hp. assert (wp (prepare_host cli) (λ r _, match r with Err e => err_msg e ∈ start_errors | _ => True end) w)
    as Hwp; [|unfold wp in Hwp; rewrite Hp in Hwp; exact Hwp].
  unfold prepare_host. apply wp_bind.
  assert (∀ w1, wp (with_context "failed to ensure bridge"
      (Bridge.ensure_bridge (cli_bridge cli) (cli_gateway_ip cli) 24))
    (λ r _, match r with Err e => err_msg e ∈ start_errors | _ => True end) w1) as Hb.
  { intros w1. unfold wp. destruct (with_context _ _ w1) as [[u|e1|p] w2] eqn:Hc; [done| |done].
    simpl. rewrite (with_context_msg _ _ _ _ _ Hc). unfold start_errors. set_solver. }
  assert (∀ (i : string) w1, wp (with_context "failed to ensure bridge"
      (Bridge.ensure_bridge (cli_bridge cli) (cli_gateway_ip cli) 24);;
      match ipv6_pool cli with
      | Some _ => attempt (E' := error) (io (host_write "/proc/sys/net/ipv6/conf/all/forwarding" "1"));; mret tt
      | None => mret tt
      end;; mret i)
    (λ r _, match r with Err e => err_msg e ∈ start_errors | _ => True end) w1) as Hrest.
  { intros i w1. apply wp_bind. eapply wp_mono; [apply Hb|]. intros [u|e1|p] w2 He; [|exact He|done].
    apply wp_bind. destruct (ipv6_pool cli); [apply wp_bind, wp_attempt, wp_io; intros ? w3 _|]; by apply wp_ret. }
  destruct (external_interface cli) as [i|]; [by apply wp_ret|].
  unfold detect_default_interface. apply wp_bind, wp_bind, wp_attempt, wp_io; intros x w1 _; by apply wp_ret, wp_ret.
Qed.

(** From a new manager on: the chains and the recovery. *)
Lemma serve_again m external ndp t w w1 :
  kept m w → usable d w → Numa.topology_wf t → undisturbed d w w1 →
  let manager := new (cli_run_dir cli) d (cli_bridge cli) (cli_gateway_ip cli) (tee_backends cli)
    (cli_dhcp_hostsdir cli) external (ipv6_pool cli) ndp t in
  wp (ready ← run_on manager setup_nftables;
      lift (context "failed to initialize nftables" ready.1);;
      recovered ← run_on ready.2 recover_vms;
      mret recovered.2) (started w (λ m' w', restored m m' ∧ kept m' w' ∧ usable d w')) w1.
Proof.
  intros [Hinv Htr] Hw Ht F1 manager.
  apply wp_bind, run_on_spec. unfold setup_nftables. apply wp_bind, wp_self, wp_on_snd'.
  pose proof (quiet_initialize d (nftables manager) w1) as Hq.
  pose proof (Nft.total_initialize (nftables manager) w1) as Hnp. unfold wp at 1.
  destruct (Nft.initialize (nftables manager) w1) as [r w2]. simpl in Hq, Hnp |- *.
  assert (undisturbed d w w2) as F2 by by etransitivity.
  destruct r as [u|e|p]; [|by split; [unfold start_errors; set_solver|]|by destruct (Hnp p)].
  apply wp_bind, wp_lift. apply wp_bind, run_on_spec. cbn [snd].
  destruct (F2 Working Hw) as [Hw2 Hsame]. eapply (tracked_files _ _ _ _ m w w2) in Htr; [|exact Hsame].
  eapply wp_mono; [apply (tracked_restart d (cli_dhcp_hostsdir cli) (cli_gateway_ip cli) (ipv6_pool cli) m);
    [done|exact Hw2|exact Htr| |apply new_here]|].
  { apply new_restarted; [apply Htr|done]. }
  intros r [m' w'] [[-> Hres] [Hw' Htr']]. apply wp_ret. split; [done|]. split; [|done]. split; [apply Hres|done].
Qed.

(** A start with the settings of a manager that ended finds what it recorded. *)
Lemma start_spec m w :
  kept m w → usable d w → machine_ok w →
  wp (start_node cli) (started w (λ m' w', restored m m' ∧ kept m' w' ∧ usable d w')) w.
Proof.
  intros Hm Hw Hok. unfold start_node.
  apply early_step; [apply quiet_prepare|apply total_prepare|apply prepare_errors|apply undisturbed_refl|].
  intros external w1 Hext F1. specialize (Hok external w1 Hext). cbv zeta.
  apply early_step; [apply quiet_with_context, quiet_from_sysfs|apply total_with_context, total_from_sysfs| |done|].
  { intros e w2 ->%with_context_msg. unfold start_errors. set_solver. }
  intros t w2 Hdet F2. assert (Numa.topology_wf t) as Ht.
  { unfold with_context in Hdet. destruct (Numa.detect w1) as [[t'|e|p] w3] eqn:Hd; [|done..].
    injection Hdet as -> ->. by eapply detect_wf. }
  apply wp_bind, run_on_spec.
  pose proof (quiet_hugepages d (hugepage_headroom cli) (memory_limit cli) "/sys/devices/system/node" t w2) as Hq.
  pose proof (Hugepages.reserve_keeps_topology (hugepage_headroom cli) (memory_limit cli)
    "/sys/devices/system/node" t w2 Ht) as Hr. unfold wp in Hr. unfold wp at 1.
  destruct (Hugepages.allocate_hugepages _ _ _ (t, w2)) as [r [t' w3]]. simpl in Hq, Hr |- *.
  destruct Hr as (_ & Ht' & Hnp). assert (undisturbed d w w3) as F3 by by etransitivity.
  destruct r as [u|e|p]; [by apply serve_again..|by destruct (Hnp p)].
Qed.

Lemma quiet_run_on {S A} (s : S) (op : M (S * W) error A) :
  (∀ w, undisturbed d w (op (s, w)).2.2) → quiet d (run_on s op).
Proof. intros Hop w. unfold run_on. specialize (Hop w). by destruct (op (s, w)) as [[a|e|p] [s' w']]. Qed.

(** Whatever the machine does, a start leaves the state files alone. *)
Lemma quiet_start : quiet d (start_node cli).
Proof.
  unfold start_node. apply quiet_bind; [apply quiet_prepare|intros external].
  apply quiet_bind; [apply quiet_with_context, quiet_from_sysfs|intros t].
  apply quiet_bind; [apply quiet_run_on; intros w; apply quiet_hugepages|intros [r t']]. cbv zeta. cbn [snd].
  set (manager := new _ _ _ _ _ _ _ _ _ _).
  intros w. unfold mbind, M_bind, run_on.
  change (setup_nftables (manager, w)) with
    (let '(r, w') := Nft.initialize (nftables manager) w in (r, (manager, w'))).
  pose proof (quiet_initialize d (nftables manager) w) as Hi.
  assert (∀ w', undisturbed d w' (recover_vms (manager, w')).2.2) as Hr.
  { intros w'. apply (qop_recover_vms d (cli_dhcp_hostsdir cli) (cli_gateway_ip cli) (ipv6_pool cli)), new_here. }
  destruct (Nft.initialize (nftables manager) w) as [[u|e|p] w1]; simpl in *; [|done..].
  specialize (Hr w1). destruct (recover_vms (manager, w1)) as [[u'|e|p] [m' w2]]; simpl in *; by etransitivity.
Qed.

(** ** Lives *)

(** The process and the machine: no process, or a manager between requests. *)
Definition life : Type := option (VmManager Net W) * W.

(** A machine with these files, on which any operation may fail: all of them from some
    moment on, when the process dies. *)
Definition faulty (w v : W) : Prop := same_files d w v ∧ fit d Faulty v.
(** A request that the process may not survive. *)
Definition dies (m : VmManager Net W) (w : W) (m' : VmManager Net W) (w' : W) : Prop := ∃ q v r,
  request_wf q ∧ request_ok d (cli_dhcp_hostsdir cli) q ∧ faulty w v ∧ serve q (m, v) = (r, (m', w')).
(** Without a process: starts that do not come to serving, and changes of the machine. *)
Inductive down_step : W → W → Prop :=
| down_start w v w' : faulty w v → (start_node cli v).2 = w' → down_step w w'
| down_change w w' : same_files d w w' → down_step w w'.

(** A process starts on a machine that works when there is none; it serves a request; it
    ends; it dies in the middle of a request; or the machine changes without touching the
    state files. *)
Inductive life_step : life → life → Prop :=
| life_start w r w' :
    usable d w → machine_ok w → start_node cli w = (r, w') →
    life_step (None, w) (match r with Ok m => Some m | _ => None end, w')
| life_serve q m w r m' w' :
    request_wf q → request_ok d (cli_dhcp_hostsdir cli) q → serve q (m, w) = (r, (m', w')) → settled q r m →
    life_step (Some m, w) (Some m', w')
| life_end m w : life_step (Some m, w) (None, w)
| life_die m w m' w' : dies m w m' w' → life_step (Some m, w) (None, w')
| life_down w w' : down_step w w' → life_step (None, w) (None, w')
| life_change m w w' : same_files d w w' → usable d w' → life_step (Some m, w) (Some m, w').

Definition life_inv (s : life) : Prop :=
  match s.1 with Some m => kept m s.2 ∧ usable d s.2 | None => ∃ m, kept m s.2 end.

Lemma kept_same m w w' : same_files d w w' → kept m w → kept m w'.
Proof. intros Hw [Hinv Htr]. split; [done|]. by eapply tracked_files. Qed.

Lemma start_outcome m w r w' :
  kept m w → usable d w → machine_ok w → start_node cli w = (r, w') →
  match r with
  | Ok m' => restored m m' ∧ kept m' w' ∧ usable d w'
  | Err e => err_msg e ∈ start_errors ∧ kept m w'
  | Panic _ => False
  end.
Proof.
  intros Hm Hw Hok Hs. pose proof (start_spec m w Hm Hw Hok) as Hwp. unfold wp in Hwp. rewrite Hs in Hwp.
  destruct r as [m'|e|p]; [exact Hwp| |exact Hwp]. destruct Hwp as [He Hu]. split; [done|].
  destruct (Hu Working Hw) as [_ Hsame]. by eapply kept_same.
Qed.

Lemma down_kept m w w' : down_step w w' → kept m w → kept m w'.
Proof.
  intros Hs. destruct Hs as [w v w' [Hsame Hv] <-|w w' Hsame]; [|by apply kept_same].
  intros Hm. destruct (quiet_start v Faulty Hv) as [_ Hs]. eapply kept_same; [exact Hs|]. by eapply kept_same.
Qed.
Lemma downs_kept m w w' : rtc down_step w w' → kept m w → kept m w'.
Proof. induction 1 as [|w1 w2 w3 Hs _ IH]; [done|]. intros Hm. by eapply IH, down_kept. Qed.

(** A request is in the files as a whole or not at all. *)
Lemma dies_kept m w m' w' : dies m w m' w' → kept m w → kept m w' ∨ kept m' w'.
Proof.
  intros (q & v & r & Hq & Hok & [Hsame Hv] & Hs) [Hinv Htr]. apply (tracked_files _ _ _ _ m w v Hsame) in Htr.
  pose proof (tracked_serve d _ _ _ Faulty q m v Hq Hok Hinv Hv Htr) as Hc. pose proof (serve_inv q m v Hq Hinv) as Hi.
  unfold wp in Hc, Hi. rewrite Hs in Hc, Hi. destruct Hc as (_ & [Hc|Hc] & _); [by left|by right].
Qed.

Lemma life_step_inv s s' : life_step s s' → life_inv s → life_inv s'.
Proof.
  intros Hs. destruct Hs as [w r w' Hw Hok Hs|q m w r m' w' Hq Hok Hs Hset|m w|m w m' w' Hd|w w' Hd|m w w' Hsame Hw'];
    unfold life_inv; simpl.
  - intros [m Hm]. pose proof (start_outcome m w r w' Hm Hw Hok Hs) as Hr.
    destruct r as [m'|e|p]; simpl; [apply Hr|exists m; apply Hr|done].
  - intros [[Hinv Htr] Hw]. assert (sound d (cli_dhcp_hostsdir cli) (cli_gateway_ip cli) (ipv6_pool cli) m' w') as (? & ? & ?); [|by split].
    eapply node_step_inv; [by eapply node_serve|by split].
  - intros [Hm _]. by exists m.
  - intros [Hm _]. destruct (dies_kept m w m' w' Hd Hm); eauto.
  - intros [m Hm]. exists m. by eapply down_kept.
  - intros [Hm _]. split; [by eapply kept_same|done].
Qed.

Lemma life_steps_inv s s' : rtc life_step s s' → life_inv s → life_inv s'.
Proof. induction 1 as [|s1 s2 s3 Hs _ IH]; [done|]. intros Hi. by apply IH, (life_step_inv s1). Qed.

(** A machine without state files. *)
Lemma kept_new w : (∀ p, state_file d p → host_files w !! p = None) → ∃ m, kept m w.
Proof.
  intros Hnone. exists (new (cli_run_dir cli) d (cli_bridge cli) (cli_gateway_ip cli) (tee_backends cli)
    (cli_dhcp_hostsdir cli) "eth0" (ipv6_pool cli) false (Numa.mk_topology [])).
  split; [apply new_inv|by apply tracked_new]. split; [constructor|by apply List.Forall_nil].
Qed.

(** How the next process starts on a machine that works: with a manager restored from one
    of [ms], or refused by an early step. *)
Definition starts_with (ms : VmManager Net W → Prop) (w : W) : Prop :=
  usable d w → machine_ok w →
  wp (start_node cli) (λ r _, match r with
    | Ok m' => ∃ m, ms m ∧ restored m m'
    | Err e => err_msg e ∈ start_errors
    | Panic _ => False
    end) w.

Lemma kept_starts (ms : VmManager Net W → Prop) m w w' : ms m → kept m w → rtc down_step w w' → starts_with ms w'.
Proof.
  intros Hms Hm Hdown Hw Hok. eapply wp_mono; [apply (start_spec m); [by eapply downs_kept|done..]|].
  intros [m'|e|p] w2; [intros [? _]; by exists m|by intros [? _]|done].
Qed.
End start.

(** ** Properties *)

(** C2: the life of a node. On a machine whose state directory is empty, processes start,
    serve requests, end, and die in the middle of a start or of a request, in any order
    and any number. A process that goes on serving runs on a machine whose file operations
    in the state directory succeed; its requests may fail or panic in any way, except that the
    removal of a forward does not fail after it has found the forward. The machine may
    change in any way outside the state files, and where a process dies any operation may
    have failed. Then at any moment between requests:
    - the manager has its invariant, and the state directory loads as exactly the recorded
      VMs, each with its configuration, its addresses and its forwards of that moment;
    - when the process ends there, the next start, after any number of starts that came to
      nothing, has a manager with the same VMs, forwards and offsets that satisfies the
      invariant, or is refused by the bridge, the NUMA topology or nftables, before
      recovery; it never panics;
    - when it dies in the next request, the next start has the VMs, forwards and offsets
      of before that request or those of after it. *)
Theorem node_lifetime `{!SevCrate, !OpenSsl, !Hex} {Net W : Type} `{!IpNet Net, !Host W, !HostFs W, !SerdeJson}
    `{!Web W, !SevGuest W} (cli : Cli Net) `{!StateDir W (cli_state_dir cli)} (w0 w : W) m :
  (∀ p, state_file (cli_state_dir cli) p → host_files w0 !! p = None) →
  rtc (life_step cli) (None, w0) (Some m, w) →
  mgr_inv m ∧
  (∃ pvs, (load_all_vms (cli_state_dir cli) w).1 = Ok pvs ∧ persisted_all m pvs) ∧
  (∀ w1, rtc (down_step cli) w w1 → starts_with cli (λ x, x = m) w1) ∧
  (∀ m' w' w1, dies cli m w m' w' → rtc (down_step cli) w' w1 → starts_with cli (λ x, x = m ∨ x = m') w1).
Proof.
  intros Hnone Hrun. destruct (life_steps_inv cli _ _ Hrun (kept_new cli w0 Hnone)) as [Hm Hw].
  pose proof Hm as [Hinv Htr]. split; [done|]. split; [by eapply tracked_load|]. split.
  - intros w1 Hdown. by eapply kept_starts.
  - intros m' w' w1 Hd Hdown. destruct (dies_kept cli m w m' w' Hd Hm) as [Hk|Hk];
      eapply kept_starts; [|exact Hk|exact Hdown| |exact Hk|exact Hdown]; first [by left|by right].
Qed.

(** A machine with one NUMA node; [a] is created and gets a forward; the process ends and the next one starts. *)
Definition demo_cli : Cli sim_net :=
  mk_cli _ "/run/compute.sock" "br0" 167797761 "/run" "/state" "Milan" None None (Some "eth0"%string) None None
    None 1024.
Definition sysfs : string := "/sys/devices/system/node".
Definition node_dir : string := "/sys/devices/system/node/node0".
Definition sysfs_files : list (string * string) :=
  [(node_dir, ""); (path_join node_dir "cpulist", "0-3");
   (path_join node_dir "hugepages/hugepages-2048kB/nr_hugepages", "0");
   (path_join node_dir "meminfo", "Node 0 MemTotal: 8388608 kB")]%string.

(** The same machine when the next commands answer as given. *)
Definition answering (w : sim) (outs : list Output) : sim := mk_sim (sim_files w) [] outs [] 1700000000 [].
Definition boot_machine : sim := answering (mk_sim (list_to_map sysfs_files) [] [] [] 0 []) [].
Definition booted (w : sim) : VmManager sim_net sim * sim :=
  match start_node demo_cli w with (Ok m, w') => (m, w') | (_, w') => (demo_manager, w') end.
Definition served (q : request sim_net) (outs : list Output) (s : VmManager sim_net sim * sim) :
    VmManager sim_net sim * sim := (serve q (s.1, answering s.2 outs)).2.
Definition life_created : VmManager sim_net sim * sim :=
  served (ReqCreate (demo_request "a") None None) (sim_outputs demo_host) (booted boot_machine).
Definition life_forwarded : VmManager sim_net sim * sim :=
  served (ReqAddForward "a" 8080 80 Tcp) (sim_outputs demo_forward_host) life_created.

(** A machine on which the start finds one node with few CPUs. *)
Definition one_node (w : sim) : bool :=
  let w1 := (prepare_host demo_cli w).2 in
  match (host_read_dir sysfs w1).1 with inr [inr n] => String.eqb n "node0" | _ => false end &&
  match (Numa.from_sysfs sysfs w1).1 with
  | Ok t => forallb (λ n, Z.of_nat (size (Numa.cpus n)) <=? u32_max) (Numa.nodes t)
  | _ => true
  end.

Lemma one_node_ok w : one_node w = true → machine_ok demo_cli w.
Proof.
  unfold one_node. intros [Hdir Hcpus]%andb_true_iff i w1 Hp. rewrite Hp in *. cbn [snd] in *.
  change "/sys/devices/system/node"%string with sysfs. split.
  - destruct (host_read_dir sysfs w1).1 as [e|[|[e|n] [|? ?]]]; try done. apply String.eqb_eq in Hdir as ->.
    split; [apply NoDup_singleton|]. intros name [= ->]%list_elem_of_singleton _.
    exists 0. by split; [unfold u32_max; lia|vm_compute].
  - intros t w2 Hrun. rewrite Hrun in Hcpus. cbn [fst] in Hcpus. apply Forall_forall. intros n Hin.
    rewrite forallb_forall in Hcpus. apply Z.leb_le, Hcpus. by apply list_elem_of_In.
Qed.

Lemma answering_usable w outs : usable "/state" (answering w outs).
Proof. split; [done|]. unfold u64_max. simpl. lia. Qed.
Lemma answering_same w outs : same_files "/state" w (answering w outs).
Proof. by intros p _. Qed.

Lemma life_starts w : usable "/state" w → one_node w = true → is_ok (start_node demo_cli w).1 = true →
  life_step demo_cli (None, w) (Some (booted w).1, (booted w).2).
Proof.
  intros Hw Hok%one_node_ok Hr. unfold booted. destruct (start_node demo_cli w) as [r w'] eqn:Hs.
  pose proof (life_start demo_cli w r w' Hw Hok Hs) as Hstep. by destruct r.
Qed.

Lemma life_serves q outs (s : VmManager sim_net sim * sim) :
  request_wf q → request_ok "/state" None q → match q with ReqRemoveForward _ _ => False | _ => True end →
  rtc (life_step demo_cli) (Some s.1, s.2) (Some (served q outs s).1, (served q outs s).2).
Proof.
  intros Hq Hok Hset. apply (rtc_l _ _ (Some s.1, answering s.2 outs)).
  - apply life_change; [apply answering_same|apply answering_usable].
  - apply rtc_once. unfold served. destruct (serve q (s.1, answering s.2 outs)) as [r [m' w']] eqn:Hs.
    eapply life_serve; [done..|]. by destruct q.
Qed.

Lemma boot_machine_empty p : state_file "/state" p → host_files boot_machine !! p = None.
Proof.
  intros Hp. destruct (host_files boot_machine !! p) as [s|] eqn:Hs; [|done]. exfalso. revert Hp.
  apply elem_of_list_to_map_2 in Hs. unfold sysfs_files in Hs. rewrite !elem_of_cons, elem_of_nil in Hs.
  destruct_or!; simplify_eq; by apply other_path.
Qed.

Lemma life_run : rtc (life_step demo_cli) (None, boot_machine) (Some life_forwarded.1, life_forwarded.2).
Proof.
  eapply rtc_l; [apply life_starts; [apply answering_usable|vm_compute; reflexivity..]|].
  etransitivity; [apply (life_serves (ReqCreate (demo_request "a") None None) (sim_outputs demo_host));
    [apply demo_request_wf|by split; [|intros h]|done]|].
  apply (life_serves (ReqAddForward "a" 8080 80 Tcp) (sim_outputs demo_forward_host));
    [unfold request_wf, u16_max; lia|done|done].
Qed.

(** The process dies in the deletion of [a]: from some call on nothing happens. *)
Definition dying (n : nat) (w : sim) : sim :=
  mk_sim (sim_files w) (replicate n false ++ replicate 100 true) [] [] 1700000000 [].
Definition life_died (n : nat) : VmManager sim_net sim * sim :=
  (serve (ReqDelete "a") (life_forwarded.1, dying n life_forwarded.2)).2.

Lemma life_dies n : dies demo_cli life_forwarded.1 life_forwarded.2 (life_died n).1 (life_died n).2.
Proof.
  exists (ReqDelete "a"), (dying n life_forwarded.2), (serve (ReqDelete "a") (life_forwarded.1, dying n life_forwarded.2)).1.
  split; [done|]. split; [done|]. split.
  - split; [by intros p _|]. split; [done|]. unfold u64_max. simpl. lia.
  - unfold life_died. by destruct (serve _ _) as [r [m' w']].
Qed.

Lemma booted_spec (ms : VmManager sim_net sim → Prop) w : starts_with demo_cli ms w →
  usable "/state" w → one_node w = true → is_ok (start_node demo_cli w).1 = true → ∃ m, ms m ∧ restored m (booted w).1.
Proof.
  intros Hs Hw Hok%one_node_ok Hr. specialize (Hs Hw Hok). unfold wp, booted in *.
  destruct (start_node demo_cli w) as [[m'|e|p] w']; [exact Hs|done..].
Qed.

(** Deaths at an early and at a late call of the deletion. *)
Lemma node_lifetime_witness :
  let again := (booted (answering life_forwarded.2 [])).1 in
  restored life_forwarded.1 again ∧
  list_port_forwards (Some "a"%string) again = [mk_forward "a" 8080 80 Tcp] ∧
  (∃ m, (m = life_forwarded.1 ∨ m = (life_died 2).1) ∧ restored m (booted (answering (life_died 2).2 [])).1) ∧
  list_port_forwards (Some "a"%string) (booted (answering (life_died 2).2 [])).1 = [mk_forward "a" 8080 80 Tcp] ∧
  list_port_forwards (Some "a"%string) (booted (answering (life_died 100).2 [])).1 = [].
Proof.
  intros again. subst again.
  pose proof (node_lifetime demo_cli boot_machine life_forwarded.2 life_forwarded.1 boot_machine_empty life_run)
    as (_ & _ & Hend & Hdie).
  assert (∀ w outs, rtc (down_step demo_cli) w (answering w outs)) as Hdown.
  { intros w outs. apply rtc_once, down_change, answering_same. }
  split; [|split; [vm_compute; reflexivity|split; [|split; vm_compute; reflexivity]]].
  - destruct (booted_spec _ _ (Hend _ (Hdown _ [])) (answering_usable _ _)) as (m & -> & Hm); [vm_compute; reflexivity..|exact Hm].
  - apply (booted_spec _ _ (Hdie _ _ _ (life_dies 2) (Hdown _ [])) (answering_usable _ _)); vm_compute; reflexivity.
Defined.
