(* ===== verification/Grpc.v ===== *)
(** * The gRPC service

    [src/crates/aleph-compute-node/src/grpc/service.rs]: validation of the requests and
    the handlers that turn them into operations of the manager. The messages are those
    of [src/proto/compute.proto]. The transport of tonic is not modelled. *)

From S2P Require Import Prelude Strs Host HostSim Json Types NetTypes Ipv6Text Instances Tee.
From S2P Require Import Verity Qemu Persistence Manager ManagerFrame ManagerSpec ManagerOps.
From S2P Require Import ManagerInv ManagerSafety ManagerProps.
From S2P Require Bridge PortForwards Ipv6 Nft NdpProxy Numa.

(** ** Messages *)

Record ProtoDisk := mk_pdisk { pd_path : string; pd_readonly : bool; pd_format : string }.
Record ProtoTee := mk_ptee { pt_backend : string; pt_policy : string }.
Record CreateVmRequest := mk_create {
  r_vm_id : string;
  r_kernel : string;
  r_initrd : string;
  r_disks : list ProtoDisk;
  r_vcpus : Z;            (** uint32 *)
  r_memory_mb : Z;        (** uint32 *)
  r_tee : option ProtoTee;
  r_ipv6_address : string;
  r_ipv6_prefix_len : Z;  (** uint32 *)
  r_encrypted : bool;
  r_numa_node : Z;        (** uint32 *)
}.
Record ProtoVmInfo := mk_pinfo {
  pi_vm_id : string;
  pi_status : string;
  pi_ipv4 : string;
  pi_ipv6 : string;
  pi_tee_backend : string;
  pi_uptime_secs : Z;
  pi_numa_node : Z;
}.
Record PortForwardInfo := mk_pfinfo {
  pf_vm_id : string;
  pf_host_port : Z;
  pf_vm_port : Z;
  pf_protocol : string;
}.

(** [tonic::Status]. *)
Inductive Code := InvalidArgument | NotFound | Internal.
Record Status := mk_status { st_code : Code; st_message : string }.
Definition invalid_argument (msg : string) : Status := mk_status InvalidArgument msg.
Definition internal (e : error) : Status := mk_status Internal (err_msg e).
Definition not_found_status (e : error) : Status := mk_status NotFound (err_msg e).

(** ** Validation *)

Definition MAX_VM_ID_LEN : Z := 11.

Definition vm_id_char (c : Ascii.ascii) : bool :=
  is_ascii_lowercase c || is_ascii_digit c || Ascii.eqb c "-"%char.

Definition validate_vm_id (vm : string) : result Status unit :=
  if is_empty vm then Err (invalid_argument "vm_id must not be empty")
  else if MAX_VM_ID_LEN <? str_len vm then
    Err (invalid_argument ("vm_id too long: max " ++ print_dec MAX_VM_ID_LEN ++
                           " chars (TAP name limit), got " ++ print_dec (str_len vm)))
  else if negb (all_chars vm_id_char vm) then
    Err (invalid_argument "vm_id must contain only lowercase alphanumeric characters and hyphens")
  else if starts_with "-" vm || ends_with "-" vm then
    Err (invalid_argument "vm_id must not start or end with a hyphen")
  else Ok tt.

Definition validate_vm_resources (vcpus memory_mb : Z) : result Status unit :=
  if vcpus =? 0 then Err (invalid_argument "vcpus must be > 0")
  else if memory_mb =? 0 then Err (invalid_argument "memory_mb must be > 0")
  else Ok tt.

Definition parse_tee_config (proto : option ProtoTee) : result Status TeeConfig :=
  let proto := default (mk_ptee "" "") proto in
  let b := pt_backend proto in
  backend ← (if String.eqb b "sev-snp" || String.eqb b "" then Ok SevSnp
             else if String.eqb b "tdx" then Ok Tdx
             else if String.eqb b "nvidia-cc" then Ok NvidiaCc
             else if String.eqb b "none" then Ok TeeNone
             else Err (invalid_argument ("unknown TEE backend: " ++ b)));
  Ok (mk_tee backend (if is_empty (pt_policy proto) then None else Some (pt_policy proto))).

Definition disk_format (d : ProtoDisk) : string := if is_empty (pd_format d) then "raw" else pd_format d.
Definition to_disk (d : ProtoDisk) : DiskConfig := mk_disk (pd_path d) (pd_readonly d) (disk_format d).

Definition vm_info_to_proto (i : VmInfo) : ProtoVmInfo :=
  mk_pinfo (i_vm_id i) (i_status i) (i_ip i) (i_ipv6 i) (i_tee i) (i_uptime_secs i)
    (default 0 (i_numa_node i)).

Section paths.
Context {W : Type} `{Host W}.

Definition validate_file_path (path field_name : string) : M W Status unit :=
  if is_empty path then throw (invalid_argument (field_name ++ " must not be empty"))
  else if negb (is_absolute path) then
    throw (invalid_argument (field_name ++ " must be an absolute path"))
  else
    e ← observe (host_exists path);
    if (e : bool) then mret tt
    else throw (invalid_argument (field_name ++ " does not exist: " ++ path)).

Definition validate_disk (d : ProtoDisk) : M W Status unit :=
  validate_file_path (pd_path d) "disk path";;
  let fmt := disk_format d in
  if negb (String.eqb fmt "raw") && negb (String.eqb fmt "qcow2") then
    throw (invalid_argument ("unsupported disk format: " ++ fmt ++ " (allowed: raw, qcow2)"))
  else if contains_char ","%char (pd_path d) then
    throw (invalid_argument "disk path must not contain commas")
  else mret tt.

(** A kernel or an initrd: required for a confidential VM. *)
Definition boot_file (path field_name : string) (t : TeeConfig) : M W Status (option string) :=
  if is_empty path then
    if bool_decide (t_backend t = TeeNone) then mret None
    else throw (invalid_argument (field_name ++ " is required for confidential VMs"))
  else validate_file_path path field_name;; mret (Some path).
End paths.

(** ** Handlers *)

Section service.
Context {Net W : Type} `{IpNet Net} `{Host W} `{SerdeJson}.

Definition Rpc (A : Type) : Type := M (VmManager Net W * W) Status A.

(** [req.ipv6_prefix_len as u8]. *)
Definition requested_net (req : CreateVmRequest) : result Status (option Net) :=
  if is_empty (r_ipv6_address req) then Ok None
  else
    addr ← ok_or (invalid_argument "invalid ipv6_address: invalid IPv6 address syntax")
             (parse_ipv6 (r_ipv6_address req));
    let prefix := if r_ipv6_prefix_len req =? 0 then 128 else wrap 8 (r_ipv6_prefix_len req) in
    n ← ok_or (invalid_argument "invalid IPv6 prefix: invalid IP prefix length") (net_new addr prefix);
    Ok (Some n).

Definition numa_hint_of (req : CreateVmRequest) : option Z :=
  if r_numa_node req =? 0 then None else Some (r_numa_node req - 1).

(** Everything [create_vm] checks, and the operation it asks for. *)
Definition validate_create (req : CreateVmRequest) : M W Status (VmConfig * option Net) :=
  lift (validate_vm_id (r_vm_id req));;
  t ← lift (parse_tee_config (r_tee req));
  kernel ← boot_file (r_kernel req) "kernel" t;
  initrd ← boot_file (r_initrd req) "initrd" t;
  lift (validate_vm_resources (r_vcpus req) (r_memory_mb req));;
  (if bool_decide (t_backend t = TeeNone) && r_encrypted req then
     throw (invalid_argument "encrypted mode is not supported for non-confidential VMs")
   else mret tt);;
  forM_ (r_disks req) validate_disk;;
  match kernel, r_disks req with
  | None, [] => throw (invalid_argument
      "at least one disk is required for disk-boot VMs (no kernel specified)")
  | _, _ => mret tt
  end;;
  n ← lift (requested_net req);
  mret (mk_config (r_vm_id req) kernel initrd (to_disk <$> r_disks req) (r_vcpus req)
          (r_memory_mb req) t (r_encrypted req) None None, n).

Definition create_vm (req : CreateVmRequest) : Rpc ProtoVmInfo :=
  cn ← on_snd (validate_create req);
  info ← map_errM internal (Manager.create_vm cn.1 cn.2 (numa_hint_of req));
  mret (vm_info_to_proto info).

Definition get_vm (vm : string) : Rpc ProtoVmInfo :=
  info ← map_errM not_found_status (Manager.get_vm vm); mret (vm_info_to_proto info).

Definition delete_vm (vm : string) : Rpc unit := map_errM not_found_status (Manager.delete_vm vm).

Definition list_vms : Rpc (list ProtoVmInfo) :=
  l ← map_errM internal Manager.list_vms; mret (vm_info_to_proto <$> l).

Definition forward_info (f : PortForward) : PortForwardInfo :=
  mk_pfinfo (f_vm_id f) (f_host_port f) (f_vm_port f) (print_protocol (f_protocol f)).

(** [as u16] on both ports. *)
Definition add_port_forward (vm : string) (host_port vm_port : Z) (protocol : string) :
    Rpc PortForwardInfo :=
  p ← lift (map_err (λ e, invalid_argument (err_msg e)) (protocol_from_str protocol));
  f ← map_errM internal (Manager.add_port_forward vm (wrap 16 host_port) (wrap 16 vm_port) p);
  mret (forward_info f).

Definition remove_port_forward (host_port : Z) (protocol : string) : Rpc unit :=
  p ← lift (map_err (λ e, invalid_argument (err_msg e)) (protocol_from_str protocol));
  map_errM internal (Manager.remove_port_forward (wrap 16 host_port) p).

Definition list_port_forwards (vm : string) : Rpc (list PortForwardInfo) :=
  m ← on_fst get;
  mret (forward_info <$> Manager.list_port_forwards (if is_empty vm then None else Some vm) m).

Definition health : Rpc (string * Z) :=
  l ← map_errM internal Manager.list_vms; mret ("ok"%string, wrap 32 (Z.of_nat (length l))).
End service.

(** ** Lemmas *)

Lemma validate_vm_id_ok vm :
  validate_vm_id vm = Ok tt →
  1 ≤ str_len vm ≤ 11 ∧ all_chars vm_id_char vm = true ∧
  starts_with "-" vm = false ∧ ends_with "-" vm = false.
Proof.
  unfold validate_vm_id, MAX_VM_ID_LEN. destruct (is_empty vm) eqn:He; [done|].
  destruct (Z.ltb_spec 11 (str_len vm)); [done|].
  destruct (all_chars vm_id_char vm) eqn:Ha; simpl; [|done].
  destruct (starts_with "-" vm), (ends_with "-" vm); try done. intros _.
  destruct vm as [|c vm]; [done|]. unfold str_len in *. simpl String.length in *.
  split_and!; [lia|lia|done..].
Qed.

Lemma vm_id_lacks c vm : vm_id_char c = false → validate_vm_id vm = Ok tt → lacks c vm.
Proof. intros Hc (_ & Ha & _)%validate_vm_id_ok. by eapply lacks_all_chars. Qed.

Lemma lacks_slash_start vm : lacks "/"%char vm → starts_with "/" vm = false.
Proof.
  destruct vm as [|c vm]; [done|]. intros [Hc _]%lacks_cons. rewrite starts_with_char.
  by apply Ascii.eqb_neq.
Qed.

Section validation.
Context {Net W : Type} `{IpNet Net} `{Host W} `{SerdeJson}.

Lemma validate_file_path_spec path name (Q : result Status unit → W → Prop) w :
  (is_absolute path = true → host_exists path w = true → Q (Ok tt) w) →
  (∀ s, st_code s = InvalidArgument → Q (Err s) w) →
  wp (validate_file_path path name) Q w.
Proof.
  intros Hok Herr. unfold validate_file_path. destruct (is_empty path); [by apply wp_throw, Herr|].
  destruct (is_absolute path) eqn:Ha; simpl; [|by apply wp_throw, Herr].
  apply wp_bind, wp_observe. destruct (host_exists path w) eqn:He; [by apply wp_ret, Hok|by apply wp_throw, Herr].
Qed.

(** A disk the service lets through. *)
Definition disk_checked (w : W) (d : DiskConfig) : Prop :=
  disk_ok d ∧ is_absolute (d_path d) = true ∧ host_exists (d_path d) w = true.

Lemma validate_disk_spec d (Q : result Status unit → W → Prop) w :
  (disk_checked w (to_disk d) → Q (Ok tt) w) → (∀ s, st_code s = InvalidArgument → Q (Err s) w) →
  wp (validate_disk d) Q w.
Proof.
  intros Hok Herr. unfold validate_disk. apply wp_bind, validate_file_path_spec; [|done].
  intros Ha He. destruct (String.eqb (disk_format d) "raw") eqn:Hr;
    [|destruct (String.eqb (disk_format d) "qcow2") eqn:Hq; [|by apply wp_throw, Herr]]; simpl;
    (destruct (contains_char ","%char (pd_path d)) eqn:Hc; [by apply wp_throw, Herr|]);
    apply wp_ret, Hok; (split; [|by split]); (split; [|exact Hc]);
    [left; by apply String.eqb_eq|right; by apply String.eqb_eq].
Qed.

Lemma validate_disks_spec ds (Q : result Status unit → W → Prop) w :
  (Forall (disk_checked w) (to_disk <$> ds) → Q (Ok tt) w) →
  (∀ s, st_code s = InvalidArgument → Q (Err s) w) →
  wp (forM_ ds validate_disk) Q w.
Proof.
  intros Hok Herr. induction ds as [|d ds IH]; simpl; [by apply wp_ret, Hok|].
  apply wp_bind, validate_disk_spec; [|done]. intros Hd. apply IH. intros Hds. apply Hok. by constructor.
Qed.

(** A kernel or an initrd the service lets through: none, or the path asked for, of a
    file that is there. *)
Definition boot_checked (w : W) (path : string) (o : option string) : Prop :=
  o = None ∧ path = ""%string ∨
  o = Some path ∧ path ≠ ""%string ∧ is_absolute path = true ∧ host_exists path w = true.

Lemma boot_file_spec path name t (Q : result Status (option string) → W → Prop) w :
  (∀ o, boot_checked w path o → (o = None → t_backend t = TeeNone) → Q (Ok o) w) →
  (∀ s, st_code s = InvalidArgument → Q (Err s) w) →
  wp (boot_file path name t) Q w.
Proof.
  intros Hok Herr. unfold boot_file. destruct (is_empty path) eqn:He.
  - case_bool_decide; [|by apply wp_throw, Herr]. apply wp_ret, Hok; [|done]. left. by destruct path.
  - apply wp_bind, validate_file_path_spec; [|done]. intros Ha Hx. apply wp_ret, Hok; [|done].
    right. split_and!; try done. by intros ->.
Qed.

(** The configuration of a request that passed validation. *)
Record create_ok (req : CreateVmRequest) (w : W) (c : VmConfig) (n : option Net) : Prop := mk_create_ok {
  ok_id : vm_id c = r_vm_id req ∧ validate_vm_id (vm_id c) = Ok tt;
  ok_disks : disks c = to_disk <$> r_disks req ∧ Forall (disk_checked w) (disks c);
  ok_size : vcpus c = r_vcpus req ∧ memory_mb c = r_memory_mb req ∧ vcpus c ≠ 0 ∧ memory_mb c ≠ 0;
  ok_files : boot_checked w (r_kernel req) (kernel c) ∧ boot_checked w (r_initrd req) (initrd c);
  ok_tee : parse_tee_config (r_tee req) = Ok (tee c) ∧ encrypted c = r_encrypted req;
  ok_boot : is_confidential c = true → is_Some (kernel c) ∧ is_Some (initrd c);
  ok_disk_boot : kernel c = None → disks c ≠ [];
  ok_encrypted : encrypted c = true → is_confidential c = true;
  ok_unplaced : numa_node c = None ∧ hugepage_size c = None;
  ok_net : requested_net req = Ok n;
}.

Lemma validate_create_spec req (Q : result Status (VmConfig * option Net) → W → Prop) w :
  (∀ c n, create_ok req w c n → Q (Ok (c, n)) w) →
  (∀ s, st_code s = InvalidArgument → Q (Err s) w) →
  wp (validate_create req) Q w.
Proof.
  intros Hok Herr. unfold validate_create. apply wp_bind, wp_lift.
  destruct (validate_vm_id (r_vm_id req)) as [[]|s|p] eqn:Hid.
  2: { apply Herr. unfold validate_vm_id in Hid. by repeat case_match; simplify_eq. }
  2: { unfold validate_vm_id in Hid. by repeat case_match. }
  apply wp_bind, wp_lift. destruct (parse_tee_config (r_tee req)) as [t|s|p] eqn:Ht.
  2: { apply Herr. unfold parse_tee_config in Ht. by repeat (case_match; simplify_eq/=). }
  2: { unfold parse_tee_config in Ht. by repeat (case_match; simplify_eq/=). }
  apply wp_bind, boot_file_spec; [|done]. intros k Hkf Hk.
  apply wp_bind, boot_file_spec; [|done]. intros i Hif Hi.
  apply wp_bind, wp_lift. unfold validate_vm_resources.
  destruct (Z.eqb_spec (r_vcpus req) 0); [by apply Herr|].
  destruct (Z.eqb_spec (r_memory_mb req) 0); [by apply Herr|].
  apply wp_bind. destruct (bool_decide (t_backend t = TeeNone) && r_encrypted req) eqn:Hen;
    [by apply wp_throw, Herr|].
  apply wp_ret, wp_bind, validate_disks_spec; [|done]. intros Hds. apply wp_bind.
  destruct (decide (k = None ∧ r_disks req = [])) as [[-> ->]|Hne]; [by apply wp_throw, Herr|].
  assert (match k, r_disks req with
    | None, [] => throw (invalid_argument
        "at least one disk is required for disk-boot VMs (no kernel specified)")
    | _, _ => mret tt
    end = (mret tt : M W Status unit)) as ->.
  { destruct k; [done|]. destruct (r_disks req); [by destruct Hne|done]. }
  apply wp_ret, wp_bind, wp_lift. destruct (requested_net req) as [n'|s|p] eqn:Hn.
  2: { apply Herr. unfold requested_net, ok_or in Hn. by repeat (case_match; simplify_eq/=). }
  2: { unfold requested_net, ok_or in Hn. by repeat (case_match; simplify_eq/=). }
  apply wp_ret, Hok. split; simpl; try done.
  - unfold is_confidential. simpl. intros Hc. apply negb_true_iff, bool_decide_eq_false in Hc.
    split; [destruct k|destruct i]; try (by eexists); destruct Hc; auto.
  - intros -> Hnil. apply Hne. split; [done|]. by apply fmap_nil_inv in Hnil.
  - intros He. unfold is_confidential. simpl. rewrite He, andb_true_r in Hen. by rewrite Hen.
Qed.

(** Conversely the checks let every such configuration through. *)
Lemma validate_file_path_complete path name (Q : result Status unit → W → Prop) w :
  path ≠ ""%string → is_absolute path = true → host_exists path w = true → Q (Ok tt) w →
  wp (validate_file_path path name) Q w.
Proof.
  intros Hne Ha He HQ. unfold validate_file_path. assert (is_empty path = false) as -> by by destruct path.
  rewrite Ha. simpl. apply wp_bind, wp_observe. rewrite He. by apply wp_ret.
Qed.

Lemma validate_disks_complete ds (Q : result Status unit → W → Prop) w :
  Forall (disk_checked w) (to_disk <$> ds) → Q (Ok tt) w → wp (forM_ ds validate_disk) Q w.
Proof.
  intros Hds HQ. induction ds as [|d ds IH]; simpl; [by apply wp_ret|].
  apply Forall_cons in Hds as [([Hf Hc] & Ha & He) Hds]. simpl in *.
  apply wp_bind. unfold validate_disk. apply wp_bind, validate_file_path_complete; [by intros Heq; rewrite Heq in Ha|done..|].
  assert (negb (String.eqb (disk_format d) "raw") && negb (String.eqb (disk_format d) "qcow2") = false) as ->
    by by destruct Hf as [->| ->].
  unfold lacks in Hc. rewrite Hc. apply wp_ret. by apply IH.
Qed.

Lemma boot_file_complete path name t o (Q : result Status (option string) → W → Prop) w :
  boot_checked w path o → (o = None → t_backend t = TeeNone) → Q (Ok o) w → wp (boot_file path name t) Q w.
Proof.
  unfold boot_file. intros [[-> ->]|(-> & Hne & Ha & He)] Ht HQ; simpl.
  - rewrite bool_decide_eq_true_2 by auto. by apply wp_ret.
  - assert (is_empty path = false) as -> by by destruct path.
    by apply wp_bind, validate_file_path_complete.
Qed.

Lemma validate_create_complete req w c n :
  create_ok req w c n → wp (validate_create req) (λ r w', r = Ok (c, n) ∧ w' = w) w.
Proof.
  intros [[Eid Hid] [Ed Hds] (Ev & Em & Hv & Hm) [Hk Hi] [Ht Een] Hboot Hdb Henc [En Eh] Hn].
  rewrite Eid in Hid. rewrite Ed in Hds. unfold validate_create.
  assert (∀ o, (is_confidential c = true → is_Some o) → o = @None string → t_backend (tee c) = TeeNone) as Hnone.
  { intros o Ho ->. unfold is_confidential in Ho. destruct (decide (t_backend (tee c) = TeeNone)) as [|Hne]; [done|].
    rewrite bool_decide_eq_false_2 in Ho by done. by destruct (Ho eq_refl). }
  apply wp_bind, wp_lift. rewrite Hid. apply wp_bind, wp_lift. rewrite Ht.
  apply wp_bind, (boot_file_complete _ _ _ (kernel c)); [done|apply Hnone; intros Hc; by apply Hboot|].
  apply wp_bind, (boot_file_complete _ _ _ (initrd c)); [done|apply Hnone; intros Hc; by apply Hboot|].
  apply wp_bind, wp_lift. unfold validate_vm_resources.
  rewrite (proj2 (Z.eqb_neq _ _)), (proj2 (Z.eqb_neq _ _)) by congruence. apply wp_bind.
  assert (bool_decide (t_backend (tee c) = TeeNone) && r_encrypted req = false) as ->.
  { apply andb_false_iff. destruct (r_encrypted req) eqn:He; [left|by right]. rewrite Een in Henc.
    by apply negb_true_iff, Henc. }
  apply wp_ret, wp_bind, validate_disks_complete; [done|]. apply wp_bind.
  assert (kernel c = None → r_disks req ≠ []) as Hdb'.
  { intros Hkn Hnil. apply Hdb; [done|]. by rewrite Ed, Hnil. }
  destruct (kernel c) eqn:Ekn; [|destruct (r_disks req) eqn:Edn; [by destruct (Hdb' eq_refl)|]];
    apply wp_ret, wp_bind, wp_lift; rewrite Hn; apply wp_ret; (split; [|done]);
    do 2 f_equal; destruct c; simpl in *; congruence.
Qed.

(** Validation, exactly. *)
Lemma validate_create_exact req (Q : result Status (VmConfig * option Net) → W → Prop) w :
  (∀ c n, create_ok req w c n → Q (Ok (c, n)) w) →
  (∀ s, st_code s = InvalidArgument → (¬ ∃ c n, create_ok req w c n) → Q (Err s) w) →
  wp (validate_create req) Q w.
Proof.
  intros Hok Herr.
  pose proof (validate_create_spec req (λ r w', w' = w ∧ ((∃ c n, create_ok req w c n ∧ r = Ok (c, n)) ∨
    (∃ s, st_code s = InvalidArgument ∧ r = Err s))) w) as Hspec.
  assert (∀ c n, create_ok req w c n → fst (validate_create req w) = Ok (c, n)) as Hcomp.
  { intros c n Hc%validate_create_complete. unfold wp in Hc. destruct (validate_create req w). by destruct Hc. }
  unfold wp in *. destruct (validate_create req w) as [r w']. simpl in *.
  destruct Hspec as [-> [(c & n & Hc & ->)|(s & Hs & ->)]]; [by eauto 6..|by apply Hok|].
  apply Herr; [done|]. intros (c & n & Hc). by apply Hcomp in Hc.
Qed.
End validation.

(** ** Properties *)

(** C35: an id that passed [validate_vm_id] is safe to build names from: the TAP device
    name fits the 15 characters of an interface name, the id contains no path or option
    separator, and the state file and the two DHCP reservation files of a VM are
    distinct and different for different VMs. *)
Theorem validated_id_safe d vm vm' :
  validate_vm_id vm = Ok tt → validate_vm_id vm' = Ok tt →
  str_len (tap_of vm) ≤ 15 ∧
  (∀ c, c ∈ ["/"; ","; "."; " "; "="]%char → lacks c vm) ∧
  (state_path d vm = state_path d vm' → vm = vm') ∧
  (Bridge.dhcp_path d vm = Bridge.dhcp_path d vm' → vm = vm') ∧
  (Bridge.dhcpv6_path d vm = Bridge.dhcpv6_path d vm' → vm = vm') ∧
  Bridge.dhcp_path d vm ≠ Bridge.dhcpv6_path d vm'.
Proof.
  intros Hv Hv'.
  pose proof (lacks_slash_start _ (vm_id_lacks "/"%char vm eq_refl Hv)) as Hs.
  pose proof (lacks_slash_start _ (vm_id_lacks "/"%char vm' eq_refl Hv')) as Hs'.
  assert (∀ x s, starts_with "/" x = false → x ≠ ""%string → starts_with "/" (x ++ s) = false) as Happ.
  { intros [|c x] s Hx Hne; [done|]. change (String c x ++ s)%string with (String c (x ++ s)).
    by rewrite starts_with_char in *. }
  assert (∀ x, validate_vm_id x = Ok tt → x ≠ ""%string) as Hne by by intros x Hx ->.
  split_and!.
  - unfold tap_of, str_len. rewrite str_length_app. apply validate_vm_id_ok in Hv as (Hl & _).
    unfold str_len in Hl. simpl String.length. lia.
  - intros c Hc. apply vm_id_lacks; [|done]. set_unfold.
    by destruct Hc as [->|[->|[->|[->|[->|[]]]]]].
  - apply state_path_inj. by rewrite Hs, Hs'.
  - apply path_join_ext. by rewrite Hs, Hs'.
  - unfold Bridge.dhcpv6_path. intros Hp. apply path_join_ext in Hp.
    + assert (strip_suffix ".v6" (vm ++ ".v6") = strip_suffix ".v6" (vm' ++ ".v6")) as Heq
        by (by rewrite Hp).
      rewrite !strip_suffix_app in Heq. congruence.
    + rewrite !Happ; auto.
  - unfold Bridge.dhcp_path, Bridge.dhcpv6_path. intros Hp. apply path_join_ext in Hp.
    + pose proof (vm_id_lacks "."%char vm eq_refl Hv) as Hdot. rewrite Hp in Hdot.
      by apply lacks_app in Hdot as [_ Hdot].
    + rewrite Hs, Happ; auto.
Qed.

Lemma validated_id_safe_witness :
  str_len (tap_of "a-vm-000001") ≤ 15 ∧ validate_vm_id "a-vm-0000012" ≠ Ok tt.
Proof.
  split; [|by vm_compute].
  exact (proj1 (validated_id_safe "/run" "a-vm-000001" "b" eq_refl eq_refl)).
Defined.

(** C4: the [CreateVm] handler on every outcome, for a request whose sizes are 32-bit
    integers and NUMA counters within their nodes. [InvalidArgument] is answered exactly
    for the requests of which no checked configuration exists, and changes nothing: a
    checked configuration has the request's valid id, its nonzero resources, its disks,
    absolute paths of files that exist and that QEMU accepts, its kernel and its initrd,
    absent only where the path is empty and the VM not confidential and else absolute
    paths of files that exist, its parsed TEE, encryption only with it, and the network it
    asks for. A success has created the VM of that configuration and a failure of the
    manager is answered [Internal]. The handler panics in one case, past validation: the
    request names no IPv6 network and the configured pool is one no address can be drawn
    from, a prefix of 0 or 128 bits. *)
Theorem create_vm_checked {Net W} `{IpNet Net} `{Host W} `{SerdeJson}
    req (m : VmManager Net W) w :
  Numa.alloc_wf (numa m) →
  0 ≤ r_vcpus req ≤ u32_max → 0 ≤ r_memory_mb req ≤ u32_max →
  wp (create_vm req) (λ r '(m', w'),
    match r with
    | Ok i => ∃ c n info, create_ok req w c n ∧ created c (numa_hint_of req) m info m' ∧
        i = vm_info_to_proto info
    | Err s => (st_code s = InvalidArgument ∧ m' = m ∧ w' = w ∧ ¬ ∃ c n, create_ok req w c n) ∨
        (st_code s = Internal ∧ ∃ c n, create_ok req w c n ∧ create_failed c (numa_hint_of req) m m')
    | Panic _ => ∃ c a o, create_ok req w c None ∧ ipv6_allocator m = Some a ∧ ¬ Ipv6.drawable a ∧
        least_free o m ∧ m' = take_offset o m
    end) (m, w).
Proof.
  intros Hwf Hv Hm. unfold create_vm.
  apply wp_bind, wp_on_snd', validate_create_exact; [|intros s Hs Hno; left; done].
  intros c n Hok. pose proof Hok as [_ [_ Hds] (Ev & Em & _ & _) _ _ _ _ _ [En _] _].
  assert (config_wf c) as Hcfg by (unfold config_wf; by rewrite Ev, Em, En).
  apply wp_bind, wp_map_errM, create_vm_spec; [done|done|..].
  - intros i m' w' Hcr. apply wp_ret. by exists c, n, i.
  - intros e m' w' Hf. right. split; [done|]. by exists c, n.
  - intros q m' w' (_ & o & Ho & [(a & Ha & Hn & Hnd & ->)|(Hbad & _)]).
    + simpl in Hn. subst n. by exists c, a, o.
    + exfalso. apply Hbad. eapply Forall_impl; [exact Hds|]. by intros d [? _].
Qed.

Definition demo_rpc (format : string) : CreateVmRequest :=
  mk_create "a" "" "" [mk_pdisk "/images/root.img" false format] 2 1024 (Some (mk_ptee "none" ""))
    "" 0 false 0.
Definition demo_rpc_host : sim :=
  mk_sim {[ "/images/root.img"%string := ""%string ]} []
    [ok_output ""; ok_output ""; ok_output ""; nft_output] [] 1700000000 [].

Lemma create_vm_checked_witness :
  (∃ c n info m', created c None demo_manager info m' ∧ kernel c = None ∧ n = @None sim_net ∧
     disks c = [mk_disk "/images/root.img" false "qcow2"]) ∧
  (create_vm (demo_rpc "vmdk") (demo_manager, demo_rpc_host)).1 =
    Err (invalid_argument "unsupported disk format: vmdk (allowed: raw, qcow2)").
Proof.
  split; [|by vm_compute].
  pose proof (create_vm_checked (demo_rpc "qcow2") demo_manager demo_rpc_host
    (Numa.new_wf _ Numa.demo_topology_wf) ltac:(unfold u32_max; simpl; lia)
    ltac:(unfold u32_max; simpl; lia)) as Hwp.
  unfold wp in Hwp.
  assert (is_ok (create_vm (demo_rpc "qcow2") (demo_manager, demo_rpc_host)).1 = true) as Hok
    by by vm_compute.
  destruct (create_vm (demo_rpc "qcow2") (demo_manager, demo_rpc_host)) as [[i|s|p] [m' w']];
    [|done..].
  destruct Hwp as (c & n & info & Hc & Hcr & _). exists c, n, info, m'. split; [exact Hcr|].
  split; [|split; [|exact (proj1 (ok_disks _ _ _ _ Hc))]].
  - destruct (proj1 (ok_files _ _ _ _ Hc)) as [[Hk _]|(_ & Hne & _)]; [exact Hk|by destruct Hne].
  - pose proof (ok_net _ _ _ _ Hc) as Hn. by injection Hn.
Defined.

(** The handlers cut ports to 16 bits without a check. A request to remove the
    forward of port 65536 + [p] removes that of [p], and a request to forward port 65536
    is taken for the request to choose a port. *)
Theorem ports_truncated {Net W} `{IpNet Net} `{Host W} `{SerdeJson}
    p vm vm_port protocol (m : VmManager Net W) w :
  0 ≤ p ≤ u16_max →
  wp (remove_port_forward (65536 + p) "tcp") (λ _ '(m', _),
    PortForwards.is_available p Tcp (port_forwards m') = true) (m, w) ∧
  add_port_forward vm 65536 vm_port protocol (m, w) = add_port_forward vm 0 vm_port protocol (m, w).
Proof.
  intros Hp. split.
  - unfold remove_port_forward. apply wp_bind, wp_lift. simpl. apply wp_map_errM.
    assert (wrap 16 (65536 + p) = p) as ->.
    { unfold wrap. rewrite <-(Z.mod_small p (2 ^ 16)) at 2 by (unfold u16_max in Hp; lia).
      by rewrite <-(Z.add_mod_idemp_l 65536), Z.mod_same. }
    apply remove_port_forward_spec; intros; unfold PortForwards.is_available; simpl;
      by rewrite lookup_delete_eq.
  - done.
Qed.

Lemma ports_truncated_witness :
  Manager.list_port_forwards None (remove_port_forward 73616 "tcp" (demo_forwarded, empty_sim)).2.1 = [] ∧
  PortForwards.is_available 8080 Tcp
    (port_forwards (remove_port_forward 73616 "tcp" (demo_forwarded, empty_sim)).2.1) = true.
Proof.
  split; [by vm_compute|].
  pose proof (proj1 (ports_truncated 8080 "a" 80 "tcp" demo_forwarded empty_sim
    ltac:(unfold u16_max; lia))) as Hwp. unfold wp in Hwp. change (65536 + 8080) with 73616 in Hwp.
  destruct (remove_port_forward 73616 "tcp" (demo_forwarded, empty_sim)) as [r [m' w']]. exact Hwp.
Defined.
