(* ===== verification/Messages.v ===== *)
(** * Aleph messages

    [src/crates/aleph-scheduler-agent/src/aleph/messages.rs]: the executable messages of the
    Aleph network, their derived JSON encodings, and the questions the adapter asks of
    them. *)

From S2P Require Import Prelude Strs Json Types.

Definition ItemHash : Type := string.

(** ** Types *)

Inductive MachineType := VmFunction | VmInstance.
Inductive VolumePersistence := PersistHost | PersistStore.
Inductive HypervisorType := HvQemu | HvFirecracker.
Inductive Encoding := Plain | Zip | Squashfs.
Inductive PaymentType := Hold | Superfluid | Credit.
#[global] Instance MachineType_eq_dec : EqDecision MachineType.
Proof. solve_decision. Defined.
#[global] Instance PaymentType_eq_dec : EqDecision PaymentType.
Proof. solve_decision. Defined.

Record PublishedPort := mk_port { pp_protocol : string; pp_port : Z }.
Record MachineResources := mk_resources {
  res_vcpus : Z;      (** u32 *)
  res_memory : Z;     (** u32, MiB *)
  res_seconds : Z;    (** u32 *)
  published_ports : list PublishedPort;
}.

Record ParentVolume := mk_parent { pv_ref : ItemHash; pv_use_latest : bool }.
Record ImmutableVolume := mk_immutable {
  im_ref : ItemHash;
  im_mount : string;
  im_use_latest : bool;
}.
Record PersistentVolume := mk_persistent {
  pe_mount : string;
  pe_name : option string;
  pe_size_mib : Z;    (** u64 *)
  pe_parent : option ParentVolume;
  pe_persistence : VolumePersistence;
}.
Record EphemeralVolume := mk_ephemeral {
  ep_mount : string;
  ep_ephemeral : bool;
  ep_size_mib : Z;    (** u64 *)
}.
Inductive MachineVolume :=
| Immutable (v : ImmutableVolume)
| Persistent (v : PersistentVolume)
| Ephemeral (v : EphemeralVolume).

Definition mount (v : MachineVolume) : string :=
  match v with
  | Immutable v => im_mount v | Persistent v => pe_mount v | Ephemeral v => ep_mount v
  end.
Definition is_read_only (v : MachineVolume) : bool :=
  match v with Immutable _ => true | _ => false end.

Record RootfsVolume := mk_rootfs {
  rf_parent : ParentVolume;
  rf_persistence : VolumePersistence;
  rf_size_mib : Z;    (** u64 *)
}.

Record TrustedExecutionEnvironment := mk_trusted {
  te_firmware : option ItemHash;
  te_policy : Z;      (** u64 *)
  te_encrypted : bool;
}.
Record InstanceEnvironment := mk_environment {
  en_internet : bool;
  en_aleph_api : bool;
  en_hypervisor : option HypervisorType;
  en_trusted_execution : option TrustedExecutionEnvironment;
}.

Record CodeContent := mk_code {
  cc_encoding : Encoding;
  cc_entrypoint : string;
  cc_ref : ItemHash;
  cc_interface : option string;
  cc_args : list string;
}.
Record FunctionRuntime := mk_runtime {
  ru_ref : ItemHash;
  ru_use_latest : bool;
  ru_comment : string;
}.
Record Payment := mk_payment {
  pa_chain : option string;
  pa_receiver : option string;
  pa_type : PaymentType;
}.
Definition is_stream (p : Payment) : bool := bool_decide (pa_type p = Superfluid).

Record ExecutableMessage := mk_message {
  item_hash : ItemHash;
  machine_type : MachineType;
  resources : MachineResources;
  volumes : list MachineVolume;
  variables : gmap string string;
  allow_amend : bool;
  replaces : option ItemHash;
  payment : option Payment;
  environment : option InstanceEnvironment;
  rootfs : option RootfsVolume;
  code : option CodeContent;
  runtime : option FunctionRuntime;
}.

(** ** Questions *)

Definition trusted_execution (msg : ExecutableMessage) : option TrustedExecutionEnvironment :=
  environment msg ≫= en_trusted_execution.
Definition is_confidential (msg : ExecutableMessage) : bool :=
  match trusted_execution msg with Some _ => true | None => false end.
Definition is_persistent (msg : ExecutableMessage) : bool :=
  bool_decide (machine_type msg = VmInstance).
Definition sev_policy (msg : ExecutableMessage) : option Z :=
  te_policy <$> trusted_execution msg.
Definition is_encrypted (msg : ExecutableMessage) : bool :=
  default false (te_encrypted <$> trusted_execution msg).

(** ** JSON *)

(** A unit enum: a string out of a table. *)
Definition of_enum {A} (table : list (string * A)) (v : json) : option A :=
  as_str v ≫= λ s, assoc s table.

Definition machine_type_json (t : MachineType) : json :=
  JStr match t with VmFunction => "vm_function" | VmInstance => "vm_instance" end.
Definition machine_type_of_json : json → option MachineType :=
  of_enum [("vm_function", VmFunction); ("vm_instance", VmInstance)]%string.

Definition persistence_json (p : VolumePersistence) : json :=
  JStr match p with PersistHost => "host" | PersistStore => "store" end.
Definition persistence_of_json : json → option VolumePersistence :=
  of_enum [("host", PersistHost); ("store", PersistStore)]%string.

Definition hypervisor_json (h : HypervisorType) : json :=
  JStr match h with HvQemu => "qemu" | HvFirecracker => "firecracker" end.
Definition hypervisor_of_json : json → option HypervisorType :=
  of_enum [("qemu", HvQemu); ("firecracker", HvFirecracker)]%string.

(** The name of an encoding, in lower case as serde and the adapter write it. *)
Definition encoding_name (e : Encoding) : string :=
  match e with Plain => "plain" | Zip => "zip" | Squashfs => "squashfs" end.
Definition encoding_json (e : Encoding) : json := JStr (encoding_name e).
Definition encoding_of_json : json → option Encoding :=
  of_enum [("plain", Plain); ("zip", Zip); ("squashfs", Squashfs)]%string.

Definition payment_type_json (p : PaymentType) : json :=
  JStr match p with Hold => "hold" | Superfluid => "superfluid" | Credit => "credit" end.
Definition payment_type_of_json : json → option PaymentType :=
  of_enum [("hold", Hold); ("superfluid", Superfluid); ("credit", Credit)]%string.

Definition port_json (p : PublishedPort) : json :=
  JObj [("protocol", JStr (pp_protocol p)); ("port", JNum (pp_port p))]%string.
Definition port_of_json (v : json) : option PublishedPort :=
  if no_duplicate_field ["protocol"; "port"]%string v then
    p ← field of_str "protocol" v;
    n ← field (of_uint u16_max) "port" v;
    Some (mk_port p n)
  else None.

Definition default_vcpus : Z := 1.
Definition default_memory : Z := 128.
Definition default_seconds : Z := 1.

Definition resources_json (r : MachineResources) : json :=
  JObj [("vcpus", JNum (res_vcpus r)); ("memory", JNum (res_memory r));
        ("seconds", JNum (res_seconds r));
        ("published_ports", JArr (port_json <$> published_ports r))]%string.
Definition resources_of_json (v : json) : option MachineResources :=
  if no_duplicate_field ["vcpus"; "memory"; "seconds"; "published_ports"]%string v then
    c ← field_default (of_uint u32_max) default_vcpus "vcpus" v;
    m ← field_default (of_uint u32_max) default_memory "memory" v;
    s ← field_default (of_uint u32_max) default_seconds "seconds" v;
    ps ← field_default (of_list port_of_json) [] "published_ports" v;
    Some (mk_resources c m s ps)
  else None.

Definition parent_json (p : ParentVolume) : json :=
  JObj [("ref", JStr (pv_ref p)); ("use_latest", JBool (pv_use_latest p))]%string.
Definition parent_of_json (v : json) : option ParentVolume :=
  if no_duplicate_field ["ref"; "use_latest"]%string v then
    r ← field of_str "ref" v;
    u ← field_default as_bool true "use_latest" v;
    Some (mk_parent r u)
  else None.

Definition immutable_json (i : ImmutableVolume) : json :=
  JObj [("ref", JStr (im_ref i)); ("mount", JStr (im_mount i));
        ("use_latest", JBool (im_use_latest i))]%string.
Definition immutable_of_json (v : json) : option ImmutableVolume :=
  if no_duplicate_field ["ref"; "mount"; "use_latest"]%string v then
    r ← field of_str "ref" v;
    m ← field of_str "mount" v;
    u ← field_default as_bool true "use_latest" v;
    Some (mk_immutable r m u)
  else None.

Definition persistent_json (p : PersistentVolume) : json :=
  JObj [("mount", JStr (pe_mount p)); ("name", to_option JStr (pe_name p));
        ("size_mib", JNum (pe_size_mib p)); ("parent", to_option parent_json (pe_parent p));
        ("persistence", persistence_json (pe_persistence p))]%string.
Definition persistent_of_json (v : json) : option PersistentVolume :=
  if no_duplicate_field ["mount"; "name"; "size_mib"; "parent"; "persistence"]%string v then
    m ← field of_str "mount" v;
    n ← field_option of_str "name" v;
    s ← field (of_uint u64_max) "size_mib" v;
    p ← field_option parent_of_json "parent" v;
    k ← field_default persistence_of_json PersistHost "persistence" v;
    Some (mk_persistent m n s p k)
  else None.

Definition ephemeral_json (e : EphemeralVolume) : json :=
  JObj [("mount", JStr (ep_mount e)); ("ephemeral", JBool (ep_ephemeral e));
        ("size_mib", JNum (ep_size_mib e))]%string.
Definition ephemeral_of_json (v : json) : option EphemeralVolume :=
  if no_duplicate_field ["mount"; "ephemeral"; "size_mib"]%string v then
    m ← field of_str "mount" v;
    e ← field as_bool "ephemeral" v;
    s ← field (of_uint u64_max) "size_mib" v;
    Some (mk_ephemeral m e s)
  else None.

(** [#[serde(untagged)]]: the first variant that fits. *)
Definition volume_json (v : MachineVolume) : json :=
  match v with
  | Immutable v => immutable_json v
  | Persistent v => persistent_json v
  | Ephemeral v => ephemeral_json v
  end.
Definition volume_of_json (v : json) : option MachineVolume :=
  match immutable_of_json v with
  | Some i => Some (Immutable i)
  | None =>
      match persistent_of_json v with
      | Some p => Some (Persistent p)
      | None => Ephemeral <$> ephemeral_of_json v
      end
  end.

Definition rootfs_json (r : RootfsVolume) : json :=
  JObj [("parent", parent_json (rf_parent r)); ("persistence", persistence_json (rf_persistence r));
        ("size_mib", JNum (rf_size_mib r))]%string.
Definition rootfs_of_json (v : json) : option RootfsVolume :=
  if no_duplicate_field ["parent"; "persistence"; "size_mib"]%string v then
    p ← field parent_of_json "parent" v;
    k ← field_default persistence_of_json PersistHost "persistence" v;
    s ← field (of_uint u64_max) "size_mib" v;
    Some (mk_rootfs p k s)
  else None.

Definition trusted_json (t : TrustedExecutionEnvironment) : json :=
  JObj [("firmware", to_option JStr (te_firmware t)); ("policy", JNum (te_policy t));
        ("encrypted", JBool (te_encrypted t))]%string.
Definition trusted_of_json (v : json) : option TrustedExecutionEnvironment :=
  if no_duplicate_field ["firmware"; "policy"; "encrypted"]%string v then
    f ← field_option of_str "firmware" v;
    p ← field_default (of_uint u64_max) 0 "policy" v;
    e ← field_default as_bool false "encrypted" v;
    Some (mk_trusted f p e)
  else None.

Definition environment_json (e : InstanceEnvironment) : json :=
  JObj [("internet", JBool (en_internet e)); ("aleph_api", JBool (en_aleph_api e));
        ("hypervisor", to_option hypervisor_json (en_hypervisor e));
        ("trusted_execution", to_option trusted_json (en_trusted_execution e))]%string.
Definition environment_of_json (v : json) : option InstanceEnvironment :=
  if no_duplicate_field ["internet"; "aleph_api"; "hypervisor"; "trusted_execution"]%string v then
    i ← field_default as_bool false "internet" v;
    a ← field_default as_bool false "aleph_api" v;
    h ← field_option hypervisor_of_json "hypervisor" v;
    t ← field_option trusted_of_json "trusted_execution" v;
    Some (mk_environment i a h t)
  else None.

Definition code_json (c : CodeContent) : json :=
  JObj [("encoding", encoding_json (cc_encoding c)); ("entrypoint", JStr (cc_entrypoint c));
        ("ref", JStr (cc_ref c)); ("interface", to_option JStr (cc_interface c));
        ("args", JArr (JStr <$> cc_args c))]%string.
Definition code_of_json (v : json) : option CodeContent :=
  if no_duplicate_field ["encoding"; "entrypoint"; "ref"; "interface"; "args"]%string v then
    e ← field encoding_of_json "encoding" v;
    p ← field of_str "entrypoint" v;
    r ← field of_str "ref" v;
    i ← field_option of_str "interface" v;
    a ← field_default (of_list of_str) [] "args" v;
    Some (mk_code e p r i a)
  else None.

Definition runtime_json (r : FunctionRuntime) : json :=
  JObj [("ref", JStr (ru_ref r)); ("use_latest", JBool (ru_use_latest r));
        ("comment", JStr (ru_comment r))]%string.
Definition runtime_of_json (v : json) : option FunctionRuntime :=
  if no_duplicate_field ["ref"; "use_latest"; "comment"]%string v then
    r ← field of_str "ref" v;
    u ← field_default as_bool true "use_latest" v;
    c ← field_default of_str ""%string "comment" v;
    Some (mk_runtime r u c)
  else None.

Definition payment_json (p : Payment) : json :=
  JObj [("chain", to_option JStr (pa_chain p)); ("receiver", to_option JStr (pa_receiver p));
        ("type", payment_type_json (pa_type p))]%string.
Definition payment_of_json (v : json) : option Payment :=
  if no_duplicate_field ["chain"; "receiver"; "type"]%string v then
    c ← field_option of_str "chain" v;
    r ← field_option of_str "receiver" v;
    t ← field payment_type_of_json "type" v;
    Some (mk_payment c r t)
  else None.

(** A [HashMap] of strings: of two entries with one key the last counts. *)
Definition variables_json (m : gmap string string) : json :=
  JObj (prod_map id JStr <$> map_to_list m).
Definition variables_of_json (v : json) : option (gmap string string) :=
  match v with
  | JObj l =>
      kvs ← mapM (λ kv, s ← of_str (snd kv); Some (fst kv, s)) l;
      Some (list_to_map (reverse kvs))
  | _ => None
  end.

Definition message_fields : list string :=
  ["item_hash"; "type"; "resources"; "volumes"; "variables"; "allow_amend"; "replaces";
   "payment"; "environment"; "rootfs"; "code"; "runtime"].
Definition message_json (m : ExecutableMessage) : json :=
  JObj [("item_hash", JStr (item_hash m)); ("type", machine_type_json (machine_type m));
        ("resources", resources_json (resources m)); ("volumes", JArr (volume_json <$> volumes m));
        ("variables", variables_json (variables m)); ("allow_amend", JBool (allow_amend m));
        ("replaces", to_option JStr (replaces m)); ("payment", to_option payment_json (payment m));
        ("environment", to_option environment_json (environment m));
        ("rootfs", to_option rootfs_json (rootfs m)); ("code", to_option code_json (code m));
        ("runtime", to_option runtime_json (runtime m))]%string.
Definition message_of_json (v : json) : option ExecutableMessage :=
  if no_duplicate_field message_fields v then
    h ← field of_str "item_hash" v;
    t ← field machine_type_of_json "type" v;
    rs ← field resources_of_json "resources" v;
    vs ← field_default (of_list volume_of_json) [] "volumes" v;
    vars ← field_default variables_of_json ∅ "variables" v;
    am ← field_default as_bool false "allow_amend" v;
    rp ← field_option of_str "replaces" v;
    p ← field_option payment_of_json "payment" v;
    e ← field_option environment_of_json "environment" v;
    rf ← field_option rootfs_of_json "rootfs" v;
    c ← field_option code_of_json "code" v;
    rt ← field_option runtime_of_json "runtime" v;
    Some (mk_message h t rs vs vars am rp p e rf c rt)
  else None.

(** ** Round trips *)

#[local] Arguments of_uint : simpl never.
#[local] Arguments of_list : simpl never.
#[local] Arguments of_option : simpl never.
#[local] Arguments to_option : simpl never.
#[local] Arguments parent_of_json : simpl never.
#[local] Arguments trusted_of_json : simpl never.
#[local] Arguments hypervisor_of_json : simpl never.

(** Values within the width of their Rust type. *)
Definition resources_wf (r : MachineResources) : Prop :=
  0 ≤ res_vcpus r ≤ u32_max ∧ 0 ≤ res_memory r ≤ u32_max ∧ 0 ≤ res_seconds r ≤ u32_max ∧
  Forall (λ p, 0 ≤ pp_port p ≤ u16_max) (published_ports r).
Definition volume_wf (v : MachineVolume) : Prop :=
  match v with
  | Immutable _ => True
  | Persistent v => 0 ≤ pe_size_mib v ≤ u64_max
  | Ephemeral v => 0 ≤ ep_size_mib v ≤ u64_max
  end.
Definition message_wf (m : ExecutableMessage) : Prop :=
  resources_wf (resources m) ∧ Forall volume_wf (volumes m) ∧
  (∀ r, rootfs m = Some r → 0 ≤ rf_size_mib r ≤ u64_max) ∧
  (∀ t, trusted_execution m = Some t → 0 ≤ te_policy t ≤ u64_max).

(** What reading makes of a volume: the variants are tried in the order of the enum, and an
    ephemeral volume has all the fields a persistent one requires. *)
Definition as_read (v : MachineVolume) : MachineVolume :=
  match v with
  | Ephemeral e => Persistent (mk_persistent (ep_mount e) None (ep_size_mib e) None PersistHost)
  | _ => v
  end.

Lemma of_to_str_option o : of_option of_str (to_option JStr o) = Some o.
Proof. by destruct o. Qed.

Lemma of_to_strings l : of_list of_str (JArr (JStr <$> l)) = Some l.
Proof. apply of_list_fmap. by apply Forall_forall. Qed.

Lemma parent_of_to_json p : parent_of_json (parent_json p) = Some p.
Proof. by destruct p. Qed.

Lemma port_of_to_json p : 0 ≤ pp_port p ≤ u16_max → port_of_json (port_json p) = Some p.
Proof.
  destruct p as [s n]. simpl. intros Hn. unfold port_of_json, field. simpl.
  by rewrite of_uint_ok.
Qed.

Lemma resources_of_to_json r :
  resources_wf r → resources_of_json (resources_json r) = Some r.
Proof.
  destruct r as [c m s ps]. intros (Hc & Hm & Hs & Hps). simpl in *.
  unfold resources_of_json, field_default. simpl.
  rewrite !of_uint_ok by done. simpl. rewrite of_list_fmap; [done|].
  eapply Forall_impl; [apply Hps|]. intros p. apply port_of_to_json.
Qed.

Lemma volume_of_to_json v :
  volume_wf v → volume_of_json (volume_json v) = Some (as_read v).
Proof.
  destruct v as [i|p|e]; simpl; intros Hv.
  - by destruct i.
  - destruct p as [mn nm sz pa pe]. simpl in Hv. unfold volume_of_json, immutable_of_json,
      persistent_of_json, field, field_option, field_default. simpl.
    rewrite of_to_str_option. simpl. rewrite of_uint_ok by done. simpl.
    rewrite of_to_option by (intros a _; by rewrite parent_of_to_json; destruct a). simpl.
    by destruct pe.
  - destruct e as [mn ep sz]. simpl in Hv. unfold volume_of_json, immutable_of_json,
      persistent_of_json, field, field_option, field_default. simpl. by rewrite of_uint_ok.
Qed.

Lemma volumes_of_to_json vs :
  Forall volume_wf vs →
  of_list volume_of_json (JArr (volume_json <$> vs)) = Some (as_read <$> vs).
Proof.
  intros Hvs. unfold of_list. apply mapM_Some.
  induction Hvs; simpl; constructor; auto using volume_of_to_json.
Qed.

Lemma rootfs_of_to_json r :
  0 ≤ rf_size_mib r ≤ u64_max → rootfs_of_json (rootfs_json r) = Some r.
Proof.
  destruct r as [p k s]. simpl. intros Hs. unfold rootfs_of_json, field, field_default. simpl.
  destruct p, k; simpl; by rewrite of_uint_ok.
Qed.

Lemma trusted_of_to_json t :
  0 ≤ te_policy t ≤ u64_max → trusted_of_json (trusted_json t) = Some t.
Proof.
  destruct t as [f p e]. simpl. intros Hp. unfold trusted_of_json, field_option, field_default.
  simpl. rewrite of_to_str_option. simpl. by rewrite of_uint_ok.
Qed.

Lemma environment_of_to_json e :
  (∀ t, en_trusted_execution e = Some t → 0 ≤ te_policy t ≤ u64_max) →
  environment_of_json (environment_json e) = Some e.
Proof.
  destruct e as [i a h t]. simpl. intros Ht.
  unfold environment_of_json, field_option, field_default. simpl.
  rewrite (of_to_option hypervisor_of_json) by (intros x _; split; by destruct x). simpl.
  rewrite (of_to_option trusted_of_json); [done|].
  intros x ->. split; [by apply trusted_of_to_json, Ht|by destruct x].
Qed.

Lemma code_of_to_json c : code_of_json (code_json c) = Some c.
Proof.
  destruct c as [e p r i a]. unfold code_of_json, field, field_option, field_default. simpl.
  destruct e; simpl; rewrite of_to_str_option; simpl; by rewrite of_to_strings.
Qed.

Lemma payment_of_to_json p : payment_of_json (payment_json p) = Some p.
Proof.
  destruct p as [c r t]. unfold payment_of_json, field, field_option, field_default. simpl.
  rewrite !of_to_str_option. by destruct t.
Qed.

Lemma variables_of_to_json m : variables_of_json (variables_json m) = Some m.
Proof.
  unfold variables_of_json, variables_json. set (l := map_to_list m).
  assert (mapM (λ kv, s ← of_str (snd kv); Some (fst kv, s)) (prod_map id JStr <$> l) = Some l) as ->.
  { apply mapM_Some. induction l as [|[k v] l IH]; simpl; by constructor. }
  simpl. f_equal. unfold l. rewrite (list_to_map_proper _ (map_to_list m)).
  - apply list_to_map_to_list.
  - rewrite fmap_reverse, reverse_Permutation. apply NoDup_fst_map_to_list.
  - apply reverse_Permutation.
Qed.

Lemma message_of_to_json m :
  message_wf m →
  message_of_json (message_json m) =
    Some (mk_message (item_hash m) (machine_type m) (resources m) (as_read <$> volumes m)
      (variables m) (allow_amend m) (replaces m) (payment m) (environment m) (rootfs m)
      (code m) (runtime m)).
Proof.
  destruct m as [h t rs vs vars am rp p e rf c rt]. intros (Hrs & Hvs & Hrf & Hte). simpl in *.
  unfold message_of_json. set (v := message_json _).
  change (no_duplicate_field message_fields v) with true. cbv iota.
  rewrite (field_lookup of_str "item_hash" v (JStr h) eq_refl).
  rewrite (field_lookup _ "type" v (machine_type_json t) eq_refl).
  rewrite (field_lookup _ "resources" v (resources_json rs) eq_refl).
  rewrite (field_default_lookup _ _ "volumes" v (JArr (volume_json <$> vs)) eq_refl).
  rewrite (field_default_lookup _ _ "variables" v (variables_json vars) eq_refl).
  rewrite (field_default_lookup _ _ "allow_amend" v (JBool am) eq_refl).
  rewrite (field_option_lookup _ "replaces" v (to_option JStr rp) eq_refl).
  rewrite (field_option_lookup _ "payment" v (to_option payment_json p) eq_refl).
  rewrite (field_option_lookup _ "environment" v (to_option environment_json e) eq_refl).
  rewrite (field_option_lookup _ "rootfs" v (to_option rootfs_json rf) eq_refl).
  rewrite (field_option_lookup _ "code" v (to_option code_json c) eq_refl).
  rewrite (field_option_lookup _ "runtime" v (to_option runtime_json rt) eq_refl).
  rewrite resources_of_to_json, variables_of_to_json, of_to_str_option by done.
  rewrite volumes_of_to_json by done.
  rewrite (of_to_option payment_of_json)
    by (intros a ->; split; [apply payment_of_to_json|by destruct a]).
  rewrite (of_to_option environment_of_json)
    by (intros a ->; split; [by apply environment_of_to_json|by destruct a]).
  rewrite (of_to_option rootfs_of_json)
    by (intros a ->; split; [by apply rootfs_of_to_json, Hrf|by destruct a]).
  rewrite (of_to_option code_of_json)
    by (intros a ->; split; [apply code_of_to_json|by destruct a]).
  rewrite (of_to_option runtime_of_json) by (intros a ->; by destruct a).
  by destruct t.
Qed.

(** ** Widths *)

Ltac decoded_fields :=
  repeat match goal with
  | H : (if ?b then _ else None) = Some _ |- _ => destruct b; [|done]
  | H : (?o ≫= _) = Some _ |- _ => apply bind_Some in H as (? & ? & H)
  end.

Lemma port_of_json_wf v p : port_of_json v = Some p → 0 ≤ pp_port p ≤ u16_max.
Proof.
  unfold port_of_json. intros Hp. decoded_fields. simplify_eq/=.
  eapply (field_decoded (λ n, 0 ≤ n ≤ u16_max)); [apply of_uint_bounds|done].
Qed.

Lemma resources_of_json_wf v r : resources_of_json v = Some r → resources_wf r.
Proof.
  unfold resources_of_json. intros Hr. decoded_fields. simplify_eq/=.
  unfold resources_wf. simpl.
  assert (∀ d k n, 0 ≤ d ≤ u32_max → field_default (of_uint u32_max) d k v = Some n → 0 ≤ n ≤ u32_max)
    as Hu.
  { intros d k n Hd. apply (field_default_decoded (λ n, 0 ≤ n ≤ u32_max)); [apply of_uint_bounds|done]. }
  split_and!; try (eapply Hu; [|done]; done).
  eapply (field_default_decoded (Forall _)); [|constructor|done].
  intros j l. apply of_list_decoded, port_of_json_wf.
Qed.

Lemma volume_of_json_wf v m : volume_of_json v = Some m → volume_wf m.
Proof.
  unfold volume_of_json. destruct (immutable_of_json v); [by intros [= <-]|].
  destruct (persistent_of_json v) as [p|] eqn:Hp.
  - intros [= <-]. unfold persistent_of_json in Hp. decoded_fields. simplify_eq/=.
    eapply (field_decoded (λ n, 0 ≤ n ≤ u64_max)); [apply of_uint_bounds|done].
  - intros (e & He & ->)%fmap_Some. unfold ephemeral_of_json in He. decoded_fields. simplify_eq/=.
    eapply (field_decoded (λ n, 0 ≤ n ≤ u64_max)); [apply of_uint_bounds|done].
Qed.

Lemma trusted_of_json_wf v t : trusted_of_json v = Some t → 0 ≤ te_policy t ≤ u64_max.
Proof.
  unfold trusted_of_json. intros Ht. decoded_fields. simplify_eq/=.
  eapply (field_default_decoded (λ n, 0 ≤ n ≤ u64_max)); [apply of_uint_bounds| |done].
  unfold u64_max. lia.
Qed.

Lemma environment_of_json_wf v e t :
  environment_of_json v = Some e → en_trusted_execution e = Some t → 0 ≤ te_policy t ≤ u64_max.
Proof.
  unfold environment_of_json. intros He Ht. decoded_fields. simplify_eq/=.
  by eapply (field_option_decoded _ _ trusted_of_json_wf).
Qed.

Lemma rootfs_of_json_wf v r : rootfs_of_json v = Some r → 0 ≤ rf_size_mib r ≤ u64_max.
Proof.
  unfold rootfs_of_json. intros Hr. decoded_fields. simplify_eq/=.
  eapply (field_decoded (λ n, 0 ≤ n ≤ u64_max)); [apply of_uint_bounds|done].
Qed.

(** Every message that was read has its numbers within their types. *)
Lemma message_of_json_wf v m : message_of_json v = Some m → message_wf m.
Proof.
  unfold message_of_json. intros Hm. decoded_fields. simplify_eq/=. unfold message_wf. simpl.
  split_and!.
  - by eapply (field_decoded _ _ resources_of_json_wf).
  - eapply (field_default_decoded (Forall _)); [|constructor|done].
    intros j l. apply of_list_decoded, volume_of_json_wf.
  - intros r ->. by eapply (field_option_decoded _ _ rootfs_of_json_wf).
  - unfold trusted_execution. simpl. intros t (e & -> & Ht)%bind_Some.
    by eapply (field_option_decoded (λ e, en_trusted_execution e = Some t → 0 ≤ te_policy t ≤ u64_max) _
      (λ j e Hj, environment_of_json_wf j e t Hj)).
Qed.

(** C20: a message whose numbers fit their types survives writing and reading in every field
    but one: an ephemeral volume has every field a persistent one requires, so the untagged
    union reads it as a persistent volume and no reader ever sees the ephemeral kind. *)
Theorem message_round_trip m :
  message_wf m →
  message_of_json (message_json m) =
    Some (mk_message (item_hash m) (machine_type m) (resources m) (as_read <$> volumes m)
      (variables m) (allow_amend m) (replaces m) (payment m) (environment m) (rootfs m)
      (code m) (runtime m)) ∧
  ∀ v, v ∈ as_read <$> volumes m → ∀ e, v ≠ Ephemeral e.
Proof.
  intros Hm. split; [by apply message_of_to_json|].
  intros v (v' & -> & _)%list_elem_of_fmap e. by destruct v'.
Qed.

(** The instance of the source's unit test, with one volume of each kind. *)
Definition demo_message : ExecutableMessage :=
  mk_message "abc123def456" VmInstance (mk_resources 4 2048 1 [mk_port "tcp" 8080])
    [Immutable (mk_immutable "vol_hash_1" "/data" true);
     Ephemeral (mk_ephemeral "/tmp" true 500);
     Persistent (mk_persistent "/db" (Some "db"%string) 2048 (Some (mk_parent "base" true)) PersistStore)]
    {["ENV"%string := "production"%string]} true None None
    (Some (mk_environment true false (Some HvQemu) (Some (mk_trusted None 196608 false))))
    (Some (mk_rootfs (mk_parent "rootfs_hash" true) PersistHost 10240)) None None.

Lemma message_round_trip_witness :
  message_wf demo_message ∧
  volumes <$> message_of_json (message_json demo_message) =
    Some [Immutable (mk_immutable "vol_hash_1" "/data" true);
          Persistent (mk_persistent "/tmp" None 500 None PersistHost);
          Persistent (mk_persistent "/db" (Some "db"%string) 2048 (Some (mk_parent "base" true)) PersistStore)].
Proof.
  assert (message_wf demo_message) as Hwf.
  { unfold message_wf, resources_wf, u32_max, u64_max, u16_max. simpl. split_and!; try lia.
    - repeat constructor; simpl; lia.
    - repeat constructor; simpl; unfold u64_max; lia.
    - intros r [= <-]. simpl. lia.
    - intros t [= <-]. simpl. lia. }
  split; [exact Hwf|]. by rewrite (proj1 (message_round_trip demo_message Hwf)).
Defined.
