(* ===== verification/Volumes.v ===== *)
(** * The volume cache

    [src/crates/aleph-scheduler-agent/src/aleph/volumes.rs]: files of the Aleph network,
    downloaded once and kept under their item hash. *)

From S2P Require Import Prelude Strs Host HostSim Json Types Instances Crypto CryptoSim Messages.
#[local] Open Scope Z_scope.

(** SHA-256, the crate sha2. *)
Class Sha256 := { sha256 : bytes → bytes; sha256_length b : length (sha256 b) = 32%nat }.

Inductive VolumeCategory := CatCode | CatRuntime | CatData.

Definition url_segment (c : VolumeCategory) : string :=
  match c with CatCode => "code" | CatRuntime => "runtime" | CatData => "data" end.
Definition cache_subdir (c : VolumeCategory) : string :=
  match c with CatCode => "code" | CatRuntime => "runtime" | CatData => "data" end.

Record VolumeCache := mk_cache { base_dir : string; connector_url : string }.

Definition new_cache (base_dir connector_url : string) : VolumeCache :=
  mk_cache base_dir (trim_end_matches "/"%char connector_url).

(** [Response::error_for_status]: only client and server errors are errors. *)
Definition is_error_status (r : WebResponse) : bool := (400 <=? rs_status r) && (rs_status r <? 600).

Section cache.
Context {W : Type} `{Host W, Web W}.

Definition cache_path (cache : VolumeCache) (hash : ItemHash) (category : VolumeCategory) : string :=
  path_join (path_join (base_dir cache) (cache_subdir category)) hash.
Definition temp_path (path : string) : string := with_extension path "tmp".
Definition download_url (cache : VolumeCache) (hash : ItemHash) (category : VolumeCategory) : string :=
  (connector_url cache ++ "/download/" ++ url_segment category ++ "/" ++ hash)%str.

(** The request, and the body to be streamed. *)
Definition request_volume (url : string) : M W error WebResponse :=
  response ← run_ext ("requesting " ++ url)%str (web_get url);
  if is_error_status response then
    throw (add_context ("HTTP error for " ++ url)%str
             (mk_error ("HTTP status " ++ status_display (rs_status response))%str []))
  else mret response.

Definition ensure_cached (cache : VolumeCache) (hash : ItemHash) (category : VolumeCategory)
    : M W error string :=
  let cache_dir := path_join (base_dir cache) (cache_subdir category) in
  io_ctx "creating cache directory" (host_create_dir_all cache_dir);;
  let local_path := path_join cache_dir hash in
  e ← observe (host_exists local_path);
  if (e : bool) then mret local_path
  else
    let url := download_url cache hash category in
    response ← request_volume url;
    let tmp_path := temp_path local_path in
    io_ctx "creating temp file" (host_create tmp_path);;
    body ← lift (ext_ctx ("reading body from " ++ url)%str (rs_body response));
    io_ctx "writing volume" (host_append tmp_path (of_bytes body));;
    io (host_flush tmp_path);;
    io_ctx "renaming temp file to final path" (host_rename tmp_path local_path);;
    mret local_path.

Definition verify_hash `{Sha256, Hex} (path expected_hash : string) : M W error bool :=
  data ← io (host_read path);
  mret (String.eqb (hex_encode (sha256 (to_bytes data))) expected_hash).

Definition evict (cache : VolumeCache) (hash : ItemHash) (category : VolumeCategory)
    : M W error unit :=
  let path := cache_path cache hash category in
  e ← observe (host_exists path);
  if (e : bool) then io (host_remove_file path) else mret tt.
End cache.

(** ** What the cache promises *)

(** An item hash as the network makes them: one path component without an extension. *)
Definition plain_hash (h : ItemHash) : Prop :=
  h ≠ ""%string ∧ lacks "/"%char h ∧ lacks "."%char h.

Section facts.
Context {W : Type} `{HostFs W, Web W}.

Lemma total_ensure_cached cache h c : total (ensure_cached cache h c : M W error _).
Proof.
  unfold ensure_cached, request_volume.
  apply total_bind; [total_tac|]. intros _. apply total_bind; [by intros w p|]. intros e.
  destruct e; [apply total_ret|].
  apply total_bind.
  { apply total_bind; [intros w p; unfold run_ext; destruct (web_get _ w); apply ext_ctx_no_panic|].
    intros r. case_match; total_tac. }
  intros r. apply total_bind; [total_tac|]. intros _.
  apply total_bind; [apply total_lift, no_panic_ext_ctx|]. intros b. total_tac.
Qed.

Lemma total_evict cache h c : total (evict cache h c : M W error _).
Proof.
  unfold evict. apply total_bind; [by intros w p|]. intros e. destruct e; total_tac.
Qed.

(** An existing file is the answer, whatever it holds. *)
Lemma ensure_cached_hit cache h c w w1 :
  host_create_dir_all (path_join (base_dir cache) (cache_subdir c)) w = (inr tt, w1) →
  host_exists (cache_path cache h c) w1 = true →
  ensure_cached cache h c w = (Ok (cache_path cache h c), w1).
Proof.
  intros Hmk He. unfold ensure_cached.
  rewrite (bind_Ok _ _ _ tt w1) by (unfold io_ctx, io, with_context, map_errM, run_io; by rewrite Hmk).
  erewrite bind_Ok by done. unfold cache_path in He. by rewrite He.
Qed.
End facts.

(** The web client does not touch the machine's files. *)
Class WebFs (W : Type) `{HostFs W, Web W} : Prop :=
  files_web_get url (w : W) : host_files (web_get url w).2 = host_files w.

(** A final name: the directory's name up to a separator, the category, the hash. *)
Definition cache_prefix (cache : VolumeCache) : string :=
  if is_empty (base_dir cache) || ends_with "/" (base_dir cache) then base_dir cache
  else (base_dir cache ++ "/")%str.

Lemma cache_path_eq cache h c :
  plain_hash h → cache_path cache h c = (cache_prefix cache ++ cache_subdir c ++ String "/"%char h)%str.
Proof.
  intros (Hne & Hs & _). unfold cache_path.
  assert (path_join (base_dir cache) (cache_subdir c) = (cache_prefix cache ++ cache_subdir c)%str) as ->.
  { unfold path_join, cache_prefix. assert (starts_with "/" (cache_subdir c) = false) as -> by by destruct c.
    destruct (base_dir cache) as [|x b] eqn:Hb; [done|]. rewrite <-Hb.
    assert (is_empty (base_dir cache) = false) as -> by by rewrite Hb.
    simpl. destruct (ends_with "/" (base_dir cache)); [done|]. by rewrite str_app_assoc. }
  set (d := (cache_prefix cache ++ cache_subdir c)%str). unfold path_join.
  assert (starts_with "/" h = false) as ->.
  { destruct h as [|x h]; [done|]. change "/"%string with (String "/"%char "").
    rewrite starts_with_char. apply lacks_cons in Hs as [? _]. by apply Ascii.eqb_neq. }
  assert (is_empty d = false) as -> by (unfold d; destruct (cache_prefix cache), c; done).
  assert (ends_with "/" d = false) as ->.
  { unfold ends_with. destruct (strip_suffix "/" d) as [r|] eqn:Hr; [|done].
    apply strip_suffix_Some, (f_equal String.rev) in Hr. unfold d in Hr. rewrite !str_rev_app in Hr.
    by destruct c. }
  unfold d. by rewrite !str_app_assoc.
Qed.

Lemma temp_path_plain cache h c :
  plain_hash h → temp_path (cache_path cache h c) = (cache_path cache h c ++ ".tmp")%str.
Proof.
  intros Hh. unfold temp_path. rewrite cache_path_eq by done. destruct Hh as (Hne & Hs & Hd).
  change (String "/"%char h) with ("/" ++ h)%str. rewrite <-str_app_assoc.
  rewrite with_extension_plain by done. by rewrite !str_app_assoc.
Qed.

Section atomic.
Context {W : Type} `{WebFs W}.

Lemma request_volume_files url (w : W) :
  wp (request_volume url) (λ r w', host_files w' = host_files w ∧
    match r with
    | Ok resp => (web_get url w).1 = inr resp ∧ is_error_status resp = false
    | Err _ => True
    | Panic _ => False
    end) w.
Proof.
  pose proof (files_web_get url w) as Hf. unfold request_volume.
  apply wp_bind, wp_run_ext; [intros resp w1 Hw|intros e w1 Hw]; rewrite Hw in Hf; simpl in Hf.
  - case_match; [by apply wp_throw|]. apply wp_ret. by rewrite Hw.
  - done.
Qed.

(** Every exit: the file under the final name is the old one, or all of the body. *)
Definition cached_outcome (cache : VolumeCache) (h : ItemHash) (c : VolumeCategory) (w : W)
    (r : result error string) (w' : W) : Prop :=
  let path := cache_path cache h c in
  (∀ q, q ≠ path → q ≠ temp_path path → host_files w' !! q = host_files w !! q) ∧
  match r with
  | Ok p => p = path ∧
      (host_files w' = host_files w ∨
       ∃ w1 resp body, (web_get (download_url cache h c) w1).1 = inr resp ∧
         is_error_status resp = false ∧ rs_body resp = inr body ∧
         host_files w' !! path = Some (of_bytes body))
  | Err _ => host_files w' !! path = host_files w !! path
  | Panic _ => False
  end.

Lemma ensure_cached_spec cache h c w :
  temp_path (cache_path cache h c) ≠ cache_path cache h c →
  wp (ensure_cached cache h c) (cached_outcome cache h c w) w.
Proof.
  intros Hne. unfold ensure_cached, cached_outcome.
  change (path_join (path_join (base_dir cache) (cache_subdir c)) h) with (cache_path cache h c).
  set (path := cache_path cache h c) in *. set (tmp := temp_path path) in *.
  apply wp_bind, wp_io_ctx; [intros [] w1 Ho|intros e w1 Ho];
    pose proof (files_mkdir (path_join (base_dir cache) (cache_subdir c)) w) as F1;
    rewrite Ho in F1; simpl in F1; [|by rewrite F1].
  apply wp_bind, wp_observe. destruct (host_exists path w1).
  { apply wp_ret. rewrite F1. split; [done|]. split; [done|by left]. }
  apply wp_bind. eapply wp_mono; [apply request_volume_files|].
  intros [resp|e|p] w2 [F2 Hw]; [|by rewrite F2, F1|done].
  destruct Hw as [Hw Hst].
  apply wp_bind, wp_io_ctx; [intros [] w3 Ho3|intros e w3 Ho3];
    pose proof (files_create_frame tmp w2) as F3; rewrite Ho3 in F3; simpl in F3;
    [|split; [intros q ? ?|]; by rewrite F3, F2, F1 by done].
  pose proof (files_create_ok tmp w2 tt) as F3'. rewrite Ho3 in F3'. specialize (F3' eq_refl).
  simpl in F3'.
  apply wp_bind, wp_lift. destruct (rs_body resp) as [e|body] eqn:Hb;
    [split; [intros q ? ?|]; simpl; by rewrite F3, F2, F1 by done|]. simpl.
  apply wp_bind, wp_io_ctx; [intros [] w4 Ho4|intros e w4 Ho4];
    pose proof (files_append_frame tmp (of_bytes body) w3) as F4; rewrite Ho4 in F4; simpl in F4;
    [|split; [intros q ? ?|]; by rewrite F4, F3, F2, F1 by done].
  pose proof (files_append_ok tmp (of_bytes body) w3 tt "") as F4'. rewrite Ho4 in F4'.
  specialize (F4' eq_refl F3'). simpl in F4'.
  pose proof (files_flush tmp w4) as Fl.
  apply wp_bind, wp_io; [intros [] w4f Hof|intros e w4f Hof]; rewrite Hof in Fl; simpl in Fl;
    [|split; [intros q ? ?|]; by rewrite Fl, F4, F3, F2, F1 by done].
  rewrite <-Fl in F4, F4'. clear w4 Fl Ho4 Hof. rename w4f into w4.
  apply wp_bind, wp_io_ctx; [intros [] w5 Ho5|intros e w5 Ho5].
  - pose proof (files_rename_ok tmp path w4 tt) as F5. rewrite Ho5 in F5.
    destruct (F5 eq_refl) as (s & Hs & F6). simpl in F6.
    rewrite F4' in Hs. injection Hs as <-. apply wp_ret. split.
    + intros q Hq Hq'. by rewrite F6, lookup_insert_ne, lookup_delete_ne, F4, F3, F2, F1 by done.
    + split; [done|]. right. exists w1, resp, body. split_and!; [done..|].
      by rewrite F6, lookup_insert_eq.
  - pose proof (files_rename_err tmp path w4 e) as F5. rewrite Ho5 in F5.
    specialize (F5 eq_refl). simpl in F5.
    split; [intros q ? ?|]; by rewrite F5, F4, F3, F2, F1 by done.
Qed.
End atomic.

Lemma temp_path_ne cache h c : plain_hash h → temp_path (cache_path cache h c) ≠ cache_path cache h c.
Proof.
  intros Hh. rewrite temp_path_plain by done. intros Heq.
  apply (f_equal String.length) in Heq. rewrite str_length_app in Heq. simpl in Heq. lia.
Qed.

#[export] Instance sim_web_fs : WebFs sim.
Proof. intros url w. simpl. by destruct (head (sim_outputs w)). Qed.

(** ** Properties *)

(** The volume cache never shows a partial file, whatever fails: after a call for a hash
    as the network makes them, the file under the hash's final name is the one from before
    the call, or the whole body of a response without an error status; an error leaves
    it as it was, no other file but the temporary one is touched, and a success gives the
    final path. The body is whatever the server sent: nothing compares it to the hash. [VolumesOverlap] lets calls interleave. *)
Theorem volume_cache_atomic {W} `{WebFs W} cache h c (w : W) :
  plain_hash h → wp (ensure_cached cache h c) (cached_outcome cache h c w) w.
Proof. intros Hh. by apply ensure_cached_spec, temp_path_ne. Qed.

Definition demo_cache : VolumeCache := new_cache "/cache" "https://official.aleph.cloud/".
(** A server that sends a body, to a machine whose rename fails, or does not. *)
Definition demo_download (rename_fails : bool) : sim :=
  mk_sim {[ "/etc/hosts"%string := "localhost"%string ]} [false; false; false; false; rename_fails]
    [mk_output true "not the volume" ""] [] 0 [].

Lemma volume_cache_atomic_witness :
  plain_hash "d7a8fbb307d7809469ca" ∧
  host_files (ensure_cached demo_cache "d7a8fbb307d7809469ca" CatData (demo_download true)).2
    !! "/cache/data/d7a8fbb307d7809469ca"%string = None ∧
  host_files (ensure_cached demo_cache "d7a8fbb307d7809469ca" CatData (demo_download false)).2
    !! "/cache/data/d7a8fbb307d7809469ca"%string = Some "not the volume"%string.
Proof.
  assert (plain_hash "d7a8fbb307d7809469ca") as Hh by done.
  split; [exact Hh|]. split; [|by vm_compute].
  pose proof (volume_cache_atomic demo_cache "d7a8fbb307d7809469ca" CatData (demo_download true) Hh) as Hwp.
  unfold wp in Hwp.
  assert (is_err (ensure_cached demo_cache "d7a8fbb307d7809469ca" CatData (demo_download true)).1 = true)
    as He by by vm_compute.
  destruct (ensure_cached demo_cache "d7a8fbb307d7809469ca" CatData (demo_download true)) as [[p|e|p] w'];
    [done| |done].
  destruct Hwp as [_ Hwp]. exact Hwp.
Defined.
