(* ===== verification/VolumesOverlap.v ===== *)
(** * The volume cache: downloads that overlap

    [ensure_cached] of [src/crates/aleph-scheduler-agent/src/aleph/volumes.rs] takes no
    lock, and two allocations translate messages at once, so downloads interleave at every
    await. Here are its phases and their interleavings: what holds as long as no file is
    downloaded twice at once, also if the process dies between any two phases, and what
    goes wrong otherwise. *)

From S2P Require Import Prelude Strs Host HostSim Json Types Instances Crypto CryptoSim Messages Volumes.
#[local] Open Scope Z_scope.

(** ** Phases *)

Section phases.
Context {W : Type} `{Host W, Web W} (cache : VolumeCache).

(** One constructor per await: the directory, the look for the file, the request, the
    temporary file, the body, the write, the flush, the rename. *)
Inductive fetch_pc :=
| Starting (h : ItemHash) (c : VolumeCategory)
| Looking (h : ItemHash) (c : VolumeCategory)
| Requesting (h : ItemHash) (c : VolumeCategory)
| Opening (h : ItemHash) (c : VolumeCategory) (response : WebResponse)
| Reading (h : ItemHash) (c : VolumeCategory) (response : WebResponse)
| Writing (h : ItemHash) (c : VolumeCategory) (body : bytes)
| Flushing (h : ItemHash) (c : VolumeCategory) (body : bytes)
| Renaming (h : ItemHash) (c : VolumeCategory) (body : bytes)
| Fetched (h : ItemHash) (c : VolumeCategory) (r : result error string).

Definition volume_of (pc : fetch_pc) : ItemHash * VolumeCategory :=
  match pc with
  | Starting h c | Looking h c | Requesting h c | Opening h c _ | Reading h c _
  | Writing h c _ | Flushing h c _ | Renaming h c _ | Fetched h c _ => (h, c)
  end.
Definition local_path (v : ItemHash * VolumeCategory) : string := cache_path cache v.1 v.2.

Definition fetch_phase (pc : fetch_pc) : M W error fetch_pc :=
  match pc with
  | Starting h c =>
      io_ctx "creating cache directory" (host_create_dir_all (path_join (base_dir cache) (cache_subdir c)));;
      mret (Looking h c)
  | Looking h c =>
      e ← observe (host_exists (cache_path cache h c));
      mret (if (e : bool) then Fetched h c (Ok (cache_path cache h c)) else Requesting h c)
  | Requesting h c =>
      response ← request_volume (download_url cache h c);
      mret (Opening h c response)
  | Opening h c response =>
      io_ctx "creating temp file" (host_create (temp_path (cache_path cache h c)));;
      mret (Reading h c response)
  | Reading h c response =>
      body ← lift (ext_ctx ("reading body from " ++ download_url cache h c)%str (rs_body response));
      mret (Writing h c body)
  | Writing h c body =>
      io_ctx "writing volume" (host_append (temp_path (cache_path cache h c)) (of_bytes body));;
      mret (Flushing h c body)
  | Flushing h c body =>
      io (host_flush (temp_path (cache_path cache h c)));;
      mret (Renaming h c body)
  | Renaming h c body =>
      io_ctx "renaming temp file to final path"
        (host_rename (temp_path (cache_path cache h c)) (cache_path cache h c));;
      mret (Fetched h c (Ok (cache_path cache h c)))
  | Fetched h c r => mret (Fetched h c r)
  end.

(** The rest of a download, run without a break: [ensure_cached] for one that starts. *)
Fixpoint fetch_rest (n : nat) (pc : fetch_pc) : M W error string :=
  match pc, n with
  | Fetched _ _ r, _ => lift r
  | _, S n => pc' ← fetch_phase pc; fetch_rest n pc'
  | _, O => throw (mk_error "" [])
  end.

Lemma fetch_rest_S n pc w : fetch_rest (S n) pc w = (fetch_phase pc ≫= fetch_rest n) w.
Proof. destruct pc; [reflexivity..|]. by destruct n. Qed.

Lemma fetch_bind {A} (m : M W error A) (f : A → fetch_pc) (k : fetch_pc → M W error string)
    (k' : A → M W error string) w :
  (∀ a w', k (f a) w' = k' a w') → ((a ← m; mret (f a)) ≫= k) w = (m ≫= k') w.
Proof. intros Hk. unfold mbind, M_bind. destruct (m w) as [[a|e|p] w']; [apply Hk|done..]. Qed.

(** Eight phases in a row are [ensure_cached]. *)
Lemma fetch_rest_ensure_cached h c w : fetch_rest 8 (Starting h c) w = ensure_cached cache h c w.
Proof.
  rewrite fetch_rest_S. apply (fetch_bind _ (λ _, Looking h c)). intros _ w1.
  rewrite fetch_rest_S.
  apply (fetch_bind _ (λ e : bool, if e then Fetched h c (Ok (cache_path cache h c)) else Requesting h c)).
  intros e w2. destruct e; [reflexivity|].
  rewrite fetch_rest_S. apply (fetch_bind _ (Opening h c)). intros response w3.
  rewrite fetch_rest_S. apply (fetch_bind _ (λ _, Reading h c response)). intros _ w4.
  rewrite fetch_rest_S. apply (fetch_bind _ (Writing h c)). intros body w5.
  rewrite fetch_rest_S. apply (fetch_bind _ (λ _, Flushing h c body)). intros _ w6.
  rewrite fetch_rest_S. apply (fetch_bind _ (λ _, Renaming h c body)). intros _ w7.
  rewrite fetch_rest_S. by apply (fetch_bind _ (λ _, Fetched h c (Ok (cache_path cache h c)))).
Qed.
End phases.

(** ** Names *)


(** The last component of a final name has no dot, that of a temporary name has one. *)
Lemma slash_not_tmp d h x :
  lacks "."%char h → (d ++ String "/"%char h ≠ x ++ ".tmp")%str.
Proof.
  intros Hd%lacks_rev Heq. apply (f_equal String.rev) in Heq. rewrite !str_rev_app, str_rev_cons in Heq.
  destruct (String.rev h) as [|x1 [|x2 [|x3 [|x4 r]]]]; try discriminate Heq. simpl in Heq. simplify_eq.
  rewrite !lacks_cons in Hd. by destruct Hd as (_ & _ & _ & ? & _).
Qed.

Lemma final_not_temporary cache h c h' c' :
  plain_hash h → plain_hash h' → cache_path cache h c ≠ temp_path (cache_path cache h' c').
Proof.
  intros Hh Hh'. rewrite temp_path_plain, (cache_path_eq cache h) by done.
  rewrite <-!str_app_assoc. apply slash_not_tmp, Hh.
Qed.

(** The final name gives the volume. *)
Lemma cache_path_inj cache h c h' c' : plain_hash h → plain_hash h' →
  cache_path cache h c = cache_path cache h' c' → h = h' ∧ c = c'.
Proof.
  intros Hh Hh'. rewrite !cache_path_eq by done. intros Heq%str_app_inj_l.
  destruct c, c'; simpl in Heq; try discriminate Heq; by injection Heq as ->.
Qed.

Lemma temporary_inj cache h c h' c' : plain_hash h → plain_hash h' →
  temp_path (cache_path cache h c) = temp_path (cache_path cache h' c') →
  cache_path cache h c = cache_path cache h' c'.
Proof.
  intros Hh Hh'. rewrite !temp_path_plain by done. intros Heq. apply (f_equal (strip_suffix ".tmp")) in Heq.
  rewrite !(proj2 (strip_suffix_Some _ _ _) eq_refl) in Heq. by injection Heq.
Qed.

(** ** Downloads that interleave *)

Section steps.
Context {W : Type} `{WebFs W} (cache : VolumeCache).
Implicit Types (v : ItemHash * VolumeCategory) (pc : fetch_pc).

Definition fetch_settle v (r : result error fetch_pc) : fetch_pc :=
  match r with Ok pc => pc | Err e => Fetched v.1 v.2 (Err e) | Panic p => Fetched v.1 v.2 (Panic p) end.

Definition in_flight pc : Prop := match pc with Fetched _ _ _ => False | _ => True end.

(** A file of the cache: under its final or its temporary name. *)
Definition cache_file (q : string) : Prop :=
  ∃ h c, plain_hash h ∧ (q = cache_path cache h c ∨ q = temp_path (cache_path cache h c)).

(** A download begins, if [compat] allows it beside those that are there; one runs a phase;
    the machine changes outside the cache; the process dies and comes back. *)
Inductive fetch_step (compat : fetch_pc → ItemHash * VolumeCategory → Prop) :
    W * list fetch_pc → W * list fetch_pc → Prop :=
| fetch_arrive w pcs h c :
    plain_hash h → (∀ i pc, pcs !! i = Some pc → compat pc (h, c)) →
    fetch_step compat (w, pcs) (w, pcs ++ [Starting h c])
| fetch_advance i pc w r w' pcs :
    pcs !! i = Some pc → fetch_phase cache pc w = (r, w') →
    fetch_step compat (w, pcs) (w', <[i := fetch_settle (volume_of pc) r]> pcs)
| fetch_machine w w' pcs :
    (∀ q, cache_file q → host_files w' !! q = host_files w !! q) → fetch_step compat (w, pcs) (w', pcs)
| fetch_die w pcs : fetch_step compat (w, pcs) (w, []).

(** No file is downloaded twice at once. *)
Definition one_each pc v : Prop := in_flight pc → local_path cache (volume_of pc) ≠ local_path cache v.

(** ** What a download holds *)

(** A response without an error status to the request for the volume, at some time. *)
Definition answered v (resp : WebResponse) : Prop :=
  ∃ w : W, (web_get (download_url cache v.1 v.2) w).1 = inr resp ∧ is_error_status resp = false.
Definition served v (body : bytes) : Prop := ∃ resp, answered v resp ∧ rs_body resp = inr body.

Definition fetch_holds (files : gmap string string) pc : Prop :=
  let tmp := temp_path (local_path cache (volume_of pc)) in
  match pc with
  | Opening h c resp => answered (h, c) resp
  | Reading h c resp => answered (h, c) resp ∧ files !! tmp = Some ""%string
  | Writing h c body => served (h, c) body ∧ files !! tmp = Some ""%string
  | Flushing h c body | Renaming h c body => served (h, c) body ∧ files !! tmp = Some (of_bytes body)
  | Fetched h c (Ok p) => p = cache_path cache h c
  | Fetched _ _ (Panic _) => False
  | _ => True
  end.

(** What a file of the cache may become. *)
Definition whole v (old new : option string) : Prop :=
  new = old ∨ ∃ body, served v body ∧ new = Some (of_bytes body).

Definition phase_outcome pc (f f' : gmap string string) pc' : Prop :=
  let path := local_path cache (volume_of pc) in
  volume_of pc' = volume_of pc ∧ (in_flight pc' → in_flight pc) ∧ fetch_holds f' pc' ∧
  (in_flight pc ∨ f' = f) ∧
  (∀ q, q ≠ path → q ≠ temp_path path → f' !! q = f !! q) ∧ whole (volume_of pc) (f !! path) (f' !! path).

Lemma phase_quiet pc f pc' :
  volume_of pc' = volume_of pc → (in_flight pc' → in_flight pc) → fetch_holds f pc' →
  phase_outcome pc f f pc'.
Proof. intros Hv Hfl Hh. split_and!; try done; [by right|by left]. Qed.

(** A phase that writes the temporary file. *)
Lemma phase_temporary pc f f' pc' :
  in_flight pc → plain_hash (volume_of pc).1 → volume_of pc' = volume_of pc → fetch_holds f' pc' →
  (∀ q, q ≠ temp_path (local_path cache (volume_of pc)) → f' !! q = f !! q) → phase_outcome pc f f' pc'.
Proof.
  intros Hfl Hh Hv Hholds Hf. split_and!; try done; [by left|intros q _ Hq; by apply Hf|].
  left. apply Hf. by apply final_not_temporary.
Qed.

Lemma fetch_phase_spec pc w :
  plain_hash (volume_of pc).1 → fetch_holds (host_files w) pc →
  wp (fetch_phase cache pc) (λ r w',
    phase_outcome pc (host_files w) (host_files w') (fetch_settle (volume_of pc) r)) w.
Proof.
  intros Hh Hpc. destruct pc as [h c|h c|h c|h c resp|h c resp|h c body|h c body|h c body|h c r]; cbn [fetch_phase].
  - apply wp_bind, wp_io_ctx; [intros [] w1 Ho|intros e w1 Ho];
      pose proof (files_mkdir (path_join (base_dir cache) (cache_subdir c)) w) as F; rewrite Ho in F; simpl in F;
      [apply wp_ret|]; rewrite F; by apply phase_quiet.
  - apply wp_bind, wp_observe, wp_ret. destruct (host_exists _ w); by apply phase_quiet.
  - apply wp_bind. eapply wp_mono; [apply request_volume_files|].
    intros [resp|e|p] w1 [F Hw]; [apply wp_ret| |done]; rewrite F; apply phase_quiet; try done. by exists w.
  - apply wp_bind, wp_io_ctx; [intros [] w1 Ho|intros e w1 Ho];
      pose proof (files_create_frame (temp_path (cache_path cache h c)) w) as F; rewrite Ho in F; simpl in F;
      [apply wp_ret|by apply phase_temporary].
    apply phase_temporary; try done. split; [done|].
    pose proof (files_create_ok (temp_path (cache_path cache h c)) w tt) as Fo. rewrite Ho in Fo. by apply Fo.
  - destruct Hpc as [Hresp Hf]. apply wp_bind, wp_lift. destruct (rs_body resp) as [e|body] eqn:Hb; simpl.
    + by apply phase_quiet.
    + apply wp_ret. apply phase_quiet; [done..|]. split; [by exists resp|done].
  - destruct Hpc as [Hs Hf]. apply wp_bind, wp_io_ctx; [intros [] w1 Ho|intros e w1 Ho];
      pose proof (files_append_frame (temp_path (cache_path cache h c)) (of_bytes body) w) as F; rewrite Ho in F;
      simpl in F; [apply wp_ret|by apply phase_temporary].
    apply phase_temporary; try done. split; [done|].
    pose proof (files_append_ok (temp_path (cache_path cache h c)) (of_bytes body) w tt "") as Fo.
    rewrite Ho in Fo. by apply Fo.
  - apply wp_bind, wp_io; [intros [] w1 Ho|intros e w1 Ho];
      pose proof (files_flush (temp_path (cache_path cache h c)) w) as F; rewrite Ho in F; simpl in F;
      [apply wp_ret|]; rewrite F; by apply phase_quiet.
  - destruct Hpc as [Hs Hf]. apply wp_bind, wp_io_ctx; [intros [] w1 Ho|intros e w1 Ho].
    + pose proof (files_rename_ok (temp_path (cache_path cache h c)) (cache_path cache h c) w tt) as F.
      rewrite Ho in F. destruct (F eq_refl) as (s & Hs' & F'). simpl in F'.
      change (host_files w !! temp_path (cache_path cache h c) = Some (of_bytes body)) in Hf.
      rewrite Hf in Hs'. injection Hs' as <-.
      apply wp_ret. split_and!; [done..|by left| |].
      * intros q Hq Hq'. by rewrite F', lookup_insert_ne, lookup_delete_ne.
      * right. exists body. split; [done|]. unfold local_path. simpl. by rewrite F', lookup_insert_eq.
    + pose proof (files_rename_err (temp_path (cache_path cache h c)) (cache_path cache h c) w e) as F.
      rewrite Ho in F. specialize (F eq_refl). simpl in F. rewrite F. by apply phase_quiet.
  - apply wp_ret. apply phase_quiet; [done..|]. exact Hpc.
Qed.

(** ** The invariant *)

Record fetch_inv (f0 : gmap string string) (w : W) (pcs : list fetch_pc) : Prop := {
  fi_holds i pc : pcs !! i = Some pc → plain_hash (volume_of pc).1 ∧ fetch_holds (host_files w) pc;
  fi_apart i j pi pj : i ≠ j → pcs !! i = Some pi → pcs !! j = Some pj → in_flight pi → in_flight pj →
    local_path cache (volume_of pi) ≠ local_path cache (volume_of pj);
  fi_whole h c : plain_hash h →
    host_files w !! cache_path cache h c = f0 !! cache_path cache h c ∨
    ∃ body, served (h, c) body ∧ host_files w !! cache_path cache h c = Some (of_bytes body);
}.

(** A download depends on its own temporary file. *)
Lemma fetch_holds_frame f f' pc :
  (in_flight pc → f' !! temp_path (local_path cache (volume_of pc)) = f !! temp_path (local_path cache (volume_of pc))) →
  fetch_holds f pc → fetch_holds f' pc.
Proof.
  intros Hf. unfold fetch_holds. set (tmp := temp_path _) in *. clearbody tmp.
  destruct pc; try done; by rewrite Hf.
Qed.

Lemma fetch_inv_phase f0 i pc w r w' pcs :
  fetch_inv f0 w pcs → pcs !! i = Some pc → fetch_phase cache pc w = (r, w') →
  fetch_inv f0 w' (<[i := fetch_settle (volume_of pc) r]> pcs).
Proof.
  intros [Hholds Hapart Hwhole] Hi Hph. destruct (Hholds i pc Hi) as [Hh Hpc].
  pose proof (fetch_phase_spec pc w Hh Hpc) as Hwp. unfold wp in Hwp. rewrite Hph in Hwp.
  cbn [fst snd] in Hwp. set (pc' := fetch_settle (volume_of pc) r) in *. clearbody pc'.
  destruct Hwp as (Hv & Hfl & Hpc' & Hact & Hframe & Hout). split.
  - intros j pj. intros [(-> & <- & _)|[Hne Hj]]%list_lookup_insert_Some; [by rewrite Hv|].
    destruct (Hholds j pj Hj) as [Hhj Hpj]. split; [done|]. apply (fetch_holds_frame (host_files w)); [|done].
    intros Hflj. destruct Hact as [Hfli|Hact]; [|by rewrite Hact]. apply Hframe.
    + intros Heq. by apply (final_not_temporary cache (volume_of pc).1 (volume_of pc).2 _ (volume_of pj).2 Hh Hhj).
    + intros Heq. apply (Hapart i j pc pj); [done..|]. symmetry. by apply temporary_inj.
  - intros j k pj pk Hjk [(-> & <- & _)|[Hj Hpj]]%list_lookup_insert_Some
      [(-> & <- & _)|[Hk Hpk]]%list_lookup_insert_Some Hfj Hfk; [done|rewrite Hv..|]; eauto.
  - intros h c Hhc. destruct (decide (cache_path cache h c = local_path cache (volume_of pc))) as [Heq|Hne].
    + destruct Hout as [Hsame|(body & Hs & Hnew)].
      * rewrite Heq, Hsame, <-Heq. by apply Hwhole.
      * right. exists body. destruct (volume_of pc) as [h' c']. unfold local_path in Heq. simpl in *.
        destruct (cache_path_inj _ _ _ _ _ Hhc Hh Heq) as [-> ->]. by split.
    + rewrite Hframe; [by apply Hwhole|done|]. by apply final_not_temporary.
Qed.

Lemma fetch_inv_step f0 x y : fetch_step one_each x y → fetch_inv f0 x.1 x.2 → fetch_inv f0 y.1 y.2.
Proof.
  intros Hs Hinv. destruct Hs as [w pcs h c Hh Hc|i pc w r w' pcs Hi Hph|w w' pcs Hf|w pcs]; simpl in *.
  - destruct Hinv as [Hholds Hapart Hwhole]. split; [| |done].
    + intros i pc [Hi|[_ Hi]]%lookup_app_Some; [by apply (Hholds i)|].
      by apply list_lookup_singleton_Some in Hi as [_ <-].
    + intros i j pi pj Hij Hi Hj Hfi Hfj. apply lookup_app_Some in Hi as [Hi|[Hli Hi]], Hj as [Hj|[Hlj Hj]].
      * by apply (Hapart i j).
      * apply list_lookup_singleton_Some in Hj as [_ <-]. by apply (Hc i).
      * apply list_lookup_singleton_Some in Hi as [_ <-]. intros Heq. by apply (Hc j pj Hj Hfj).
      * apply list_lookup_singleton_Some in Hi as [Hi _], Hj as [Hj _]. lia.
  - by eapply fetch_inv_phase.
  - destruct Hinv as [Hholds Hapart Hwhole]. split; [|done|].
    + intros i pc Hi. destruct (Hholds i pc Hi) as [Hh Hpc]. split; [done|].
      apply (fetch_holds_frame (host_files w)); [|done]. intros _. apply Hf.
      exists (volume_of pc).1, (volume_of pc).2. split; [done|by right].
    + intros h c Hh. rewrite Hf by (exists h, c; split; [done|by left]). by apply Hwhole.
  - destruct Hinv as [_ _ Hwhole]. by split.
Qed.

Lemma fetch_inv_steps f0 x y : rtc (fetch_step one_each) x y → fetch_inv f0 x.1 x.2 → fetch_inv f0 y.1 y.2.
Proof. induction 1; eauto using fetch_inv_step. Qed.

(** C17: Downloads of volumes named by plain hashes, one path component without a dot as
    the network makes them, overlap in any order of their phases, on any machine whose
    answers may differ every time, and the process may die between any two phases and start
    again, over the temporary files that are left. As long as no file is downloaded twice
    at once, the file of every plain hash in the cache is at every moment the one from the
    beginning, or the whole body of a response without an error status to the request for
    its volume; and every download that ends, ends with the final path or an error. Eight
    phases in a row are [ensure_cached]. A reference is any string of a message, and for
    one with a dot the statement fails: [temporary_shared]. *)
Theorem overlapping_downloads (w w' : W) pcs :
  rtc (fetch_step one_each) (w, []) (w', pcs) →
  (∀ h c, plain_hash h →
    host_files w' !! cache_path cache h c = host_files w !! cache_path cache h c ∨
    ∃ body, served (h, c) body ∧ host_files w' !! cache_path cache h c = Some (of_bytes body)) ∧
  (∀ i h c r, pcs !! i = Some (Fetched h c r) → r = Ok (cache_path cache h c) ∨ ∃ e, r = Err e) ∧
  ∀ h c (w : W), fetch_rest cache 8 (Starting h c) w = ensure_cached cache h c w.
Proof.
  intros Hrun. destruct (fetch_inv_steps (host_files w) _ _ Hrun) as [Hholds _ Hwhole].
  { split; [done..|]. by left. }
  split; [exact Hwhole|]. split; [|apply fetch_rest_ensure_cached].
  intros i h c r Hi. destruct (Hholds i _ Hi) as [_ Hr]. destruct r as [p|e|p]; simpl in Hr; [|by right; exists e|done].
  left. by rewrite Hr.
Qed.
End steps.

(** ** Orders *)

Definition begin_fetch {W} (v : ItemHash * VolumeCategory) (x : W * list fetch_pc) : W * list fetch_pc :=
  (x.1, x.2 ++ [Starting v.1 v.2]).
Definition run_fetch {W} `{Host W, Web W} (cache : VolumeCache) (x : W * list fetch_pc) (i : nat) :
    W * list fetch_pc :=
  match x.2 !! i with
  | Some pc => let '(r, w) := fetch_phase cache pc x.1 in (w, <[i := fetch_settle (volume_of pc) r]> x.2)
  | None => x
  end.

Lemma run_fetch_steps {W} `{WebFs W} cache compat (x : W * list fetch_pc) order :
  rtc (fetch_step cache compat) x (foldl (run_fetch cache) x order).
Proof.
  revert x. induction order as [|i order IH]; intros x; simpl; [done|]. etransitivity; [|apply IH].
  unfold run_fetch. destruct x as [w pcs]. simpl. destruct (pcs !! i) as [pc|] eqn:Hi; [|done].
  destruct (fetch_phase cache pc w) as [r w'] eqn:Hph. apply rtc_once. by eapply fetch_advance.
Qed.

Lemma begin_fetch_step {W} `{WebFs W} cache compat v (x : W * list fetch_pc) :
  plain_hash v.1 → Forall (λ pc, compat pc v) x.2 → fetch_step cache compat x (begin_fetch v x).
Proof.
  destruct x as [w pcs], v as [h c]. intros Hh Hc. apply fetch_arrive; [done|].
  intros i pc Hi. by apply (Forall_lookup_1 _ _ _ _ Hc Hi).
Qed.

Lemma plain_aaaa : plain_hash "aaaa".
Proof. done. Qed.
Lemma plain_bbbb : plain_hash "bbbb".
Proof. done. Qed.

(** Two volumes at once, on a machine whose server answers both requests. *)
Definition demo_server (bodies : list string) : sim :=
  mk_sim {[ "/etc/hosts"%string := "localhost"%string ]} [] ((λ b, mk_output true b "") <$> bodies) [] 0 [].
Definition two_volumes : sim * list fetch_pc :=
  foldl (run_fetch demo_cache)
    (begin_fetch ("bbbb"%string, CatCode) (begin_fetch ("aaaa"%string, CatData) (demo_server ["data"; "code"], [])))
    [0; 1; 0; 1; 0; 1; 0; 1; 0; 1; 0; 1; 0; 1; 0; 1]%nat.

Lemma overlapping_downloads_witness :
  host_files two_volumes.1 !! "/cache/data/aaaa"%string = Some "data"%string ∧
  host_files two_volumes.1 !! "/cache/code/bbbb"%string = Some "code"%string ∧
  ∃ body, served (W := sim) demo_cache ("aaaa"%string, CatData) body ∧ of_bytes body = "data"%string.
Proof.
  assert (host_files two_volumes.1 !! "/cache/data/aaaa"%string = Some "data"%string) as Hdata by (vm_compute; reflexivity).
  split; [exact Hdata|]. split; [vm_compute; reflexivity|].
  destruct (overlapping_downloads demo_cache (demo_server ["data"; "code"]%string) two_volumes.1 two_volumes.2)
    as (Hwhole & _).
  - rewrite <-surjective_pairing. unfold two_volumes.
    eapply rtc_l; [apply (begin_fetch_step _ _ ("aaaa"%string, CatData)); [exact plain_aaaa|apply List.Forall_nil]|].
    eapply rtc_l; [apply (begin_fetch_step _ _ ("bbbb"%string, CatCode))|apply run_fetch_steps]; [exact plain_bbbb|].
    apply List.Forall_cons; [|apply List.Forall_nil]. intros _. vm_compute. discriminate.
  - destruct (Hwhole "aaaa"%string CatData plain_aaaa) as [Hsame|(body & Hs & Hnew)].
    + exfalso. change (cache_path demo_cache "aaaa" CatData) with "/cache/data/aaaa"%string in Hsame.
      rewrite Hdata in Hsame. vm_compute in Hsame. discriminate Hsame.
    + exists body. split; [exact Hs|]. change (cache_path demo_cache "aaaa" CatData) with "/cache/data/aaaa"%string in Hnew.
      rewrite Hdata in Hnew. by injection Hnew as <-.
Defined.

(** ** The same volume twice at once *)

(** Two downloads of one volume look, find nothing, and request it; the first has written
    the temporary file when the second creates it again, and then renames it. *)
Definition same_volume : sim * list fetch_pc :=
  foldl (run_fetch demo_cache)
    (begin_fetch ("aaaa"%string, CatData) (begin_fetch ("aaaa"%string, CatData) (demo_server ["data"; "data"], [])))
    [0; 1; 0; 1; 0; 1; 0; 0; 0; 0; 1; 0]%nat.

(** Nothing keeps two allocations from downloading one volume at once. The temporary name
    is made from the final one, so the second [File::create] empties the file that the
    first has filled, and the first renames it: its call returns the final path, but the
    file is empty. If the second never writes, since the body does not arrive or the
    process dies, the file stays, and every later call for the volume, on any machine with
    that file, returns it as cached. *)
Theorem download_truncated :
  rtc (fetch_step demo_cache (λ _ _, True)) (demo_server ["data"; "data"]%string, []) same_volume ∧
  (∃ resp, same_volume.2 = [Fetched "aaaa" CatData (Ok "/cache/data/aaaa"%string); Reading "aaaa" CatData resp]) ∧
  host_files same_volume.1 !! "/cache/data/aaaa"%string = Some ""%string ∧
  ∀ w : sim, host_files w = host_files same_volume.1 → sim_fail w = [] →
    ∃ w', ensure_cached demo_cache "aaaa" CatData w = (Ok "/cache/data/aaaa"%string, w') ∧
      host_files w' !! "/cache/data/aaaa"%string = Some ""%string.
Proof.
  split.
  { unfold same_volume. eapply rtc_l; [apply (begin_fetch_step _ _ ("aaaa"%string, CatData)); [exact plain_aaaa|apply List.Forall_nil]|].
    eapply rtc_l; [apply (begin_fetch_step _ _ ("aaaa"%string, CatData)); [exact plain_aaaa|by repeat constructor]|].
    apply run_fetch_steps. }
  split; [eexists; vm_compute; reflexivity|].
  assert (host_files same_volume.1 !! "/cache/data/aaaa"%string = Some ""%string) as Hf by (vm_compute; reflexivity).
  split; [exact Hf|]. intros w Hw Hfail.
  rewrite <-Hw in Hf. clear Hw. destruct w as [files fail outputs rand clock log]. simpl in Hf, Hfail. subst fail.
  exists (mk_sim files [] outputs rand clock log). split; [|exact Hf].
  set (w := mk_sim files [] outputs rand clock log).
  assert (host_create_dir_all (path_join (base_dir demo_cache) (cache_subdir CatData)) w = (inr tt, w)) as Hmk by reflexivity.
  apply (ensure_cached_hit demo_cache "aaaa" CatData w w Hmk). unfold host_exists. simpl.
  change (cache_path demo_cache "aaaa" CatData) with "/cache/data/aaaa"%string. by rewrite Hf.
Qed.

(** ** References with a dot *)

(** [with_extension] replaces what follows the last dot, so these two volumes have one
    temporary file: the first download has written it when the second creates it again,
    writes its own body, and the first renames that. *)
Definition shared_temporary : sim * list fetch_pc :=
  foldl (run_fetch demo_cache)
    (begin_fetch ("aaaa.x"%string, CatData)
       (begin_fetch ("aaaa"%string, CatData) (demo_server ["data"; "other"], [])))
    [0; 1; 0; 1; 0; 1; 0; 0; 0; 0; 1; 1; 1; 0]%nat.

(** Two downloads of different volumes corrupt the cache: the one of [aaaa] ends with its
    final path, under which lies the volume [aaaa.x]. *)
Theorem temporary_shared :
  temp_path (cache_path demo_cache "aaaa" CatData) = temp_path (cache_path demo_cache "aaaa.x" CatData) ∧
  shared_temporary.2 !! 0%nat = Some (Fetched "aaaa" CatData (Ok "/cache/data/aaaa"%string)) ∧
  host_files shared_temporary.1 !! "/cache/data/aaaa"%string = Some "other"%string.
Proof. split; [vm_compute; reflexivity|]. split; vm_compute; reflexivity. Qed.
