(* ===== verification/Allocations.v ===== *)
(** * Allocations

    [src/crates/aleph-scheduler-agent/src/aleph/allocations.rs]: the set of VMs the network
    wants on this node, its signature, and what to do about it. A [HashSet] is a [gset];
    its iteration order is that of [elements], and no theorem depends on it. *)

From S2P Require Import Prelude Strs Json Types Messages.

(** HMAC-SHA256, the crate hmac: [verify_slice] compares the whole tag. *)
Class Hmac := { hmac_sha256 : bytes → bytes → bytes }.

Record Allocation := mk_allocation { persistent_vms : gset ItemHash; instances : gset ItemHash }.

Definition string_set_of_json (v : json) : option (gset string) :=
  list_to_set <$> of_list of_str v.
Definition allocation_of_json (v : json) : option Allocation :=
  if no_duplicate_field ["persistent_vms"; "instances"]%string v then
    p ← field_default string_set_of_json ∅ "persistent_vms" v;
    i ← field_default string_set_of_json ∅ "instances" v;
    Some (mk_allocation p i)
  else None.

Definition all_vms (a : Allocation) : gset string := persistent_vms a ∪ instances a.
Definition contains (a : Allocation) (hash : string) : bool :=
  bool_decide (hash ∈ persistent_vms a) || bool_decide (hash ∈ instances a).

Definition verify_allocation_signature `{Hex, Hmac} (body : bytes) (signature : string)
    (token_hash : bytes) : bool :=
  match hex_decode signature with
  | None => false
  | Some sig_bytes => bool_decide (hmac_sha256 token_hash body = sig_bytes)
  end.

Record ReconcileActions := mk_actions {
  to_start : list ItemHash;
  to_stop : list ItemHash;
  unchanged : list ItemHash;
}.

Definition reconcile (allocation : Allocation) (running : gset string) : ReconcileActions :=
  let desired := all_vms allocation in
  mk_actions (filter (λ h, h ∉ running) (elements desired))
    (filter (λ h, h ∉ desired) (elements running))
    (filter (λ h, h ∈ desired) (elements running)).

(** ** Lemmas *)

Lemma contains_all_vms a h : contains a h = true ↔ h ∈ all_vms a.
Proof.
  unfold contains, all_vms. rewrite orb_true_iff, !bool_decide_eq_true. set_solver.
Qed.

Section reconcile.
Variables (a : Allocation) (running : gset string).
Abbreviation actions := (reconcile a running).

Lemma elem_of_to_start h : h ∈ to_start actions ↔ h ∈ all_vms a ∧ h ∉ running.
Proof. simpl. rewrite list_elem_of_filter, elem_of_elements. naive_solver. Qed.

Lemma elem_of_to_stop h : h ∈ to_stop actions ↔ h ∈ running ∧ h ∉ all_vms a.
Proof. simpl. rewrite list_elem_of_filter, elem_of_elements. naive_solver. Qed.

Lemma elem_of_unchanged h : h ∈ unchanged actions ↔ h ∈ running ∧ h ∈ all_vms a.
Proof. simpl. rewrite list_elem_of_filter, elem_of_elements. naive_solver. Qed.

Lemma to_start_NoDup : NoDup (to_start actions).
Proof. apply NoDup_filter, NoDup_elements. Qed.

Lemma to_stop_NoDup : NoDup (to_stop actions).
Proof. apply NoDup_filter, NoDup_elements. Qed.

Lemma unchanged_NoDup : NoDup (unchanged actions).
Proof. apply NoDup_filter, NoDup_elements. Qed.
End reconcile.

(** Reconciliation is exact: the VMs to stop and the unchanged ones split the running
    set, the unchanged ones and those to start split the desired set, no VM occurs twice,
    and carrying the actions out on the running set gives the desired set. *)
Theorem reconcile_exact a running :
  let actions := reconcile a running in
  NoDup (to_stop actions ++ unchanged actions) ∧
  (∀ h, h ∈ to_stop actions ++ unchanged actions ↔ h ∈ running) ∧
  NoDup (to_start actions ++ unchanged actions) ∧
  (∀ h, h ∈ to_start actions ++ unchanged actions ↔ h ∈ all_vms a) ∧
  (running ∖ list_to_set (to_stop actions)) ∪ list_to_set (to_start actions) = all_vms a.
Proof.
  intros actions.
  pose proof (elem_of_to_start a running) as Hstart.
  pose proof (elem_of_to_stop a running) as Hstop.
  pose proof (elem_of_unchanged a running) as Hun. fold actions in Hstart, Hstop, Hun.
  split_and!.
  - apply NoDup_app. split_and!; [apply to_stop_NoDup| |apply unchanged_NoDup].
    intros h. rewrite Hstop, Hun. naive_solver.
  - intros h. rewrite elem_of_app, Hstop, Hun. destruct (decide (h ∈ all_vms a)); naive_solver.
  - apply NoDup_app. split_and!; [apply to_start_NoDup| |apply unchanged_NoDup].
    intros h. rewrite Hstart, Hun. naive_solver.
  - intros h. rewrite elem_of_app, Hstart, Hun. destruct (decide (h ∈ running)); naive_solver.
  - apply set_eq. intros h.
    rewrite elem_of_union, elem_of_difference, !elem_of_list_to_set, Hstart, Hstop.
    destruct (decide (h ∈ all_vms a)), (decide (h ∈ running)); naive_solver.
Qed.
