(* ===== verification/NodeHash.v ===== *)
(** * The node's identity

    [src/crates/aleph-scheduler-agent/src/aleph/node_hash.rs], and from [main.rs] the
    discovery loop, the SIGHUP handler and the command [set-node-hash]: how the agent learns
    the hash its node is registered under, from the command line, a cache file, or the posts
    of the Aleph network. The crates aleph-types and aleph-sdk are classes. *)

From S2P Require Import Prelude Strs Host HostSim Json Types.
#[local] Open Scope Z_scope.

(** The type [ItemHash] of aleph-types: parsing inverts printing, and a printed hash is a
    word. *)
Class AlephTypes := {
  AlephHash : Type;
  aleph_hash_eq_dec :: EqDecision AlephHash;
  hash_parse : string → string + AlephHash;
  hash_display : AlephHash → string;
  hash_parse_display h : hash_parse (hash_display h) = inr h;
  hash_display_trim h : trim (hash_display h) = hash_display h;
  hash_display_nonempty h : is_empty (hash_display h) = false;
}.

(** A post of the network, as far as it is looked at. *)
Record PostV0 `{AlephTypes} := mk_post { original_item_hash : AlephHash; post_content : json }.
Arguments mk_post {_} _ _.
Record PostFilter := mk_filter {
  pf_addresses : list string;
  pf_post_types : list string;
  pf_pagination : Z;
}.
Record GetPostsV0Response `{AlephTypes} := mk_posts { posts : list PostV0; pagination_total : Z }.
Arguments mk_posts {_} _ _.

Class AlephPostClient `{AlephTypes} (W : Type) := {
  get_posts_v0 : PostFilter → W → (string + GetPostsV0Response) * W;
}.

(** [NodeHash], a wrapper of [ItemHash]. *)
Definition NodeHash `{AlephTypes} : Type := AlephHash.

Record DiscoveredNode `{AlephTypes} := mk_discovered {
  dn_hash : NodeHash;
  dn_name : string;
  dn_address : string;
}.
Arguments mk_discovered {_} _ _ _.

Record CrnDetails := mk_details { cd_name : option string; cd_address : option string }.
Record CorechanContent := mk_content { co_action : option string; co_details : option CrnDetails }.

Definition details_of_json (v : json) : option CrnDetails :=
  if no_duplicate_field ["name"; "address"]%string v then
    n ← field_option of_str "name" v;
    a ← field_option of_str "address" v;
    Some (mk_details n a)
  else None.
Definition content_of_json (v : json) : option CorechanContent :=
  if no_duplicate_field ["action"; "details"]%string v then
    a ← field_option of_str "action" v;
    d ← field_option details_of_json "details" v;
    Some (mk_content a d)
  else None.

Definition normalize_url (url : string) : string := to_lowercase (trim_end_matches "/"%char url).

Section node_hash.
Context `{AlephTypes} {W : Type} `{Host W}.

Definition node_hash_parse (hash : string) : result error NodeHash :=
  match hash_parse hash with
  | inr h => Ok h
  | inl e => bail ("invalid node hash: " ++ e)%str
  end.

(** ** Cache and PID file *)

Definition hash_file (state_dir : string) : string := path_join state_dir "node-hash".
Definition pid_file (state_dir : string) : string := path_join state_dir "scheduler-agent.pid".

(** [std::fs::read_to_string(path).ok()]. *)
Definition read_ok (path : string) : M W error (option string) :=
  r ← attempt (run_io (host_read path));
  mret match r with Ok s => Some s | _ => None end.

Definition read_cached_hash_raw (state_dir : string) : M W error (option string) :=
  s ← read_ok (hash_file state_dir);
  mret (s ≫= λ s, let hash := trim s in if is_empty hash then None else Some hash).

Definition read_cached_hash (state_dir : string) : M W error (option NodeHash) :=
  raw ← read_cached_hash_raw state_dir;
  mret (raw ≫= λ raw, match node_hash_parse raw with Ok h => Some h | _ => None end).

Definition write_cached_hash (state_dir : string) (hash : NodeHash) : M W error unit :=
  io_ctx "creating state directory" (host_create_dir_all state_dir);;
  io_ctx "writing node-hash cache" (host_write (hash_file state_dir) (hash_display hash)).

Definition write_pid_file (pid : Z) (state_dir : string) : M W error unit :=
  io_ctx "creating state directory" (host_create_dir_all state_dir);;
  io_ctx "writing PID file" (host_write (pid_file state_dir) (print_dec pid)).

Definition remove_pid_file (state_dir : string) : M W error unit :=
  attempt (run_io (host_remove_file (pid_file state_dir)));; mret tt.

Definition read_pid (state_dir : string) : M W error (option Z) :=
  s ← read_ok (pid_file state_dir);
  mret (s ≫= λ s, parse_uint u32_max (trim s)).

(** The text of an exit status is the host's. *)
Definition send_sighup (pid : Z) : M W error unit :=
  out ← io_ctx "failed to run kill command"
          (host_command "kill" ["-HUP"%string; print_dec pid]);
  if out_success out then mret tt
  else throw (mk_error ("kill -HUP " ++ print_dec pid ++ " exited with a failure")%str []).

(** ** Resolution *)

Definition resolve_initial_hash (explicit_hash : option string) (state_dir : string)
    : M W error (option NodeHash) :=
  match explicit_hash with
  | Some hash => node_hash ← lift (node_hash_parse hash); mret (Some node_hash)
  | None => read_cached_hash state_dir
  end.

(** ** Discovery *)

Definition parse_crn_post (post : PostV0) : option CorechanContent :=
  content ← content_of_json (post_content post);
  if bool_decide (co_action content = Some "create-resource-node"%string) then Some content
  else None.

(** The address a registration declares. *)
Definition declared_address (c : CorechanContent) : option string := co_details c ≫= cd_address.

Definition create_ops (ps : list PostV0) : list (PostV0 * CorechanContent) :=
  omap (λ p, pair p <$> parse_crn_post p) ps.
Definition matching_ops (domain_name : string) (ps : list PostV0) : list (PostV0 * CorechanContent) :=
  let expected_url := normalize_url ("https://" ++ domain_name)%str in
  filter (λ pc, normalize_url <$> declared_address (snd pc) = Some expected_url) (create_ops ps).

Definition discovered_of (pc : PostV0 * CorechanContent) : DiscoveredNode :=
  let details := co_details (snd pc) in
  mk_discovered (original_item_hash (fst pc))
    (default "unnamed"%string (details ≫= cd_name)) (default ""%string (details ≫= cd_address)).

Definition discovery_filter (owner_address : string) : PostFilter :=
  mk_filter [owner_address] ["corechan-operation"%string] 200.

Definition discover_node_hash `{!AlephPostClient W} (owner_address domain_name : string)
    : M W error (option DiscoveredNode) := λ w,
  match get_posts_v0 (discovery_filter owner_address) w with
  | (inl e, w') => (Err (add_context "querying Aleph posts API" (mk_error e [])), w')
  | (inr response, w') =>
      (Ok match matching_ops domain_name (posts response) with
          | [pc] => Some (discovered_of pc)
          | _ => None
          end, w')
  end.

(** ** main.rs: the command set-node-hash *)

Definition cmd_set_node_hash (hash_arg state_dir : string) : M W error unit :=
  hash ← lift (node_hash_parse hash_arg);
  write_cached_hash state_dir hash;;
  pid ← read_pid state_dir;
  match pid with
  | Some pid => attempt (send_sighup pid);; mret tt
  | None => mret tt
  end.

(** ** main.rs: the discovery task and the SIGHUP handler *)

(** Where the discovery task stands: about to look at the shared hash, waiting for the
    network, about to store what it found, asleep, finished. *)
Inductive discovery_pc :=
| AtCheck
| Querying
| Storing (hash : NodeHash)
| Sleeping
| Stopped.

(** The shared hash, the task, and the machine. *)
Record DiscoveryState := mk_discovery {
  node_hash_state : option NodeHash;
  task : discovery_pc;
  machine : W;
}.

Context `{!AlephPostClient W} (owner domain state_dir : string).

(** The task's next step. [Querying] ends with the answer of the network; a found hash is
    written to the cache, whose failure is only logged, and then stored. *)
Definition discovery_step (s : DiscoveryState) : DiscoveryState :=
  match task s with
  | AtCheck =>
      mk_discovery (node_hash_state s)
        (match node_hash_state s with Some _ => Stopped | None => Querying end) (machine s)
  | Querying =>
      match discover_node_hash owner domain (machine s) with
      | (Ok (Some discovered), w) =>
          mk_discovery (node_hash_state s) (Storing (dn_hash discovered))
            (write_cached_hash state_dir (dn_hash discovered) w).2
      | (_, w) => mk_discovery (node_hash_state s) Sleeping w
      end
  | Storing hash => mk_discovery (Some hash) Stopped (machine s)
  | Sleeping => mk_discovery (node_hash_state s) AtCheck (machine s)
  | Stopped => s
  end.

(** The handler of one SIGHUP. *)
Definition sighup_step (s : DiscoveryState) : DiscoveryState :=
  match read_cached_hash state_dir (machine s) with
  | (Ok (Some hash), w) =>
      mk_discovery (if bool_decide (node_hash_state s = Some hash) then node_hash_state s
                    else Some hash) (task s) w
  | (_, w) => mk_discovery (node_hash_state s) (task s) w
  end.

(** The operator's command, run by another process. *)
Definition operator_step (hash_arg : string) (s : DiscoveryState) : DiscoveryState :=
  mk_discovery (node_hash_state s) (task s) (cmd_set_node_hash hash_arg state_dir (machine s)).2.

(** The steps interleave in any order. *)
Inductive discovery_moves : DiscoveryState → DiscoveryState → Prop :=
| move_task s : discovery_moves s (discovery_step s)
| move_sighup s : discovery_moves s (sighup_step s)
| move_operator h s : discovery_moves s (operator_step h s).
End node_hash.

(** ** Lemmas *)

Lemma omap_cons {A B} (f : A → option B) x l :
  omap f (x :: l) = match f x with Some y => y :: omap f l | None => omap f l end.
Proof. done. Qed.

(** A list out of which exactly one element comes. *)
Lemma omap_singleton {A B} (f : A → option B) l b :
  omap f l = [b] ↔
  ∃ i x, l !! i = Some x ∧ f x = Some b ∧ ∀ j y, l !! j = Some y → is_Some (f y) → j = i.
Proof.
  assert (∀ l, omap f l = [] ↔ ∀ j y, l !! j = Some y → f y = None) as Hnil.
  { clear. induction l as [|x l IH]; [split; [done|done]|]. rewrite omap_cons.
    destruct (f x) as [c|] eqn:Hx.
    - split; [done|]. intros Hall. specialize (Hall 0%nat x eq_refl). congruence.
    - rewrite IH. split.
      + intros Hall [|j] y; simpl; [by intros [= <-]|apply Hall].
      + intros Hall j y Hj. by apply (Hall (S j)). }
  induction l as [|x l IH]; [split; [done|by intros (i & y & Hi & _)]|].
  rewrite omap_cons. destruct (f x) as [c|] eqn:Hx.
  - split.
    + intros [= -> Hl]. rewrite Hnil in Hl. exists 0%nat, x. split_and!; [done..|].
      intros [|j] y Hj [? Hy]; [done|]. simpl in Hj. rewrite (Hl j y Hj) in Hy. done.
    + intros (i & y & Hi & Hy & Huniq). pose proof (Huniq 0%nat x eq_refl ltac:(by rewrite Hx)) as <-.
      simpl in Hi. assert (c = b) as -> by congruence. f_equal. apply Hnil. intros j z Hj.
      destruct (f z) as [d|] eqn:Hz; [|done].
      specialize (Huniq (S j) z Hj ltac:(by rewrite Hz)). lia.
  - rewrite IH. split.
    + intros (i & y & Hi & Hy & Huniq). exists (S i), y. split_and!; [done..|].
      intros [|j] z Hj Hz; [|f_equal; by apply (Huniq j z)]. simpl in Hj. destruct Hz as [? Hz]. congruence.
    + intros ([|i] & y & Hi & Hy & Huniq); [simpl in Hi; congruence|].
      exists i, y. split_and!; [done..|]. intros j z Hj Hz. specialize (Huniq (S j) z Hj Hz). lia.
Qed.

Section cache.
Context `{AlephTypes} {W : Type} `{HostFs W}.

(** What a cached text stands for. *)
Definition decode_cached (s : string) : option NodeHash :=
  let hash := trim s in
  if is_empty hash then None else match node_hash_parse hash with Ok h => Some h | _ => None end.

Lemma decode_displayed (h : NodeHash) : decode_cached (hash_display h) = Some h.
Proof.
  unfold decode_cached, node_hash_parse.
  by rewrite hash_display_trim, hash_display_nonempty, hash_parse_display.
Qed.

(** Reading the cache never fails: an unreadable or a corrupted file is no hash. *)
Lemma read_cached_hash_spec d (w : W) :
  read_cached_hash d w =
    (Ok match (host_read (hash_file d) w).1 with inr s => decode_cached s | inl _ => None end,
     (host_read (hash_file d) w).2).
Proof.
  unfold read_cached_hash, read_cached_hash_raw, read_ok, decode_cached.
  unfold mbind, M_bind, attempt, run_io.
  destruct (host_read (hash_file d) w) as [[e|s] w']; simpl; [done|]. by destruct (is_empty (trim s)).
Qed.

Lemma write_cached_hash_spec d (h : NodeHash) (w : W) :
  wp (write_cached_hash d h) (λ r w',
    (∀ q, q ≠ hash_file d → host_files w' !! q = host_files w !! q) ∧
    match r with
    | Ok _ => host_files w' !! hash_file d = Some (hash_display h)
    | Err _ => True
    | Panic _ => False
    end) w.
Proof.
  unfold write_cached_hash. pose proof (files_mkdir d w) as F1.
  apply wp_bind, wp_io_ctx; [intros [] w1 Ho|intros e w1 Ho]; rewrite Ho in F1; simpl in F1;
    [|by rewrite F1].
  pose proof (files_write_frame (hash_file d) (hash_display h) w1) as F2.
  apply wp_io_ctx; [intros [] w2 Ho2|intros e w2 Ho2]; rewrite Ho2 in F2; simpl in F2.
  - split; [intros q Hq; by rewrite F2, F1|].
    pose proof (files_write_ok (hash_file d) (hash_display h) w1 tt) as F3. rewrite Ho2 in F3. by apply F3.
  - split; [intros q Hq; by rewrite F2, F1|done].
Qed.

(** The test of [matching_ops] on one post. *)
Definition crn_match (domain_name : string) (p : PostV0) : option (PostV0 * CorechanContent) :=
  c ← parse_crn_post p;
  if bool_decide (normalize_url <$> declared_address c =
                  Some (normalize_url ("https://" ++ domain_name)%str))
  then Some (p, c) else None.

Lemma matching_ops_omap domain_name ps : matching_ops domain_name ps = omap (crn_match domain_name) ps.
Proof.
  unfold matching_ops, create_ops, crn_match. induction ps as [|p ps IH]; [done|].
  rewrite !omap_cons. simpl. destruct (parse_crn_post p) as [c|]; simpl; [|exact IH].
  rewrite filter_cons. simpl.
  destruct (decide (normalize_url <$> declared_address c = _)) as [Ha|Ha].
  - rewrite bool_decide_eq_true_2 by done. by f_equal.
  - by rewrite bool_decide_eq_false_2 by done.
Qed.
End cache.


Section discovery.
Context `{AlephTypes} {W : Type} `{HostFs W} `{!AlephPostClient W}.
Variables owner domain state_dir : string.
Abbreviation step := (discovery_step owner domain state_dir).

(** The steps a task that finds a hash in place takes to its end. *)
Lemma step_known s h :
  node_hash_state s = Some h → task s = AtCheck → task (step s) = Stopped ∧ node_hash_state (step s) = Some h.
Proof. intros Hs Ht. unfold discovery_step. rewrite Ht. simpl. by rewrite Hs. Qed.

Lemma step_stopped n s : task s = Stopped → Nat.iter n step s = s.
Proof.
  intros Ht. induction n as [|n IH]; [done|]. simpl. rewrite IH. unfold discovery_step. by rewrite Ht.
Qed.

(** A step never forgets a hash, whoever takes it. *)
Lemma moves_keep s s' :
  discovery_moves owner domain state_dir s s' → is_Some (node_hash_state s) → is_Some (node_hash_state s').
Proof.
  intros [s0|s0|h s0] [n Hn]; simpl; [| |by eexists].
  - unfold discovery_step. destruct (task s0); simpl; eauto.
    by destruct (discover_node_hash owner domain (machine s0)) as [[[d|]|e|p] w]; simpl; eauto.
  - unfold sighup_step. destruct (read_cached_hash state_dir (machine s0)) as [[[h|]|e|p] w]; simpl; eauto.
    case_bool_decide; eauto.
Qed.
End discovery.

(** ** A simulated network *)

(** Hashes as the network writes them: 64 lower-case hexadecimal digits. *)
Definition is_item_hash (s : string) : bool :=
  (str_len s =? 64) && all_chars (λ c, is_ascii_digit c || char_in "a"%char "f"%char c) s.

Lemma item_hash_trim s : is_item_hash s = true → trim s = s ∧ is_empty s = false.
Proof.
  unfold is_item_hash. rewrite andb_true_iff. intros [Hl Ha]. split; [|by destruct s].
  apply trim_id. eapply all_chars_impl; [|exact Ha]. intros c Hc.
  destruct c as [[] [] [] [] [] [] [] []]; vm_compute in Hc |- *; done.
Qed.

Inductive item_hash_ok (s : string) : Prop := is_ok_hash (p : is_item_hash s = true).
#[export] Instance item_hash_ok_dec s : Decision (item_hash_ok s).
Proof. destruct (is_item_hash s) eqn:He; [by left|]. right. intros [p]. congruence. Defined.
#[export] Instance item_hash_ok_pi s : ProofIrrel (item_hash_ok s).
Proof. intros [p] [q]. f_equal. apply eq_pi, _. Qed.

#[export] Program Instance sim_aleph : AlephTypes := {
  AlephHash := sig item_hash_ok;
  hash_parse s := match decide (item_hash_ok s) with
                  | left p => inr (s ↾ p)
                  | right _ => inl "invalid item hash"%string
                  end;
  hash_display := proj1_sig;
}.
Next Obligation.
  intros [s p]. simpl. destruct (decide _) as [q|q]; [|done]. f_equal. by apply (sig_eq_pi _).
Qed.
Next Obligation. intros [s [p]]. by apply item_hash_trim. Qed.
Next Obligation. intros [s [p]]. by apply item_hash_trim. Qed.

(** A network that always returns the same posts. *)
Definition posts_client (ps : list PostV0) : AlephPostClient sim :=
  {| get_posts_v0 f w := (inr (mk_posts ps (Z.of_nat (length ps))), w) |}.

Definition demo_hash (c : Ascii.ascii) : string := Nat.iter 64 (String c) "".
Definition sim_hash (c : Ascii.ascii) (p : is_item_hash (demo_hash c) = true) : AlephHash :=
  demo_hash c ↾ is_ok_hash (demo_hash c) p.
Definition hash_a : AlephHash := sim_hash "a"%char eq_refl.
Definition hash_b : AlephHash := sim_hash "b"%char eq_refl.
Definition demo_post (h : AlephHash) (action address : string) : PostV0 :=
  mk_post h (JObj [("action", JStr action);
    ("details", JObj [("name", JStr "crn"); ("address", JStr address)])])%string.
(** Two registrations, one of this node, and another operation on it. *)
Definition demo_posts : list PostV0 :=
  [demo_post hash_b "create-resource-node" "https://other.example.com";
   demo_post hash_b "delete-resource-node" "https://crn.example.com";
   demo_post hash_a "create-resource-node" "https://CRN.example.com/"]%string.
Definition demo_found : DiscoveredNode := mk_discovered hash_a "crn" "https://CRN.example.com/".

(** ** Properties *)

(** Discovery answers with a node exactly when one post, and only one, of those the
    network returned is a [create-resource-node] operation whose address is the
    [https] URL of the domain, up to case and trailing slashes; the answer is that
    post's hash, name and address. With no or several such posts there is no answer. *)
Theorem discover_unique `{AlephTypes} {W} `{!AlephPostClient W} owner domain (w : W) resp w' :
  get_posts_v0 (discovery_filter owner) w = (inr resp, w') →
  (∃ o, discover_node_hash owner domain w = (Ok o, w')) ∧
  ∀ d, discover_node_hash owner domain w = (Ok (Some d), w') ↔
    ∃ i p c, posts resp !! i = Some p ∧ crn_match domain p = Some (p, c) ∧ d = discovered_of (p, c) ∧
      ∀ j q, posts resp !! j = Some q → is_Some (crn_match domain q) → j = i.
Proof.
  intros Hget. unfold discover_node_hash. rewrite Hget, matching_ops_omap.
  split; [by eexists|]. intros d. split.
  - destruct (omap _ _) as [|pc [|? ?]] eqn:Hm; [done| |done]. intros [= <-].
    apply omap_singleton in Hm as (i & p & Hi & Hp & Huniq).
    assert (∃ c, pc = (p, c)) as [c ->].
    { unfold crn_match in Hp. destruct (parse_crn_post p) as [c|]; simpl in Hp; [|done].
      case_bool_decide; [|done]. exists c. congruence. }
    by exists i, p, c.
  - intros (i & p & c & Hi & Hp & -> & Huniq).
    assert (omap (crn_match domain) (posts resp) = [(p, c)]) as ->; [|done].
    apply omap_singleton. by exists i, p.
Qed.

Lemma discover_unique_witness :
  ∃ i p c, demo_posts !! i = Some p ∧ crn_match "crn.example.com" p = Some (p, c) ∧
    demo_found = discovered_of (p, c) ∧
    ∀ j q, demo_posts !! j = Some q → is_Some (crn_match "crn.example.com" q) → j = i.
Proof.
  assert (@discover_node_hash _ _ (posts_client demo_posts) "0xowner" "crn.example.com" empty_sim =
    (Ok (Some demo_found), empty_sim)) as Hd
    by (vm_cast_no_check (eq_refl (Ok (E := error) (Some demo_found), empty_sim))).
  pose proof (@discover_unique _ _ (posts_client demo_posts) "0xowner" "crn.example.com"
    empty_sim (mk_posts demo_posts 3) empty_sim eq_refl) as [_ Hu].
  destruct (Hu demo_found) as [Hf _]. exact (Hf Hd).
Defined.

(** A node hash outlives the process: once the hash was written to the cache (by
    discovery, or by the operator's [set-node-hash]), an agent that starts without
    [--node-hash] and can read that file begins with exactly that hash. *)
Theorem node_hash_restart `{AlephTypes} {W} `{HostFs W} d (h : NodeHash) (w w1 w2 : W) s :
  write_cached_hash d h w = (Ok tt, w1) →
  host_files w2 !! hash_file d = host_files w1 !! hash_file d →
  (host_read (hash_file d) w2).1 = inr s →
  (resolve_initial_hash None d w2).1 = Ok (Some h).
Proof.
  intros Hw Hsame Hread. pose proof (write_cached_hash_spec d h w) as Hwp. unfold wp in Hwp.
  rewrite Hw in Hwp. destruct Hwp as [_ Hf]. simpl in Hf.
  assert (s = hash_display h) as ->.
  { apply files_read_ok in Hread. rewrite Hsame, Hf in Hread. by injection Hread. }
  simpl. by rewrite read_cached_hash_spec, Hread, decode_displayed.
Qed.

Lemma node_hash_restart_witness :
  (resolve_initial_hash None "/var" (write_cached_hash "/var" hash_a empty_sim).2).1 = Ok (Some hash_a).
Proof. by eapply (node_hash_restart "/var" hash_a empty_sim). Defined.

(** C18: the discovery task terminates once the node has a hash: whatever it is doing, at
    most four of its steps remain, with no more than one question to the network; and
    none of the steps of the task, of the SIGHUP handler or of the operator's command
    ever takes a hash away. *)
Theorem discovery_terminates `{AlephTypes} {W} `{HostFs W} `{!AlephPostClient W} owner domain d s :
  is_Some (node_hash_state s) →
  (∀ n, (4 ≤ n)%nat → task (Nat.iter n (discovery_step owner domain d) s) = Stopped) ∧
  (∀ s', rtc (discovery_moves owner domain d) s s' → is_Some (node_hash_state s')).
Proof.
  intros [h Hs]. split.
  2: { intros s' Hrtc. assert (is_Some (node_hash_state s)) as His by by eexists. clear Hs.
       induction Hrtc; eauto using moves_keep. }
  assert (task (Nat.iter 4 (discovery_step owner domain d) s) = Stopped) as H4.
  { assert (∀ s, is_Some (node_hash_state s) → task s = AtCheck →
      task (discovery_step owner domain d s) = Stopped) as Hcheck.
    { intros s0 [h0 Hh0] Ht. by apply (step_known owner domain d s0 h0). }
    assert (∀ k s, task s = Stopped → task (Nat.iter k (discovery_step owner domain d) s) = Stopped)
      as Hstop by (intros k s0 Ht; by rewrite step_stopped).
    assert (∀ s, is_Some (node_hash_state s) → is_Some (node_hash_state (discovery_step owner domain d s)))
      as Hkeep by (intros s0; apply (moves_keep owner domain d); constructor).
    assert (is_Some (node_hash_state s)) as His by by eexists.
    destruct (task s) eqn:Ht.
    - rewrite Nat.iter_succ_r. apply (Hstop 3%nat). by apply Hcheck.
    - rewrite Nat.iter_succ_r. set (s1 := discovery_step owner domain d s).
      assert ((∃ x, task s1 = Storing x) ∨ task s1 = Sleeping) as [[x Hx]|Hx].
      { unfold s1, discovery_step. rewrite Ht.
        destruct (discover_node_hash owner domain (machine s)) as [[[n|]|e|p] w]; simpl; eauto. }
      + rewrite Nat.iter_succ_r. apply (Hstop 2%nat). unfold discovery_step. by rewrite Hx.
      + do 2 rewrite Nat.iter_succ_r. apply (Hstop 1%nat), Hcheck; [by apply Hkeep, Hkeep|].
        unfold discovery_step at 1. by rewrite Hx.
    - rewrite Nat.iter_succ_r. apply (Hstop 3%nat). unfold discovery_step. by rewrite Ht.
    - do 2 rewrite Nat.iter_succ_r. apply (Hstop 2%nat), Hcheck; [by apply Hkeep|].
      unfold discovery_step. by rewrite Ht.
    - by apply Hstop. }
  intros n Hn. replace n with ((n - 4) + 4)%nat by lia. rewrite Nat.iter_add, step_stopped; done.
Qed.

Lemma discovery_terminates_witness :
  task (Nat.iter 4 (@discovery_step _ _ _ (posts_client []) "0xowner" "crn.example.com" "/var")
          (mk_discovery (Some hash_b) Querying empty_sim)) = Stopped.
Proof.
  refine (proj1 (@discovery_terminates _ _ _ _ (posts_client []) "0xowner" "crn.example.com" "/var"
    (mk_discovery (Some hash_b) Querying empty_sim) _) 4%nat _); [by eexists|lia].
Defined.

(** C19: the operator's hash stands, unless a question to the network is open. When the
    task sleeps, is about to check or is done, no number of its steps changes a hash
    that [set-node-hash] and SIGHUP put in place. But when the task waits for the
    network and the answer names a node, its next two steps replace the operator's hash
    by the discovered one, in memory and, if the write succeeds, in the cache file. *)
Theorem operator_hash_overridden `{AlephTypes} {W} `{HostFs W} `{!AlephPostClient W}
    owner domain d s (h : NodeHash) :
  node_hash_state s = Some h →
  (task s ∈ [AtCheck; Sleeping; Stopped] →
     ∀ n, node_hash_state (Nat.iter n (discovery_step owner domain d) s) = Some h) ∧
  (task s = Querying → ∀ node w,
     discover_node_hash owner domain (machine s) = (Ok (Some node), w) →
     let s2 := discovery_step owner domain d (discovery_step owner domain d s) in
     node_hash_state s2 = Some (dn_hash node) ∧ task s2 = Stopped ∧
     ((write_cached_hash d (dn_hash node) w).1 = Ok tt →
        host_files (machine s2) !! hash_file d = Some (hash_display (dn_hash node)))).
Proof.
  intros Hs. split.
  - intros Ht n.
    assert (node_hash_state (Nat.iter n (discovery_step owner domain d) s) = Some h ∧
      task (Nat.iter n (discovery_step owner domain d) s) ∈ [AtCheck; Sleeping; Stopped]) as [? _]; [|done].
    induction n as [|n [IHs IHt]]; [done|]. simpl. unfold discovery_step at 1 3.
    set (s0 := Nat.iter n _ s) in *. rewrite !elem_of_cons in IHt.
    destruct IHt as [IHt|[IHt|[IHt|IHt]]]; [..|by apply elem_of_nil in IHt]; rewrite IHt; simpl;
      rewrite ?IHs, ?IHt; split; try done; set_solver.
  - intros Ht node w Hdisc s2.
    assert (s2 = mk_discovery (Some (dn_hash node)) Stopped (write_cached_hash d (dn_hash node) w).2) as ->.
    { unfold s2. unfold discovery_step at 2. rewrite Ht, Hdisc. done. }
    split_and!; [done..|]. intros Hw. simpl.
    pose proof (write_cached_hash_spec d (dn_hash node) w) as Hwp. unfold wp in Hwp.
    rewrite Hw in Hwp. by apply Hwp.
Qed.

(** The operator sets [hash_b] and SIGHUP puts it in place while the network is asked. *)
Definition demo_race : DiscoveryState :=
  sighup_step "/var" (operator_step "/var" (demo_hash "b"%char)
    (mk_discovery None Querying empty_sim)).

Lemma operator_hash_overridden_witness :
  node_hash_state demo_race = Some hash_b ∧
  node_hash_state (Nat.iter 2 (@discovery_step _ _ _ (posts_client demo_posts) "0xowner"
    "crn.example.com" "/var") demo_race) = Some hash_a.
Proof.
  assert (node_hash_state demo_race = Some hash_b) as Hs
    by (vm_cast_no_check (eq_refl (Some hash_b))).
  split; [exact Hs|].
  assert (task demo_race = Querying) as Ht by (vm_cast_no_check (eq_refl Querying)).
  assert (@discover_node_hash _ _ (posts_client demo_posts) "0xowner" "crn.example.com"
    (machine demo_race) = (Ok (Some demo_found), machine demo_race)) as Hd
    by (vm_cast_no_check (eq_refl (Ok (E := error) (Some demo_found), machine demo_race))).
  pose proof (@operator_hash_overridden _ _ _ _ (posts_client demo_posts) "0xowner"
    "crn.example.com" "/var" demo_race hash_b Hs) as [_ Hover].
  destruct (Hover Ht demo_found (machine demo_race) Hd) as [Hn _]. exact Hn.
Defined.
