(* ===== verification/Adapter.v ===== *)
(** * The adapter

    [src/crates/aleph-scheduler-agent/src/adapter.rs]: an executable message of the Aleph
    network, translated into the request that asks the compute node for its VM. The files
    the message names are downloaded into the volume cache first. *)

From S2P Require Import Prelude Strs Host Json Types Crypto Grpc Messages Volumes.
#[local] Open Scope Z_scope.

Record AdapterConfig := mk_adapter { kernel_path : string; initrd_path : string }.

(** A message of [compute.proto]. *)
Record AddPortForwardRequest := mk_apf {
  ar_vm_id : string;
  ar_host_port : Z;   (** uint32 *)
  ar_vm_port : Z;     (** uint32 *)
  ar_protocol : string;
}.

(** [format!("{:?}", encoding)]. *)
Definition encoding_debug (e : Encoding) : string :=
  match e with Plain => "Plain" | Zip => "Zip" | Squashfs => "Squashfs" end.
Definition encoding_format (e : Encoding) : string := to_lowercase (encoding_debug e).

Definition tee_request (msg : ExecutableMessage) : option ProtoTee :=
  if is_confidential msg then
    let policy := default 0 (sev_policy msg) in
    Some (mk_ptee "sev-snp" (if 0 <? policy then "0x" ++ print_hex policy else "")%str)
  else None.

Definition translate_port_forwards (msg : ExecutableMessage) : list AddPortForwardRequest :=
  (λ p, mk_apf (item_hash msg) 0 (pp_port p) (pp_protocol p)) <$> published_ports (resources msg).

Section translate.
Context {W : Type} `{Host W, Web W} (cache : VolumeCache) (config : AdapterConfig).

(** Download a file and push its disk. *)
Definition cached_disk (msg : string) (ref : ItemHash) (c : VolumeCategory) (readonly : bool)
    (format : string) : M W error (list ProtoDisk) :=
  path ← with_context msg (ensure_cached cache ref c);
  mret [mk_pdisk path readonly format].

Definition rootfs_disk (msg : ExecutableMessage) : M W error (list ProtoDisk) :=
  match rootfs msg with
  | Some r => cached_disk "downloading rootfs" (pv_ref (rf_parent r)) CatRuntime false "raw"
  | None => mret []
  end.
Definition runtime_disk (msg : ExecutableMessage) : M W error (list ProtoDisk) :=
  match runtime msg with
  | Some r => cached_disk "downloading runtime" (ru_ref r) CatRuntime true "squashfs"
  | None => mret []
  end.
Definition code_disk (msg : ExecutableMessage) : M W error (list ProtoDisk) :=
  match code msg with
  | Some c => cached_disk "downloading code" (cc_ref c) CatCode true (encoding_format (cc_encoding c))
  | None => mret []
  end.
Definition volume_disk (v : MachineVolume) : M W error (list ProtoDisk) :=
  match v with
  | Immutable v => cached_disk ("downloading volume " ++ im_ref v)%str (im_ref v) CatData true "raw"
  | Persistent v =>
      match pe_parent v with
      | Some p =>
          cached_disk ("downloading parent volume " ++ pv_ref p)%str (pv_ref p) CatData false "qcow2"
      | None => mret []
      end
  | Ephemeral _ => mret []
  end.

(** The loop over the volumes, after the disks so far. *)
Fixpoint volume_disks (vs : list MachineVolume) (disks : list ProtoDisk)
    : M W error (list ProtoDisk) :=
  match vs with
  | [] => mret disks
  | v :: vs' => d ← volume_disk v; volume_disks vs' (disks ++ d)
  end.

Definition translate_message (msg : ExecutableMessage) : M W error CreateVmRequest :=
  rootfs ← rootfs_disk msg;
  runtime ← runtime_disk msg;
  code ← code_disk msg;
  disks ← volume_disks (volumes msg) (rootfs ++ runtime ++ code);
  mret (mk_create (item_hash msg) (kernel_path config) (initrd_path config) disks
          (res_vcpus (resources msg)) (res_memory (resources msg)) (tee_request msg) "" 0
          (is_encrypted msg) 0).
End translate.

(** ** What the adapter promises *)

(** The disks of a volume and of a message, as functions of them and of the cache. *)
Section plan.
Variable cache : VolumeCache.
Abbreviation disk ref c ro fmt := (mk_pdisk (cache_path cache ref c) ro fmt).

Definition volume_plan (v : MachineVolume) : list ProtoDisk :=
  match v with
  | Immutable v => [disk (im_ref v) CatData true "raw"]
  | Persistent v => match pe_parent v with Some p => [disk (pv_ref p) CatData false "qcow2"] | None => [] end
  | Ephemeral _ => []
  end.
Definition message_disks (msg : ExecutableMessage) : list ProtoDisk :=
  match rootfs msg with Some r => [disk (pv_ref (rf_parent r)) CatRuntime false "raw"] | None => [] end ++
  match runtime msg with Some r => [disk (ru_ref r) CatRuntime true "squashfs"] | None => [] end ++
  match code msg with
  | Some c => [disk (cc_ref c) CatCode true (encoding_name (cc_encoding c))] | None => [] end ++
  mjoin (volume_plan <$> volumes msg).
End plan.

Lemma encoding_format_name e : encoding_format e = encoding_name e.
Proof. by destruct e. Qed.

Section facts.
Context {W : Type} `{Host W, Web W} (cache : VolumeCache) (config : AdapterConfig).

(** A cached file is where [cache_path] says. *)
Lemma ensure_cached_path ref c (Q : result error string → W → Prop) w :
  (∀ w', Q (Ok (cache_path cache ref c)) w') → (∀ e w', Q (Err e) w') →
  wp (ensure_cached cache ref c) Q w.
Proof.
  intros Hok Herr. unfold ensure_cached, request_volume.
  change (path_join (path_join (base_dir cache) (cache_subdir c)) ref) with (cache_path cache ref c).
  apply wp_bind, wp_io_ctx; [intros [] w1 _|by intros].
  apply wp_bind, wp_observe. destruct (host_exists _ w1); [by apply wp_ret|].
  apply wp_bind, wp_bind, wp_run_ext; [intros r w2 _|by intros].
  destruct (is_error_status r); [by apply wp_throw|]. apply wp_ret.
  apply wp_bind, wp_io_ctx; [intros [] w3 _|by intros].
  apply wp_bind, wp_lift. destruct (rs_body r) as [e|body]; simpl; [apply Herr|].
  apply wp_bind, wp_io_ctx; [intros [] w4 _|by intros].
  apply wp_bind, wp_io; [intros [] w5 _|by intros].
  apply wp_bind, wp_io_ctx; [intros [] w6 _|by intros]. by apply wp_ret.
Qed.

Lemma cached_disk_spec m ref c ro fmt (Q : result error (list ProtoDisk) → W → Prop) w :
  (∀ w', Q (Ok [mk_pdisk (cache_path cache ref c) ro fmt]) w') → (∀ e w', Q (Err e) w') →
  wp (cached_disk cache m ref c ro fmt) Q w.
Proof.
  intros Hok Herr. apply wp_bind, wp_with_context, ensure_cached_path; intros; [by apply wp_ret|].
  apply Herr.
Qed.

Lemma volume_disks_spec vs ds (Q : result error (list ProtoDisk) → W → Prop) w :
  (∀ w', Q (Ok (ds ++ mjoin (volume_plan cache <$> vs))) w') → (∀ e w', Q (Err e) w') →
  wp (volume_disks cache vs ds) Q w.
Proof.
  intros Hok Herr. revert ds w Hok. induction vs as [|v vs IH]; intros ds w Hok.
  { apply wp_ret. specialize (Hok w). by rewrite app_nil_r in Hok. }
  simpl. apply wp_bind.
  assert (∀ d w', (∀ w', Q (Ok (ds ++ d ++ mjoin (volume_plan cache <$> vs))) w') →
    wp (volume_disks cache vs (ds ++ d)) Q w') as Hstep.
  { intros d w' Hd. apply IH. intros w2. rewrite <-app_assoc. apply Hd. }
  destruct v as [v|v|v]; simpl in Hok |- *.
  - apply cached_disk_spec; [intros; by apply Hstep|done].
  - destruct (pe_parent v); [apply cached_disk_spec; [intros; by apply Hstep|done]|].
    by apply wp_ret, Hstep.
  - by apply wp_ret, Hstep.
Qed.

(** Total, and a function of the message wherever it succeeds. *)
Lemma translate_message_spec msg (Q : result error CreateVmRequest → W → Prop) w :
  (∀ w', Q (Ok (mk_create (item_hash msg) (kernel_path config) (initrd_path config)
     (message_disks cache msg) (res_vcpus (resources msg)) (res_memory (resources msg))
     (tee_request msg) "" 0 (is_encrypted msg) 0)) w') →
  (∀ e w', Q (Err e) w') →
  wp (translate_message cache config msg) Q w.
Proof.
  intros Hok Herr. unfold translate_message, rootfs_disk, runtime_disk, code_disk.
  unfold message_disks in Hok. apply wp_bind.
  destruct (rootfs msg); [apply cached_disk_spec; [intros w1|done]|apply wp_ret]; apply wp_bind;
    (destruct (runtime msg); [apply cached_disk_spec; [intros w2|done]|apply wp_ret]); apply wp_bind;
    (destruct (code msg); [apply cached_disk_spec; [intros w3|done]|apply wp_ret]); apply wp_bind;
    (apply volume_disks_spec; [intros w4; apply wp_ret|done]); rewrite ?encoding_format_name;
    simpl in *; apply Hok.
Qed.
End facts.
