(* ===== verification/Scheduler.v ===== *)
(** * The scheduler agent

    [src/crates/aleph-scheduler-agent/src/main.rs] and [client.rs]: the HTTP API through
    which the Aleph network registers messages and allocates VMs to this node, on top of
    the compute node, which the agent reaches over gRPC. The compute node is an interface,
    [ComputeNode]; [SchedulerNode] gives the service of [Grpc] as an instance. *)

From S2P Require Import Prelude Strs Host Json Types Crypto Http Grpc Messages Volumes.
From S2P Require Import Allocations NodeHash Adapter.
#[local] Open Scope Z_scope.

(** ** The compute node, as its client sees it *)

(** What a call returns instead of an answer: the [Status] the service sent, or one that the
    transport made up, in which case the call may have had its effect. *)
Inductive CallError := Refused (s : Status) | Lost (msg : string).

Class ComputeNode (C W : Type) := {
  cn_list_vms : M (C * W) CallError (list ProtoVmInfo);
  cn_create_vm : CreateVmRequest → M (C * W) CallError ProtoVmInfo;
  cn_delete_vm : string → M (C * W) CallError unit;
  cn_add_port_forward : AddPortForwardRequest → M (C * W) CallError PortForwardInfo;
  cn_health : M (C * W) CallError (string * Z);
  (** the [Display] of [tonic::Status] *)
  call_error_display : CallError → string;
}.

(** The integers of a request are within their types. *)
Definition request_in_width (req : CreateVmRequest) : Prop :=
  0 ≤ r_vcpus req ≤ u32_max ∧ 0 ≤ r_memory_mb req ≤ u32_max.

(** What the compute node promises: [cn_running] is the set of VMs it has. A call that was
    refused changed nothing; one whose answer was lost touched at most its own VM, which
    a creation does not remove and a deletion does not add. *)
Class ComputeNodeLaws (C W : Type) `{ComputeNode C W} := {
  cn_inv : C → Prop;
  cn_running : C → gset string;
  cn_list_spec c w : cn_inv c →
    wp cn_list_vms (λ r '(c', w'), cn_inv c' ∧ cn_running c' = cn_running c ∧
      match r with Ok l => list_to_set (pi_vm_id <$> l) = cn_running c | Err _ => True | Panic _ => False end)
      (c, w);
  cn_create_spec req c w : cn_inv c → request_in_width req →
    wp (cn_create_vm req) (λ r '(c', w'), cn_inv c' ∧
      (∀ h, h ≠ r_vm_id req → h ∈ cn_running c' ↔ h ∈ cn_running c) ∧
      match r with
      | Ok _ => r_vm_id req ∈ cn_running c'
      | Err (Refused _) => cn_running c' = cn_running c
      | Err (Lost _) => cn_running c ⊆ cn_running c'
      | Panic _ => False
      end) (c, w);
  cn_delete_spec vm c w : cn_inv c →
    wp (cn_delete_vm vm) (λ r '(c', w'), cn_inv c' ∧
      (∀ h, h ≠ vm → h ∈ cn_running c' ↔ h ∈ cn_running c) ∧
      match r with
      | Ok _ => vm ∉ cn_running c'
      | Err (Refused _) => cn_running c' = cn_running c
      | Err (Lost _) => cn_running c' ⊆ cn_running c
      | Panic _ => False
      end) (c, w);
  cn_forward_spec req c w : cn_inv c → 0 ≤ ar_vm_port req ≤ u32_max → ar_host_port req = 0 →
    wp (cn_add_port_forward req) (λ r '(c', w'), cn_inv c' ∧ cn_running c' = cn_running c ∧
      match r with Panic _ => False | _ => True end) (c, w);
  cn_health_spec c w : cn_inv c →
    wp cn_health (λ r '(c', w'), c' = c ∧ match r with Panic _ => False | _ => True end) (c, w);
}.

(** ** client.rs *)

(** tonic's transport: what connecting to a Unix socket gives. *)
Class Tonic (C W : Type) := {
  endpoint_try_from : string → string + unit;
  connect_with_socket : string → W → (string + C) * W;
}.

Definition connect_compute_node {C W} `{Tonic C W} (socket_path : string) : M W error C := λ w,
  match endpoint_try_from "http://[::]:0" with
  | inl e => (Err (mk_error e []), w)
  | inr _ =>
      match connect_with_socket socket_path w with
      | (inl e, w') => (Err (mk_error e []), w')
      | (inr c, w') => (Ok c, w')
      end
  end.

(** ** main.rs *)

(** [AppState]; the compute node behind its client is part of it. *)
Record AppState `{AlephTypes} (C : Type) := mk_state {
  compute_client : C;
  volume_cache : VolumeCache;
  adapter_config : AdapterConfig;
  messages : gmap ItemHash ExecutableMessage;
  allocation_token_hash : option bytes;
  node_hash : option NodeHash;
}.
Arguments mk_state {_ C}.
Arguments compute_client {_ C}.
Arguments volume_cache {_ C}.
Arguments adapter_config {_ C}.
Arguments messages {_ C}.
Arguments allocation_token_hash {_ C}.
Arguments node_hash {_ C}.

Definition set_client `{AlephTypes} {C} (c : C) (s : AppState C) : AppState C :=
  mk_state c (volume_cache s) (adapter_config s) (messages s) (allocation_token_hash s) (node_hash s).
Definition set_messages `{AlephTypes} {C} (ms : gmap ItemHash ExecutableMessage) (s : AppState C)
    : AppState C :=
  mk_state (compute_client s) (volume_cache s) (adapter_config s) ms (allocation_token_hash s)
    (node_hash s).

(** What the handlers use of actix-web and serde_json beside values: the text of a parse
    error, and the response of the [Json] extractor to a body it cannot read. *)
Class Actix := { serde_message : bytes → string; extractor_error : bytes → HttpResponse }.

Section handlers.
Context `{AlephTypes, Hex, Hmac, SerdeJson, Actix} {C W : Type} `{Host W, Web W, ComputeNode C W}.

(** A handler; an early [return] is a [throw]. *)
Definition Handler (A : Type) : Type := M (AppState C * W) HttpResponse A.

(** A call of the client. *)
Definition on_client {E A} (m : M (C * W) E A) : M (AppState C * W) E A := λ '(s, w),
  let '(r, (c, w')) := m (compute_client s, w) in (r, (set_client c s, w')).
(** A call whose error the handler looks at. *)
Definition call {A} (m : M (C * W) CallError A) : Handler (result CallError A) :=
  attempt (on_client m).
Definition app_state : Handler (AppState C) := λ '(s, w), (Ok s, (s, w)).

Definition error_response (msg : string) : json := error_json msg.

(** The check of the signature: [true] when the request may go on. *)
Definition authorized (s : AppState C) (signature : option string) (body : bytes) : bool :=
  match allocation_token_hash s with
  | Some token_hash => verify_allocation_signature body (default ""%string signature) token_hash
  | None => true
  end.

Definition stop_error (vm : string) (e : CallError) : string :=
  ("stop " ++ vm ++ ": " ++ call_error_display e)%str.
Definition start_error (vm text : string) : string := ("start " ++ vm ++ ": " ++ text)%str.
Definition translate_error (vm : string) (e : error) : string :=
  ("translate " ++ vm ++ ": " ++ err_msg e)%str.

(** The two loops push onto [errors]. *)
Fixpoint stop_vms (vms errors : list string) : Handler (list string) :=
  match vms with
  | [] => mret errors
  | vm :: rest =>
      r ← call (cn_delete_vm vm);
      stop_vms rest (match r with Err e => errors ++ [stop_error vm e] | _ => errors end)
  end.

Fixpoint forward_ports (reqs : list AddPortForwardRequest) : Handler unit :=
  match reqs with
  | [] => mret tt
  | req :: rest => call (cn_add_port_forward req);; forward_ports rest
  end.

(** One VM: the errors to push. *)
Definition start_vm (vm : ItemHash) : Handler (list string) :=
  s ← app_state;
  match messages s !! vm with
  | None => mret [start_error vm "message not found"]
  | Some msg =>
      t ← attempt (on_snd (translate_message (volume_cache s) (adapter_config s) msg));
      match t with
      | Ok create_req =>
          r ← call (cn_create_vm create_req);
          match r with
          | Ok _ => forward_ports (translate_port_forwards msg);; mret []
          | Err e => mret [start_error vm (call_error_display e)]
          | Panic p => mret []
          end
      | Err e => mret [translate_error vm e]
      | Panic p => mret []
      end
  end.
Fixpoint start_vms (vms : list ItemHash) (errors : list string) : Handler (list string) :=
  match vms with
  | [] => mret errors
  | vm :: rest => e ← start_vm vm; start_vms rest (errors ++ e)
  end.

(** [errors.iter().filter(|e| e.starts_with(p)).count()], and a [usize] subtraction of a
    release build. *)
Definition count_errors (p : string) (errors : list string) : Z :=
  Z.of_nat (length (filter (λ e, starts_with p e = true) errors)).
Definition len {A} (l : list A) : Z := Z.of_nat (length l).

Definition allocation_response (actions : ReconcileActions) (errors : list string) : HttpResponse :=
  match errors with
  | [] =>
      respond 200 (JObj [("started", JNum (len (to_start actions)));
                         ("stopped", JNum (len (to_stop actions)));
                         ("unchanged", JNum (len (unchanged actions)))])%string
  | _ =>
      respond 207 (JObj [
        ("started", JNum (wrap 64 (len (to_start actions) - count_errors "start" errors)));
        ("stopped", JNum (wrap 64 (len (to_stop actions) - count_errors "stop" errors)));
        ("unchanged", JNum (len (unchanged actions)));
        ("errors", JArr (JStr <$> errors))])%string
  end.

(** What the handler does with an allocation it has read. *)
Definition apply_allocation (allocation : Allocation) : Handler HttpResponse :=
  l ← call cn_list_vms;
  match l with
  | Ok vms =>
      let running := list_to_set (pi_vm_id <$> vms) in
      let actions := reconcile allocation running in
      errors ← stop_vms (to_stop actions) [];
      errors ← start_vms (to_start actions) errors;
      mret (allocation_response actions errors)
  | Err e =>
      throw (respond 500 (error_response ("compute node unreachable: " ++ call_error_display e)%str))
  | Panic p => throw (respond 500 (error_response p))
  end.

Definition handle_allocation (signature : option string) (body : bytes) : Handler HttpResponse :=
  s ← app_state;
  if negb (authorized s signature body) then
    throw (respond 401 (error_response "invalid allocation signature"))
  else
    match json_parse (of_bytes body) ≫= allocation_of_json with
    | Some allocation => apply_allocation allocation
    | None =>
        throw (respond 400 (error_response ("invalid allocation JSON: " ++ serde_message body)%str))
    end.

(** [body] through the [Json] extractor, then the handler. *)
Definition handle_message (body : bytes) : Handler HttpResponse :=
  match json_parse (of_bytes body) ≫= message_of_json with
  | None => throw (extractor_error body)
  | Some msg =>
      modify (λ '(s, w), (set_messages (<[item_hash msg := msg]> (messages s)) s, w));;
      mret (respond 200 (JObj [("item_hash", JStr (item_hash msg));
                               ("status", JStr "registered")])%string)
  end.

Definition health : Handler HttpResponse :=
  r ← call cn_health;
  s ← app_state;
  let compute_ok := is_ok r in
  mret (respond 200 (JObj [
    ("status", JStr (if compute_ok then "ok" else "degraded"));
    ("compute_node", JStr (if compute_ok then "connected" else "unreachable"));
    ("registered_messages", JNum (Z.of_nat (size (messages s))));
    ("node_hash", to_option JStr (hash_display <$> node_hash s))])%string).

(** The routes of the server. *)
Inductive ApiRequest :=
| GetHealth
| PostAllocations (signature : option string) (body : bytes)
| PostMessages (body : bytes).
Definition serve_api (q : ApiRequest) : Handler HttpResponse :=
  match q with
  | GetHealth => health
  | PostAllocations signature body => handle_allocation signature body
  | PostMessages body => handle_message body
  end.
End handlers.

(** ** main.rs: the command run *)

Definition parse_allocation_token `{Hex} (hex_hash : option string) : result error (option bytes) :=
  match hex_hash with
  | None => Ok None
  | Some h =>
      match hex_decode h with
      | None => Err (mk_error "allocation-token-hash must be valid hex" [])
      | Some b =>
          if decide (length b = 32%nat) then Ok (Some b)
          else bail ("allocation-token-hash must be 32 bytes (SHA-256), got " ++
                     print_dec (Z.of_nat (length b)))%str
      end
  end.

Record RunArgs := mk_args {
  a_state_dir : string;
  a_compute_socket : string;
  a_listen : string;
  a_connector_url : string;
  a_cache_dir : string;
  a_kernel : string;
  a_initrd : string;
  a_allocation_token_hash : option string;
  a_owner_address : option string;
  a_node_hash : option string;
  a_domain_name : option string;
}.

(** The crate url, and the HTTP server: it binds an address and runs until it is stopped. *)
Class Server `{AlephTypes} (C W : Type) := {
  url_parse : string → string + unit;
  server_bind : string → W → (string + unit) * W;
  server_run : AppState C → W → (string + unit) * W;
}.

Section run.
Context `{AlephTypes, Hex} {C W : Type} `{Host W, Tonic C W, !Server C W}.

(** Whether [run] starts the discovery task, which needs a URL for it. *)
Definition start_discovery (args : RunArgs) : result error bool :=
  match a_node_hash args, a_owner_address args, a_domain_name args with
  | None, Some _, Some _ =>
      _ ← ext_ctx "invalid --connector-url" (url_parse (a_connector_url args)); Ok true
  | _, _, _ => Ok false
  end.

(** [cmd_run] up to the server, with the tasks it spawns left to [discovery_moves]. *)
Definition start_agent (args : RunArgs) : M W error (AppState C) :=
  compute_client ← connect_compute_node (a_compute_socket args);
  token_hash ← lift (parse_allocation_token (a_allocation_token_hash args));
  initial_hash ← resolve_initial_hash (a_node_hash args) (a_state_dir args);
  _ ← lift (start_discovery args);
  mret (mk_state compute_client (new_cache (a_cache_dir args) (a_connector_url args))
          (mk_adapter (a_kernel args) (a_initrd args)) ∅ token_hash initial_hash).

Definition cmd_run (pid : Z) (args : RunArgs) : M W error unit :=
  write_pid_file pid (a_state_dir args);;
  state ← start_agent args;
  run_q (server_bind (a_listen args));;
  run_q (server_run state);;
  remove_pid_file (a_state_dir args).
End run.
