(* ===== verification/SchedulerFacts.v ===== *)
(** * The scheduler agent: specifications

    The loops and handlers of [Scheduler], proved against the interface [ComputeNodeLaws]
    for any compute node. *)

From S2P Require Import Prelude Strs Host Json Types Crypto Http Grpc Messages Volumes.
From S2P Require Import Allocations NodeHash Adapter Scheduler.
#[local] Open Scope Z_scope.

Section facts.
Context `{AlephTypes, Hex, Hmac, SerdeJson, Actix} {C W : Type} `{Host W, Web W, ComputeNodeLaws C W}.
Implicit Types (s : AppState C) (w : W).

(** The agent's state: the node's own invariant, and messages under their hash, with every
    number within its type. *)
Definition app_wf s : Prop :=
  cn_inv (compute_client s) ∧
  map_Forall (λ k m, item_hash m = k ∧ message_wf m) (messages s).
Definition running s : gset string := cn_running (compute_client s).

(** Two states that may differ in the compute node alone. *)
Definition same_app s s' : Prop := s' = set_client (compute_client s') s.

Lemma same_app_refl s : same_app s s.
Proof. by destruct s. Qed.

Lemma same_app_set c s : same_app s (set_client c s).
Proof. done. Qed.

Lemma same_app_trans s1 s2 s3 : same_app s1 s2 → same_app s2 s3 → same_app s1 s3.
Proof. unfold same_app. intros H12 H23. rewrite H23, H12. done. Qed.

#[global] Instance same_app_preorder : PreOrder same_app.
Proof. split; [intros s; apply same_app_refl|intros s1 s2 s3; apply same_app_trans]. Qed.

Lemma set_client_wf c s : cn_inv c → app_wf s → app_wf (set_client c s).
Proof. intros Hc [_ Hm]. by split. Qed.

(** Two nodes that agree on every VM but one. *)
Definition agree_but (h : string) s s' : Prop := ∀ k, k ≠ h → k ∈ running s' ↔ k ∈ running s.

Lemma wp_app_state (Q : result HttpResponse (AppState C) → AppState C * W → Prop) s w :
  Q (Ok s) (s, w) → wp (app_state (W := W)) Q (s, w).
Proof. done. Qed.

(** A call that the laws say never panics. *)
Lemma wp_call {A} (m : M (C * W) CallError A) (P : result CallError A → C → Prop)
    (Q : result HttpResponse (result CallError A) → AppState C * W → Prop) s w :
  wp m (λ r '(c', w'), P r c' ∧ match r with Panic _ => False | _ => True end) (compute_client s, w) →
  (∀ a c' w', P (Ok a) c' → Q (Ok (Ok a)) (set_client c' s, w')) →
  (∀ e c' w', (m (compute_client s, w)).1 = Err e → P (Err e) c' → Q (Ok (Err e)) (set_client c' s, w')) →
  wp (call m) Q (s, w).
Proof.
  intros Hm Hok Herr. unfold call. apply wp_attempt. unfold wp, on_client in *.
  destruct (m (compute_client s, w)) as [[a|e|p] [c' w']]; simpl in *; [apply Hok, Hm|apply Herr; [done|apply Hm]|].
  by destruct Hm as [_ []].
Qed.

Lemma call_delete_spec vm (Q : result HttpResponse (result CallError unit) → AppState C * W → Prop) s w :
  app_wf s →
  (∀ s' w', same_app s s' → app_wf s' → agree_but vm s s' → vm ∉ running s' → Q (Ok (Ok tt)) (s', w')) →
  (∀ e s' w', same_app s s' → app_wf s' → agree_but vm s s' →
     (cn_delete_vm vm (compute_client s, w)).1 = Err e → Q (Ok (Err e)) (s', w')) →
  wp (call (cn_delete_vm vm)) Q (s, w).
Proof.
  intros Hwf Hok Herr.
  apply (wp_call _ (λ r c', cn_inv c' ∧
    (∀ k, k ≠ vm → k ∈ cn_running c' ↔ k ∈ cn_running (compute_client s)) ∧
    match r with Ok _ => vm ∉ cn_running c' | _ => True end)).
  - eapply wp_mono; [apply cn_delete_spec, Hwf|]. intros [a|[x|x]|p] [c' w'] (? & ? & ?); done.
  - intros [] c' w' (Hi & Ha & Hr). apply Hok; [done|by apply set_client_wf|exact Ha|exact Hr].
  - intros e c' w' He (Hi & Ha & _). apply Herr; [done|by apply set_client_wf|exact Ha|exact He].
Qed.

Lemma call_create_spec req
    (Q : result HttpResponse (result CallError ProtoVmInfo) → AppState C * W → Prop) s w :
  app_wf s → request_in_width req →
  (∀ i s' w', same_app s s' → app_wf s' → agree_but (r_vm_id req) s s' →
     r_vm_id req ∈ running s' → Q (Ok (Ok i)) (s', w')) →
  (∀ e s' w', same_app s s' → app_wf s' → agree_but (r_vm_id req) s s' →
     (cn_create_vm req (compute_client s, w)).1 = Err e → Q (Ok (Err e)) (s', w')) →
  wp (call (cn_create_vm req)) Q (s, w).
Proof.
  intros Hwf Hreq Hok Herr.
  apply (wp_call _ (λ r c', cn_inv c' ∧
    (∀ k, k ≠ r_vm_id req → k ∈ cn_running c' ↔ k ∈ cn_running (compute_client s)) ∧
    match r with Ok _ => r_vm_id req ∈ cn_running c' | _ => True end)).
  - eapply wp_mono; [apply cn_create_spec; [apply Hwf|done]|]. intros [a|[x|x]|p] [c' w'] (? & ? & ?); done.
  - intros i c' w' (Hi & Ha & Hr). apply Hok; [done|by apply set_client_wf|exact Ha|exact Hr].
  - intros e c' w' He (Hi & Ha & _). apply Herr; [done|by apply set_client_wf|exact Ha|exact He].
Qed.

(** Forwarding ports changes neither the VMs nor anything else of the agent, and its
    failures go unnoticed. *)
Lemma forward_ports_spec reqs (Q : result HttpResponse unit → AppState C * W → Prop) s w :
  app_wf s → Forall (λ r, 0 ≤ ar_vm_port r ≤ u32_max ∧ ar_host_port r = 0) reqs →
  (∀ s' w', same_app s s' → app_wf s' → running s' = running s → Q (Ok tt) (s', w')) →
  wp (forward_ports reqs) Q (s, w).
Proof.
  intros Hwf Hreqs. revert s w Hwf. induction Hreqs as [|req reqs [Hp Hh] _ IH]; intros s w Hwf HQ.
  { apply wp_ret, HQ; done. }
  assert (∀ c' w', cn_inv c' ∧ cn_running c' = cn_running (compute_client s) →
    wp (forward_ports reqs) Q (set_client c' s, w')) as Hrest.
  { intros c' w' [Hi Hr]. apply IH; [by apply set_client_wf|].
    intros s2 w2 H12 Hwf2 Hr2. apply HQ; [by etransitivity; [|exact H12]|done|]. by rewrite Hr2. }
  simpl. apply wp_bind.
  apply (wp_call _ (λ _ c', cn_inv c' ∧ cn_running c' = cn_running (compute_client s))); [|by intros; apply Hrest..].
  eapply wp_mono; [apply cn_forward_spec; [apply Hwf|done|done]|].
  intros [a|e|p] [c' w'] (? & ? & ?); done.
Qed.

(** ** The loops *)

(** The VMs among which something went wrong, with the entry each left in the errors. *)
Definition entries (bad : list (string * string)) : list string := bad.*2.
Definition stop_entry (p : string * string) : Prop :=
  ∃ e c w, cn_inv c ∧ p.1 ∈ cn_running c ∧ (cn_delete_vm p.1 (c, w)).1 = Err e ∧ p.2 = stop_error p.1 e.
(** No message, or one that does not translate, or a VM that the node does not create. *)
Inductive start_entry s : string * string → Prop :=
| no_message (vm : ItemHash) :
    messages s !! vm = None → start_entry s (vm, start_error vm "message not found")
| not_translated (vm : ItemHash) msg e w :
    messages s !! vm = Some msg →
    (translate_message (volume_cache s) (adapter_config s) msg w).1 = Err e →
    start_entry s (vm, translate_error vm e)
| not_created (vm : ItemHash) msg req c w e :
    messages s !! vm = Some msg → cn_inv c → r_vm_id req = vm → request_in_width req →
    (cn_create_vm req (c, w)).1 = Err e →
    start_entry s (vm, start_error vm (call_error_display e)).

Lemma start_entry_same s s' p : same_app s s' → start_entry s' p → start_entry s p.
Proof.
  intros Hs [vm Hm|vm msg e w Hm Ht|vm msg req c w e Hm Hc Hid Hreq He].
  - apply no_message. by rewrite Hs in Hm.
  - eapply not_translated; rewrite Hs in Hm, Ht; [exact Hm|exact Ht].
  - eapply not_created; try done. by rewrite Hs in Hm.
Qed.

Lemma start_entries_same s s' l : same_app s s' → Forall (start_entry s') l → Forall (start_entry s) l.
Proof. intros Hs Hl. eapply Forall_impl; [exact Hl|]. intros p. by apply start_entry_same. Qed.

Lemma stop_vms_spec vms errors (Q : result HttpResponse (list string) → AppState C * W → Prop) s w :
  app_wf s → NoDup vms → (∀ h, h ∈ vms → h ∈ running s) →
  (∀ bad s' w', same_app s s' → app_wf s' → Forall stop_entry bad → bad.*1 ⊆ vms →
     sublist bad.*1 vms →
     (∀ h, h ∉ bad.*1 → h ∈ running s' ↔ h ∈ running s ∧ h ∉ vms) →
     Q (Ok (errors ++ entries bad)) (s', w')) →
  wp (stop_vms vms errors) Q (s, w).
Proof.
  revert errors s w. induction vms as [|vm vms IH]; intros errors s w Hwf Hnd Hin HQ; simpl.
  { apply wp_ret. specialize (HQ [] s w). unfold entries in HQ. simpl in HQ. rewrite app_nil_r in HQ.
    apply HQ; try done. intros h _. set_solver. }
  apply NoDup_cons in Hnd as [Hvm Hnd].
  assert (∀ s1, agree_but vm s s1 → ∀ h, h ∈ vms → h ∈ running s1) as Hin1.
  { intros s1 Ha h Hh. apply Ha; [by intros ->|]. apply Hin. by right. }
  apply wp_bind, call_delete_spec; [done|..].
  - intros s1 w1 F1 Hwf1 Ha Hn. apply IH; [done|done|by apply Hin1|].
    intros bad s2 w2 F2 Hwf2 Hbad Hsub Hsl Hrun. apply HQ; try done.
    + by transitivity s1.
    + set_solver.
    + by constructor.
    + intros h Hh. rewrite Hrun by done. destruct (decide (h = vm)) as [->|Hne]; [set_solver|].
      rewrite (Ha h Hne). set_solver.
  - intros e s1 w1 F1 Hwf1 Ha He. apply IH; [done|done|by apply Hin1|].
    intros bad s2 w2 F2 Hwf2 Hbad Hsub Hsl Hrun. rewrite <-app_assoc.
    apply (HQ ((vm, stop_error vm e) :: bad)).
    + by transitivity s1.
    + done.
    + constructor; [|done]. exists e, (compute_client s), w.
      split_and!; [apply Hwf|apply Hin; by left|done|done].
    + simpl. set_solver.
    + simpl. by constructor.
    + intros h Hh. simpl in Hh. rewrite Hrun by set_solver.
      assert (h ≠ vm) as Hne by set_solver. rewrite (Ha h Hne). set_solver.
Qed.

Lemma translated_width msg : message_wf msg →
  0 ≤ res_vcpus (resources msg) ≤ u32_max ∧ 0 ≤ res_memory (resources msg) ≤ u32_max.
Proof. by intros ((Hv & Hm & _) & _). Qed.

Lemma forwards_width msg : message_wf msg →
  Forall (λ r, 0 ≤ ar_vm_port r ≤ u32_max ∧ ar_host_port r = 0) (translate_port_forwards msg).
Proof.
  intros ((_ & _ & _ & Hp) & _). unfold translate_port_forwards. apply Forall_fmap.
  eapply Forall_impl; [exact Hp|]. intros p Hport. simpl. unfold u16_max, u32_max in *. lia.
Qed.

Lemma start_vm_spec (vm : ItemHash) (Q : result HttpResponse (list string) → AppState C * W → Prop) s w :
  app_wf s →
  (∀ s' w', same_app s s' → app_wf s' → agree_but vm s s' → vm ∈ running s' → Q (Ok []) (s', w')) →
  (∀ e s' w', same_app s s' → app_wf s' → agree_but vm s s' → start_entry s (vm, e) → Q (Ok [e]) (s', w')) →
  wp (start_vm vm) Q (s, w).
Proof.
  intros Hwf Hok Herr. unfold start_vm. apply wp_bind, wp_app_state.
  destruct (messages s !! vm) as [msg|] eqn:Hmsg.
  2: { by apply wp_ret, Herr; [..|apply no_message]. }
  destruct Hwf as [Hinv Hms]. destruct (Hms vm msg Hmsg) as [Hid Hmwf]. simpl in *.
  assert (app_wf s) as Hwf by done.
  apply wp_bind, wp_attempt, wp_on_snd. intros r w1 Hr.
  pose proof (translate_message_spec (volume_cache s) (adapter_config s) msg (λ r _,
    match r with
    | Ok req => r_vm_id req = vm ∧ request_in_width req
    | Err _ => True
    | Panic _ => False
    end) w (λ _, conj Hid (translated_width msg Hmwf)) (λ _ _, I)) as Hspec.
  unfold wp in Hspec. rewrite Hr in Hspec. destruct r as [req|e|p]; simpl in Hspec; [|..|done].
  - destruct Hspec as [Hreq Hwidth]. apply wp_bind, call_create_spec; [done|done|..]; rewrite Hreq.
    + intros i s1 w2 F1 Hwf1 Ha Hin. apply wp_bind, forward_ports_spec; [done|by apply forwards_width|].
      intros s2 w3 F2 Hwf2 Hrun. apply wp_ret, Hok.
      * by transitivity s1.
      * done.
      * intros k Hk. by rewrite Hrun, (Ha k Hk).
      * by rewrite Hrun.
    + intros e s1 w2 F1 Hwf1 Ha He. apply wp_ret, Herr; [done..|].
      by eapply not_created.
  - apply wp_ret, Herr; [done..|]. eapply not_translated; [done|]. by rewrite Hr.
Qed.

Lemma start_vms_spec vms errors (Q : result HttpResponse (list string) → AppState C * W → Prop) s w :
  app_wf s →
  (∀ bad s' w', same_app s s' → app_wf s' → Forall (start_entry s) bad → bad.*1 ⊆ vms →
     sublist bad.*1 vms →
     (∀ h, h ∉ bad.*1 → h ∈ running s' ↔ h ∈ running s ∨ h ∈ vms) →
     Q (Ok (errors ++ entries bad)) (s', w')) →
  wp (start_vms vms errors) Q (s, w).
Proof.
  revert errors s w. induction vms as [|vm vms IH]; intros errors s w Hwf HQ; simpl.
  { apply wp_ret. specialize (HQ [] s w). unfold entries in HQ. simpl in HQ. rewrite app_nil_r in HQ.
    apply HQ; try done. intros h _. set_solver. }
  apply wp_bind, start_vm_spec; [done|..].
  - intros s1 w1 F1 Hwf1 Ha Hin. rewrite app_nil_r. apply IH; [done|].
    intros bad s2 w2 F2 Hwf2 Hbad%(start_entries_same s s1 _ F1) Hsub Hsl Hrun. apply HQ; try done.
    + by transitivity s1.
    + set_solver.
    + by constructor.
    + intros h Hh. rewrite Hrun by done. destruct (decide (h = vm)) as [->|Hne]; [set_solver|].
      rewrite (Ha h Hne). set_solver.
  - intros e s1 w1 F1 Hwf1 Ha He. apply IH; [done|].
    intros bad s2 w2 F2 Hwf2 Hbad%(start_entries_same s s1 _ F1) Hsub Hsl Hrun. rewrite <-app_assoc.
    apply (HQ ((vm, e) :: bad)).
    + by transitivity s1.
    + done.
    + by constructor.
    + simpl. set_solver.
    + simpl. by constructor.
    + intros h Hh. simpl in Hh. rewrite Hrun by set_solver.
      assert (h ≠ vm) as Hne by set_solver. rewrite (Ha h Hne). set_solver.
Qed.
End facts.
