(* ===== verification/SchedulerReady.v ===== *)
(** * The scheduler agent: allocations that can be met

    When every call an allocation needs succeeds in the states the machine and the node go
    through. The states are a predicate of the reader's choice, which has to be closed
    under those calls: nothing is asked of any other request, node or machine. *)

From S2P Require Import Prelude Strs Host Json Types Crypto Http Grpc Messages Volumes.
From S2P Require Import Allocations NodeHash Adapter Scheduler SchedulerFacts.
#[local] Open Scope Z_scope.

Section ready.
Context `{AlephTypes, Hex, Hmac, SerdeJson, Actix} {C W : Type} `{Host W, Web W, ComputeNodeLaws C W}.
Context (Good : C → W → Prop).
Implicit Types (s : AppState C) (w : W).

(** Whatever the answers to these requests, they end well. *)
Fixpoint forwards_lead (reqs : list AddPortForwardRequest) (c : C) w : Prop :=
  match reqs with
  | [] => Good c w
  | req :: rest => wp (cn_add_port_forward req) (λ _ '(c', w'), forwards_lead rest c' w') (c, w)
  end.

(** The node and the machine can meet the allocation. From good states to good states: a VM
    that is not allocated is deleted; and once none is left, an allocated VM that does not
    run has a message, which translates to a request the node accepts, and its ports are
    requested, with whatever answer. *)
Record meets (a : Allocation) s : Prop := {
  meets_stop vm c w : cn_inv c → Good c w → vm ∈ cn_running c → vm ∉ all_vms a →
    wp (cn_delete_vm vm) (λ r '(c', w'), is_ok r = true ∧ Good c' w') (c, w);
  meets_start (vm : ItemHash) c w :
    cn_inv c → Good c w → cn_running c ⊆ all_vms a → vm ∈ all_vms a → vm ∉ cn_running c →
    ∃ msg, messages s !! vm = Some msg ∧
      wp (translate_message (volume_cache s) (adapter_config s) msg) (λ r w1, ∃ req, r = Ok req ∧
        wp (cn_create_vm req) (λ r' '(c', w'),
          is_ok r' = true ∧ forwards_lead (translate_port_forwards msg) c' w') (c, w1)) w;
}.

Lemma meets_same a s s' : same_app s s' → meets a s → meets a s'.
Proof. intros Hs [Hstop Hstart]. split; [done|]. rewrite Hs. simpl. exact Hstart. Qed.

(** A call that succeeds. *)
Lemma call_good {A} (m : M (C * W) CallError A) (P : result CallError A → C → Prop) (G : C → W → Prop)
    (Q : result HttpResponse (result CallError A) → AppState C * W → Prop) s w :
  wp m (λ r '(c', _), P r c') (compute_client s, w) →
  wp m (λ r '(c', w'), is_ok r = true ∧ G c' w') (compute_client s, w) →
  (∀ x c' w', P (Ok x) c' → G c' w' → Q (Ok (Ok x)) (set_client c' s, w')) →
  wp (call m) Q (s, w).
Proof.
  intros HP HG HQ. unfold call. apply wp_attempt. unfold wp, on_client in *.
  destruct (m (compute_client s, w)) as [[x|e|p] [c' w']]; simpl in *; [|by destruct HG..].
  by apply HQ; [|apply HG].
Qed.

Definition stays_good s w s' w' : Prop := same_app s s' ∧ app_wf s' ∧ Good (compute_client s') w'.

Lemma forward_ports_good reqs (Q : result HttpResponse unit → AppState C * W → Prop) s w :
  app_wf s → Forall (λ r, 0 ≤ ar_vm_port r ≤ u32_max ∧ ar_host_port r = 0) reqs →
  forwards_lead reqs (compute_client s) w →
  (∀ s' w', stays_good s w s' w' → running s' = running s → Q (Ok tt) (s', w')) →
  wp (forward_ports reqs) Q (s, w).
Proof.
  intros Hwf Hreqs. revert s w Hwf.
  induction Hreqs as [|req reqs [Hp Hh] _ IH]; intros s w Hwf Hlead HQ; simpl in *.
  { apply wp_ret, HQ; [|done]. by split_and!. }
  apply wp_bind. unfold call. apply wp_attempt.
  pose proof (cn_forward_spec req (compute_client s) w (proj1 Hwf) Hp Hh) as Hspec.
  unfold wp, on_client in *.
  destruct (cn_add_port_forward req (compute_client s, w)) as [[x|e|p] [c' w']]; simpl in *;
    destruct Hspec as (Hi & Hr & Hnp); [| |done].
  all: (apply IH; [by apply set_client_wf|exact Hlead|]; intros s2 w2 (F & Hwf2 & Hg) Hr2;
    apply HQ; [|by rewrite Hr2]; split_and!; [by etransitivity; [|exact F]|done|done]).
Qed.

Lemma stop_vms_good a vms errors (Q : result HttpResponse (list string) → AppState C * W → Prop) s w :
  meets a s → app_wf s → Good (compute_client s) w → NoDup vms →
  (∀ h, h ∈ vms → h ∈ running s ∧ h ∉ all_vms a) →
  (∀ s' w', stays_good s w s' w' → running s' = running s ∖ list_to_set vms → Q (Ok errors) (s', w')) →
  wp (stop_vms vms errors) Q (s, w).
Proof.
  revert s w. induction vms as [|vm vms IH]; intros s w Hm Hwf Hg Hnd Hin HQ; simpl.
  { apply wp_ret, HQ; [by split_and!|set_solver]. }
  apply NoDup_cons in Hnd as [Hvm Hnd]. destruct (Hin vm ltac:(by left)) as [Hr Hna].
  apply wp_bind, (call_good _ (λ r c', cn_inv c' ∧
    (∀ k, k ≠ vm → k ∈ cn_running c' ↔ k ∈ cn_running (compute_client s)) ∧
    match r with Ok _ => vm ∉ cn_running c' | _ => True end) Good).
  - eapply wp_mono; [apply cn_delete_spec, Hwf|]. intros [x|[x|x]|p] [c' w'] (? & ? & ?); done.
  - apply (meets_stop a s); [done|apply Hwf|done..].
  - intros [] c' w' (Hi & Ha & Hn) Hg'. set (s1 := set_client c' s).
    assert (running s1 = running s ∖ {[vm]}) as Hr1.
    { apply set_eq. intros h. rewrite elem_of_difference, elem_of_singleton.
      destruct (decide (h = vm)) as [->|Hne]; [by split; [|intros []]|]. rewrite <-(Ha h Hne). tauto. }
    apply IH; [by apply (meets_same a s)|by apply set_client_wf|done|done| |].
    + intros h Hh. rewrite Hr1. destruct (Hin h ltac:(by right)). split; [set_solver|done].
    + intros s2 w2 (F & Hwf2 & Hg2) Hr2. apply HQ; [split_and!; [by transitivity s1|done|done]|].
      rewrite Hr2, Hr1. set_solver.
Qed.

Lemma start_vm_good a (vm : ItemHash) (Q : result HttpResponse (list string) → AppState C * W → Prop) s w :
  meets a s → app_wf s → Good (compute_client s) w →
  running s ⊆ all_vms a → vm ∈ all_vms a → vm ∉ running s →
  (∀ s' w', stays_good s w s' w' → running s' = {[vm]} ∪ running s → Q (Ok []) (s', w')) →
  wp (start_vm vm) Q (s, w).
Proof.
  intros Hm Hwf Hg Hsub Hin Hout HQ. unfold start_vm. apply wp_bind, wp_app_state.
  destruct (meets_start a s Hm vm _ w (proj1 Hwf) Hg Hsub Hin Hout) as (msg & Hmsg & Htr).
  rewrite Hmsg. pose proof (proj2 Hwf vm msg Hmsg) as [Hid Hmwf]. simpl in *.
  pose proof (translate_message_spec (volume_cache s) (adapter_config s) msg (λ r _,
    match r with Ok req => r_vm_id req = vm ∧ request_in_width req | _ => True end) w
    (λ _, conj Hid (translated_width msg Hmwf)) (λ _ _, I)) as Hspec.
  apply wp_bind, wp_attempt, wp_on_snd. intros r w1 Hr. unfold wp in Htr, Hspec. rewrite Hr in Htr, Hspec.
  simpl in Htr, Hspec. destruct Htr as (req & -> & Hcr). destruct Hspec as [Hreq Hwidth].
  apply wp_bind, (call_good _ (λ r c', cn_inv c' ∧
    (∀ k, k ≠ vm → k ∈ cn_running c' ↔ k ∈ cn_running (compute_client s)) ∧
    match r with Ok _ => vm ∈ cn_running c' | _ => True end)
    (forwards_lead (translate_port_forwards msg))); [|exact Hcr|].
  - rewrite <-Hreq. eapply wp_mono; [by apply cn_create_spec; [apply Hwf|]|].
    intros [x|[x|x]|p] [c' w'] (? & ? & ?); done.
  - intros i c' w' (Hi & Ha & Hn) Hlead. set (s1 := set_client c' s).
    apply wp_bind, forward_ports_good; [by apply set_client_wf|by apply forwards_width|done|].
    intros s2 w2 (F & Hwf2 & Hg2) Hr2. apply wp_ret, HQ; [split_and!; [by transitivity s1|done|done]|].
    rewrite Hr2. apply set_eq. intros h. rewrite elem_of_union, elem_of_singleton.
    destruct (decide (h = vm)) as [->|Hne]; [by split; [left|]|]. rewrite (Ha h Hne : h ∈ running s1 ↔ _). naive_solver.
Qed.

Lemma start_vms_good a vms errors (Q : result HttpResponse (list string) → AppState C * W → Prop) s w :
  meets a s → app_wf s → Good (compute_client s) w → NoDup vms → running s ⊆ all_vms a →
  (∀ h, h ∈ vms → h ∈ all_vms a ∧ h ∉ running s) →
  (∀ s' w', stays_good s w s' w' → running s' = running s ∪ list_to_set vms → Q (Ok errors) (s', w')) →
  wp (start_vms vms errors) Q (s, w).
Proof.
  revert errors s w. induction vms as [|vm vms IH]; intros errors s w Hm Hwf Hg Hnd Hsub Hin HQ; simpl.
  { apply wp_ret, HQ; [by split_and!|set_solver]. }
  apply NoDup_cons in Hnd as [Hvm Hnd]. destruct (Hin vm ltac:(by left)) as [Hal Hr].
  apply wp_bind, (start_vm_good a); [done..|]. intros s1 w1 (F & Hwf1 & Hg1) Hr1. rewrite app_nil_r.
  apply IH; [by apply (meets_same a s)|done|done|done|set_solver| |].
  - intros h Hh. rewrite Hr1. destruct (Hin h ltac:(by right)). split; [done|]. set_solver.
  - intros s2 w2 (F2 & Hwf2 & Hg2) Hr2. apply HQ; [split_and!; [by transitivity s1|done|done]|].
    rewrite Hr2, Hr1. set_solver.
Qed.

(** One application of the allocation meets it. *)
Lemma apply_allocation_good a s w :
  meets a s → app_wf s →
  wp cn_list_vms (λ r '(c', w'), is_ok r = true ∧ Good c' w') (compute_client s, w) →
  wp (apply_allocation a) (λ r '(s', w'), r = Ok (allocation_response (reconcile a (running s)) []) ∧
    running s' = all_vms a) (s, w).
Proof.
  intros Hm Hwf Hlist. unfold apply_allocation. apply wp_bind, (call_good _ (λ r c', cn_inv c' ∧
    cn_running c' = cn_running (compute_client s) ∧
    match r with Ok l => list_to_set (pi_vm_id <$> l) = cn_running (compute_client s) | _ => True end) Good);
    [|exact Hlist|].
  { eapply wp_mono; [apply cn_list_spec, Hwf|]. by intros [l|e|p] [c' w'] (? & ? & ?). }
  intros l c' w1 (Hi & Hr & ->) Hg. set (s1 := set_client c' s).
  assert (running s1 = running s) as Hr1 by exact Hr.
  change (cn_running (compute_client s)) with (running s). cbv zeta.
  apply wp_bind, (stop_vms_good a); [by apply (meets_same a s)|by apply set_client_wf|done|apply to_stop_NoDup| |].
  { intros h Hh%elem_of_to_stop. by rewrite Hr1. }
  intros s2 w2 (F2 & Hwf2 & Hg2) Hr2.
  assert (∀ h, h ∈ running s2 ↔ h ∈ running s ∧ h ∈ all_vms a) as Hmem.
  { intros h. rewrite Hr2, Hr1, elem_of_difference, elem_of_list_to_set, elem_of_to_stop.
    destruct (decide (h ∈ all_vms a)); tauto. }
  apply wp_bind, (start_vms_good a); [by apply (meets_same a s1), (meets_same a s)|done|done|apply to_start_NoDup| | |].
  { intros h. rewrite Hmem. tauto. }
  { intros h [Hh Hn]%elem_of_to_start. split; [done|]. rewrite Hmem. tauto. }
  intros s3 w3 _ Hr3. apply wp_ret. split; [done|]. apply set_eq. intros h.
  rewrite Hr3, elem_of_union, Hmem, elem_of_list_to_set, elem_of_to_start.
  destruct (decide (h ∈ running s)); tauto.
Qed.
End ready.
