(* ===== verification/SchedulerNode.v ===== *)
(** * The compute node behind the scheduler agent

    The gRPC service of [Grpc], with the manager behind it, implements the interface that
    the scheduler agent is proved against. A handler that panics loses its answer. *)

From S2P Require Import Prelude Strs Host Json Types NetTypes Tee Verity Qemu Persistence Manager.
From S2P Require Import ManagerFrame ManagerSpec ManagerOps ManagerInv ManagerSafety.
From S2P Require Import Grpc Adapter NodeHash Scheduler.
From S2P Require Ipv6 Numa.
#[local] Open Scope Z_scope.

(** The [Display] of [tonic::Status]. *)
Class StatusDisplay := { status_display : CallError → string }.

Section node.
Context {Net W : Type} `{IpNet Net} `{Host W} `{SerdeJson} `{StatusDisplay}.
Implicit Types m : VmManager Net W.

(** An answer of the service, as the client receives it. *)
Definition served {A} (call : Rpc (Net := Net) (W := W) A) : M (VmManager Net W * W) CallError A := λ s,
  match call s with
  | (Ok a, s') => (Ok a, s')
  | (Err e, s') => (Err (Refused e), s')
  | (Panic p, s') => (Err (Lost p), s')
  end.

#[export] Instance grpc_node : ComputeNode (VmManager Net W) W := {
  cn_list_vms := served Grpc.list_vms;
  cn_create_vm req := served (Grpc.create_vm req);
  cn_delete_vm vm := served (Grpc.delete_vm vm);
  cn_add_port_forward req :=
    served (Grpc.add_port_forward (ar_vm_id req) (ar_host_port req) (ar_vm_port req) (ar_protocol req));
  cn_health := served Grpc.health;
  call_error_display := status_display;
}.

Lemma wp_served {A} (call : Rpc A) (Q : result CallError A → VmManager Net W * W → Prop) s :
  wp call (λ r s', Q match r with
    | Ok a => Ok a | Err e => Err (Refused e) | Panic p => Err (Lost p) end s') s →
  wp (served call) Q s.
Proof. unfold wp, served. by destruct (call s) as [[a|e|p] s']. Qed.

(** The manager's invariant, and that every VM has an id that passed the validation. *)
Definition node_inv m : Prop :=
  mgr_inv m ∧ map_Forall (λ vm _, validate_vm_id vm = Ok tt) (vms m).
Definition node_running m : gset string := dom (vms m).

(** The manager's answer about its VMs names each of them. *)
Lemma infos_ids hs (Q : result error (list VmInfo) → W → Prop) w :
  (∀ l w', i_vm_id <$> l = (λ h : VmHandle Net, vm_id (h_config h)) <$> hs → Q (Ok l) w') →
  wp (infos hs) Q w.
Proof.
  revert Q w. induction hs as [|h hs IH]; intros Q w HQ; simpl; [by apply wp_ret, HQ|].
  apply wp_bind, wp_bind, wp_observe, wp_ret, wp_bind, IH. intros l w' Hl.
  apply wp_ret, HQ. by rewrite !fmap_cons, Hl.
Qed.

Lemma list_vms_ids m w (Q : result Status (list ProtoVmInfo) → VmManager Net W * W → Prop) :
  mgr_inv m →
  (∀ l w', list_to_set (pi_vm_id <$> l) = node_running m → Q (Ok l) (m, w')) →
  wp Grpc.list_vms Q (m, w).
Proof.
  intros Hinv HQ. unfold Grpc.list_vms. apply wp_bind, wp_map_errM. unfold Manager.list_vms.
  apply wp_bind, wp_self, wp_on_snd', infos_ids. intros l w' Hl. apply wp_ret, HQ.
  assert (pi_vm_id <$> (vm_info_to_proto <$> l) = i_vm_id <$> l) as -> by (by rewrite <-list_fmap_compose).
  rewrite Hl.
  unfold node_running. apply set_eq. intros vm. rewrite elem_of_list_to_set, elem_of_dom, list_elem_of_fmap. split.
  - intros (h & -> & ([k h'] & -> & Hk)%list_elem_of_fmap). simpl. apply elem_of_map_to_list in Hk.
    rewrite (ho_id _ _ _ (inv_handles m Hinv k h' Hk)). by eexists.
  - intros [h Hh]. exists h. rewrite (ho_id _ _ _ (inv_handles m Hinv vm h Hh)). split; [done|].
    apply list_elem_of_fmap. exists (vm, h). split; [done|]. by apply elem_of_map_to_list.
Qed.

Lemma frame_vms vm m m' : frame vm m m' → vms m' = vms m.
Proof. intros (Hc & _ & _). by apply core_eq in Hc as (Hv & _). Qed.

Lemma created_vms c hint m i m' :
  created c hint m i m' → ∃ h, vms m' = <[vm_id c := h]> (vms m).
Proof.
  intros [o boot cl p n mid v6 process now Hnew Hleast Hplan _ Hreq Hfr _ _ _].
  pose proof (frame_vms _ _ _ Hfr) as Hv. simpl in *. eexists. by rewrite Hv.
Qed.

Lemma create_failed_vms c hint m m' : create_failed c hint m m' → vms m' = vms m.
Proof.
  intros [[-> _]|(_ & o & _ & [Hfr|(p & n & _ & Hfr)])]; [done|..]; by apply frame_vms in Hfr.
Qed.

Lemma create_panicked_vms c r hint m m' : create_panicked c r hint m m' → vms m' = vms m.
Proof.
  intros (_ & o & _ & [(a & _ & _ & _ & ->)|(_ & p & n & _ & Hfr)]); [done|]. by apply frame_vms in Hfr.
Qed.

(** [CreateVm] on every outcome, as the interface wants it. *)
Lemma node_create_spec req m w :
  node_inv m → request_in_width req →
  wp (Grpc.create_vm req) (λ r '(m', w'), node_inv m' ∧
    match r with
    | Ok _ => node_running m' = {[r_vm_id req]} ∪ node_running m
    | _ => node_running m' = node_running m
    end) (m, w).
Proof.
  intros [Hinv Hids] [Hv Hm]. unfold Grpc.create_vm.
  apply wp_bind, wp_on_snd', validate_create_spec; [|by intros s _].
  intros c n [[Hid Hvalid] _ (Ev & Em & _ & _) _ _ _ _ _ [En _] _].
  assert (config_wf c) as Hcfg by (unfold config_wf; by rewrite Ev, Em, En).
  apply wp_bind, wp_map_errM, create_vm_spec; [apply Hinv|done|..].
  - intros i m' w' Hcr. apply wp_ret. destruct (created_vms _ _ _ _ _ Hcr) as [h Hvms].
    unfold node_inv, node_running. rewrite Hvms. split_and!.
    + by eapply created_inv.
    + by apply map_Forall_insert_2.
    + by rewrite dom_insert_L, <-Hid.
  - intros e m' w' Hf. pose proof (create_failed_vms _ _ _ _ Hf) as Hvms.
    unfold node_inv, node_running. rewrite Hvms. split_and!; [by eapply create_failed_inv|done..].
  - intros e m' w' Hf. pose proof (create_panicked_vms _ _ _ _ _ Hf) as Hvms.
    unfold node_inv, node_running. rewrite Hvms. split_and!; [by eapply create_panicked_inv|done..].
Qed.

Lemma node_delete_spec vm m w :
  node_inv m →
  wp (Grpc.delete_vm vm) (λ r '(m', w'), node_inv m' ∧
    match r with
    | Ok _ => node_running m' = node_running m ∖ {[vm]}
    | Err _ => node_running m' = node_running m
    | Panic _ => False
    end) (m, w).
Proof.
  intros [Hinv Hids]. unfold Grpc.delete_vm. apply wp_map_errM, delete_vm_spec.
  - intros h Hvm. by apply (ho_tap _ _ _ (inv_handles m Hinv vm h Hvm)).
  - intros h m' w' Hvm Hfr _. pose proof (frame_vms _ _ _ Hfr) as Hvms. simpl in Hvms.
    unfold node_inv, node_running. rewrite Hvms. split_and!; [by eapply delete_inv| |by rewrite dom_delete_L].
    by apply map_Forall_delete.
  - done.
Qed.

(** A VM that the node has can always be deleted. *)
Lemma node_delete_ok vm m w :
  node_inv m → vm ∈ node_running m → is_ok (served (Grpc.delete_vm vm) (m, w)).1 = true.
Proof.
  intros [Hinv _] Hin. unfold node_running in Hin. apply elem_of_dom in Hin as [h Hvm].
  assert (wp (served (Grpc.delete_vm vm)) (λ r _, is_ok r = true) (m, w)) as Hwp; [|exact Hwp].
  apply wp_served. unfold Grpc.delete_vm. apply wp_map_errM, delete_vm_spec; [|done|].
  - intros h' Hvm'. by apply (ho_tap _ _ _ (inv_handles m Hinv vm h' Hvm')).
  - intros e Hnone. congruence.
Qed.

Lemma node_forward_spec req m w :
  node_inv m →
  wp (Grpc.add_port_forward (ar_vm_id req) (ar_host_port req) (ar_vm_port req) (ar_protocol req))
    (λ r '(m', w'), node_inv m' ∧ node_running m' = node_running m) (m, w).
Proof.
  intros [Hinv Hids]. unfold Grpc.add_port_forward. apply wp_bind, wp_lift.
  destruct (map_err _ (protocol_from_str _)) as [p|e|e]; [|done..].
  pose proof (wrap_range 16 (ar_host_port req) ltac:(lia)) as Hh.
  pose proof (wrap_range 16 (ar_vm_port req) ltac:(lia)) as Hp.
  apply wp_bind, wp_map_errM, add_port_forward_spec;
    [unfold in_width, u16_max in *; lia|unfold in_width, u16_max in *; lia| |done].
  intros f w' Hvm Hf Hid _ _ _ _ _. apply wp_ret. split; [|done]. split; [|done].
  apply add_forward_inv; [by rewrite Hid|done|done].
Qed.

#[export] Program Instance grpc_node_laws : ComputeNodeLaws (VmManager Net W) W := {
  cn_inv := node_inv;
  cn_running := node_running;
}.
Next Obligation.
  intros m w [Hinv Hids]. apply wp_served, list_vms_ids; [done|]. intros l w' Hl. by split_and!.
Qed.
Next Obligation.
  intros req m w Hinv Hreq. apply wp_served. eapply wp_mono; [by apply node_create_spec|].
  intros [a|e|p] [m' w'] [Hi Hr]; (split; [done|]); rewrite Hr; set_solver.
Qed.
Next Obligation.
  intros vm m w Hinv. apply wp_served. eapply wp_mono; [by apply node_delete_spec|].
  intros [a|e|p] [m' w'] [Hi Hr]; [| |done]; (split; [done|]); rewrite Hr; set_solver.
Qed.
Next Obligation.
  intros req m w Hinv _ _. apply wp_served. eapply wp_mono; [by apply node_forward_spec|].
  by intros [a|e|p] [m' w'] [Hi Hr].
Qed.
Next Obligation.
  intros m w [Hinv Hids]. apply wp_served. unfold Grpc.health. apply wp_bind, wp_map_errM.
  unfold Manager.list_vms. apply wp_bind, wp_self, wp_on_snd', infos_ids. intros l w' _. by apply wp_ret.
Qed.
End node.
