(* ===== verification/SchedulerProps.v ===== *)
(** * The scheduler agent: properties

    What an allocation achieves on any compute node, and on the one of this repository. *)

From S2P Require Import Prelude Strs Host HostSim Json Types NetTypes Instances Tee Crypto Http.
From S2P Require Import Qemu Manager ManagerSpec ManagerOps ManagerInv ManagerSafety ManagerProps Grpc CryptoSim.
From S2P Require Import Messages Volumes Allocations NodeHash Adapter Scheduler SchedulerFacts.
From S2P Require Import SchedulerReady SchedulerNode.
From S2P Require Numa.
#[local] Open Scope Z_scope.

(** ** Allocations *)

Section allocation.
Context `{AlephTypes, Hex, Hmac, SerdeJson, Actix} {C W : Type} `{Host W, Web W, ComputeNodeLaws C W}.
Implicit Types (s : AppState C) (w : W).

(** An entry of the errors that names a VM. *)
Definition names (h e : string) : bool :=
  starts_with ("stop " ++ h ++ ": ")%str e || starts_with ("start " ++ h ++ ": ")%str e ||
  starts_with ("translate " ++ h ++ ": ")%str e.

Lemma starts_with_parts p h t : starts_with (p ++ h ++ ": ")%str (p ++ h ++ ": " ++ t)%str = true.
Proof. rewrite <-(str_app_assoc h ": " t), <-(str_app_assoc p _ t). apply starts_with_app. Qed.

Lemma stop_entry_names p : stop_entry p → names p.1 p.2 = true.
Proof.
  intros (e & c & w & _ & _ & _ & ->). unfold names, stop_error.
  by rewrite (starts_with_parts "stop " p.1).
Qed.

Lemma start_entry_names s p : start_entry s p → names p.1 p.2 = true.
Proof.
  intros [vm Hm|vm msg e w Hm Ht|vm msg req c w e Hm Hc Hid Hreq He]; simpl;
    unfold names, start_error, translate_error; rewrite !orb_true_iff;
    [left; right|right|left; right]; apply starts_with_parts.
Qed.

(** What [apply_allocation] ends with. *)
Definition applied (a : Allocation) s w s' (r : result HttpResponse HttpResponse) : Prop :=
  app_wf s' ∧ same_app s s' ∧
  match r with
  | Ok resp => ∃ stops starts,
      Forall stop_entry stops ∧ Forall (start_entry s) starts ∧
      sublist stops.*1 (to_stop (reconcile a (running s))) ∧
      sublist starts.*1 (to_start (reconcile a (running s))) ∧
      (∀ h, h ∉ stops.*1 ++ starts.*1 → h ∈ running s' ↔ h ∈ all_vms a) ∧
      resp = allocation_response (reconcile a (running s)) (entries stops ++ entries starts)
  | Err resp => http_status resp = 500 ∧ running s' = running s ∧
      ∃ e, (cn_list_vms (compute_client s, w)).1 = Err e
  | Panic _ => False
  end.

Lemma apply_allocation_spec a s w :
  app_wf s → wp (apply_allocation a) (λ r '(s', w'), applied a s w s' r) (s, w).
Proof.
  intros Hwf. unfold apply_allocation. apply wp_bind.
  apply (wp_call _ (λ r c', cn_inv c' ∧ cn_running c' = cn_running (compute_client s) ∧
    match r with Ok l => list_to_set (pi_vm_id <$> l) = cn_running (compute_client s) | _ => True end)).
  { eapply wp_mono; [apply cn_list_spec, Hwf|]. by intros [l|e|p] [c' w'] (? & ? & ?). }
  2: { intros e c' w' He (Hi & Hr & _). apply wp_throw.
    split_and!; [by apply set_client_wf|done|done|exact Hr|by exists e]. }
  intros l c' w' (Hi & Hr & ->). set (s1 := set_client c' s).
  assert (app_wf s1) as Hwf1 by by apply set_client_wf.
  assert (running s1 = running s) as Hrun1 by exact Hr.
  set (acts := reconcile a (running s)).
  change (cn_running (compute_client s)) with (running s). fold acts. cbv zeta.
  apply wp_bind, stop_vms_spec; [done|apply to_stop_NoDup| |].
  { intros h Hh%elem_of_to_stop. rewrite Hrun1. apply Hh. }
  intros stops s2 w2 F2 Hwf2 Hstops Hsub2 Hsl2 Hrun2.
  apply wp_bind, start_vms_spec; [done|]. intros starts s3 w3 F3 Hwf3 Hstarts Hsub3 Hsl3 Hrun3.
  assert (same_app s s2) as F12 by by transitivity s1.
  apply wp_ret. split_and!; [done|by transitivity s2|]. exists stops, starts. split_and!; try done.
  - by eapply start_entries_same.
  - intros h [Hh2 Hh3]%not_elem_of_app. rewrite Hrun3, Hrun2, Hrun1 by done. unfold acts.
    rewrite elem_of_to_stop, elem_of_to_start. destruct (decide (h ∈ running s)), (decide (h ∈ all_vms a)); tauto.
Qed.

(** The status says whether there were errors. *)
Lemma response_status acts errors :
  http_status (allocation_response acts errors) = match errors with [] => 200 | _ => 207 end.
Proof. by destruct errors. Qed.

Lemma entries_nil l : entries l = [] → l = [].
Proof. by destruct l. Qed.

Lemma handle_allocation_eq signature body s w a :
  authorized s signature body = true → json_parse (of_bytes body) ≫= allocation_of_json = Some a →
  handle_allocation signature body (s, w) = apply_allocation a (s, w).
Proof.
  intros Hauth Hbody. unfold handle_allocation. erewrite bind_Ok by done. rewrite Hauth. simpl.
  by rewrite Hbody.
Qed.

(** A request that is turned away touches nothing. *)
Lemma turned_away signature body s w :
  authorized s signature body = false ∨ json_parse (of_bytes body) ≫= allocation_of_json = None →
  ∃ resp, handle_allocation signature body (s, w) = (Err resp, (s, w)) ∧
    http_status resp ∈ [401; 400] ∧ (authorized s signature body = false → http_status resp = 401).
Proof.
  intros Hcase. unfold handle_allocation. erewrite bind_Ok by done.
  destruct (authorized s signature body) eqn:Ha; simpl.
  - destruct Hcase as [?|Hb]; [done|]. rewrite Hb. eexists. split; [done|]. simpl. split; [set_solver|done].
  - eexists. split; [done|]. simpl. split; [set_solver|done].
Qed.

(** The errors a response carries. *)
Definition response_errors (resp : HttpResponse) (errors : list string) : Prop :=
  ∃ j, http_content resp = BJson j ∧ json_get "errors" j = Some (JArr (JStr <$> errors)).

Lemma applied_converges a s w s' resp :
  applied a s w s' (Ok resp) →
  http_status resp = 200 ∧ running s' = all_vms a ∨
  http_status resp = 207 ∧ ∃ errors, response_errors resp errors ∧
    ∀ h, (h ∈ running s' ↔ h ∈ all_vms a) ∨ ∃ e, e ∈ errors ∧ names h e = true.
Proof.
  intros (_ & _ & stops & starts & Hstops & Hstarts & _ & _ & Hrun & ->).
  rewrite response_status. destruct (entries stops ++ entries starts) as [|e l] eqn:He.
  - left. apply app_eq_nil in He as [->%entries_nil ->%entries_nil]. split; [done|].
    apply set_eq. intros h. apply Hrun. simpl. by apply not_elem_of_nil.
  - right. split; [done|]. exists (e :: l). split; [by eexists|]. intros h. rewrite <-He.
    destruct (decide (h ∈ stops.*1 ++ starts.*1)) as [Hh|Hh]; [right|left; by apply Hrun].
    apply elem_of_app in Hh as [(p & -> & Hp)%list_elem_of_fmap|(p & -> & Hp)%list_elem_of_fmap];
      exists p.2; (split; [apply elem_of_app|]).
    + left. apply list_elem_of_fmap. by exists p.
    + rewrite Forall_forall in Hstops. by apply stop_entry_names, Hstops.
    + right. apply list_elem_of_fmap. by exists p.
    + rewrite Forall_forall in Hstarts. by eapply start_entry_names, Hstarts.
Qed.

Lemma handle_allocation_cases signature body s w :
  (∃ a, json_parse (of_bytes body) ≫= allocation_of_json = Some a ∧
     handle_allocation signature body (s, w) = apply_allocation a (s, w)) ∨
  ∃ resp, handle_allocation signature body (s, w) = (Err resp, (s, w)) ∧ http_status resp ∈ [401; 400].
Proof.
  destruct (authorized s signature body) eqn:Ha.
  - destruct (json_parse _ ≫= _) as [a|] eqn:Hb; [left; exists a; split; [done|by apply handle_allocation_eq]|].
    right. destruct (turned_away signature body s w (or_intror Hb)) as (resp & ? & ? & _). by exists resp.
  - right. destruct (turned_away signature body s w (or_introl Ha)) as (resp & ? & ? & _). by exists resp.
Qed.
End allocation.

(** ** Properties of the agent on any compute node *)

Section properties.
Context `{AlephTypes, Hex, Hmac, SerdeJson, Actix} {C W : Type} `{Host W, Web W, ComputeNodeLaws C W}.
Implicit Types (s : AppState C) (w : W).

(** C9: an allocation converges. On any compute node that keeps the promises of
    [ComputeNodeLaws], whatever fails on the way: when the agent answers 200, the VMs of
    the node are exactly the allocated ones; when it answers 207, every VM that runs
    though it is not allocated, or is allocated and does not run, is named by one of the
    errors of the answer; and any other answer (401, 400, or 500 when the node does not
    answer) leaves the node's VMs as they were. The handler never panics. *)
Theorem allocation_converges signature body s w :
  app_wf s →
  wp (handle_allocation signature body) (λ r '(s', w'), app_wf s' ∧ same_app s s' ∧
    match r with
    | Ok resp => ∃ a, json_parse (of_bytes body) ≫= allocation_of_json = Some a ∧
        (http_status resp = 200 ∧ running s' = all_vms a ∨
         http_status resp = 207 ∧ ∃ errors, response_errors resp errors ∧
           ∀ h, (h ∈ running s' ↔ h ∈ all_vms a) ∨ ∃ e, e ∈ errors ∧ names h e = true)
    | Err resp => running s' = running s ∧ http_status resp ∈ [401; 400; 500]
    | Panic _ => False
    end) (s, w).
Proof.
  intros Hwf. unfold wp.
  destruct (handle_allocation_cases signature body s w) as [(a & Ha & ->)|(resp & -> & Hst)].
  - pose proof (apply_allocation_spec a s w Hwf) as Hwp. unfold wp in Hwp.
    destruct (apply_allocation a (s, w)) as [[resp|resp|p] [s' w']]; simpl in *.
    + pose proof (applied_converges _ _ _ _ _ Hwp) as Hc. destruct Hwp as (? & ? & _). eauto.
    + destruct Hwp as (? & ? & Hst & Hr & _). split_and!; [done..|]. rewrite Hst. set_solver.
    + by destruct Hwp as (_ & _ & []).
  - simpl. split_and!; [done|done|done|]. set_solver.
Qed.

(** C13: an allocation that can be met is met. Take any set of states of node and machine
    that the node's answer about its VMs leads into, and that the calls the handler makes do
    not leave: in each of them the node deletes a VM it has and that is not allocated; and
    once all its VMs are allocated, one that is missing has a message, the message
    translates, and the node accepts the request, whatever it then answers about ports.
    Then one request makes the node's VMs exactly the allocated ones, and is answered 200
    with the numbers of VMs started, stopped and kept. *)
Theorem allocation_succeeds (Good : C → W → Prop) a signature body s w :
  app_wf s → authorized s signature body = true →
  json_parse (of_bytes body) ≫= allocation_of_json = Some a →
  wp cn_list_vms (λ r '(c', w'), is_ok r = true ∧ Good c' w') (compute_client s, w) →
  meets Good a s →
  wp (handle_allocation signature body) (λ r '(s', _),
    r = Ok (respond 200 (JObj [("started", JNum (len (to_start (reconcile a (running s)))));
       ("stopped", JNum (len (to_stop (reconcile a (running s)))));
       ("unchanged", JNum (len (unchanged (reconcile a (running s)))))])%string) ∧
    running s' = all_vms a) (s, w).
Proof.
  intros Hwf Hauth Hbody Hlist Hm. unfold wp. erewrite handle_allocation_eq by done.
  by apply (apply_allocation_good Good).
Qed.

(** A second allocation of the same VMs does nothing: when the node already runs what
    is asked for, the agent asks for the list of VMs, makes no other call, and reports
    every VM as unchanged. *)
Theorem allocation_idempotent a signature body s w l s1 w1 :
  app_wf s → authorized s signature body = true →
  json_parse (of_bytes body) ≫= allocation_of_json = Some a →
  running s = all_vms a → call cn_list_vms (s, w) = (Ok (Ok l), (s1, w1)) →
  handle_allocation signature body (s, w) =
    (Ok (respond 200 (JObj [("started", JNum 0); ("stopped", JNum 0);
       ("unchanged", JNum (Z.of_nat (size (all_vms a))))])%string), (s1, w1)).
Proof.
  intros Hwf Hauth Hbody Hrun Hcall. erewrite handle_allocation_eq by done.
  assert (list_to_set (pi_vm_id <$> l) = all_vms a) as Hl.
  { pose proof (cn_list_spec (compute_client s) w (proj1 Hwf)) as Hwp. unfold wp in Hwp.
    unfold call, attempt, on_client in Hcall. rewrite <-Hrun.
    destruct (cn_list_vms (compute_client s, w)) as [[l'|e|p] [c' w']]; simplify_eq/=. apply Hwp. }
  unfold apply_allocation. etrans; [apply (bind_Ok _ _ _ _ _ Hcall)|]. cbv beta iota. rewrite Hl.
  assert (to_stop (reconcile a (all_vms a)) = []) as Hstop.
  { apply elem_of_nil_inv. intros h Hh%elem_of_to_stop. tauto. }
  assert (to_start (reconcile a (all_vms a)) = []) as Hstart.
  { apply elem_of_nil_inv. intros h Hh%elem_of_to_start. tauto. }
  cbv zeta. rewrite Hstop, Hstart. cbn [stop_vms start_vms].
  unfold mbind, M_bind, mret, M_ret. cbv beta iota. unfold allocation_response, len.
  rewrite Hstop, Hstart. do 10 f_equal.
  apply Permutation_length, NoDup_Permutation; [apply unchanged_NoDup|apply NoDup_elements|].
  intros h. rewrite elem_of_unchanged, elem_of_elements. tauto.
Qed.

Lemma response_counts a stops starts s :
  Forall stop_entry stops → Forall (start_entry s) starts →
  sublist stops.*1 (to_stop (reconcile a (running s))) →
  sublist starts.*1 (to_start (reconcile a (running s))) →
  let acts := reconcile a (running s) in
  let errors := entries stops ++ entries starts in
  len (to_stop acts) ≤ u64_max → len (to_start acts) ≤ u64_max → errors ≠ [] →
  ∃ j, allocation_response acts errors = respond 207 j ∧
    json_get "errors" j = Some (JArr (JStr <$> errors)) ∧
    json_get "stopped" j = Some (JNum (len (to_stop acts) - len stops)) ∧
    json_get "started" j = Some (JNum (len (to_start acts) - len starts + count_errors "translate" errors)).
Proof.
  intros Hstops Hstarts Hsl1 Hsl2 acts errors Hw1 Hw2 Hne.
  assert (∀ p, count_errors p errors = Z.of_nat (length (filter (λ e, starts_with p e = true) (entries stops))) +
    Z.of_nat (length (filter (λ e, starts_with p e = true) (entries starts)))) as Hcount.
  { intros p. unfold count_errors, errors. by rewrite filter_app, length_app, Nat2Z.inj_add. }
  assert (filter (λ e, starts_with "stop" e = true) (entries stops) = entries stops ∧
    filter (λ e, starts_with "start" e = true) (entries stops) = [] ∧
    filter (λ e, starts_with "translate" e = true) (entries stops) = []) as (Es1 & Es2 & Es3).
  { clear -Hstops. induction Hstops as [|p l (e & c & w & _ & _ & _ & He) _ (IH1 & IH2 & IH3)]; [done|].
    unfold entries in *. rewrite fmap_cons, He. by rewrite !filter_cons, IH1, IH2, IH3. }
  assert (filter (λ e, starts_with "stop" e = true) (entries starts) = [] ∧
    (length (filter (λ e, starts_with "start" e = true) (entries starts)) +
      length (filter (λ e, starts_with "translate" e = true) (entries starts)) = length starts)%nat)
    as [Et1 Et2].
  { clear -Hstarts. induction Hstarts as [|p l Hp _ [IH1 IH2]]; [done|].
    unfold entries in *. rewrite fmap_cons, !filter_cons.
    destruct Hp; simpl; rewrite IH1; (split; [done|]); simpl; lia. }
  assert (allocation_response acts errors = respond 207 (JObj [
    ("started", JNum (wrap 64 (len (to_start acts) - count_errors "start" errors)));
    ("stopped", JNum (wrap 64 (len (to_stop acts) - count_errors "stop" errors)));
    ("unchanged", JNum (len (unchanged acts)));
    ("errors", JArr (JStr <$> errors))]))%string as -> by by destruct errors.
  assert (length stops ≤ length (to_stop acts))%nat as Hl1
    by (pose proof (sublist_length _ _ Hsl1) as Hl; by rewrite length_fmap in Hl).
  assert (length starts ≤ length (to_start acts))%nat as Hl2
    by (pose proof (sublist_length _ _ Hsl2) as Hl; by rewrite length_fmap in Hl).
  clearbody acts. eexists. split; [done|]. split; [done|].
  rewrite !Hcount, Es1, Es2, Es3, Et1. simpl.
  unfold len, entries, u64_max in *. rewrite length_fmap.
  split; do 2 f_equal; (rewrite wrap_small; [lia|unfold in_width; lia]).
Qed.

(** The numbers of a 207 answer. No subtraction wraps: [stopped] is the number of VMs
    that were to stop less those whose call failed. But a message that does not translate
    is not subtracted from [started]: the answer counts as started the VMs that have no
    error, and besides them every VM whose message could not be translated. *)
Theorem allocation_counts a s w :
  app_wf s →
  let acts := reconcile a (running s) in
  len (to_stop acts) ≤ u64_max → len (to_start acts) ≤ u64_max →
  wp (apply_allocation a) (λ r _, ∀ resp, r = Ok resp → http_status resp = 207 →
    ∃ j errors (not_stopped not_started : list string), resp = respond 207 j ∧
      json_get "errors" j = Some (JArr (JStr <$> errors)) ∧
      sublist not_stopped (to_stop acts) ∧ sublist not_started (to_start acts) ∧
      len errors = len not_stopped + len not_started ∧
      json_get "stopped" j = Some (JNum (len (to_stop acts) - len not_stopped)) ∧
      json_get "started" j =
        Some (JNum (len (to_start acts) - len not_started + count_errors "translate" errors))) (s, w).
Proof.
  intros Hwf acts Hw1 Hw2. eapply wp_mono; [by apply apply_allocation_spec|].
  intros r [s' w'] (_ & _ & Hr) resp -> Hst.
  destruct Hr as (stops & starts & Hstops & Hstarts & Hsl1 & Hsl2 & _ & ->).
  assert (entries stops ++ entries starts ≠ []) as Hne by (by intros He; rewrite He in Hst).
  destruct (response_counts a stops starts s Hstops Hstarts Hsl1 Hsl2 Hw1 Hw2 Hne)
    as (j & Hj & He & Hstopped & Hstarted).
  exists j, (entries stops ++ entries starts), stops.*1, starts.*1. split_and!; try done.
  - unfold len, entries. rewrite length_app, !length_fmap. lia.
  - rewrite Hstopped. unfold len. by rewrite length_fmap.
  - rewrite Hstarted. unfold len. by rewrite length_fmap.
Qed.

(** Without the token nothing happens. When the agent was given a token hash, a request
    whose signature is not the hexadecimal HMAC of its body under it is answered 401, and
    neither the agent, the compute node nor the machine is touched. *)
Theorem unsigned_allocation_refused signature body s w token :
  allocation_token_hash s = Some token →
  hex_decode (default ""%string signature) ≠ Some (hmac_sha256 token body) →
  ∃ resp, handle_allocation signature body (s, w) = (Err resp, (s, w)) ∧ http_status resp = 401.
Proof.
  intros Htoken Hsig.
  assert (authorized s signature body = false) as Hauth.
  { unfold authorized, verify_allocation_signature. rewrite Htoken.
    destruct (hex_decode _) as [b|]; [|done]. apply bool_decide_eq_false. congruence. }
  destruct (turned_away signature body s w (or_introl Hauth)) as (resp & Hr & _ & Hst).
  exists resp. auto.
Qed.

Lemma serve_api_keeps q s w :
  app_wf s →
  wp (serve_api q) (λ r '(s', w'), app_wf s' ∧ match r with Panic _ => False | _ => True end) (s, w).
Proof.
  intros Hwf. destruct q as [|signature body|body]; simpl.
  - unfold health. apply wp_bind, (wp_call _ (λ _ c', c' = compute_client s)).
    + eapply wp_mono; [apply cn_health_spec, Hwf|]. by intros [x|e|p] [c' w'] [-> ?].
    + intros x c' w' ->. apply wp_bind, wp_app_state, wp_ret. by destruct s.
    + intros e c' w' _ ->. apply wp_bind, wp_app_state, wp_ret. by destruct s.
  - unfold wp. destruct (handle_allocation_cases signature body s w) as [(a & _ & ->)|(resp & -> & _)]; [|done].
    pose proof (apply_allocation_spec a s w Hwf) as Hwp. unfold wp in Hwp.
    destruct (apply_allocation a (s, w)) as [[resp|resp|p] [s' w']]; by destruct Hwp as (? & _ & ?).
  - unfold handle_message. destruct (json_parse (of_bytes body) ≫= message_of_json) as [msg|] eqn:Hm; [|done].
    apply wp_bind, wp_modify, wp_ret. split; [|done]. destruct Hwf as [Hinv Hms]. split; [done|]. simpl.
    apply map_Forall_insert_2; [|done]. split; [done|].
    apply bind_Some in Hm as (v & _ & Hv). by eapply message_of_json_wf.
Qed.

(** C14: whatever requests the agent serves, its state stays well formed: the messages are stored under
    their own hash, every number in them is within its type, and the compute node keeps
    its invariant; and the next request, whatever it is, is answered and never panics. *)
Theorem api_keeps_state qs s w :
  app_wf s →
  let step '(s, w) q := (serve_api q (s, w)).2 in
  app_wf (foldl step (s, w) qs).1 ∧
  ∀ q, ∃ resp, (serve_api q (foldl step (s, w) qs)).1 = Ok resp ∨
    (serve_api q (foldl step (s, w) qs)).1 = Err resp.
Proof.
  intros Hwf step.
  assert (app_wf (foldl step (s, w) qs).1) as Hend.
  { revert s w Hwf. induction qs as [|q qs IH]; intros s w Hwf; [done|]. simpl.
    pose proof (serve_api_keeps q s w Hwf) as Hwp. unfold wp in Hwp.
    destruct (serve_api q (s, w)) as [r [s1 w1]]. by apply IH, Hwp. }
  split; [done|]. intros q. destruct (foldl step (s, w) qs) as [s1 w1].
  pose proof (serve_api_keeps q s1 w1 Hend) as Hwp. unfold wp in Hwp.
  destruct (serve_api q (s1, w1)) as [[resp|resp|p] [s2 w2]]; [by eauto..|by destruct Hwp].
Qed.
End properties.

(** ** The agent on this repository's compute node *)

Section node.
Context `{AlephTypes, Hex, Hmac, SerdeJson, Actix} `{StatusDisplay}.
Context {Net W : Type} `{IpNet Net} `{HostFs W, Web W}.
Implicit Types (s : AppState (VmManager Net W)) (w : W).

(** C12: no VM is ever started for an item hash as the Aleph network makes them. The agent
    passes the item hash on as the id of the VM, and the service accepts ids of at most 11
    characters: whatever is requested of the agent, a longer hash (they have 64) does not
    run, and an allocation that contains one is never answered 200. *)
Theorem long_hash_never_runs q s w h :
  app_wf s → 11 < str_len h →
  wp (serve_api q) (λ r '(s', _), (h ∉ running s') ∧
    ∀ signature body a resp, q = PostAllocations signature body →
      (json_parse (of_bytes body) ≫= allocation_of_json) = Some a → h ∈ all_vms a →
      r = Ok resp → http_status resp ≠ 200) (s, w).
Proof.
  intros Hwf Hlong.
  assert (∀ s', app_wf s' → h ∉ running s') as Hnot.
  { intros s' [[_ Hids] _] Hin. change (h ∈ dom (vms (compute_client s'))) in Hin. apply elem_of_dom in Hin as [hd Hhd].
    pose proof (validate_vm_id_ok _ (Hids h hd Hhd)) as (Hl & _). lia. }
  unfold wp. destruct (serve_api q (s, w)) as [r [s' w']] eqn:Hs. simpl. split.
  - pose proof (serve_api_keeps q s w Hwf) as Hwp. unfold wp in Hwp. rewrite Hs in Hwp. by apply Hnot, Hwp.
  - intros signature body a resp -> Hbody Hin -> Hst. simpl in Hs.
    destruct (handle_allocation_cases signature body s w) as [(a' & Ha' & He)|(resp' & He & _)];
      rewrite He in Hs; [|done].
    assert (a' = a) as -> by congruence.
    pose proof (apply_allocation_spec a s w Hwf) as Hwp. unfold wp in Hwp. rewrite Hs in Hwp. simpl in Hwp.
    destruct (applied_converges _ _ _ _ _ Hwp) as [[_ Hrun]|[Hst' _]]; [|congruence].
    apply (Hnot s' (proj1 Hwp)). by rewrite Hrun.
Qed.

(** C15: no program ever starts. A message with a runtime or with code translates, if it
    does, to a disk of format [squashfs], or of the format of the code's encoding; the
    service refuses each of these, before anything is changed. *)
Theorem programs_never_start cache config msg w :
  is_Some (runtime msg) ∨ is_Some (code msg) →
  wp (translate_message cache config msg) (λ r _, ∀ req, r = Ok req →
    ∀ (m : VmManager Net W) w', wp (Grpc.create_vm req) (λ r' '(m', w''),
      ∃ st, r' = Err st ∧ st_code st = InvalidArgument ∧ m' = m ∧ w'' = w') (m, w')) w.
Proof.
  intros Hmsg. apply translate_message_spec; [|done]. intros w1 req [= <-] m w'.
  unfold Grpc.create_vm. apply wp_bind, wp_on_snd', validate_create_spec; [|by intros st Hst; exists st].
  intros c n [_ [Hd Hds] _ _ _ _ _ _ _ _]. exfalso. rewrite Hd in Hds. simpl in Hds.
  assert (∃ d, d ∈ message_disks cache msg ∧ pd_format d ≠ "raw"%string ∧ pd_format d ≠ "qcow2"%string ∧
    is_empty (pd_format d) = false) as (d & Hin & Hr & Hq & He).
  { unfold message_disks. destruct Hmsg as [[r Hr]|[c' Hc]].
    - rewrite Hr. exists (mk_pdisk (cache_path cache (ru_ref r) CatRuntime) true "squashfs").
      split; [|by vm_compute]. apply elem_of_app. right. apply elem_of_app. left. by left.
    - rewrite Hc. exists (mk_pdisk (cache_path cache (cc_ref c') CatCode) true (encoding_name (cc_encoding c'))).
      split; [do 2 (apply elem_of_app; right); apply elem_of_app; left; by left|].
      simpl. by destruct (cc_encoding c'). }
  rewrite Forall_fmap, Forall_forall in Hds. destruct (Hds d Hin) as [[Hf _] _].
  unfold to_disk, disk_format in Hf. simpl in Hf. rewrite He in Hf. by destruct Hf.
Qed.

(** The backend of a request that passed validation. *)
Lemma validate_create_tee req w :
  wp (validate_create req) (λ r _, ∀ c n, r = Ok (c, n) →
    parse_tee_config (r_tee req) = Ok (tee c) ∧ (n : option Net) = n) w.
Proof.
  apply validate_create_spec; [|done]. intros c n Hok c' n' [= <- <-].
  split; [by apply (ok_tee _ _ _ _ Hok)|done].
Qed.

(** A message that does not ask for confidential computing gets it: the adapter leaves
    the TEE of the request out, which the service reads as SEV-SNP; only the backend
    [none] would be a plain VM, and the adapter never sends it. *)
Theorem plain_message_confidential cache config msg w :
  Messages.is_confidential msg = false →
  wp (translate_message cache config msg) (λ r _, ∀ req, r = Ok req →
    r_tee req = None ∧
    ∀ w', wp (validate_create req) (λ r' _, ∀ c (n : option Net), r' = Ok (c, n) →
      Manager.is_confidential c = true ∧ t_backend (tee c) = SevSnp) w') w.
Proof.
  intros Hc. apply translate_message_spec; [|done]. intros w1 req [= <-].
  assert (tee_request msg = None) as Ht by (unfold tee_request; by rewrite Hc).
  simpl. split; [exact Ht|]. intros w'. eapply wp_mono; [apply validate_create_tee|].
  intros r w2 Hr c n ->. destruct (Hr c n eq_refl) as [Hp _]. simpl in Hp. rewrite Ht in Hp.
  injection Hp as Hp. unfold Manager.is_confidential. by rewrite <-Hp.
Qed.
End node.

(** ** Paths and files of the agent *)

(** The disks of a VM just created: those of the request, a hash tree perhaps behind the
    first. *)
Lemma created_first_disk {Net W} `{IpNet Net, Host W} c hint (m : VmManager Net W) i m' d rest :
  created c hint m i m' → disks c = d :: rest →
  ∃ h ds, vms m' !! vm_id c = Some h ∧ disks (h_config h) = d :: ds ∧
    drives_args (disks (h_config h)) =
      Ok ("-drive"%string :: drive_option d :: (ds ≫= λ d, ["-drive"%string; drive_option d])).
Proof.
  intros [o boot cl p n mid v6 process now _ _ Hplan Hgood _ _ _ _ _] Hd.
  assert (∃ ds, disks boot = d :: ds) as [ds Hb].
  { destruct (boot_plan_shape _ _ _ Hplan) as [->|(r & rest' & Hr & [->|(wl & rest2 & -> & ->)])];
      [by exists rest|..]; rewrite Hr in Hd; simplify_eq/=; by eexists. }
  eexists _, ds. split; [apply lookup_insert_eq|]. cbn [h_config].
  destruct (place_config_same (upd_numa (λ _, n) m) p boot) as (_ & -> & _).
  split; [done|]. by rewrite drives_args_ok, Hb.
Qed.

(** C16: an item reference is not confined to the cache. Joined to the cache directory, an
    absolute reference is itself, so a message whose root file system is one names any file
    of the host. If the file exists when the message is translated, nothing is downloaded,
    and the request, if the other volumes are found, asks for that very file as its first
    disk, writable. The node's checks of the request let this pass: whenever it creates the
    VM, the VM's first disk is the file, and so is QEMU's first drive, not read-only. *)
Theorem item_ref_escapes {Net W} `{IpNet Net, Host W, SerdeJson, Web W} cache config msg r (w w1 : W) :
  rootfs msg = Some r → is_absolute (pv_ref (rf_parent r)) = true → message_wf msg →
  host_create_dir_all (path_join (base_dir cache) "runtime") w = (inr tt, w1) →
  host_exists (pv_ref (rf_parent r)) w1 = true →
  rootfs_disk cache msg w = (Ok [mk_pdisk (pv_ref (rf_parent r)) false "raw"], w1) ∧
  wp (translate_message cache config msg) (λ a _, ∀ req, a = Ok req →
    head (r_disks req) = Some (mk_pdisk (pv_ref (rf_parent r)) false "raw") ∧
    ∀ (m : VmManager Net W) w2, Numa.alloc_wf (numa m) →
      wp (Grpc.create_vm req) (λ a' '(m', _), ∀ i, a' = Ok i →
        ∃ h ds drives, vms m' !! item_hash msg = Some h ∧
          disks (h_config h) = mk_disk (pv_ref (rf_parent r)) false "raw" :: ds ∧
          drives_args (disks (h_config h)) = Ok ("-drive"%string ::
            ("file=" ++ pv_ref (rf_parent r) ++ ",format=raw,if=virtio,readonly=off")%str :: drives))
        (m, w2)) w.
Proof.
  intros Hr Habs Hwf Hmk Hex. set (ref := pv_ref (rf_parent r)) in *.
  assert (cache_path cache ref CatRuntime = ref) as Hpath.
  { unfold cache_path, path_join at 1. unfold is_absolute in Habs. by rewrite Habs. }
  split.
  { unfold rootfs_disk. rewrite Hr. unfold cached_disk.
    assert (ensure_cached cache ref CatRuntime w = (Ok ref, w1)) as He.
    { rewrite <-Hpath at 2. by apply ensure_cached_hit; [|rewrite Hpath]. }
    unfold mbind, M_bind, with_context. fold ref. by rewrite He. }
  apply translate_message_spec; [|done]. intros w' req [= <-]. cbn [r_disks].
  assert (∃ ds, message_disks cache msg = mk_pdisk ref false "raw" :: ds) as [ds Hds].
  { unfold message_disks. rewrite Hr. fold ref. eexists. simpl. by rewrite Hpath. }
  split; [by rewrite Hds|]. intros m w2 Hm. unfold Grpc.create_vm.
  apply wp_bind, wp_on_snd', validate_create_spec; [|done].
  intros c n [[Hid Hvalid] [Hd _] (Ev & Em & _ & _) _ _ _ _ _ [En _] _].
  destruct (translated_width msg Hwf) as [Wv Wm].
  assert (config_wf c) as Hcfg by (unfold config_wf; by rewrite Ev, Em, En).
  apply wp_bind, wp_map_errM, create_vm_spec; [done|done| |done|done].
  intros i m' w3 Hcr. apply wp_ret. intros _ _. simpl in Hd, Hid. rewrite Hds in Hd.
  destruct (created_first_disk _ _ _ _ _ _ _ Hcr Hd) as (h & ds' & Hh & Hdh & Hdr).
  cbn [fst] in Hh. rewrite Hid in Hh. by eexists h, ds', _.
Qed.

(** Connecting and serving do not touch the files of the machine. *)
Class QuietServer (C W : Type) `{AlephTypes, HostFs W, Tonic C W, !Server C W} : Prop := {
  files_connect p w : host_files (connect_with_socket p w).2 = host_files w;
  files_bind a w : host_files (server_bind a w).2 = host_files w;
  files_run s w : host_files (server_run s w).2 = host_files w;
}.

Section run.
Context {C W : Type} `{QuietServer C W} `{Hex}.

Definition quiet {A} (w : W) (r : result error A) (w' : W) : Prop :=
  host_files w' = host_files w ∧ match r with Panic _ => False | _ => True end.

Lemma run_q_files (op : W → (string + unit) * W) w :
  (∀ w, host_files (op w).2 = host_files w) → wp (run_q op) (quiet w) w.
Proof. intros Hop. specialize (Hop w). unfold wp, quiet, run_q. by destruct (op w) as [[e|u] w']. Qed.

Lemma connect_files p w : wp (connect_compute_node (C := C) p) (quiet w) w.
Proof.
  unfold wp, quiet, connect_compute_node. destruct (endpoint_try_from _); [done|].
  pose proof (files_connect p w) as F1. by destruct (connect_with_socket p w) as [[e|c] w'].
Qed.

Lemma resolve_files o d w : wp (resolve_initial_hash o d) (quiet w) w.
Proof.
  unfold wp, quiet, resolve_initial_hash. destruct o as [h|].
  - unfold mbind, M_bind, lift, node_hash_parse. by destruct (hash_parse h).
  - rewrite read_cached_hash_spec. simpl. by rewrite files_read.
Qed.

Lemma start_agent_files args w : wp (start_agent args) (quiet w) w.
Proof.
  unfold start_agent. apply wp_bind. eapply wp_mono; [apply connect_files|].
  intros [c|e|p] w1 [F1 Hp]; [|done..].
  apply wp_bind, wp_lift. destruct (parse_allocation_token _) as [t|e|p] eqn:Ht; [|done|].
  2: { unfold parse_allocation_token in Ht. by repeat case_match. }
  apply wp_bind. eapply wp_mono; [apply resolve_files|].
  intros [o|e|p] w2 [F2 Hp2]; [|by unfold quiet; rewrite F2|done].
  apply wp_bind, wp_lift. destruct (start_discovery args) as [b|e|p] eqn:Hs; [|by unfold quiet; rewrite F2|].
  - apply wp_ret. unfold quiet. by rewrite F2.
  - unfold start_discovery, ext_ctx in Hs. repeat case_match; try done.
    by destruct (url_parse (a_connector_url args)).
Qed.
End run.

(** [run] leaves its PID file behind on every error. Once the file was written, a failure
    to connect, to read an argument, to bind or to serve returns without removing it; it
    still names the process that has ended, and [set-node-hash] will read that number and
    send SIGHUP to whichever process has it by then. Only a server that stops without an
    error reaches the removal. *)
Theorem pid_file_left_behind {C W} `{QuietServer C W} `{Hex} pid args (w w1 : W) :
  0 ≤ pid ≤ u32_max → write_pid_file pid (a_state_dir args) w = (Ok tt, w1) →
  wp (cmd_run pid args) (λ r w', match r with
    | Err _ => host_files w' !! pid_file (a_state_dir args) = Some (print_dec pid) ∧
        ∀ w'', host_files w'' !! pid_file (a_state_dir args) = Some (print_dec pid) →
          is_ok (run_io (host_read (pid_file (a_state_dir args))) w'').1 = true →
          (read_pid (a_state_dir args) w'').1 = Ok (Some pid)
    | Ok _ => True
    | Panic _ => False
    end) w.
Proof.
  intros Hpid Hw.
  assert (host_files w1 !! pid_file (a_state_dir args) = Some (print_dec pid)) as Hf.
  { revert Hw. unfold write_pid_file, mbind, M_bind, io_ctx, with_context, io, map_errM, run_io.
    destruct (host_create_dir_all _ w) as [[e|[]] w0]; simpl; [done|].
    pose proof (files_write_ok (pid_file (a_state_dir args)) (print_dec pid) w0 tt) as Hok.
    destruct (host_write _ _ w0) as [[e|[]] w2]; simpl in *; [done|]. intros [= <-]. by apply Hok. }
  assert (∀ w'', host_files w'' !! pid_file (a_state_dir args) = Some (print_dec pid) →
    is_ok (run_io (host_read (pid_file (a_state_dir args))) w'').1 = true →
    (read_pid (a_state_dir args) w'').1 = Ok (Some pid)) as Hread.
  { intros w'' Hw'' Hok. unfold read_pid, read_ok, mbind, M_bind, attempt. unfold run_io in *.
    pose proof (files_read_ok (pid_file (a_state_dir args)) w'') as Hr.
    destruct (host_read _ w'') as [[e|t] w3]; simpl in *; [done|].
    specialize (Hr t eq_refl). rewrite Hw'' in Hr. injection Hr as <-.
    rewrite trim_id, parse_print_dec; [done|done|].
    eapply all_chars_impl; [|apply print_dec_digits; lia].
    intros c Hc. destruct c as [[] [] [] [] [] [] [] []]; vm_compute in Hc |- *; done. }
  unfold cmd_run. apply wp_bind. rewrite wp_unfold by exact Hw.
  apply wp_bind. eapply wp_mono; [apply start_agent_files|].
  intros [s|e|p] w2 [F1 Hp1]; [|by rewrite F1|done].
  apply wp_bind. eapply wp_mono; [apply run_q_files, files_bind|].
  intros [u|e|p] w3 [F2 Hp2]; [|by rewrite F2, F1|done].
  apply wp_bind. eapply wp_mono; [apply run_q_files, files_run|].
  intros [u'|e|p] w4 [F3 Hp3]; [|by rewrite F3, F2, F1|done].
  unfold wp. destruct (never_fails_remove (pid_file (a_state_dir args)) w4) as [x Hx].
  unfold remove_pid_file. by rewrite Hx.
Qed.

(** ** Runs on the simulated host *)

#[export] Instance sim_hmac : Hmac := {| hmac_sha256 key body := reverse (key ++ body) |}.
#[export] Instance sim_actix : Actix :=
  {| serde_message _ := "expected value"; extractor_error b := mk_http 400 ∅ (BBytes b) |}.
#[export] Instance sim_status : StatusDisplay :=
  {| status_display e := match e with Refused s => st_message s | Lost m => m end |}.

Definition demo_vm (h : string) (rt : option FunctionRuntime) : ExecutableMessage :=
  mk_message h VmInstance (mk_resources 2 1024 1 []) [] ∅ false None None None None None rt.
Definition demo_app (ms : list ExecutableMessage) (m : VmManager sim_net sim)
    : AppState (VmManager sim_net sim) :=
  mk_state m demo_cache (mk_adapter "/boot/vmlinuz" "/boot/initrd.img")
    (list_to_map ((λ msg, (item_hash msg, msg)) <$> ms)) None None.
(** A host with the boot files, on which a TAP device comes up. *)
Definition demo_boot_host : sim :=
  set_files {[ "/boot/vmlinuz"%string := ""%string; "/boot/initrd.img"%string := ""%string ]} demo_host.
Definition allocation_body (hs : list string) : bytes :=
  to_bytes (json_print (JObj [("instances"%string, JArr (JStr <$> hs))])).
Definition long_hash : string := demo_hash "a"%char.

Lemma demo_vm_wf h rt : message_wf (demo_vm h rt).
Proof. unfold message_wf, resources_wf, u32_max. simpl. split_and!; try done; constructor. Qed.

Lemma node_inv_new : node_inv demo_manager.
Proof. split; [apply new_inv, Numa.demo_topology_wf|apply map_Forall_empty]. Qed.

Lemma demo_app_wf ms m :
  node_inv m → Forall message_wf ms → app_wf (demo_app ms m).
Proof.
  intros Hm Hms. split; [exact Hm|]. simpl. induction Hms as [|msg ms Hmsg _ IH]; simpl.
  - apply map_Forall_empty.
  - by apply map_Forall_insert_2.
Qed.

(** The agent with one message, asked for its VM: and what it is then. *)
Definition demo_start := handle_allocation None (allocation_body ["a"])
  (demo_app [demo_vm "a" None] demo_manager, demo_boot_host).
Definition demo_running : AppState (VmManager sim_net sim) := demo_start.2.1.

Lemma demo_one_wf h rt : app_wf (demo_app [demo_vm h rt] demo_manager).
Proof. apply demo_app_wf; [apply node_inv_new|]. by repeat constructor. Qed.

Lemma body_parsed hs :
  json_parse (of_bytes (allocation_body hs)) ≫= allocation_of_json =
    Some (mk_allocation ∅ (list_to_set hs)).
Proof.
  unfold allocation_body. rewrite of_to_bytes, json_parse_print. simpl.
  unfold allocation_of_json. set (v := JObj _).
  change (no_duplicate_field _ v) with true. cbv iota.
  rewrite (field_default_lookup _ _ "instances" v (JArr (JStr <$> hs)) eq_refl).
  unfold string_set_of_json. by rewrite of_to_strings.
Qed.

Lemma allocation_converges_witness : running demo_running = {["a"%string]}.
Proof.
  pose proof (allocation_converges None (allocation_body ["a"%string]) (demo_app [demo_vm "a" None] demo_manager)
    demo_boot_host (demo_one_wf _ _)) as Hwp.
  unfold wp in Hwp. fold demo_start in Hwp. unfold demo_running.
  assert ((λ r, match r with Ok resp => http_status resp | _ => 0 end) demo_start.1 = 200) as Hst
    by (vm_compute; reflexivity).
  destruct demo_start as [[resp|resp|p] [s' w']]; simpl in Hst; [|done..].
  destruct Hwp as (_ & _ & a & Ha & Hcase). rewrite body_parsed in Ha.
  destruct Hcase as [[_ Hrun]|[Hst' _]]; [|congruence].
  change (running s' = {["a"%string]}). rewrite Hrun. simplify_eq. vm_compute. reflexivity.
Defined.

(** The agent whose VM runs keeps its invariant. *)
Lemma demo_running_wf : app_wf demo_running.
Proof.
  pose proof (serve_api_keeps (PostAllocations None (allocation_body ["a"%string]))
    (demo_app [demo_vm "a" None] demo_manager) demo_boot_host (demo_one_wf _ _)) as Hwp.
  unfold wp in Hwp. simpl in Hwp. fold demo_start in Hwp. unfold demo_running.
  destruct demo_start as [r [s' w']]. apply Hwp.
Qed.

(** The agent whose node runs [a], with the message of [b], asked for [b] alone: the states
    of node and machine after the list of VMs, after the deletion and after the creation. *)
Definition demo_replace : AppState (VmManager sim_net sim) :=
  set_messages {["b"%string := demo_vm "b" None]} demo_running.
(** The machine's answers: those to the deletion, then those to the creation. *)
Definition replace_host : sim :=
  mk_sim (sim_files demo_boot_host) []
    ([ok_output ""] ++ replicate 4 nft_output ++ replicate 4 (ok_output "") ++ [nft_output]) [] 1700000000 [].
Definition demo_b : Allocation := mk_allocation ∅ (list_to_set ["b"%string]).
Definition replace_listed := (cn_list_vms (compute_client demo_replace, replace_host)).2.
Definition replace_deleted := (cn_delete_vm "a" replace_listed).2.
Definition replace_translated := translate_message demo_cache (adapter_config demo_replace)
  (demo_vm "b" None) replace_deleted.2.
Definition replace_created :=
  match replace_translated with
  | (Ok req, w) => cn_create_vm req (replace_deleted.1, w)
  | (_, w) => (Err (Lost ""), (replace_deleted.1, w))
  end.
Definition replace_states (c : VmManager sim_net sim) (w : sim) : Prop :=
  (c, w) = replace_listed ∨ (c, w) = replace_deleted ∨ (c, w) = replace_created.2.

Lemma replace_runs :
  cn_running replace_listed.1 = {["a"%string]} ∧ cn_running replace_deleted.1 = ∅ ∧
  cn_running replace_created.2.1 = {["b"%string]} ∧
  is_ok (cn_delete_vm "a" replace_listed).1 = true ∧
  is_ok replace_translated.1 = true ∧ is_ok replace_created.1 = true ∧
  all_vms demo_b = {["b"%string]}.
Proof. split_and!; vm_compute; reflexivity. Qed.

Lemma demo_replace_wf : app_wf demo_replace.
Proof.
  destruct demo_running_wf as [Hi _]. split; [exact Hi|]. simpl. apply map_Forall_singleton.
  split; [done|apply demo_vm_wf].
Qed.

Lemma replace_states_cases c w : replace_states c w →
  (c, w) = replace_listed ∧ cn_running c = {["a"%string]} ∨
  (c, w) = replace_deleted ∧ cn_running c = ∅ ∨
  (c, w) = replace_created.2 ∧ cn_running c = {["b"%string]}.
Proof.
  destruct replace_runs as (R1 & R2 & R3 & _).
  intros [E|[E|E]]; [left; rewrite <-E in R1|right; left; rewrite <-E in R2|right; right; rewrite <-E in R3];
    by split.
Qed.

Lemma replace_deleted_eq : replace_deleted = (cn_delete_vm "a" replace_listed).2.
Proof. reflexivity. Qed.
Lemma replace_translated_eq : replace_translated =
  translate_message demo_cache (adapter_config demo_replace) (demo_vm "b" None) replace_deleted.2.
Proof. reflexivity. Qed.
Lemma replace_created_eq : replace_created = match replace_translated with
  | (Ok req, w) => cn_create_vm req (replace_deleted.1, w)
  | (_, w) => (Err (Lost ""), (replace_deleted.1, w)) end.
Proof. reflexivity. Qed.

Lemma replace_listing : wp cn_list_vms (λ r '(c', w'), is_ok r = true ∧ replace_states c' w')
  (compute_client demo_replace, replace_host).
Proof.
  unfold wp. assert (is_ok (cn_list_vms (compute_client demo_replace, replace_host)).1 = true) as Hok
    by (vm_compute; reflexivity).
  pose proof (eq_refl : replace_listed = (cn_list_vms (compute_client demo_replace, replace_host)).2) as El.
  destruct (cn_list_vms (compute_client demo_replace, replace_host)) as [r [c' w']].
  split; [exact Hok|]. left. symmetry. exact El.
Qed.

Lemma replace_counts : let acts := reconcile demo_b {["a"%string]} in
  len (to_start acts) = 1 ∧ len (to_stop acts) = 1 ∧ len (unchanged acts) = 0.
Proof. split_and!; vm_compute; reflexivity. Qed.

#[local] Opaque replace_listed replace_deleted replace_created replace_translated.

Lemma replace_stop vm c w : replace_states c w → vm ∈ cn_running c → vm ∉ all_vms demo_b →
  wp (cn_delete_vm vm) (λ r '(c', w'), is_ok r = true ∧ replace_states c' w') (c, w).
Proof.
  destruct replace_runs as (_ & _ & _ & D & _ & _ & ->). unfold wp.
  intros [[E ->]|[[E ->]|[E ->]]]%replace_states_cases Hin Hout;
    [|destruct (not_elem_of_empty (C := gset string) _ Hin)|destruct (Hout Hin)].
  apply elem_of_singleton in Hin as ->. rewrite E. revert D.
  pose proof replace_deleted_eq as Ed. revert Ed.
  destruct (cn_delete_vm "a" replace_listed) as [r [c' w']].
  intros Ed D. split; [exact D|]. right. left. symmetry. exact Ed.
Qed.

Lemma replace_start (vm : string) c w : replace_states c w → cn_running c ⊆ all_vms demo_b →
  vm ∈ all_vms demo_b → vm ∉ cn_running c →
  vm = "b"%string ∧ wp (translate_message demo_cache (adapter_config demo_replace) (demo_vm "b" None))
    (λ r w1, ∃ req, r = Ok req ∧ wp (cn_create_vm req) (λ r' '(c', w'),
      is_ok r' = true ∧ replace_states c' w') (c, w1)) w.
Proof.
  destruct replace_runs as (_ & _ & _ & _ & T & Cr & ->).
  intros [[E ->]|[[E ->]|[E ->]]]%replace_states_cases Hsub Hin Hout.
  - specialize (Hsub "a"%string (proj2 (elem_of_singleton _ _) eq_refl)). apply elem_of_singleton in Hsub.
    discriminate Hsub.
  - apply elem_of_singleton in Hin as ->. split; [reflexivity|].
    pose proof replace_translated_eq as Et. pose proof replace_created_eq as Ec.
    rewrite <-E in Et. cbn [snd] in Et. unfold wp. rewrite <-Et.
    destruct replace_translated as [[req|e|p] w1]; [|discriminate T..]. exists req. split; [reflexivity|].
    rewrite <-E in Ec. cbn [fst] in Ec. cbn [fst snd]. rewrite <-Ec. rewrite Ec in Cr. clear Et.
    destruct replace_created as [r [c2 w2]] eqn:Er. rewrite <-Ec in Cr. split; [exact Cr|].
    right. right. rewrite Er. reflexivity.
  - destruct (Hout Hin).
Qed.

Lemma replace_meets : meets replace_states demo_b demo_replace.
Proof.
  split; [intros; by apply replace_stop|].
  intros vm c w _ Hg Hsub Hin Hout. destruct (replace_start vm c w Hg Hsub Hin Hout) as [-> Hwp].
  exists (demo_vm "b" None). split; [vm_compute; reflexivity|exact Hwp].
Qed.

Lemma allocation_succeeds_witness :
  running demo_replace = {["a"%string]} ∧
  ∃ s' w', handle_allocation None (allocation_body ["b"%string]) (demo_replace, replace_host) =
    (Ok (respond 200 (JObj [("started", JNum 1); ("stopped", JNum 1); ("unchanged", JNum 0)])%string), (s', w')) ∧
    running s' = all_vms demo_b.
Proof.
  assert (running demo_replace = {["a"%string]}) as Hr by (vm_compute; reflexivity). split; [exact Hr|].
  pose proof (allocation_succeeds replace_states demo_b None (allocation_body ["b"%string]) demo_replace replace_host
    demo_replace_wf eq_refl (body_parsed ["b"%string]) replace_listing replace_meets) as Hwp.
  destruct replace_counts as (H1 & H2 & H3). rewrite Hr, H1, H2, H3 in Hwp. unfold wp in Hwp.
  destruct (handle_allocation None (allocation_body ["b"%string]) (demo_replace, replace_host)) as [r [s' w']].
  cbn [fst snd] in Hwp. destruct Hwp as [Hres Hrun]. exists s', w'. split; [|exact Hrun]. rewrite Hres. reflexivity.
Defined.

#[local] Transparent replace_listed replace_deleted replace_created replace_translated.

Lemma allocation_idempotent_witness :
  ∃ l s1 w1, call cn_list_vms (demo_running, demo_boot_host) = (Ok (Ok l), (s1, w1)) ∧
  handle_allocation None (allocation_body ["a"%string]) (demo_running, demo_boot_host) =
    (Ok (respond 200 (JObj [("started", JNum 0); ("stopped", JNum 0); ("unchanged", JNum 1)])%string), (s1, w1)).
Proof.
  assert (running demo_running = all_vms (mk_allocation ∅ (list_to_set ["a"%string]))) as Hrun
    by (vm_compute; reflexivity).
  pose proof (λ l s1 w1, allocation_idempotent _ None (allocation_body ["a"%string]) demo_running demo_boot_host
    l s1 w1 demo_running_wf eq_refl (body_parsed ["a"%string]) Hrun) as Hi.
  assert ((λ r, match r with Ok (Ok _) => true | _ => false end)
    (call (A := list ProtoVmInfo) cn_list_vms (demo_running, demo_boot_host)).1 = true) as Hok
    by (vm_compute; reflexivity).
  destruct (call cn_list_vms (demo_running, demo_boot_host)) as [[[l|e|p]|e|p] [s1 w1]]; [|done..].
  exists l, s1, w1. split; [done|]. exact (Hi l s1 w1 eq_refl).
Defined.

(** Two VMs to start: one without a message, one whose runtime cannot be downloaded. *)
Definition demo_two : Allocation := mk_allocation ∅ (list_to_set ["b"; "c"]%string).
Definition demo_c : AppState (VmManager sim_net sim) :=
  demo_app [demo_vm "c" (Some (mk_runtime "python" true ""))] demo_manager.

Definition demo_errors : list string :=
  ["translate c: downloading runtime"; "start b: message not found"]%string.

Lemma allocation_counts_witness :
  ∃ j, (apply_allocation demo_two (demo_c, empty_sim)).1 = Ok (respond 207 j) ∧
    json_get "started" j = Some (JNum 1) ∧
    ∃ not_started : list string, len demo_errors = 2 ∧ count_errors "translate" demo_errors = 1 ∧
      2 - len not_started + count_errors "translate" demo_errors = 1.
Proof.
  pose proof (allocation_counts demo_two demo_c empty_sim (demo_one_wf _ _)
    ltac:(vm_compute; discriminate) ltac:(vm_compute; discriminate)) as Hwp.
  unfold wp in Hwp.
  assert ((λ r, match r with Ok resp => (http_status resp,
      match http_content resp with BJson j => (json_get "started" j, json_get "errors" j) | _ => (None, None) end)
    | _ => (0, (None, None)) end) (apply_allocation demo_two (demo_c, empty_sim)).1 =
    (207, (Some (JNum 1), Some (JArr (JStr <$> demo_errors)))))
    as Hrun by (vm_compute; reflexivity).
  destruct (apply_allocation demo_two (demo_c, empty_sim)) as [[resp|resp|p] [s' w']]; [|done..].
  simpl in Hrun. injection Hrun as Hst Hj.
  destruct (Hwp resp eq_refl Hst) as (j & errors & ns & nt & -> & He & _ & _ & Hlen & _ & Hstarted).
  simpl in Hj. injection Hj as Hj1 Hj2.
  assert (errors = demo_errors) as ->.
  { rewrite He in Hj2. injection Hj2 as Hj2.
    destruct errors as [|e1 [|e2 [|? ?]]]; simpl in Hj2; by simplify_eq. }
  exists j. split; [done|]. split; [done|]. exists nt. split; [done|]. split; [by vm_compute|].
  rewrite Hstarted in Hj1. injection Hj1 as Hj1. exact Hj1.
Defined.

Lemma unsigned_allocation_refused_witness :
  ∃ resp, handle_allocation None (allocation_body ["a"%string])
    (mk_state demo_manager demo_cache (mk_adapter "" "") ∅ (Some [Byte.x01]) None, demo_boot_host) =
    (Err resp, (mk_state demo_manager demo_cache (mk_adapter "" "") ∅ (Some [Byte.x01]) None, demo_boot_host)) ∧
    http_status resp = 401.
Proof.
  apply (unsigned_allocation_refused None (allocation_body ["a"%string])
    (mk_state demo_manager demo_cache (mk_adapter "" "") ∅ (Some [Byte.x01]) None) demo_boot_host [Byte.x01]);
    [done|by vm_compute].
Defined.

Lemma api_keeps_state_witness :
  let qs := [PostMessages (to_bytes (json_print (message_json (demo_vm "a" None))));
             PostAllocations None (allocation_body ["a"%string]); GetHealth] in
  let step '(s, w) q := (serve_api q (s, w)).2 in
  app_wf (foldl step (demo_app [] demo_manager, demo_boot_host) qs).1 ∧
  running (foldl step (demo_app [] demo_manager, demo_boot_host) qs).1 = {["a"%string]}.
Proof.
  intros qs step. split; [|vm_compute; reflexivity].
  apply (api_keeps_state qs). apply demo_app_wf; [exact node_inv_new|constructor].
Defined.

Lemma long_hash_never_runs_witness :
  ∃ resp s' w', handle_allocation None (allocation_body [long_hash])
      (demo_app [demo_vm long_hash None] demo_manager, demo_boot_host) = (Ok resp, (s', w')) ∧
    http_status resp ≠ 200 ∧ long_hash ∉ running s'.
Proof.
  pose proof (long_hash_never_runs (PostAllocations None (allocation_body [long_hash]))
    (demo_app [demo_vm long_hash None] demo_manager) demo_boot_host long_hash (demo_one_wf _ _)
    ltac:(vm_compute; reflexivity)) as Hwp.
  unfold wp in Hwp. cbn [serve_api] in Hwp.
  assert (is_ok (handle_allocation None (allocation_body [long_hash])
    (demo_app [demo_vm long_hash None] demo_manager, demo_boot_host)).1 = true) as Hok
    by (vm_compute; reflexivity).
  destruct (handle_allocation None (allocation_body [long_hash]) _) as [[resp|resp|p] [s' w']]; [|done..].
  destruct Hwp as [Hnot Hst]. exists resp, s', w'. split; [done|]. split; [|exact Hnot].
  apply (Hst None (allocation_body [long_hash]) _ resp eq_refl (body_parsed [long_hash])); [|done].
  apply elem_of_union_r, elem_of_list_to_set. by left.
Defined.

(** A host that has the runtime in its cache. *)
Definition demo_runtime_host : sim :=
  set_files {[ "/boot/vmlinuz"%string := ""%string; "/boot/initrd.img"%string := ""%string;
               "/cache/runtime/python"%string := ""%string ]} demo_host.
Definition demo_program : ExecutableMessage := demo_vm "a" (Some (mk_runtime "python" true "")).
Definition demo_config : AdapterConfig := mk_adapter "/boot/vmlinuz" "/boot/initrd.img".

Lemma programs_never_start_witness :
  ∃ req, (translate_message demo_cache demo_config demo_program demo_runtime_host).1 = Ok req ∧
    ∃ st, Grpc.create_vm req (demo_manager, demo_runtime_host) =
      (Err st, (demo_manager, demo_runtime_host)) ∧ st_code st = InvalidArgument.
Proof.
  pose proof (programs_never_start (Net := sim_net) demo_cache demo_config demo_program demo_runtime_host
    (or_introl (ex_intro _ (mk_runtime "python" true "") eq_refl))) as Hwp.
  unfold wp in Hwp.
  assert (is_ok (translate_message demo_cache demo_config demo_program demo_runtime_host).1 = true) as Hok
    by (vm_compute; reflexivity).
  destruct (translate_message demo_cache demo_config demo_program demo_runtime_host) as [[req|e|p] w1];
    [|done..].
  exists req. split; [done|]. specialize (Hwp req eq_refl demo_manager demo_runtime_host).
  destruct (Grpc.create_vm req (demo_manager, demo_runtime_host)) as [r [m' w']].
  destruct Hwp as (st & Hr & Hst & Hm & Hw). simpl in Hr. subst. by exists st.
Defined.

Lemma plain_message_confidential_witness :
  ∃ req, (translate_message demo_cache demo_config (demo_vm "a" None) demo_boot_host).1 = Ok req ∧
    r_tee req = None ∧
    ∃ c, (validate_create req demo_boot_host).1 = Ok (c, None : option sim_net) ∧
      t_backend (tee c) = SevSnp.
Proof.
  pose proof (plain_message_confidential (Net := sim_net) demo_cache demo_config (demo_vm "a" None)
    demo_boot_host eq_refl) as Hwp.
  unfold wp in Hwp.
  destruct (translate_message demo_cache demo_config (demo_vm "a" None) demo_boot_host)
    as [[req|e|p] w1] eqn:Ht; [|by vm_compute in Ht..].
  exists req. split; [done|]. destruct (Hwp req eq_refl) as [Htee Hv]. split; [exact Htee|].
  specialize (Hv demo_boot_host).
  assert ((λ r, match r with Ok (_, None) => true | _ => false end)
    (validate_create (Net := sim_net) req demo_boot_host).1 = true) as Hok.
  { vm_compute in Ht. injection Ht as <- _. vm_compute. reflexivity. }
  destruct (validate_create req demo_boot_host) as [[[c [n|]]|e|p] w2]; try done.
  exists c. split; [done|]. exact (proj2 (Hv c None eq_refl)).
Defined.

Definition demo_escape : ExecutableMessage :=
  mk_message "a" VmInstance (mk_resources 2 1024 1 []) [] ∅ false None None None
    (Some (mk_rootfs (mk_parent "/etc/shadow" true) PersistHost 0)) None None.
(** A host with the boot files and that file, on which a VM comes up. *)
Definition demo_shadow : sim :=
  mk_sim (<["/etc/shadow"%string := "root:"%string]> (sim_files demo_boot_host)) []
    (replicate 3 (ok_output "") ++
     [nft_output; nft_output; ok_output ""; ok_output ("Root hash:      ABCD")])
    [] 1700000000 [].

Lemma item_ref_escapes_witness :
  ∃ req w1 i m' w2 h ds, translate_message demo_cache demo_config demo_escape demo_shadow = (Ok req, w1) ∧
    Grpc.create_vm req (demo_manager, w1) = (Ok i, (m', w2)) ∧ vms m' !! "a"%string = Some h ∧
    disks (h_config h) = mk_disk "/etc/shadow" false "raw" :: ds.
Proof.
  destruct (item_ref_escapes (Net := sim_net) demo_cache demo_config demo_escape
    (mk_rootfs (mk_parent "/etc/shadow" true) PersistHost 0) demo_shadow demo_shadow) as [_ Hwp];
    [reflexivity|reflexivity| |vm_compute; reflexivity|vm_compute; reflexivity|].
  { assert (resources_wf (resources demo_escape)) as Hres
      by (unfold resources_wf, u32_max; simpl; split_and!; try done; constructor).
    split; [exact Hres|split; [constructor|split; [|done]]]. by intros ? [= <-]. }
  assert (match translate_message demo_cache demo_config demo_escape demo_shadow with
    | (Ok req, w1) => is_ok (Grpc.create_vm req (demo_manager, w1)).1 | _ => false end = true) as Hok
    by (vm_compute; reflexivity).
  unfold wp in Hwp. destruct (translate_message demo_cache demo_config demo_escape demo_shadow)
    as [[req|e|p] w1]; [|discriminate Hok..].
  cbv beta iota in Hok. destruct (Hwp req eq_refl) as [_ Hcr].
  specialize (Hcr demo_manager w1 (Numa.new_wf _ Numa.demo_topology_wf)).
  destruct (Grpc.create_vm req (demo_manager, w1)) as [[i|e|p] [m' w2]] eqn:Ecr; [|discriminate Hok..].
  destruct (Hcr i eq_refl) as (h & ds & drives & Hh & Hd & _).
  exists req, w1, i, m', w2, h, ds. split; [reflexivity|]. split; [exact Ecr|]. split; [exact Hh|exact Hd].
Defined.

(** A compute node that answers, and an address that is taken. *)
#[export] Instance sim_tonic : Tonic (VmManager sim_net sim) sim :=
  {| endpoint_try_from _ := inr tt; connect_with_socket _ w := (inr demo_manager, w) |}.
#[export] Instance sim_server : Server (VmManager sim_net sim) sim :=
  {| url_parse _ := inr tt;
     server_bind _ w := (inl "Address already in use"%string, w);
     server_run _ w := (inr tt, w) |}.
#[export] Instance sim_quiet : QuietServer (VmManager sim_net sim) sim.
Proof. by split. Qed.
Definition demo_args : RunArgs :=
  mk_args "/var" "/run/compute.sock" "127.0.0.1:4021" "https://official.aleph.cloud" "/cache"
    "/boot/vmlinuz" "/boot/initrd.img" None None None None.

Lemma pid_file_left_behind_witness :
  is_err (cmd_run (C := VmManager sim_net sim) 4242 demo_args empty_sim).1 = true ∧
  host_files (cmd_run (C := VmManager sim_net sim) 4242 demo_args empty_sim).2
    !! "/var/scheduler-agent.pid"%string = Some "4242"%string.
Proof.
  pose proof (pid_file_left_behind (C := VmManager sim_net sim) 4242 demo_args empty_sim
    (write_pid_file 4242 "/var" empty_sim).2 ltac:(unfold u32_max; lia) eq_refl) as Hwp.
  unfold wp in Hwp.
  assert (is_err (cmd_run (C := VmManager sim_net sim) 4242 demo_args empty_sim).1 = true) as He
    by (vm_compute; reflexivity).
  split; [exact He|].
  destruct (cmd_run 4242 demo_args empty_sim) as [[u|e|p] w']; [done| |done]. exact (proj1 Hwp).
Defined.
