(* ===== verification/SchedulerOverlap.v ===== *)
(** * The scheduler agent: allocations that overlap

    The HTTP server runs its handlers concurrently. [handle_allocation] of
    [src/crates/aleph-scheduler-agent/src/main.rs] takes the lock of the compute node's
    client for one call at a time (for a creation together with its port forwards), so two
    allocations interleave between those calls. Here are the phases of a handler, their
    interleavings, and what survives them. A phase is one use of the client, or the
    translation of one message, which does not use it. *)

From S2P Require Import Prelude Strs Host HostSim Json Types NetTypes Instances Tee Crypto Http.
From S2P Require Import Qemu Manager ManagerInv ManagerSafety ManagerProps Grpc CryptoSim.
From S2P Require Import Messages Volumes Allocations NodeHash Adapter Scheduler SchedulerFacts.
From S2P Require Import SchedulerNode SchedulerProps.
#[local] Open Scope Z_scope.

(** ** Phases *)

Section phases.
Context `{AlephTypes, Hex, Hmac, SerdeJson, Actix} {C W : Type} `{Host W, Web W, ComputeNode C W}.

(** Where a handler is: before its call [list_vms]; in the loop that stops VMs; before it
    looks up the next message; before it creates the VM of a translated message; done. *)
Inductive alloc_pc :=
| Listing (a : Allocation)
| Stopping (a : Allocation) (actions : ReconcileActions) (rest errors : list string)
| Fetching (a : Allocation) (actions : ReconcileActions) (rest : list ItemHash) (errors : list string)
| Creating (a : Allocation) (actions : ReconcileActions) (vm : ItemHash) (rest : list ItemHash)
    (errors : list string) (msg : ExecutableMessage) (req : CreateVmRequest)
| Answered (a : Allocation) (r : result HttpResponse HttpResponse).

Definition allocation_of (pc : alloc_pc) : Allocation :=
  match pc with
  | Listing a | Stopping a _ _ _ | Fetching a _ _ _ | Creating a _ _ _ _ _ _ | Answered a _ => a
  end.

(** The creation of a translated message's VM, with its forwards: the client is locked once. *)
Definition create_translated (vm : ItemHash) (msg : ExecutableMessage) (create_req : CreateVmRequest) :
    Handler (C := C) (W := W) (list string) :=
  r ← call (cn_create_vm create_req);
  match r with
  | Ok _ => forward_ports (translate_port_forwards msg);; mret []
  | Err e => mret [start_error vm (call_error_display e)]
  | Panic p => mret []
  end.

Definition advance (pc : alloc_pc) : Handler (C := C) (W := W) alloc_pc :=
  match pc with
  | Listing a =>
      l ← call cn_list_vms;
      match l with
      | Ok vms =>
          let actions := reconcile a (list_to_set (pi_vm_id <$> vms)) in
          mret (Stopping a actions (to_stop actions) [])
      | Err e =>
          throw (respond 500 (error_response ("compute node unreachable: " ++ call_error_display e)%str))
      | Panic p => throw (respond 500 (error_response p))
      end
  | Stopping a actions [] errors => mret (Fetching a actions (to_start actions) errors)
  | Stopping a actions (vm :: rest) errors =>
      r ← call (cn_delete_vm vm);
      mret (Stopping a actions rest (match r with Err e => errors ++ [stop_error vm e] | _ => errors end))
  | Fetching a actions [] errors => mret (Answered a (Ok (allocation_response actions errors)))
  | Fetching a actions (vm :: rest) errors =>
      s ← app_state;
      match messages s !! vm with
      | None => mret (Fetching a actions rest (errors ++ [start_error vm "message not found"]))
      | Some msg =>
          t ← attempt (on_snd (translate_message (volume_cache s) (adapter_config s) msg));
          match t with
          | Ok create_req => mret (Creating a actions vm rest errors msg create_req)
          | Err e => mret (Fetching a actions rest (errors ++ [translate_error vm e]))
          | Panic p => mret (Fetching a actions rest errors)
          end
      end
  | Creating a actions vm rest errors msg create_req =>
      e ← create_translated vm msg create_req;
      mret (Fetching a actions rest (errors ++ e))
  | Answered a r => mret (Answered a r)
  end.

(** The rest of a handler, run without a break. *)
Definition finish (pc : alloc_pc) : Handler (C := C) (W := W) HttpResponse :=
  match pc with
  | Listing a => apply_allocation a
  | Stopping a actions rest errors =>
      errors ← stop_vms rest errors;
      errors ← start_vms (to_start actions) errors;
      mret (allocation_response actions errors)
  | Fetching a actions rest errors =>
      errors ← start_vms rest errors;
      mret (allocation_response actions errors)
  | Creating a actions vm rest errors msg create_req =>
      e ← create_translated vm msg create_req;
      errors ← start_vms rest (errors ++ e);
      mret (allocation_response actions errors)
  | Answered a r => lift r
  end.

(** A phase is the beginning of what is left: phases in a row are the handler. *)
Lemma advance_finish pc sw : (advance pc ≫= finish) sw = finish pc sw.
Proof.
  destruct sw as [s w]. destruct pc as [a|a acts [|vm rest] errs|a acts [|vm rest] errs|a acts vm rest errs msg req|a r];
    cbn [advance finish].
  - unfold apply_allocation, mbind, M_bind. by destruct (call cn_list_vms (s, w)) as [[[vms|e|p]|e|p] sw'].
  - done.
  - simpl. unfold mbind, M_bind. by destruct (call (cn_delete_vm vm) (s, w)) as [[[u|e|p]|e|p] sw'].
  - done.
  - change (start_vms (vm :: rest) errs) with (e ← start_vm vm; start_vms rest (errs ++ e)).
    change (start_vm vm) with (s ← app_state; match messages s !! vm with
      | None => mret [start_error vm "message not found"]
      | Some msg =>
          t ← attempt (on_snd (translate_message (volume_cache s) (adapter_config s) msg));
          match t with
          | Ok req => create_translated vm msg req
          | Err e => mret [translate_error vm e]
          | Panic p => mret []
          end
      end).
    unfold mbind, M_bind, app_state. destruct (messages s !! vm) as [msg|]; [|reflexivity].
    destruct (attempt (on_snd (translate_message (volume_cache s) (adapter_config s) msg)) (s, w))
      as [[[req|e|p]|e|p] sw']; unfold mret, M_ret; cbv beta iota; rewrite ?app_nil_r; try reflexivity.
    cbn [finish]. unfold mbind, M_bind. by destruct (create_translated vm msg req sw') as [[e|e|p] sw2].
  - unfold mbind, M_bind. by destruct (create_translated vm msg req (s, w)) as [[e|e|p] sw'].
  - done.
Qed.

(** ** Handlers that interleave *)

Definition settle (a : Allocation) (r : result HttpResponse alloc_pc) : alloc_pc :=
  match r with Ok pc => pc | Err e => Answered a (Err e) | Panic p => Answered a (Panic p) end.

(** The agent, the machine, and the allocations it has taken in. *)
Definition agent : Type := AppState C * W * list alloc_pc.

(** An allocation among [ok] arrives; a handler runs a phase; a message is registered; the
    machine changes beside the node's VMs. *)
Inductive agent_step (ok : Allocation → Prop) : agent → agent → Prop :=
| agent_arrive a sw hs : ok a → agent_step ok (sw, hs) (sw, hs ++ [Listing a])
| agent_phase i pc sw r sw' hs :
    hs !! i = Some pc → advance pc sw = (r, sw') →
    agent_step ok (sw, hs) (sw', <[i := settle (allocation_of pc) r]> hs)
| agent_message body sw r sw' hs :
    handle_message body sw = (r, sw') → agent_step ok (sw, hs) (sw', hs)
| agent_machine s w w' hs : agent_step ok (s, w, hs) (s, w', hs).
End phases.

(** ** What a phase does *)

Section facts.
Context `{AlephTypes, Hex, Hmac, SerdeJson, Actix} {C W : Type} `{Host W, Web W, ComputeNodeLaws C W}.
Implicit Types (s : AppState C) (w : W) (R : gset string) (pc : alloc_pc).

(** The VMs of the node before and after a phase. *)
Inductive moved : gset string → alloc_pc → gset string → alloc_pc → Prop :=
| mv_listed R a :
    moved R (Listing a) R (Stopping a (reconcile a R) (to_stop (reconcile a R)) [])
| mv_unreachable R a resp : moved R (Listing a) R (Answered a (Err resp))
| mv_stopped R a acts vm rest errs R' errs' :
    R' ⊆ R → (∀ h, h ≠ vm → h ∈ R' ↔ h ∈ R) → (errs' = [] → errs = [] ∧ vm ∉ R') →
    moved R (Stopping a acts (vm :: rest) errs) R' (Stopping a acts rest errs')
| mv_all_stopped R a acts errs :
    moved R (Stopping a acts [] errs) R (Fetching a acts (to_start acts) errs)
| mv_not_translated R a acts vm rest errs errs' :
    errs' ≠ [] → moved R (Fetching a acts (vm :: rest) errs) R (Fetching a acts rest errs')
| mv_translated R a acts (vm : ItemHash) rest errs msg req :
    r_vm_id req = vm → request_in_width req → message_wf msg →
    moved R (Fetching a acts (vm :: rest) errs) R (Creating a acts vm rest errs msg req)
| mv_created R a acts vm rest errs msg req R' errs' :
    R ⊆ R' → (∀ h, h ≠ vm → h ∈ R' ↔ h ∈ R) → (errs' = [] → errs = [] ∧ vm ∈ R') →
    moved R (Creating a acts vm rest errs msg req) R' (Fetching a acts rest errs')
| mv_all_started R a acts errs :
    moved R (Fetching a acts [] errs) R (Answered a (Ok (allocation_response acts errs)))
| mv_answered R a r : moved R (Answered a r) R (Answered a r).

(** What a handler holds is well formed. *)
Definition pc_wf pc : Prop :=
  match pc with
  | Creating _ _ vm _ _ msg req => r_vm_id req = vm ∧ request_in_width req ∧ message_wf msg
  | Answered _ (Panic _) => False
  | _ => True
  end.

(** A creation or a deletion whose answer is lost still goes one way. *)
Lemma call_create_grows req s w (Q : result HttpResponse (result CallError ProtoVmInfo) → AppState C * W → Prop) :
  app_wf s → request_in_width req →
  (∀ r s' w', app_wf s' → running s ⊆ running s' → agree_but (r_vm_id req) s s' →
     (is_ok r = true → r_vm_id req ∈ running s') → (∀ p, r ≠ Panic p) → Q (Ok r) (s', w')) →
  wp (call (cn_create_vm req)) Q (s, w).
Proof.
  intros Hwf Hreq HQ.
  apply (wp_call _ (λ r c', cn_inv c' ∧ cn_running (compute_client s) ⊆ cn_running c' ∧
    (∀ k, k ≠ r_vm_id req → k ∈ cn_running c' ↔ k ∈ cn_running (compute_client s)) ∧
    match r with Ok _ => r_vm_id req ∈ cn_running c' | _ => True end)).
  - eapply wp_mono; [apply cn_create_spec; [apply Hwf|done]|].
    intros [a|[x|x]|p] [c' w'] (Hi & Ha & Hr); split; try done; (split; [done|]; split; [|by split]).
    + intros k Hk. destruct (decide (k = r_vm_id req)) as [->|Hne]; [exact Hr|by apply Ha].
    + by rewrite Hr.
  - intros i c' w' (Hi & Hg & Ha & Hr). apply HQ; [by apply set_client_wf|exact Hg|exact Ha|by intros _|done].
  - intros e c' w' He (Hi & Hg & Ha & _). apply HQ; [by apply set_client_wf|exact Hg|exact Ha|done|done].
Qed.

Lemma call_delete_shrinks vm s w (Q : result HttpResponse (result CallError unit) → AppState C * W → Prop) :
  app_wf s →
  (∀ r s' w', app_wf s' → running s' ⊆ running s → agree_but vm s s' →
     (is_ok r = true → vm ∉ running s') → (∀ p, r ≠ Panic p) → Q (Ok r) (s', w')) →
  wp (call (cn_delete_vm vm)) Q (s, w).
Proof.
  intros Hwf HQ.
  apply (wp_call _ (λ r c', cn_inv c' ∧ cn_running c' ⊆ cn_running (compute_client s) ∧
    (∀ k, k ≠ vm → k ∈ cn_running c' ↔ k ∈ cn_running (compute_client s)) ∧
    match r with Ok _ => vm ∉ cn_running c' | _ => True end)).
  - eapply wp_mono; [apply cn_delete_spec, Hwf|].
    intros [a|[x|x]|p] [c' w'] (Hi & Ha & Hr); split; try done; (split; [done|]; split; [|by split]).
    + intros k Hk. destruct (decide (k = vm)) as [->|Hne]; [done|by apply Ha].
    + by rewrite Hr.
  - intros [] c' w' (Hi & Hg & Ha & Hr). apply HQ; [by apply set_client_wf|exact Hg|exact Ha|by intros _|done].
  - intros e c' w' He (Hi & Hg & Ha & _). apply HQ; [by apply set_client_wf|exact Hg|exact Ha|done|done].
Qed.

(** The translation of a registered message. *)
Lemma translate_phase_spec (vm : ItemHash) msg s w (Q : result HttpResponse (result error CreateVmRequest) → AppState C * W → Prop) :
  app_wf s → messages s !! vm = Some msg →
  (∀ req w', r_vm_id req = vm → request_in_width req → message_wf msg → Q (Ok (Ok req)) (s, w')) →
  (∀ e w', Q (Ok (Err e)) (s, w')) →
  wp (attempt (on_snd (translate_message (volume_cache s) (adapter_config s) msg))) Q (s, w).
Proof.
  intros [Hinv Hms] Hmsg Hok Herr. destruct (Hms vm msg Hmsg) as [Hid Hmwf]. simpl in *.
  apply wp_attempt, wp_on_snd. intros r w1 Hr.
  pose proof (translate_message_spec (volume_cache s) (adapter_config s) msg (λ r _,
    match r with
    | Ok req => r_vm_id req = vm ∧ request_in_width req
    | Err _ => True
    | Panic _ => False
    end) w (λ _, conj Hid (translated_width msg Hmwf)) (λ _ _, I)) as Hspec.
  unfold wp in Hspec. rewrite Hr in Hspec. destruct r as [req|e|p]; simpl in Hspec; [|apply Herr|done].
  destruct Hspec. by apply Hok.
Qed.

Lemma alloc_phase_spec pc s w :
  app_wf s → pc_wf pc →
  wp (advance pc) (λ r '(s', w'), app_wf s' ∧ (∀ p, r ≠ Panic p) ∧
    moved (running s) pc (running s') (settle (allocation_of pc) r)) (s, w).
Proof.
  intros Hwf Hpc. destruct pc as [a|a acts [|vm rest] errs|a acts [|vm rest] errs|a acts vm rest errs msg req|a r];
    cbn [advance].
  - apply wp_bind, (wp_call _ (λ r c', cn_inv c' ∧ cn_running c' = running s ∧
      match r with Ok l => list_to_set (pi_vm_id <$> l) = running s | _ => True end)).
    { eapply wp_mono; [apply cn_list_spec, Hwf|]. by intros [l|e|p] [c' w'] (? & ? & ?). }
    + intros l c' w' (Hi & Hr & ->). apply wp_ret. split; [by apply set_client_wf|]. split; [done|].
      change (running (set_client c' s)) with (cn_running c'). rewrite Hr. apply mv_listed.
    + intros e c' w' _ (Hi & Hr & _). apply wp_throw. split; [by apply set_client_wf|]. split; [done|].
      change (running (set_client c' s)) with (cn_running c'). rewrite Hr. apply mv_unreachable.
  - apply wp_ret. split; [done|]. split; [done|]. apply mv_all_stopped.
  - apply wp_bind, call_delete_shrinks; [done|]. intros r s' w' Hwf' Hsub Hbut Hok Hp. apply wp_ret.
    split; [done|]. split; [done|]. apply mv_stopped; [done|exact Hbut|]. intros Herr.
    destruct r as [u|e|p]; [split; [done|by apply Hok]|by apply app_eq_nil in Herr as [_ ?]|by destruct (Hp p)].
  - apply wp_ret. split; [done|]. split; [done|]. apply mv_all_started.
  - apply wp_bind, wp_app_state. destruct (messages s !! vm) as [msg|] eqn:Hmsg.
    2: { apply wp_ret. split; [done|]. split; [done|]. apply mv_not_translated. by intros [_ ?]%app_eq_nil. }
    apply wp_bind, (translate_phase_spec vm); [done|done| |].
    + intros req w' Hid Hreq Hm. apply wp_ret. split; [done|]. split; [done|]. by apply mv_translated.
    + intros e w'. apply wp_ret. split; [done|]. split; [done|]. apply mv_not_translated. by intros [_ ?]%app_eq_nil.
  - destruct Hpc as (Hid & Hreq & Hm). unfold create_translated.
    apply wp_bind, wp_bind, call_create_grows; [done|done|]. rewrite Hid.
    intros r s' w' Hwf' Hsub Hbut Hok Hp. destruct r as [i|e|p]; [| |by destruct (Hp p)].
    + apply wp_bind, forward_ports_spec; [done|by apply forwards_width|].
      intros s2 w2 _ Hwf2 Hr. apply wp_ret, wp_ret. split; [done|]. split; [done|]. rewrite app_nil_r, Hr.
      apply mv_created; [done|exact Hbut|]. intros ->. split; [done|by apply Hok].
    + apply wp_ret, wp_ret. split; [done|]. split; [done|].
      apply mv_created; [done|exact Hbut|]. by intros [_ ?]%app_eq_nil.
  - apply wp_ret. split; [done|]. split; [done|]. apply mv_answered.
Qed.

(** ** What survives the interleaving *)

(** A handler stops what its allocation does not name, and starts what it names. *)
Definition static pc : Prop :=
  match pc with
  | Stopping a acts rest _ => (∀ h, h ∈ rest → h ∉ all_vms a) ∧ (∀ h, h ∈ to_start acts → h ∈ all_vms a)
  | Fetching a _ rest _ => ∀ h, h ∈ rest → h ∈ all_vms a
  | Creating a _ vm rest _ _ _ => vm ∈ all_vms a ∧ ∀ h, h ∈ rest → h ∈ all_vms a
  | _ => True
  end.

Lemma moved_static R pc R' pc' : moved R pc R' pc' → pc_wf pc → static pc →
  (allocation_of pc' = allocation_of pc ∧ pc_wf pc' ∧ static pc') ∧
  (∀ h, h ∈ all_vms (allocation_of pc) → h ∈ R → h ∈ R') ∧
  (∀ h, h ∉ all_vms (allocation_of pc) → h ∈ R' → h ∈ R).
Proof.
  intros Hm. destruct Hm as [R a|R a resp|R a acts vm rest errs R' errs' Hsub Hbut He|R a acts errs
    |R a acts vm rest errs errs' He|R a acts vm rest errs msg req Hid Hreq Hwf
    |R a acts vm rest errs msg req R' errs' Hsub Hbut He|R a acts errs|R a r]; simpl; intros Hpc Hst; try done.
  - split; [|done]. split; [done|]. split; [done|]. split; intros h Hh.
    + by apply (elem_of_to_stop a R) in Hh as [_ ?].
    + by apply (elem_of_to_start a R) in Hh as [? _].
  - destruct Hst as [Hstop Hstart]. split; [split; [done|split; [done|split; [|done]]]|split].
    + intros h Hh. apply Hstop. by right.
    + intros h Hh HR. apply Hbut; [|done]. intros ->. apply (Hstop vm); [by left|done].
    + intros h _ HR. by apply Hsub.
  - by destruct Hst as [_ Hstart].
  - split; [|done]. split; [done|]. split; [done|]. intros h Hh. apply Hst. by right.
  - split; [|done]. split; [done|]. split; [done|]. split; [apply Hst; by left|]. intros h Hh. apply Hst. by right.
  - destruct Hst as [Hvm Hrest]. split; [done|]. split.
    + intros h _ HR. by apply Hsub.
    + intros h Hh HR. apply Hbut in HR; [done|]. intros ->. by apply Hh.
Qed.

(** What a handler without errors has achieved, when every allocation is for [A]: what is
    left to stop and to start. *)
Definition progress (A R : gset string) pc : Prop :=
  match pc with
  | Stopping _ acts rest errs => errs = [] →
      (∀ h, h ∈ R → h ∉ A → h ∈ rest) ∧ (∀ h, h ∈ A → h ∉ R → h ∈ to_start acts)
  | Fetching _ _ rest errs => errs = [] → R ⊆ A ∧ (∀ h, h ∈ A → h ∉ R → h ∈ rest)
  | Creating _ _ vm rest errs _ _ => errs = [] → R ⊆ A ∧ (∀ h, h ∈ A → h ∉ R → h = vm ∨ h ∈ rest)
  | Answered _ (Ok resp) => http_status resp = 200 → R = A
  | _ => True
  end.

(** The phases of others keep it. *)
Lemma progress_others A R R' pc :
  (∀ h, h ∈ A → h ∈ R → h ∈ R') → (∀ h, h ∉ A → h ∈ R' → h ∈ R) → progress A R pc → progress A R' pc.
Proof.
  intros Hin Hout. assert (R ⊆ A → R' ⊆ A) as Hsub.
  { intros HA h Hh. destruct (decide (h ∈ A)); [done|]. by apply HA, Hout. }
  destruct pc as [a|a acts rest errs|a acts rest errs|a acts vm rest errs msg req|a [resp|e|p]]; simpl; try done.
  - intros Hp He. destruct (Hp He) as [H1' H2']. split; intros h ? ?; [apply H1'|apply H2']; auto.
  - intros Hp He. destruct (Hp He) as [H1' H2']. split; [by apply Hsub|]. intros h ? ?. apply H2'; auto.
  - intros Hp He. destruct (Hp He) as [H1' H2']. split; [by apply Hsub|]. intros h ? ?. apply H2'; auto.
  - intros Hp Hst. specialize (Hp Hst). subst R. apply set_eq. intros h. split; [by apply Hsub|auto].
Qed.

(** A phase of its own makes it. *)
Lemma progress_own A R pc R' pc' :
  moved R pc R' pc' → static pc → all_vms (allocation_of pc) = A → progress A R pc → progress A R' pc'.
Proof.
  intros Hm. destruct Hm as [R a|R a resp|R a acts vm rest errs R' errs' Hsub Hbut He|R a acts errs
    |R a acts vm rest errs errs' He|R a acts vm rest errs msg req Hid Hreq Hwf
    |R a acts vm rest errs msg req R' errs' Hsub Hbut He|R a acts errs|R a r]; simpl; intros Hst HA Hp; try done.
  - intros _. split; intros h ? ?; [apply (elem_of_to_stop a R)|apply (elem_of_to_start a R)]; by rewrite HA.
  - intros [-> Hvm]%He. destruct (Hp eq_refl) as [Hstop Hstart]. destruct Hst as [Hrest _]. split.
    + intros h Hh Hn. assert (h ≠ vm) as Hne by by intros ->. specialize (Hstop h (Hsub h Hh) Hn). set_solver.
    + intros h Hh Hn. apply Hstart; [done|]. intros HR. apply Hn, Hbut; [|done]. intros ->.
      apply (Hrest vm); [by left|by rewrite HA].
  - intros He. destruct (Hp He) as [Hstop Hstart]. split; [|done]. intros h Hh. destruct (decide (h ∈ A)) as [?|Hn]; [done|].
    specialize (Hstop h Hh Hn). set_solver.
  - intros He. destruct (Hp He) as [Hsub Hin]. split; [done|]. intros h Hh Hn. specialize (Hin h Hh Hn). set_solver.
  - intros [-> Hvm]%He. destruct (Hp eq_refl) as [HRA Hin]. split.
    + intros h Hh. destruct (decide (h = vm)) as [->|Hne]; [rewrite <-HA; exact (proj1 Hst)|]. by apply HRA, Hbut.
    + intros h Hh Hn. destruct (decide (h = vm)) as [->|Hne]; [done|]. destruct (Hin h Hh); [by intros HR%Hsub|done|done].
  - intros Hs. destruct errs as [|e errs]; [|discriminate Hs]. destruct (Hp eq_refl) as [Hsub Hin].
    apply set_eq. intros h. split; [apply Hsub|]. intros Hh. destruct (decide (h ∈ R)) as [?|Hn]; [done|].
    specialize (Hin h Hh Hn). set_solver.
Qed.

(** ** The agent *)

Definition handler_ok (ok : Allocation → Prop) R pc : Prop :=
  (ok (allocation_of pc) ∧ pc_wf pc ∧ static pc) ∧
  ∀ A, (∀ a, ok a → all_vms a = A) → progress A R pc.
Definition agent_ok (ok : Allocation → Prop) : agent (C := C) (W := W) → Prop := λ '(s, w, hs),
  app_wf s ∧ ∀ i pc, hs !! i = Some pc → handler_ok ok (running s) pc.

(** What the node keeps while allocations of [ok] are applied. *)
Definition spared (ok : Allocation → Prop) R R' : Prop :=
  (∀ h, (∀ a, ok a → h ∈ all_vms a) → h ∈ R → h ∈ R') ∧ (∀ h, (∀ a, ok a → h ∉ all_vms a) → h ∈ R' → h ∈ R).

Lemma spared_trans ok R1 R2 R3 : spared ok R1 R2 → spared ok R2 R3 → spared ok R1 R3.
Proof. intros [H12 H12'] [H23 H23']. split; auto. Qed.

Lemma phase_ok ok i pc s w r s' w' hs :
  agent_ok ok (s, w, hs) → hs !! i = Some pc → advance pc (s, w) = (r, (s', w')) →
  agent_ok ok (s', w', <[i := settle (allocation_of pc) r]> hs) ∧ spared ok (running s) (running s').
Proof.
  intros [Hwf Hhs] Hi Hadv. destruct (Hhs i pc Hi) as [(Hok & Hpc & Hst) Hprog].
  pose proof (alloc_phase_spec pc s w Hwf Hpc) as Hwp. unfold wp in Hwp. rewrite Hadv in Hwp.
  destruct Hwp as (Hwf' & _ & Hmoved). cbn [fst snd] in Hmoved. set (pc' := settle (allocation_of pc) r) in *. clearbody pc'.
  destruct (moved_static _ _ _ _ Hmoved Hpc Hst) as ((Ha & Hpc' & Hst') & Hin & Hout).
  split; [split; [done|]|split; [intros h Hh; by apply Hin, Hh|intros h Hh; by apply Hout, Hh]].
  intros j pcj. intros [(-> & <- & _)|[Hne Hj]]%list_lookup_insert_Some.
  - split; [rewrite Ha; by split|]. intros A HA. eapply progress_own; [exact Hmoved|done|by apply HA|by apply Hprog].
  - destruct (Hhs j pcj Hj) as [Hokj Hpj]. split; [done|]. intros A HA.
    apply (progress_others A (running s)); [..|by apply Hpj]; rewrite <-(HA _ Hok); [exact Hin|exact Hout].
Qed.

Lemma message_ok body s w r s' w' :
  app_wf s → handle_message body (s, w) = (r, (s', w')) → app_wf s' ∧ running s' = running s.
Proof.
  intros Hwf Hm. pose proof (serve_api_keeps (PostMessages body) s w Hwf) as Hwp. unfold wp in Hwp. simpl in Hwp.
  rewrite Hm in Hwp. split; [apply Hwp|]. unfold handle_message in Hm. destruct (json_parse _ ≫= _) as [msg|].
  - unfold mbind, M_bind, modify in Hm. simpl in Hm. injection Hm as _ <- _. done.
  - injection Hm as _ <- _. done.
Qed.

Lemma agent_step_ok ok x y :
  agent_step ok x y → agent_ok ok x → agent_ok ok y ∧ spared ok (running x.1.1) (running y.1.1).
Proof.
  intros Hs. destruct Hs as [a [s w] hs Ha|i pc [s w] r [s' w'] hs Hi Hadv|body [s w] r [s' w'] hs Hm|s w w' hs].
  - intros [Hwf Hhs]. split; [|done]. split; [done|]. intros i pc [Hi|[_ Hi]]%lookup_app_Some; [by apply (Hhs i)|].
    apply list_lookup_singleton_Some in Hi as [_ <-]. split; [by split|done].
  - intros Hok. by eapply phase_ok.
  - intros [Hwf Hhs]. destruct (message_ok _ _ _ _ _ _ Hwf Hm) as [Hwf' Hr]. simpl. unfold spared. rewrite Hr. by split.
  - intros Hok. by split.
Qed.

Lemma agent_steps_ok ok x y :
  rtc (agent_step ok) x y → agent_ok ok x → agent_ok ok y ∧ spared ok (running x.1.1) (running y.1.1).
Proof.
  induction 1 as [|x1 x2 x3 Hs _ IH]; [by intros|]. intros Hok.
  destruct (agent_step_ok ok x1 x2 Hs Hok) as [Hok2 H12]. destruct (IH Hok2) as [Hok3 H23].
  split; [done|]. by eapply spared_trans.
Qed.
End facts.

(** ** Running orders *)

Section orders.
Context `{AlephTypes, Hex, Hmac, SerdeJson, Actix} {C W : Type} `{Host W, Web W, ComputeNode C W}.

Definition arrive (a : Allocation) (x : agent (C := C) (W := W)) : agent (C := C) (W := W) :=
  (x.1, x.2 ++ [Listing a]).

(** Handler [i] runs its next phase. *)
Definition run_phase (x : agent (C := C) (W := W)) (i : nat) : agent (C := C) (W := W) :=
  match x.2 !! i with
  | Some pc => let '(r, sw) := advance pc x.1 in (sw, <[i := settle (allocation_of pc) r]> x.2)
  | None => x
  end.

Lemma run_phases_steps ok x order : rtc (agent_step ok) x (foldl run_phase x order).
Proof.
  revert x. induction order as [|i order IH]; intros x; simpl; [done|]. etransitivity; [|apply IH].
  unfold run_phase. destruct x as [sw hs]. simpl. destruct (hs !! i) as [pc|] eqn:Hi; [|done].
  destruct (advance pc sw) as [r sw'] eqn:Hadv. apply rtc_once. by eapply agent_phase.
Qed.

Lemma arrive_step ok a x : ok a → agent_step ok x (arrive a x).
Proof. destruct x as [sw hs]. by apply agent_arrive. Qed.
End orders.

(** ** The property *)

Section overlap.
Context `{AlephTypes, Hex, Hmac, SerdeJson, Actix} {C W : Type} `{Host W, Web W, ComputeNodeLaws C W}.

(** C11: On any compute node that keeps the promises of the interface, allocations overlap
    in any order of their phases, with messages registered in between. No handler panics
    and the agent's state stays well formed. A running VM that every one of the
    allocations names is never stopped, whoever listed what before; a VM that none of them
    names is never started. When they all name the same VMs, as in the scheduler's retries,
    then from the moment one of them has been answered 200 the node runs exactly these VMs,
    whatever the others still do. And the phases, run in a row, are the handler. *)
Theorem overlapping_allocations (ok : Allocation → Prop) (s : AppState C) (w : W) s' w' hs :
  app_wf s → rtc (agent_step ok) (s, w, []) (s', w', hs) →
  app_wf s' ∧
  (∀ h, (∀ a, ok a → h ∈ all_vms a) → h ∈ running s → h ∈ running s') ∧
  (∀ h, (∀ a, ok a → h ∉ all_vms a) → h ∈ running s' → h ∈ running s) ∧
  (∀ i a r, hs !! i = Some (Answered a r) → ok a ∧ (∀ p, r ≠ Panic p) ∧
     ∀ resp, r = Ok resp → http_status resp = 200 → (∀ b, ok b → all_vms b = all_vms a) →
       running s' = all_vms a) ∧
  ∀ pc (sw : AppState C * W), (advance pc ≫= finish) sw = finish pc sw.
Proof.
  intros Hwf Hrun. destruct (agent_steps_ok ok _ _ Hrun) as [[Hwf' Hhs] [Hkeep Hnew]]; [by split|].
  split; [done|]. split; [exact Hkeep|]. split; [exact Hnew|]. split; [|exact advance_finish].
  intros i a r Hi. destruct (Hhs i _ Hi) as [(Ha & Hpc & _) Hprog].
  split; [exact Ha|]. split; [intros p ->; exact Hpc|]. intros resp -> Hst HA. exact (Hprog (all_vms a) HA Hst).
Qed.
End overlap.

(** ** On the node of this repository *)

Definition only (h : string) : Allocation := mk_allocation ∅ {[h]}.
Definition nothing : Allocation := mk_allocation ∅ ∅.
Definition demo_agent : agent (C := VmManager sim_net sim) (W := sim) :=
  (demo_app [demo_vm "a" None] demo_manager, demo_boot_host, []).

(** A retry of the same allocation: both handlers list before either creates, the first to
    get there creates the VM and is answered 200, the second fails to create it again. *)
Definition retried : agent (C := VmManager sim_net sim) (W := sim) :=
  foldl run_phase (arrive (only "a") (arrive (only "a") demo_agent)) [0; 1; 0; 1; 0; 1; 0; 1; 0; 1]%nat.

(** The status of each handler that ran to its end; 0 for the others. *)
Definition statuses (hs : list alloc_pc) : list Z :=
  (λ pc, match pc with Answered _ (Ok r) => http_status r | _ => 0 end) <$> hs.

Lemma answered_at (hs : list alloc_pc) i st :
  st ≠ 0 → statuses hs !! i = Some st →
  ∃ a resp, hs !! i = Some (Answered a (Ok resp)) ∧ http_status resp = st.
Proof.
  intros Hst. unfold statuses. rewrite list_lookup_fmap. destruct (hs !! i) as [pc|]; [|done].
  intros [= Hs]. destruct pc as [a|a acts rest errs|a acts rest errs|a acts vm rest errs msg req|a [resp|resp|p]];
    simpl in Hs; try congruence. by exists a, resp.
Qed.

Lemma overlapping_allocations_witness :
  statuses retried.2 = [200; 207] ∧ running retried.1.1 = all_vms (only "a").
Proof.
  assert (statuses retried.2 = [200; 207]) as Hst by (vm_compute; reflexivity). split; [exact Hst|].
  assert (rtc (agent_step (λ b, b = only "a")) demo_agent retried) as Hrun.
  { eapply rtc_l; [by apply arrive_step|]. eapply rtc_l; [by apply arrive_step|]. apply run_phases_steps. }
  unfold demo_agent in Hrun. destruct retried as [[s' w'] hs]. cbn [fst snd] in Hst |- *.
  destruct (answered_at hs 0 200) as (a & resp & Hi & H200); [done|by rewrite Hst|].
  destruct (overlapping_allocations (λ b, b = only "a") _ _ s' w' hs (demo_one_wf _ _) Hrun)
    as (_ & _ & _ & Hall & _).
  destruct (Hall 0%nat a _ Hi) as (-> & _ & Hdone).
  apply (Hdone resp eq_refl H200). by intros b ->.
Defined.

(** ** A later allocation is overtaken by an earlier one *)

(** [a] is not running: an allocation of [a] lists; an empty one comes and is answered; the
    first goes on. *)
Definition earlier_starts_1 : agent (C := VmManager sim_net sim) (W := sim) :=
  foldl run_phase (arrive nothing (foldl run_phase (arrive (only "a") demo_agent) [0%nat])) [1; 1; 1]%nat.
Definition earlier_starts_2 : agent (C := VmManager sim_net sim) (W := sim) :=
  foldl run_phase earlier_starts_1 [0; 0; 0; 0]%nat.

(** [a] is running: an empty allocation lists; one of [a] comes and is answered; the first
    goes on. *)
Definition earlier_stops_1 : agent (C := VmManager sim_net sim) (W := sim) :=
  foldl run_phase (arrive (only "a") (foldl run_phase (arrive nothing (demo_start.2, [])) [0%nat])) [1; 1; 1]%nat.
Definition earlier_stops_2 : agent (C := VmManager sim_net sim) (W := sim) :=
  foldl run_phase earlier_stops_1 [0; 0; 0]%nat.

(** An allocation is applied against the list of VMs it read at its beginning, and
    nothing orders it against later ones. On the node of this repository, in the first
    order an allocation of [a] and then an empty one arrive, the later one is answered 200
    while nothing runs, and then the earlier one starts [a]; both were answered 200, and [a]
    runs although the last allocation is empty. In the second order [a] runs, an empty
    allocation and then one of [a] arrive, the later one is answered 200 while [a] runs, and
    then the earlier one stops [a]. *)
Theorem superseded_allocation_applies :
  (rtc (agent_step (λ _, True)) demo_agent earlier_starts_1 ∧
   rtc (agent_step (λ _, True)) earlier_starts_1 earlier_starts_2 ∧
   statuses earlier_starts_1.2 = [0; 200] ∧ running earlier_starts_1.1.1 = all_vms nothing ∧
   statuses earlier_starts_2.2 = [200; 200] ∧ running earlier_starts_2.1.1 = all_vms (only "a")) ∧
  (rtc (agent_step (λ _, True)) (demo_start.2, []) earlier_stops_1 ∧
   rtc (agent_step (λ _, True)) earlier_stops_1 earlier_stops_2 ∧
   statuses earlier_stops_1.2 = [0; 200] ∧ running earlier_stops_1.1.1 = all_vms (only "a") ∧
   statuses earlier_stops_2.2 = [200; 200] ∧ running earlier_stops_2.1.1 = all_vms nothing).
Proof.
  split; (split_and!; [..|vm_compute; reflexivity|vm_compute; reflexivity|vm_compute; reflexivity|vm_compute; reflexivity]).
  - eapply rtc_l; [by apply arrive_step|]. etransitivity; [apply run_phases_steps|].
    eapply rtc_l; [by apply arrive_step|]. apply run_phases_steps.
  - apply run_phases_steps.
  - eapply rtc_l; [by apply arrive_step|]. etransitivity; [apply run_phases_steps|].
    eapply rtc_l; [by apply arrive_step|]. apply run_phases_steps.
  - apply run_phases_steps.
Qed.
