(* ===== verification/AgentLifetime.v ===== *)
(** * The scheduler agent over the life of its node

    [Scheduler] and [Grpc] joined to [NodeStart]: the agent, the compute node with its
    state files, and the machine they share. What the agent does to the node is a series
    of steps of the node's life, so what an allocation has reached is in the state files
    and the next process of the node starts with it. *)

From S2P Require Import Prelude Strs Host HostSim Json Types NetTypes Instances Crypto Http Tee SevVerify CryptoSim.
From S2P Require Import Startup Qemu Persistence Manager ManagerInv ManagerSafety ManagerProps ManagerRecover.
From S2P Require Import ManagerDurable NodeStart Grpc Messages Volumes Allocations NodeHash Adapter.
From S2P Require Import Scheduler SchedulerFacts SchedulerNode SchedulerProps StateDir.
From S2P Require Bridge PortForwards.
#[local] Open Scope Z_scope.

(** ** Names that are no state files *)

(** What [Path::join] puts before a relative name: nothing, or something with a separator
    at its end. *)
Lemma same_last r1 r2 x1 x2 :
  lacks "/"%char r1 → lacks "/"%char r2 →
  match x1 with String c _ => c = "/"%char | _ => True end →
  match x2 with String c _ => c = "/"%char | _ => True end →
  (r1 ++ x1)%str = (r2 ++ x2)%str → r1 = r2.
Proof.
  revert r2. induction r1 as [|c r1 IH]; intros [|c' r2] H1 H2 Hx1 Hx2 Heq; [done| | |].
  - apply lacks_cons in H2 as [Hc _]. change (x1 = String c' (r2 ++ x2)) in Heq. by rewrite Heq in Hx1.
  - apply lacks_cons in H1 as [Hc _]. change (String c (r1 ++ x1) = x2) in Heq. by rewrite <-Heq in Hx2.
  - apply lacks_cons in H1 as [_ H1]. apply lacks_cons in H2 as [_ H2].
    injection Heq as -> Heq. f_equal. by eapply IH.
Qed.

Lemma join_last a b : lacks "/"%char b →
  ∃ x, path_join a b = (x ++ b)%str ∧ match String.rev x with String c _ => c = "/"%char | _ => True end.
Proof.
  intros Hb. unfold path_join. rewrite lacks_no_slash by done.
  destruct (is_empty a) eqn:Ha; [by exists ""%string|].
  destruct (ends_with "/" a) eqn:Hs.
  - exists a. split; [done|]. unfold ends_with in Hs. destruct (strip_suffix "/" a) as [y|] eqn:Hy; [|done].
    apply strip_suffix_Some in Hy as ->. by rewrite str_rev_app.
  - exists (a ++ "/")%str. rewrite str_app_assoc. split; [done|]. by rewrite str_rev_app.
Qed.

(** A name without an extension is none, whatever directory it is in. *)
Lemma plain_not_state d a b : lacks "/"%char b → lacks "."%char b → ¬ state_file d (path_join a b).
Proof.
  intros Hs Hd (name & [Hn Hext] & Heq). destruct (join_last a b Hs) as (x & Hx & Hxs).
  destruct (join_last d name Hn) as (y & Hy & Hys). rewrite Hx, Hy in Heq.
  apply (f_equal String.rev) in Heq. rewrite !str_rev_app in Heq.
  apply same_last in Heq; [|by apply lacks_rev|by apply lacks_rev|done|done].
  apply (f_equal String.rev) in Heq. rewrite !str_rev_involutive in Heq. subst name.
  unfold extension in Hext. rewrite before_dot_lacks in Hext; [done|]. by apply lacks_rev.
Qed.

(** ** Downloads *)

(** The references of a message. *)
Definition volume_refs (v : MachineVolume) : list ItemHash :=
  match v with
  | Immutable v => [im_ref v]
  | Persistent v => match pe_parent v with Some p => [pv_ref p] | None => [] end
  | Ephemeral _ => []
  end.
Definition message_refs (msg : ExecutableMessage) : list ItemHash :=
  match rootfs msg with Some r => [pv_ref (rf_parent r)] | None => [] end ++
  match runtime msg with Some r => [ru_ref r] | None => [] end ++
  match code msg with Some c => [cc_ref c] | None => [] end ++
  mjoin (volume_refs <$> volumes msg).
(** Every file the message names is named by a hash as the network makes them. *)
Definition plain_refs (msg : ExecutableMessage) : Prop := Forall plain_hash (message_refs msg).

(** The web client does not touch the state directory. *)
Class QuietWeb (W : Type) (d : string) `{!Host W, !HostFs W, !StateDir W d, !Web W} : Prop :=
  quiet_web url (w : W) : undisturbed d w (web_get url w).2.

Section downloads.
Context {W : Type} (d : string) `{!Host W, !HostFs W, !StateDir W d, !Web W, !QuietWeb W d}.

Lemma still_create p w : ¬ state_file d p → undisturbed d w (host_create p w).2.
Proof.
  intros Hp h Hw. split; [by apply (sd_create (d := d))|]. intros q Hq. apply files_create_frame. by intros ->.
Qed.
Lemma still_append p s w : ¬ state_file d p → undisturbed d w (host_append p s w).2.
Proof.
  intros Hp h Hw. split; [by apply (sd_append (d := d))|]. intros q Hq. apply files_append_frame. by intros ->.
Qed.
Lemma still_rename a b w : ¬ state_file d a → ¬ state_file d b → undisturbed d w (host_rename a b w).2.
Proof.
  intros Ha Hb h Hw. split; [by apply (sd_rename (d := d))|]. intros q Hq.
  destruct (host_rename a b w) as [[e|u] w'] eqn:Hr; simpl.
  - pose proof (files_rename_err a b w e) as Hf. rewrite Hr in Hf. simpl in Hf. by rewrite (Hf eq_refl).
  - pose proof (files_rename_ok a b w u) as Hf. rewrite Hr in Hf. destruct (Hf eq_refl) as (s & _ & Hf').
    simpl in Hf'. rewrite Hf', lookup_insert_ne, lookup_delete_ne; [done|by intros ->..].
Qed.
#[local] Hint Resolve still_create still_append still_rename : cvm.

Lemma quiet_run_ext {A} msg (op : W → (string + A) * W) :
  (∀ w, undisturbed d w (op w).2) → quiet d (run_ext msg op).
Proof. intros Hop w. unfold run_ext. specialize (Hop w). by destruct (op w). Qed.

Lemma quiet_ensure_cached cache h c : plain_hash h → quiet d (ensure_cached cache h c).
Proof.
  intros Hh. pose proof Hh as (_ & Hs & Hd).
  assert (¬ state_file d (cache_path cache h c)) as Hfinal by by apply plain_not_state.
  assert (¬ state_file d (temp_path (cache_path cache h c))) as Htmp.
  { rewrite temp_path_plain by done. by apply other_file. }
  assert (∀ msg url, quiet d (run_ext msg (web_get url))) as Hweb by (intros; apply quiet_run_ext, quiet_web).
  unfold ensure_cached.
  change (path_join (path_join (base_dir cache) (cache_subdir c)) h) with (cache_path cache h c). quiet_tac.
Qed.

Lemma quiet_cached_disk cache msg h c ro f : plain_hash h → quiet d (cached_disk cache msg h c ro f).
Proof.
  intros Hh. apply quiet_bind; [by apply quiet_with_context, quiet_ensure_cached|intros; apply quiet_ret].
Qed.

(** Translating a message with plain references leaves the state files alone. *)
Lemma quiet_translate cache config msg : plain_refs msg → quiet d (translate_message cache config msg).
Proof.
  unfold plain_refs, message_refs. rewrite !Forall_app. intros (Hrf & Hru & Hcc & Hvs).
  unfold translate_message, rootfs_disk, runtime_disk, code_disk.
  apply quiet_bind; [destruct (rootfs msg); [apply quiet_cached_disk; by inversion Hrf|apply quiet_ret]|intros d1].
  apply quiet_bind; [destruct (runtime msg); [apply quiet_cached_disk; by inversion Hru|apply quiet_ret]|intros d2].
  apply quiet_bind; [destruct (code msg); [apply quiet_cached_disk; by inversion Hcc|apply quiet_ret]|intros d3].
  apply quiet_bind; [|intros; apply quiet_ret]. generalize (d1 ++ d2 ++ d3).
  induction (volumes msg) as [|v vs IH]; intros ds; simpl; [apply quiet_ret|].
  change (Forall plain_hash (volume_refs v ++ mjoin (volume_refs <$> vs))) in Hvs.
  apply Forall_app in Hvs as [Hv Hvs].
  apply quiet_bind; [|intros; by apply IH]. unfold volume_disk.
  destruct v as [v|v|v]; simpl in Hv; [apply quiet_cached_disk; by inversion Hv| |apply quiet_ret].
  destruct (pe_parent v); [apply quiet_cached_disk; by inversion Hv|apply quiet_ret].
Qed.
End downloads.

(** ** The agent's calls as steps of the node's life *)

Section reach.
Context `{!SevCrate, !OpenSsl, !Hex} {Net W : Type} `{!IpNet Net, !Host W, !HostFs W, !SerdeJson}.
Context `{!Web W, !SevGuest W} (cli : Cli Net) `{!StateDir W (cli_state_dir cli)}.
Abbreviation d := (cli_state_dir cli).
(** The machine before the first process, without state files. *)
Context (w0 : W) (Hempty : ∀ p, state_file d p → host_files w0 !! p = None).

Definition reachable (m : VmManager Net W) (w : W) : Prop := rtc (life_step cli) (None, w0) (Some m, w).

(** A call, whatever its outcome, leads on along the node's life. *)
Definition leads {E A} (c : M (VmManager Net W * W) E A) : Prop :=
  ∀ m w, reachable m w → reachable (c (m, w)).2.1 (c (m, w)).2.2.

Lemma reachable_kept m w : reachable m w → kept cli m w ∧ usable d w.
Proof. intros Hr. exact (life_steps_inv cli _ _ Hr (kept_new cli w0 Hempty)). Qed.

Lemma reachable_change m w w' : reachable m w → undisturbed d w w' → reachable m w'.
Proof.
  intros Hr Hu. destruct (reachable_kept m w Hr) as [_ Hw]. destruct (Hu Working Hw) as [Hw' Hsame].
  eapply rtc_r; [exact Hr|]. by apply life_change.
Qed.

Lemma reachable_serve q m w :
  request_wf q → request_ok d (cli_dhcp_hostsdir cli) q →
  match q with ReqRemoveForward _ _ => False | _ => True end → reachable m w →
  reachable (serve q (m, w)).2.1 (serve q (m, w)).2.2.
Proof.
  intros Hq Hok Hset Hr. eapply rtc_r; [exact Hr|]. destruct (serve q (m, w)) as [r [m' w']] eqn:Hs.
  eapply life_serve; [done..|]. by destruct q.
Qed.

Lemma leads_map_errM {E E' A} (f : E → E') (c : M (VmManager Net W * W) E A) : leads c → leads (map_errM f c).
Proof. intros Hc m w Hr. specialize (Hc m w Hr). unfold map_errM. by destruct (c (m, w)) as [[a|e|p] s']. Qed.
Lemma leads_served {A} (c : Rpc (Net := Net) (W := W) A) : leads c → leads (SchedulerNode.served c).
Proof. intros Hc m w Hr. specialize (Hc m w Hr). unfold SchedulerNode.served. by destruct (c (m, w)) as [[a|e|p] s']. Qed.
Lemma leads_pure {E A B} (c : M (VmManager Net W * W) E A) (f : A → result E B) :
  leads c → leads (a ← c; lift (f a)).
Proof. intros Hc m w Hr. specialize (Hc m w Hr). unfold mbind, M_bind. by destruct (c (m, w)) as [[a|e|p] s']. Qed.
Lemma leads_discard {A} (c : Op (Net := Net) (W := W) A) : leads (discard c) → leads c.
Proof.
  intros Hc m w Hr. specialize (Hc m w Hr). unfold discard, mbind, M_bind in Hc.
  by destruct (c (m, w)) as [[a|e|p] s'].
Qed.

Lemma leads_list : leads (Grpc.list_vms (Net := Net) (W := W)).
Proof.
  apply leads_pure, leads_map_errM, leads_discard. intros m w. by apply (reachable_serve ReqList).
Qed.
Lemma leads_delete vm : leads (Grpc.delete_vm (Net := Net) (W := W) vm).
Proof. apply leads_map_errM. intros m w. by apply (reachable_serve (ReqDelete vm)). Qed.
Lemma leads_forward vm hp vp p : leads (Grpc.add_port_forward (Net := Net) (W := W) vm hp vp p).
Proof.
  intros m w Hr. unfold Grpc.add_port_forward. unfold mbind, M_bind at 1, lift.
  destruct (map_err _ (protocol_from_str p)) as [p'|e|e]; [|done..].
  revert m w Hr. apply (leads_pure _ (λ f, Ok (forward_info f))), leads_map_errM, leads_discard. intros m w.
  pose proof (wrap_range 16 hp ltac:(lia)). pose proof (wrap_range 16 vp ltac:(lia)).
  apply (reachable_serve (ReqAddForward vm (wrap 16 hp) (wrap 16 vp) p')); [|done..].
  simpl. unfold in_width, u16_max in *. lia.
Qed.

(** A validated id names a state file, and its reservation is none. *)
Lemma validated_ok hd vm : validate_vm_id vm = Ok tt → vm_ok d hd vm.
Proof.
  intros Hv. pose proof (vm_id_lacks "/"%char vm eq_refl Hv). split.
  - split; [by intros ->|done].
  - intros h _. apply plain_not_state; [done|]. by apply vm_id_lacks.
Qed.

Lemma leads_create req : request_in_width req → leads (Grpc.create_vm (Net := Net) (W := W) req).
Proof.
  intros [Hv Hm] m w Hr.
  assert (wp (Grpc.create_vm req) (λ _ s', reachable s'.1 s'.2) (m, w)) as Hwp; [|exact Hwp].
  unfold Grpc.create_vm. apply wp_bind, wp_on_snd', validate_create_spec; [|by intros].
  intros c n [[Hid Hvalid] _ (Ev & Em & _ & _) _ _ _ _ _ [En _] _].
  assert (config_wf c) as Hcfg by (unfold config_wf; by rewrite Ev, Em, En).
  revert m w Hr. apply (leads_pure _ (λ i, Ok (vm_info_to_proto i))), leads_map_errM, leads_discard.
  intros m w. by apply (reachable_serve (ReqCreate c n (numa_hint_of req))); [|apply validated_ok|].
Qed.
End reach.

(** ** The handlers *)

Section agent.
Context `{!SevCrate, !OpenSsl, !Hex, !AlephTypes, !Hmac, !Actix, !StatusDisplay}.
Context {Net W : Type} `{!IpNet Net, !Host W, !HostFs W, !SerdeJson, !Web W, !SevGuest W} (cli : Cli Net).
Context `{!StateDir W (cli_state_dir cli), !QuietWeb W (cli_state_dir cli)}.
Context (w0 : W) (Hempty : ∀ p, state_file (cli_state_dir cli) p → host_files w0 !! p = None).
Implicit Types (s : AppState (VmManager Net W)) (w : W).

(** The messages of the agent: well formed, and with plain references. *)
Definition stored_ok s : Prop := map_Forall (λ _ msg, message_wf msg ∧ plain_refs msg) (messages s).
(** The agent and its node on one machine, the node somewhere in its life. *)
Definition on_track s w : Prop := reachable cli w0 (compute_client s) w ∧ stored_ok s.
Definition keeps {A} (c : Handler (C := VmManager Net W) (W := W) A) : Prop := ∀ s w,
  on_track s w → on_track (c (s, w)).2.1 (c (s, w)).2.2.

Lemma keeps_wp {A} (c : Handler A) :
  keeps c ↔ ∀ s w, on_track s w → wp c (λ _ x, on_track x.1 x.2) (s, w).
Proof. done. Qed.
Lemma keeps_ret {A} (a : A) : keeps (mret a).
Proof. by intros s w. Qed.
Lemma keeps_throw {A} e : keeps (throw e : Handler A).
Proof. by intros s w. Qed.
Lemma keeps_bind {A B} (c : Handler A) (f : A → Handler B) : keeps c → (∀ a, keeps (f a)) → keeps (c ≫= f).
Proof.
  intros Hc Hf s w Hs. specialize (Hc s w Hs). unfold mbind, M_bind.
  destruct (c (s, w)) as [[a|e|p] [s' w']]; [by apply Hf|done..].
Qed.
Lemma keeps_state {A} (f : AppState (VmManager Net W) → Handler A) :
  (∀ s, stored_ok s → keeps (f s)) → keeps (app_state ≫= f).
Proof. intros Hf s w Hs. apply (Hf s (proj2 Hs) s w Hs). Qed.
Lemma keeps_call {A} (c : M (VmManager Net W * W) CallError A) : leads cli w0 c → keeps (call c).
Proof.
  intros Hc s w [Hr Hs]. specialize (Hc _ _ Hr). unfold call, attempt, on_client.
  by destruct (c (compute_client s, w)) as [[a|e|p] [m' w']].
Qed.

Lemma keeps_delete vm : keeps (call (cn_delete_vm vm)).
Proof. apply keeps_call, leads_served, leads_delete. Qed.
Lemma keeps_list_vms : keeps (call cn_list_vms).
Proof. apply keeps_call, leads_served, leads_list. Qed.

Lemma keeps_stop_vms vms errors : keeps (stop_vms vms errors).
Proof.
  revert errors. induction vms as [|vm vms IH]; intros errors; simpl; [apply keeps_ret|].
  apply keeps_bind; [apply keeps_delete|intros; apply IH].
Qed.
Lemma keeps_forward_ports reqs : keeps (forward_ports reqs).
Proof.
  induction reqs as [|req reqs IH]; simpl; [apply keeps_ret|].
  apply keeps_bind; [apply keeps_call, leads_served, leads_forward|intros; apply IH].
Qed.

Lemma keeps_start_vm vm : keeps (start_vm vm).
Proof.
  apply keeps_state. intros s Hok. destruct (messages s !! vm) as [msg|] eqn:Hmsg; [|apply keeps_ret].
  destruct (Hok vm msg Hmsg) as [Hwf Hplain]. apply keeps_wp. intros s1 w [Hr Hs1].
  apply wp_bind, wp_attempt, wp_on_snd. intros r w' Ht.
  pose proof (quiet_translate _ (volume_cache s) (adapter_config s) msg Hplain w) as Hu.
  pose proof (translate_message_spec (volume_cache s) (adapter_config s) msg
    (λ r _, match r with Ok req => request_in_width req | _ => True end) w
    (λ _, translated_width msg Hwf) (λ _ _, I)) as Hreq.
  unfold wp in Hreq. rewrite Ht in Hu, Hreq.
  assert (on_track s1 w') as Hw' by (split; [by eapply reachable_change|done]).
  destruct r as [req|e|p]; [|by apply wp_ret|exact Hw']. cbv beta iota in Hreq.
  clear Hr Hs1 Hu Ht. revert s1 w' Hw' Hreq. intros s1 w' Hw' Hreq.
  apply keeps_wp; [|exact Hw']. apply keeps_bind; [by apply keeps_call, leads_served, leads_create|].
  intros [i|e|p]; [|apply keeps_ret..]. apply keeps_bind; [apply keeps_forward_ports|intros; apply keeps_ret].
Qed.
Lemma keeps_start_vms vms errors : keeps (start_vms vms errors).
Proof.
  revert errors. induction vms as [|vm vms IH]; intros errors; simpl; [apply keeps_ret|].
  apply keeps_bind; [apply keeps_start_vm|intros; apply IH].
Qed.

Lemma keeps_allocation signature body : keeps (handle_allocation signature body).
Proof.
  apply keeps_state. intros s _. destruct (negb _); [apply keeps_throw|].
  destruct (json_parse _ ≫= _) as [a|]; [|apply keeps_throw]. apply keeps_bind; [apply keeps_list_vms|].
  intros [l|e|p]; [|apply keeps_throw..]. cbv zeta.
  apply keeps_bind; [apply keeps_stop_vms|intros e1]. apply keeps_bind; [apply keeps_start_vms|intros e2].
  apply keeps_ret.
Qed.

(** Requests whose messages have plain references. *)
Definition api_ok (q : ApiRequest) : Prop :=
  match q with
  | PostMessages body => ∀ msg, json_parse (of_bytes body) ≫= message_of_json = Some msg → plain_refs msg
  | _ => True
  end.

Lemma leads_health : leads cli w0 (cn_health (C := VmManager Net W) (W := W)).
Proof.
  apply leads_served, (leads_pure _ _ _ (λ l, Ok ("ok"%string, wrap 32 (Z.of_nat (length l))))), leads_map_errM, leads_discard.
  intros m w. by apply (reachable_serve _ _ ReqList).
Qed.

Lemma keeps_api q : api_ok q → keeps (serve_api q).
Proof.
  intros Hq. destruct q as [|signature body|body]; simpl.
  - apply keeps_bind; [apply keeps_call, leads_health|intros]. apply keeps_state. intros s _. apply keeps_ret.
  - apply keeps_allocation.
  - unfold handle_message. destruct (_ ≫= _) as [msg|] eqn:Hm; [|apply keeps_throw].
    apply keeps_wp. intros s w [Hr Hs]. apply wp_bind, wp_modify, wp_ret. split; [done|].
    apply map_Forall_insert_2; [|done]. split; [|by apply Hq].
    apply bind_Some in Hm as (v & _ & Hv). by eapply message_of_json_wf.
Qed.

(** ** The agent and its node over time *)

(** The agent serves a request, or the machine changes without touching the state files. *)
Inductive agent_step : AppState (VmManager Net W) * W → AppState (VmManager Net W) * W → Prop :=
| agent_serves q s w r s' w' : api_ok q → serve_api q (s, w) = (r, (s', w')) → agent_step (s, w) (s', w')
| agent_change s w w' : undisturbed (cli_state_dir cli) w w' → agent_step (s, w) (s, w').

Lemma agent_steps_inv x y :
  rtc agent_step x y → on_track x.1 x.2 ∧ app_wf x.1 → on_track y.1 y.2 ∧ app_wf y.1.
Proof.
  induction 1 as [|x y z Hs _ IH]; [done|]. intros [Ht Hwf]. apply IH. destruct Hs as [q s w r s' w' Hq Hs|s w w' Hu].
  - pose proof (keeps_api q Hq s w Ht) as Ht'. pose proof (serve_api_keeps q s w Hwf) as Hwf'.
    unfold wp in Hwf'. rewrite Hs in Ht', Hwf'. split; [exact Ht'|apply Hwf'].
  - split; [|done]. destruct Ht as [Hr Hok]. split; [by eapply reachable_change|done].
Qed.

(** How the node starts: with exactly these VMs, or refused by an early step. *)
Definition starts_running (X : gset string) (w : W) : Prop :=
  usable (cli_state_dir cli) w → machine_ok cli w →
  wp (start_node cli) (λ r _, match r with
    | Ok m => mgr_inv m ∧ node_running m = X
    | Err e => err_msg e ∈ start_errors
    | Panic _ => False
    end) w.

Lemma restored_running (m m' : VmManager Net W) : restored m m' → node_running m' = node_running m.
Proof.
  intros Hr. apply set_eq. intros vm. unfold node_running. rewrite !elem_of_dom.
  pose proof (rs_vms _ _ Hr vm) as Hvm. destruct (vms m' !! vm), (vms m !! vm); try done.
Qed.

Lemma track_starts s w w' :
  on_track s w → rtc (down_step cli) w w' → starts_running (running s) w'.
Proof.
  intros [Hr _] Hdown Hw Hok. destruct (reachable_kept cli w0 Hempty _ _ Hr) as [Hk _].
  eapply wp_mono; [by apply (kept_starts cli (λ x, x = compute_client s) (compute_client s) w w')|].
  intros [m'|e|p] _; [|done..]. intros (m & -> & Hm). split; [apply Hm|]. by apply restored_running.
Qed.
End agent.

(** ** Properties *)

(** C10: what an allocation reaches outlasts the node's process. A node somewhere in its life
    on a machine whose state directory was empty at first, and whose file operations in
    that directory succeed while a process serves ([StateDir], [life_step]); an agent with
    messages whose references are all plain, one path component without a dot, as item
    hashes are; then any series of requests to the agent and of changes of the machine
    outside the state files; then an allocation, of which any call to the host outside the
    state directory may fail. What the agent makes the node do are steps of the node's life,
    so the node is still in its life; when the answer is 200 the node has exactly the
    allocated VMs; and whatever the answer, when the process of the node ends there, the
    next start, after any number of starts that came to nothing, has exactly the VMs of that
    moment, or is refused by the bridge, the NUMA topology or nftables. *)
Theorem allocation_outlasts_process
    `{!SevCrate, !OpenSsl, !Hex, !AlephTypes, !Hmac, !Actix, !StatusDisplay}
    {Net W : Type} `{!IpNet Net, !Host W, !HostFs W, !SerdeJson, !Web W, !SevGuest W} (cli : Cli Net)
    `{!StateDir W (cli_state_dir cli), !QuietWeb W (cli_state_dir cli)}
    (w0 w w1 : W) (s s1 : AppState (VmManager Net W)) signature body :
  (∀ p, state_file (cli_state_dir cli) p → host_files w0 !! p = None) →
  rtc (life_step cli) (None, w0) (Some (compute_client s), w) →
  app_wf s → stored_ok s → rtc (agent_step cli) (s, w) (s1, w1) →
  wp (handle_allocation signature body) (λ r '(s2, w2),
    rtc (life_step cli) (None, w0) (Some (compute_client s2), w2) ∧
    (∀ resp, r = Ok resp → http_status resp = 200 → ∃ a,
       json_parse (of_bytes body) ≫= allocation_of_json = Some a ∧ running s2 = all_vms a) ∧
    ∀ w3, rtc (down_step cli) w2 w3 → starts_running cli (running s2) w3) (s1, w1).
Proof.
  intros Hempty Hlife Hwf Hok Hsteps.
  destruct (agent_steps_inv cli w0 Hempty _ _ Hsteps) as [Ht Hwf1]; [by split|]. simpl in Ht, Hwf1.
  pose proof (keeps_allocation cli w0 Hempty signature body s1 w1 Ht) as Ht2. unfold wp.
  destruct (handle_allocation signature body (s1, w1)) as [r [s2 w2]] eqn:Hrun. simpl in Ht2. cbn [fst snd].
  split; [apply Ht2|]. split; [|intros w3; by eapply track_starts].
  intros resp -> Hst. destruct (handle_allocation_cases signature body s1 w1) as [(a & Ha & He)|(resp' & He & _)];
    rewrite He in Hrun; [|done].
  pose proof (apply_allocation_spec a s1 w1 Hwf1) as Hwp. unfold wp in Hwp. rewrite Hrun in Hwp.
  exists a. split; [done|]. destruct (applied_converges _ _ _ _ _ Hwp) as [[_ Hr]|[Hst' _]]; [done|congruence].
Qed.

(** ** A run *)

#[export] Instance sim_quiet_web : QuietWeb sim "/state".
Proof. intros url w h Hw. simpl. destruct (head (sim_outputs w)); (split; [exact Hw|by intros p _]). Qed.

(** The machine with the files that VMs boot from, where commands answer as a creation wants. *)
Definition supplied (w : sim) : sim :=
  answering (set_files (<["/boot/vmlinuz"%string := ""%string]> (<["/boot/initrd.img"%string := ""%string]>
    (sim_files w))) w) (sim_outputs demo_boot_host).

Lemma supplied_undisturbed w : undisturbed "/state" w (supplied w).
Proof.
  intros h Hw. split; [split; [by destruct h|unfold u64_max; simpl; lia]|].
  intros p Hp. unfold supplied, host_files. simpl.
  rewrite !lookup_insert_ne; [done|intros <-; by eapply (other_path "/state"), Hp..].
Qed.

Definition agent_at_start : AppState (VmManager sim_net sim) := demo_app [demo_vm "a" None] (booted boot_machine).1.
Definition agent_machine : sim := supplied (booted boot_machine).2.
Definition agent_allocated : AppState (VmManager sim_net sim) * sim :=
  (handle_allocation None (allocation_body ["a"%string]) (agent_at_start, agent_machine)).2.

Lemma starts_booted X w : starts_running demo_cli X w →
  usable "/state" w → one_node w = true → is_ok (start_node demo_cli w).1 = true → node_running (booted w).1 = X.
Proof.
  intros Hs Hw Hok%one_node_ok Hr. specialize (Hs Hw Hok). unfold wp, booted in *.
  destruct (start_node demo_cli w) as [[m'|e|p] w']; [apply Hs|done..].
Qed.

#[local] Opaque booted.

Lemma agent_life : rtc (life_step demo_cli) (None, boot_machine) (Some (compute_client agent_at_start), (booted boot_machine).2).
Proof.
  assert (usable "/state" boot_machine) as Hw by apply answering_usable.
  assert (one_node boot_machine = true) as H1 by (vm_compute; reflexivity).
  assert (is_ok (start_node demo_cli boot_machine).1 = true) as H2 by (vm_compute; reflexivity).
  unfold agent_at_start, demo_app. cbn [compute_client]. exact (rtc_once _ _ (life_starts boot_machine Hw H1 H2)).
Qed.

Lemma agent_stored : stored_ok agent_at_start.
Proof.
  unfold stored_ok, agent_at_start, demo_app. cbn [messages fmap list_fmap item_hash demo_vm].
  apply map_Forall_insert_2; [|apply map_Forall_empty]. split; [apply demo_vm_wf|constructor].
Qed.

Lemma agent_wf : app_wf agent_at_start.
Proof.
  apply demo_app_wf; [|by repeat constructor]. split.
  - by apply (reachable_kept demo_cli boot_machine boot_machine_empty _ _ agent_life).
  - assert (vms (booted boot_machine).1 = ∅) as -> by (vm_compute; reflexivity). apply map_Forall_empty.
Qed.

(** The VM [a] is allocated, and the node that starts next has it. *)
Lemma allocation_outlasts_process_witness :
  running agent_allocated.1 = {["a"%string]} ∧
  node_running (booted (answering agent_allocated.2 [])).1 = {["a"%string]}.
Proof.
  pose proof (allocation_outlasts_process demo_cli boot_machine (booted boot_machine).2 agent_machine
    agent_at_start agent_at_start None (allocation_body ["a"%string]) boot_machine_empty agent_life agent_wf
    agent_stored (rtc_once _ _ (agent_change demo_cli _ _ _ (supplied_undisturbed _)))) as Hwp.
  unfold wp in Hwp. unfold agent_allocated.
  assert ((λ r, match r with Ok resp => http_status resp | _ => 0 end) (handle_allocation None
    (allocation_body ["a"%string]) (agent_at_start, agent_machine)).1 = 200) as Hst by (vm_compute; reflexivity).
  assert (one_node (answering agent_allocated.2 []) && is_ok (start_node demo_cli (answering agent_allocated.2 [])).1
    = true) as Hboot by (vm_compute; reflexivity).
  unfold agent_allocated in Hboot.
  destruct (handle_allocation _ _ (agent_at_start, agent_machine)) as [[resp|resp|p] [s' w']]; [|discriminate Hst..].
  destruct Hwp as (_ & Hrun & Hstart). destruct (Hrun resp eq_refl Hst) as (a & Ha & Hrun').
  rewrite body_parsed in Ha. injection Ha as <-. apply andb_true_iff in Hboot as [Hone Hok].
  assert (running s' = {["a"%string]}) as Hr by (rewrite Hrun'; vm_compute; reflexivity).
  split; [exact Hr|]. rewrite <-Hr. apply starts_booted; [|apply answering_usable|exact Hone|exact Hok].
  apply Hstart, rtc_once, down_change, answering_same.
Defined.
