(* ===== verification/CvmCli.v ===== *)
(** * The command-line client

    [src/crates/aleph-cvm-cli/src/main.rs]: each command is one call of the compute node,
    whose answer is printed as JSON. The calls are those of [Scheduler.ComputeNode] and
    three more; against the service of [Grpc] the commands act on the set of VMs and on
    the table of forwards as their names say. The parsing of arguments is clap's. *)

From S2P Require Import Prelude Strs Host HostSim Json Types NetTypes Instances Tee Qemu Manager.
From S2P Require Import ManagerFrame ManagerSpec ManagerOps ManagerInv ManagerSafety ManagerProps.
From S2P Require Import Grpc Adapter NodeHash Scheduler SchedulerNode.
From S2P Require PortForwards Numa.
#[local] Open Scope Z_scope.

(** ** Arguments *)

Record CreateVmArgs := mk_create_args {
  ca_vm_id : string;
  ca_kernel : string;
  ca_initrd : string;
  ca_disk : list string;
  ca_vcpus : Z;              (** u32 *)
  ca_memory_mb : Z;          (** u32 *)
  ca_tee_backend : option string;
  ca_ipv6_address : string;
  ca_ipv6_prefix_len : Z;    (** u32 *)
  ca_encrypted : bool;
  ca_numa_node : Z;          (** u32 *)
}.

Inductive Command :=
| Health
| CreateVm (args : CreateVmArgs)
| GetVm (vm : string)
| DeleteVm (vm : string)
| ListVms
| AddPortForward (vm : string) (vm_port host_port : Z) (protocol : string)
| RemovePortForward (vm : string) (host_port : Z) (protocol : string)
| ListPortForwards (vm : string).

Record Cli := mk_cli { socket : string; command : Command }.

(** [path[:format[:ro|rw]]]. *)
Definition parse_disk (spec : string) : result error ProtoDisk :=
  match split_char ":"%char spec with
  | [path] => Ok (mk_pdisk path false "raw")
  | [path; format] => Ok (mk_pdisk path false format)
  | [path; format; mode] => Ok (mk_pdisk path (String.eqb mode "ro") format)
  | _ => Err (mk_error ("invalid disk spec '" ++ spec ++ "': expected path[:format[:ro|rw]]")%str [])
  end.

(** [collect::<Result<_>>]. *)
Fixpoint parse_disks (specs : list string) : result error (list ProtoDisk) :=
  match specs with
  | [] => Ok []
  | s :: rest => d ← parse_disk s; ds ← parse_disks rest; Ok (d :: ds)
  end.

(** ** Answers *)

Definition vm_json (vm : ProtoVmInfo) : json :=
  JObj [("vmId", JStr (pi_vm_id vm)); ("status", JStr (pi_status vm)); ("ipv4", JStr (pi_ipv4 vm));
        ("ipv6", JStr (pi_ipv6 vm)); ("teeBackend", JStr (pi_tee_backend vm));
        ("uptimeSecs", JNum (pi_uptime_secs vm)); ("numaNode", JNum (pi_numa_node vm))]%string.

Definition forward_json (f : PortForwardInfo) : json :=
  JObj [("vmId", JStr (pf_vm_id f)); ("hostPort", JNum (pf_host_port f));
        ("vmPort", JNum (pf_vm_port f)); ("protocol", JStr (pf_protocol f))]%string.

(** What [print_json] writes. *)
Definition print_json `{SerdeJson} (value : json) : string := (json_print_pretty value ++ nl)%str.

(** ** Commands *)

Record RemovePortForwardRequest := mk_rpf {
  rr_vm_id : string;
  rr_host_port : Z;   (** uint32 *)
  rr_protocol : string;
}.

(** The calls that the scheduler agent does not make. *)
Class ComputeNodeAdmin (C W : Type) := {
  cn_get_vm : string → M (C * W) CallError ProtoVmInfo;
  cn_remove_port_forward : RemovePortForwardRequest → M (C * W) CallError unit;
  cn_list_port_forwards : string → M (C * W) CallError (list PortForwardInfo);
}.

Section cli.
Context `{SerdeJson} {C W : Type} `{ComputeNode C W, ComputeNodeAdmin C W, Tonic C W}.

Definition connect (socket_path : string) : M W error C := λ w,
  match endpoint_try_from "http://[::]:0" with
  | inl e => (Err (mk_error e []), w)
  | inr _ =>
      match connect_with_socket socket_path w with
      | (inl e, w') => (Err (mk_error "failed to connect to compute-node socket" [e]), w')
      | (inr c, w') => (Ok c, w')
      end
  end.

(** [client.call(..).await.context("X RPC failed")?]. *)
Definition rpc {A} (name : string) (m : M (C * W) CallError A) : M (C * W) error A :=
  with_context (name ++ " RPC failed") (map_errM (λ e, mk_error (call_error_display e) []) m).

Definition create_request (a : CreateVmArgs) (disks : list ProtoDisk) : CreateVmRequest :=
  mk_create (ca_vm_id a) (ca_kernel a) (ca_initrd a) disks (ca_vcpus a) (ca_memory_mb a)
    ((λ backend, mk_ptee backend "") <$> ca_tee_backend a)
    (ca_ipv6_address a) (ca_ipv6_prefix_len a) (ca_encrypted a) (ca_numa_node a).

(** The arms of [main], up to the value that is printed. *)
Definition run_command (c : Command) : M (C * W) error json :=
  match c with
  | Health =>
      resp ← rpc "Health" cn_health;
      mret (JObj [("status", JStr resp.1); ("vmCount", JNum resp.2)]%string)
  | CreateVm a =>
      disks ← lift (parse_disks (ca_disk a));
      resp ← rpc "CreateVm" (cn_create_vm (create_request a disks));
      mret (vm_json resp)
  | GetVm vm => resp ← rpc "GetVm" (cn_get_vm vm); mret (vm_json resp)
  | DeleteVm vm => rpc "DeleteVm" (cn_delete_vm vm);; mret (JObj [])
  | ListVms =>
      resp ← rpc "ListVms" cn_list_vms;
      mret (JObj [("vms"%string, JArr (vm_json <$> resp))])
  | AddPortForward vm vm_port host_port protocol =>
      resp ← rpc "AddPortForward" (cn_add_port_forward (mk_apf vm host_port vm_port protocol));
      mret (forward_json resp)
  | RemovePortForward vm host_port protocol =>
      rpc "RemovePortForward" (cn_remove_port_forward (mk_rpf vm host_port protocol));;
      mret (JObj [])
  | ListPortForwards vm =>
      resp ← rpc "ListPortForwards" (cn_list_port_forwards vm);
      mret (JObj [("forwards"%string, JArr (forward_json <$> resp))])
  end.

(** The process: connect, run the command, print. *)
Definition main (cli : Cli) : M W error string := λ w,
  match connect (socket cli) w with
  | (Ok client, w1) =>
      let '(r, (_, w2)) := run_command (command cli) (client, w1) in
      (match r with Ok v => Ok (print_json v) | Err e => Err e | Panic p => Panic p end, w2)
  | (Err e, w1) => (Err e, w1)
  | (Panic p, w1) => (Panic p, w1)
  end.
End cli.

(** ** Disk specifications *)

Lemma parse_disk_path p : lacks ":"%char p → parse_disk p = Ok (mk_pdisk p false "raw").
Proof. intros Hp. unfold parse_disk. by rewrite split_char_lacks. Qed.

Lemma parse_disk_format p f : lacks ":"%char p → lacks ":"%char f →
  parse_disk (p ++ String ":" f) = Ok (mk_pdisk p false f).
Proof. intros Hp Hf. unfold parse_disk. by rewrite split_char_app, split_char_lacks. Qed.

(** Only the exact text [ro] makes a disk read-only: any other mode is writable. *)
Lemma parse_disk_mode p f mode : lacks ":"%char p → lacks ":"%char f → lacks ":"%char mode →
  parse_disk (p ++ String ":" (f ++ String ":" mode)) = Ok (mk_pdisk p (String.eqb mode "ro") f).
Proof. intros Hp Hf Hm. unfold parse_disk. by rewrite !split_char_app, split_char_lacks. Qed.

Lemma parse_disk_no_panic s p : parse_disk s ≠ Panic p.
Proof. unfold parse_disk. by repeat case_match. Qed.

Lemma parse_disks_no_panic ss p : parse_disks ss ≠ Panic p.
Proof.
  induction ss as [|s ss IH]; [done|]. simpl. pose proof (parse_disk_no_panic s) as Hs.
  destruct (parse_disk s) as [d|e|q]; [|done|by destruct (Hs q)]. cbn.
  destruct (parse_disks ss); cbn; congruence.
Qed.

(** ** Commands against the service *)

Section service.
Context {Net W : Type} `{IpNet Net} `{Host W} `{SerdeJson} `{StatusDisplay}.
Implicit Types m : VmManager Net W.

#[export] Instance grpc_admin : ComputeNodeAdmin (VmManager Net W) W := {
  cn_get_vm vm := served (Grpc.get_vm vm);
  cn_remove_port_forward req :=
    served (Grpc.remove_port_forward (rr_host_port req) (rr_protocol req));
  cn_list_port_forwards vm := served (Grpc.list_port_forwards vm);
}.

(** What an operator sees of a node: its VMs and its table of forwards. *)
Record NodeView := mk_view {
  v_vms : gset string;
  v_forwards : gmap (Z * Protocol) PortForward;
}.
Definition view m : NodeView := mk_view (dom (vms m)) (PortForwards.forwards (port_forwards m)).

(** What each command does to that view, and what it prints. *)
Definition accomplished (c : Command) (v : NodeView) (j : json) (v' : NodeView) : Prop :=
  match c with
  | Health => v' = v ∧
      j = JObj [("status"%string, JStr "ok");
                ("vmCount"%string, JNum (wrap 32 (Z.of_nat (size (v_vms v)))))]
  | CreateVm a =>
      (ca_vm_id a ∉ v_vms v) ∧ (∃ ds, parse_disks (ca_disk a) = Ok ds) ∧
      v' = mk_view ({[ca_vm_id a]} ∪ v_vms v) (v_forwards v) ∧
      json_get "vmId" j = Some (JStr (ca_vm_id a))
  | GetVm vm => vm ∈ v_vms v ∧ v' = v ∧ json_get "vmId" j = Some (JStr vm)
  | DeleteVm vm =>
      vm ∈ v_vms v ∧ j = JObj [] ∧
      v' = mk_view (v_vms v ∖ {[vm]}) (filter (λ kf, f_vm_id kf.2 ≠ vm) (v_forwards v))
  | ListVms => v' = v ∧ ∃ l, j = JObj [("vms"%string, JArr (vm_json <$> l))] ∧
      list_to_set (pi_vm_id <$> l) = v_vms v
  | AddPortForward vm vm_port host_port protocol => ∃ f,
      vm ∈ v_vms v ∧ f_vm_id f = vm ∧ f_vm_port f = wrap 16 vm_port ∧
      (wrap 16 host_port ≠ 0 → f_host_port f = wrap 16 host_port) ∧
      protocol_from_str protocol = Ok (f_protocol f) ∧
      v_forwards v !! (f_host_port f, f_protocol f) = None ∧
      v' = mk_view (v_vms v) (<[(f_host_port f, f_protocol f) := f]> (v_forwards v)) ∧
      j = forward_json (forward_info f)
  | RemovePortForward _ host_port protocol => ∃ p,
      protocol_from_str protocol = Ok p ∧ is_Some (v_forwards v !! (wrap 16 host_port, p)) ∧
      v' = mk_view (v_vms v) (delete (wrap 16 host_port, p) (v_forwards v)) ∧ j = JObj []
  | ListPortForwards vm => v' = v ∧ ∃ fs,
      j = JObj [("forwards"%string, JArr (forward_json <$> (forward_info <$> fs)))] ∧
      ∀ f, f ∈ fs ↔ (∃ k, v_forwards v !! k = Some f) ∧ (vm = ""%string ∨ f_vm_id f = vm)
  end.

(** A command that fails leaves the view alone, except that a forward may be gone. *)
Definition command_effect (c : Command) (v : NodeView) (r : result error json) (v' : NodeView) : Prop :=
  match r with
  | Ok j => accomplished c v j v'
  | Err _ => v' = v ∨
      ∃ vm host_port protocol p, c = RemovePortForward vm host_port protocol ∧
        is_Some (v_forwards v !! (wrap 16 host_port, p)) ∧
        v' = mk_view (v_vms v) (delete (wrap 16 host_port, p) (v_forwards v))
  | Panic _ => False
  end.

Definition args_in_width (c : Command) : Prop :=
  match c with
  | CreateVm a => 0 ≤ ca_vcpus a ≤ u32_max ∧ 0 ≤ ca_memory_mb a ≤ u32_max
  | _ => True
  end.

Lemma wp_rpc {A} name (call : Rpc A) (Q : result error A → VmManager Net W * W → Prop) s :
  wp call (λ r s', match r with Ok a => Q (Ok a) s' | _ => ∀ e, Q (Err e) s' end) s →
  wp (rpc name (served call)) Q s.
Proof.
  intros Hcall. apply wp_with_context, wp_map_errM, wp_served. eapply wp_mono; [exact Hcall|].
  intros [a|e|p] s' HQ; [exact HQ|apply HQ|apply HQ].
Qed.

Lemma view_frame vm m m' : frame vm m m' → view m' = view m.
Proof. intros (Hc & _ & _). apply core_eq in Hc as (Hv & _ & _ & _ & _ & _ & _ & _ & _ & Hf & _).
  unfold view. by rewrite Hv, Hf. Qed.

Lemma create_view req m w : node_inv m → request_in_width req →
  wp (Grpc.create_vm req) (λ r '(m', w'), node_inv m' ∧
    match r with
    | Ok i => (r_vm_id req ∉ v_vms (view m)) ∧ pi_vm_id i = r_vm_id req ∧
        view m' = mk_view ({[r_vm_id req]} ∪ v_vms (view m)) (v_forwards (view m))
    | _ => view m' = view m
    end) (m, w).
Proof.
  intros Hinv Hreq. pose proof (node_create_spec req m w Hinv Hreq) as F1.
  assert (wp (Grpc.create_vm req) (λ r '(m', w'),
    match r with
    | Ok i => (r_vm_id req ∉ v_vms (view m)) ∧ pi_vm_id i = r_vm_id req ∧
        view m' = mk_view ({[r_vm_id req]} ∪ v_vms (view m)) (v_forwards (view m))
    | _ => view m' = view m
    end) (m, w)) as F2.
  { destruct Hinv as [Hinv _], Hreq as [Hv Hm]. unfold Grpc.create_vm.
    apply wp_bind, wp_on_snd', validate_create_spec; [|by intros s _].
    intros c n [[Hid Hvalid] _ (Ev & Em & _ & _) _ _ _ _ _ [En _] _].
    assert (config_wf c) as Hcfg by (unfold config_wf; by rewrite Ev, Em, En).
    apply wp_bind, wp_map_errM, create_vm_spec; [apply Hinv|done|..].
    - intros i m' w' [o boot cl p n' mid v6 process now Hnew _ _ _ _ Hfr _ Hi _].
      apply view_frame in Hfr. apply wp_ret. rewrite <-Hid. split_and!.
      + by apply not_elem_of_dom.
      + done.
      + unfold view in Hfr |- *. simpl in Hfr |- *. injection Hfr as Hv' Hf'.
        by rewrite dom_insert_L, Hv', Hf'.
    - intros e m' w' [[-> _]|(_ & o & _ & [Hfr|(p & n' & _ & Hfr)])]; [done|..];
        by apply view_frame in Hfr.
    - intros e m' w' (_ & o & _ & [(a & _ & _ & _ & ->)|(_ & p & n' & _ & Hfr)]); [done|].
      by apply view_frame in Hfr. }
  unfold wp in *. destruct (Grpc.create_vm req (m, w)) as [r [m' w']]. by destruct F1.
Qed.

(** How a command runs: the service's answer, and what is printed. *)
Lemma command_call {A} name (call : Rpc A) (f : A → json) c m w :
  wp call (λ r '(m', w'), node_inv m' ∧
    match r with Ok a => accomplished c (view m) (f a) (view m') | _ => ∀ e, command_effect c (view m) (Err e) (view m') end)
    (m, w) →
  wp (a ← rpc name (served call); mret (f a))
    (λ r '(m', w'), node_inv m' ∧ command_effect c (view m) r (view m')) (m, w).
Proof.
  intros Hcall. apply wp_bind, wp_rpc. eapply wp_mono; [exact Hcall|].
  intros [a|e|p] [m' w'] [Hi Hr]; [by apply wp_ret|..]; auto.
Qed.

Lemma create_command a m w : node_inv m → args_in_width (CreateVm a) →
  wp (run_command (CreateVm a)) (λ r '(m', w'), node_inv m' ∧ command_effect (CreateVm a) (view m) r (view m'))
    (m, w).
Proof.
  intros Hinv Hargs. simpl. apply wp_bind, wp_lift.
  destruct (parse_disks (ca_disk a)) as [ds|e|p] eqn:Hds; [|split; [done|by left]|by destruct (parse_disks_no_panic _ _ Hds)].
  apply command_call. eapply wp_mono; [by apply create_view|].
  intros [i|e|p] [m' w'] [Hi Hr]; (split; [done|]); [|by left|by left].
  destruct Hr as (Hnew & Hid & Hview). simpl in Hnew, Hid, Hview |- *. split_and!; [done|by eexists|done|].
  by rewrite Hid.
Qed.

Lemma delete_command vm m w : node_inv m →
  wp (run_command (DeleteVm vm)) (λ r '(m', w'), node_inv m' ∧ command_effect (DeleteVm vm) (view m) r (view m'))
    (m, w).
Proof.
  intros Hinv. apply (command_call "DeleteVm" _ (λ _, JObj [])).
  pose proof (node_delete_spec vm m w Hinv) as F1.
  assert (wp (Grpc.delete_vm vm) (λ r '(m', w'),
    match r with
    | Ok a => accomplished (DeleteVm vm) (view m) (JObj []) (view m')
    | _ => view m' = view m end) (m, w)) as F2.
  { unfold Grpc.delete_vm. apply wp_map_errM, delete_vm_spec; [|intros h m' w' Hvm Hfr _|done].
    - intros h Hvm. by apply (ho_tap _ _ _ (inv_handles m (proj1 Hinv) vm h Hvm)).
    - apply view_frame in Hfr. rewrite Hfr. split_and!; [by apply elem_of_dom_2 in Hvm|done|].
      unfold view, without. simpl. by rewrite dom_delete_L, PortForwards.remove_all_forwards. }
  unfold wp in *. destruct (Grpc.delete_vm vm (m, w)) as [[a|e|p] [m' w']]; destruct F1 as [Hi _];
    (split; [done|]); [done|by left|by left].
Qed.
Lemma get_command vm m w : node_inv m →
  wp (run_command (GetVm vm)) (λ r '(m', w'), node_inv m' ∧ command_effect (GetVm vm) (view m) r (view m'))
    (m, w).
Proof.
  intros Hinv. apply (command_call "GetVm" _ vm_json). unfold Grpc.get_vm.
  apply wp_bind, wp_map_errM. unfold Manager.get_vm. apply wp_bind, wp_self, wp_bind, wp_lift. unfold ok_or.
  destruct (vms m !! vm) as [h|] eqn:Hvm; [|split; [done|by left]].
  apply wp_on_snd'. unfold from_handle. apply wp_bind, wp_observe, wp_ret.
  split; [done|]. split_and!; [by apply elem_of_dom_2 in Hvm|done|]. simpl.
  by rewrite (ho_id _ _ _ (inv_handles m (proj1 Hinv) vm h Hvm)).
Qed.

Lemma health_command m w : node_inv m →
  wp (run_command Health) (λ r '(m', w'), node_inv m' ∧ command_effect Health (view m) r (view m'))
    (m, w).
Proof.
  intros Hinv. apply (command_call "Health" _ (λ resp, JObj [("status", JStr resp.1); ("vmCount", JNum resp.2)]%string)).
  unfold Grpc.health. apply wp_bind, wp_map_errM. unfold Manager.list_vms.
  apply wp_bind, wp_self, wp_on_snd', infos_ids. intros l w' Hl.
  apply wp_ret. split; [done|]. split; [done|]. simpl. do 5 f_equal.
  apply (f_equal length) in Hl. rewrite !length_fmap, length_map_to_list in Hl.
  by rewrite size_dom, Hl.
Qed.

Lemma list_command m w : node_inv m →
  wp (run_command ListVms) (λ r '(m', w'), node_inv m' ∧ command_effect ListVms (view m) r (view m'))
    (m, w).
Proof.
  intros Hinv. apply (command_call "ListVms" _ (λ l, JObj [("vms"%string, JArr (vm_json <$> l))])).
  apply list_vms_ids; [apply Hinv|]. intros l w' Hl. split; [done|]. split; [done|]. by exists l.
Qed.

Lemma add_command vm vp hp pr m w : node_inv m →
  wp (run_command (AddPortForward vm vp hp pr)) (λ r '(m', w'), node_inv m' ∧
    command_effect (AddPortForward vm vp hp pr) (view m) r (view m')) (m, w).
Proof.
  intros Hinv. apply (command_call "AddPortForward" _ forward_json). simpl.
  unfold Grpc.add_port_forward. apply wp_bind, wp_lift.
  destruct (protocol_from_str pr) as [p|e|e] eqn:Hp; [|split; [done|by left]..]. simpl.
  pose proof (wrap_range 16 hp ltac:(lia)) as Hh. pose proof (wrap_range 16 vp ltac:(lia)) as Hv.
  apply wp_bind, wp_map_errM, add_port_forward_spec;
    [unfold in_width, u16_max in *; lia|unfold in_width, u16_max in *; lia| |].
  - intros f w' Hvm Hf Hid Hvp Hpr Hne Hz Hfree. apply wp_ret. split.
    + destruct Hinv as [Hinv Hids]. split; [|done]. apply add_forward_inv; [by rewrite Hid|done|done].
    + exists f. rewrite Hpr. split_and!; try done; [by apply elem_of_dom|].
      unfold view. simpl. by rewrite Hpr.
  - intros e w'. split; [done|by left].
Qed.

Lemma remove_command vm hp pr m w : node_inv m →
  wp (run_command (RemovePortForward vm hp pr)) (λ r '(m', w'), node_inv m' ∧
    command_effect (RemovePortForward vm hp pr) (view m) r (view m')) (m, w).
Proof.
  intros [Hinv Hids]. apply (command_call "RemovePortForward" _ (λ _, JObj [])). simpl.
  unfold Grpc.remove_port_forward. apply wp_bind, wp_lift.
  destruct (protocol_from_str pr) as [p|e|e] eqn:Hp; [|split; [done|by left]..]. simpl.
  apply wp_map_errM, remove_port_forward_spec.
  - intros f r w' Hf Hr. split; [split; [by apply remove_forward_inv|done]|].
    destruct r as [[]|e|q]; simpl; [|intros _; right; exists vm, hp, pr, p; split_and!; [done|by eexists|done]|by destruct (Hr q)].
    exists p. split_and!; [done|by eexists|done|done].
  - intros e w' Hnone. split; [split; [by apply remove_forward_inv|done]|]. intros _. left.
    unfold view. simpl. by rewrite delete_id.
Qed.

Lemma list_forwards_command vm m w : node_inv m →
  wp (run_command (ListPortForwards vm)) (λ r '(m', w'), node_inv m' ∧
    command_effect (ListPortForwards vm) (view m) r (view m')) (m, w).
Proof.
  intros Hinv. apply (command_call "ListPortForwards" _
    (λ l, JObj [("forwards"%string, JArr (forward_json <$> l))])).
  unfold Grpc.list_port_forwards. apply wp_bind, wp_on_fst, wp_get, wp_ret.
  split; [done|]. split; [done|]. eexists; split; [done|]. intros f.
  unfold Manager.list_port_forwards. destruct vm as [|c vm]; simpl.
  - unfold PortForwards.list_all. rewrite list_elem_of_fmap. split.
    + intros ([k g] & -> & Hk%elem_of_map_to_list). split; [by exists k|by left].
    + intros [[k Hk] _]. exists (k, f). split; [done|]. by apply elem_of_map_to_list.
  - rewrite PortForwards.elem_of_list_for_vm. naive_solver.
Qed.

(** C21: the commands of the command-line client against the service of this repository.
    On a node that satisfies its invariant every command ends in an answer or an error,
    keeps the invariant, and does to the set of VMs and to the table of forwards what it
    is named for: creation adds exactly the VM and prints its id, deletion removes
    exactly the VM with its forwards, listings print exactly what is there, an added
    forward takes a free port. Errors change nothing, with one exception:
    [remove-port-forward] may lose the forward although it fails. That command removes
    the forward on the given port whichever VM it belongs to, not only the VM named. *)
Theorem commands_effect c m w :
  node_inv m → args_in_width c →
  wp (run_command c) (λ r '(m', w'), node_inv m' ∧ command_effect c (view m) r (view m')) (m, w).
Proof.
  intros Hinv Hargs. destruct c; [apply health_command|apply create_command|apply get_command
    |apply delete_command|apply list_command|apply add_command|apply remove_command
    |apply list_forwards_command]; done.
Qed.
End service.

Definition demo_args : CreateVmArgs :=
  mk_create_args "a" "" "" ["/images/root.img:raw:ro"%string] 2 1024 (Some "none"%string) "" 0 false 0.
#[local] Instance demo_display : StatusDisplay := {
  status_display e := match e with Refused s => st_message s | Lost m => m end;
}.

Lemma commands_effect_witness :
  ∃ j m' w', run_command (CreateVm demo_args) (demo_manager, demo_rpc_host) = (Ok j, (m', w')) ∧
    node_inv m' ∧ view m' = mk_view {["a"%string]} ∅ ∧ json_get "vmId" j = Some (JStr "a").
Proof.
  assert (node_inv demo_manager) as Hinv
    by (split; [apply new_inv, Numa.demo_topology_wf|apply map_Forall_empty]).
  pose proof (commands_effect (CreateVm demo_args) demo_manager demo_rpc_host Hinv
    ltac:(split; done)) as Hwp.
  assert (is_ok (run_command (CreateVm demo_args) (demo_manager, demo_rpc_host)).1 = true) as Hok
    by vm_cast_no_check (eq_refl true).
  unfold wp in Hwp. destruct (run_command (CreateVm demo_args) (demo_manager, demo_rpc_host)) as [r [m' w']].
  destruct r as [j|e|p]; [|done..]. destruct Hwp as (Hi & _ & _ & Hv & Hj).
  exists j, m', w'. split_and!; [done|done| |done]. rewrite Hv. by vm_compute.
Defined.
