(* ===== verification/FibService.v ===== *)
(** * The demonstration service

    [src/nix/fib-service/src/main.rs]: the service that runs inside the demonstration
    guest behind the attestation agent's proxy. *)

From S2P Require Import Prelude Json Http.
#[local] Open Scope Z_scope.

(** [u64::saturating_add]. *)
Definition saturating_add (a b : Z) : Z := Z.min (a + b) u64_max.

(** The body of the loop, on [(a, b)]. *)
Definition fib_step (ab : Z * Z) : Z * Z := (ab.2, saturating_add ab.1 ab.2).

Definition fibonacci (n : Z) : Z :=
  if n =? 0 then 0 else (Nat.iter (length (range 1 n)) fib_step (0, 1)).2.

Definition fib_handler (n : Z) : HttpResponse :=
  respond 200 (JObj [("n"%string, JNum n); ("result"%string, JNum (fibonacci n))]).
Definition health_handler : HttpResponse :=
  respond 200 (JObj [("status"%string, JStr "ok")]).

(** The Fibonacci numbers. *)
Fixpoint fib (n : nat) : Z :=
  match n with
  | O => 0
  | S n' => match n' with O => 1 | S n'' => fib n' + fib n'' end
  end.

Lemma fib_nonneg n : 0 ≤ fib n ∧ 0 ≤ fib (S n).
Proof. induction n as [|n [IH IH']]; [done|]. split; [done|]. change (fib (S (S n))) with (fib (S n) + fib n). lia. Qed.

Lemma fib_iter n :
  Nat.iter n fib_step (0, 1) = (Z.min (fib n) u64_max, Z.min (fib (S n)) u64_max).
Proof.
  induction n as [|n IH]; [done|]. pose proof (fib_nonneg n) as [? ?].
  cbn [Nat.iter]. change (Nat.iter (S n) fib_step (0, 1)) with (fib_step (Nat.iter n fib_step (0, 1))).
  rewrite IH. unfold fib_step, saturating_add. cbn [fst snd]. f_equal.
  change (fib (S (S n))) with (fib (S n) + fib n). unfold u64_max in *. lia.
Qed.

(** The loop computes the Fibonacci number, or the largest u64 once it no longer fits. *)
Lemma fibonacci_saturates n : fibonacci (Z.of_nat n) = Z.min (fib n) u64_max.
Proof.
  unfold fibonacci, range. destruct n as [|n]; [done|].
  rewrite (proj2 (Z.eqb_neq _ _)) by lia. rewrite length_seqZ.
  replace (Z.to_nat (Z.of_nat (S n) - 1)) with n by lia. by rewrite fib_iter.
Qed.
