(* ===== verification/Testing.v ===== *)
(** * The repository's tests

    The [#[test]] functions under [src/] as programs over the model, with Rust's
    assertions. They are translated as they stand, in one file per crate, and each file
    ends with the fact that they pass: the definitions that the theorems are about agree
    with what the authors of the code wrote down about it. *)

From S2P Require Import Prelude Strs Host HostSim Json.

(** A test panics, or returns; its state is the value it mutates, or the machine. *)
Abbreviation Test S := (M S error unit).

Section testing.
Context {S : Type}.

(** [assert!], [assert_eq!], [assert_ne!]. *)
Definition assert (b : bool) : Test S := λ s, (if b then Ok tt else Panic "assertion failed", s).
Definition assert_eq {A} `{EqDecision A} (a b : A) : Test S := assert (bool_decide (a = b)).
Definition assert_ne {A} `{EqDecision A} (a b : A) : Test S := assert (negb (bool_decide (a = b))).

(** [unwrap] and [expect] on a value; on a call, [unwrap] and [unwrap_err]. *)
Definition unwrap {E A} (r : result E A) : M S error A := λ s,
  (match r with Ok a => Ok a | Err _ => Panic "called unwrap on an Err value" | Panic p => Panic p end, s).
Definition unwrap_err {E A} (r : result E A) : M S error E := λ s,
  (match r with Ok _ => Panic "called unwrap_err on an Ok value" | Err e => Ok e | Panic p => Panic p end, s).
Definition expect {A} (o : option A) : M S error A := λ s,
  (match o with Some a => Ok a | None => Panic "called unwrap on a None value" end, s).
Definition run_unwrap {E A} (m : M S E A) : M S error A := r ← attempt m; unwrap r.
Definition run_unwrap_err {E A} (m : M S E A) : M S error E := r ← attempt m; unwrap_err r.

(** [&error.to_string()] contains a text. *)
Definition assert_message (e : error) (text : string) : Test S := assert (contains_str text (err_msg e)).

Definition passes (t : Test S) (s : S) : bool := is_ok (t s).1.
End testing.

(** A test of pure functions. *)
Definition passes_pure (t : Test unit) : bool := passes t tt.

(** Run on the simulated machine, on an empty disk where everything works. *)
Definition passes_on_host (t : Test sim) : bool := passes t empty_sim.

(** [l[i]]. *)
Definition at_index {S A} (l : list A) (i : nat) : M S error A := expect (l !! i).

(** A list of tests, evaluated one by one. *)
Ltac run_tests := repeat split; repeat (constructor; [vm_compute; reflexivity|]); try constructor.
