(* ===== verification/NumaTests.v ===== *)
(** * Tests of NUMA topology and placement

    The tests of [src/crates/aleph-compute-node/src/numa.rs]. *)

From S2P Require Import Prelude Strs Host HostSim Json Types Numa Testing.

Definition cpu_set (l : list Z) : gset Z := list_to_set l.

Definition test_parse_cpulist_range : Test unit :=
  cpus ← unwrap (parse_cpulist "0-3"); assert_eq cpus (cpu_set [0; 1; 2; 3]).
Definition test_parse_cpulist_mixed : Test unit :=
  cpus ← unwrap (parse_cpulist "0-3,8-11"); assert_eq cpus (cpu_set [0; 1; 2; 3; 8; 9; 10; 11]).
Definition test_parse_cpulist_single : Test unit :=
  cpus ← unwrap (parse_cpulist "5"); assert_eq cpus (cpu_set [5]).
Definition test_parse_cpulist_comma_singles : Test unit :=
  cpus ← unwrap (parse_cpulist "0,2,4"); assert_eq cpus (cpu_set [0; 2; 4]).
Definition test_cpuset_string : Test unit := assert_eq (format_cpuset (cpu_set [8; 9; 10; 11])) "8-11"%string.
Definition meminfo_text (node total free : string) : string :=
  ("Node " ++ node ++ " MemTotal:       " ++ total ++ " kB" ++ nl ++
   "Node " ++ node ++ " MemFree:        " ++ free ++ " kB" ++ nl)%str.
Definition test_parse_memtotal_kb : Test unit :=
  kb ← unwrap (parse_memtotal_kb (meminfo_text "0" "131072000" "64000000")); assert_eq kb 131072000.

(** ** Topologies from files *)

(** The temporary directory of a test; the simulated host keeps no directories, so an entry
    of [read_dir] is a file of that name. *)
Definition base : string := "/tmp/sysfs".
Definition make_node (name : string) : M sim error string :=
  run_unwrap (io (host_write (path_join base name) ""));; mret (path_join base name).
Definition write_file (node name content : string) : Test sim :=
  run_unwrap (io (host_write (path_join node name) content)).

Definition test_from_sysfs_two_nodes : Test sim :=
  node0 ← make_node "node0";
  write_file node0 "cpulist" ("0-3" ++ nl)%str;;
  write_file node0 "hugepages/hugepages-2048kB/nr_hugepages" ("100" ++ nl)%str;;
  write_file node0 "hugepages/hugepages-1048576kB/nr_hugepages" ("2" ++ nl)%str;;
  write_file node0 "meminfo" (meminfo_text "0" "65536000" "32000000");;
  node1 ← make_node "node1";
  write_file node1 "cpulist" ("4-7" ++ nl)%str;;
  write_file node1 "hugepages/hugepages-2048kB/nr_hugepages" ("200" ++ nl)%str;;
  write_file node1 "hugepages/hugepages-1048576kB/nr_hugepages" ("4" ++ nl)%str;;
  write_file node1 "meminfo" (meminfo_text "1" "65536000" "32000000");;
  topo ← run_unwrap (from_sysfs base);
  assert_eq (topology_num_nodes topo) 2;;
  n0 ← at_index (nodes topo) 0;
  assert_eq (id n0) 0;; assert_eq (cpus n0) (cpu_set [0; 1; 2; 3]);;
  assert_eq (total_2m_hugepages n0) 100;; assert_eq (total_1g_hugepages n0) 2;;
  assert_eq (total_ram_mb n0) 64000;;
  n1 ← at_index (nodes topo) 1;
  assert_eq (id n1) 1;; assert_eq (cpus n1) (cpu_set [4; 5; 6; 7]);;
  assert_eq (total_2m_hugepages n1) 200;; assert_eq (total_1g_hugepages n1) 4;;
  assert_eq (total_ram_mb n1) 64000.

Definition test_from_sysfs_reads_1g_hugepages_and_memtotal : Test sim :=
  node0 ← make_node "node0";
  write_file node0 "cpulist" ("0-3" ++ nl)%str;;
  write_file node0 "hugepages/hugepages-2048kB/nr_hugepages" ("100" ++ nl)%str;;
  write_file node0 "hugepages/hugepages-1048576kB/nr_hugepages" ("4" ++ nl)%str;;
  write_file node0 "meminfo" (meminfo_text "0" "65536000" "32000000");;
  topo ← run_unwrap (from_sysfs base);
  n0 ← at_index (nodes topo) 0;
  assert_eq (total_2m_hugepages n0) 100;; assert_eq (total_1g_hugepages n0) 4;;
  assert_eq (total_ram_mb n0) 64000.

Definition test_from_sysfs_no_1g_hugepages_dir : Test sim :=
  node0 ← make_node "node0";
  write_file node0 "cpulist" ("0-3" ++ nl)%str;;
  write_file node0 "hugepages/hugepages-2048kB/nr_hugepages" ("100" ++ nl)%str;;
  write_file node0 "meminfo" (meminfo_text "0" "65536000" "32000000");;
  topo ← run_unwrap (from_sysfs base);
  n0 ← at_index (nodes topo) 0;
  assert_eq (total_1g_hugepages n0) 0.

(** ** The allocator *)

Definition two_node_topology_full (cpus0 : gset Z) (hp_2m_0 hp_1g_0 ram_mb_0 : Z)
    (cpus1 : gset Z) (hp_2m_1 hp_1g_1 ram_mb_1 : Z) : NumaTopology :=
  mk_topology [mk_node 0 cpus0 hp_2m_0 hp_1g_0 ram_mb_0; mk_node 1 cpus1 hp_2m_1 hp_1g_1 ram_mb_1].
Definition two_node_topology (cpus0 : gset Z) (hp0 : Z) (cpus1 : gset Z) (hp1 : Z) : NumaTopology :=
  two_node_topology_full cpus0 hp0 0 64000 cpus1 hp1 0 64000.

(** [let mut alloc = NumaAllocator::new(topo)], and calls on it. *)
Definition with_topology (t : NumaTopology) (body : Test NumaAllocator) : Test unit := λ s,
  ((body (new t)).1, s).
Definition place_vm (vcpus memory_mb : Z) (hint : option Z) (uses_hugepages : bool) :
    M NumaAllocator error NumaPlacement := run_unwrap (allocate vcpus memory_mb hint uses_hugepages).
Definition assert_refused (vcpus memory_mb : Z) (hint : option Z) (uses_hugepages : bool) : Test NumaAllocator :=
  r ← attempt (allocate vcpus memory_mb hint uses_hugepages); assert (is_err r).
Definition release_vm (node vcpus memory_mb : Z) (page : HugePageSize) : Test NumaAllocator :=
  modify (release node vcpus memory_mb page).

Definition four_and_four (pages : Z) : NumaTopology :=
  two_node_topology (cpu_set [0; 1; 2; 3]) pages (cpu_set [4; 5; 6; 7]) pages.
Definition four_and_four_full (hp_2m hp_1g : Z) : NumaTopology :=
  two_node_topology_full (cpu_set [0; 1; 2; 3]) hp_2m hp_1g 64000 (cpu_set [4; 5; 6; 7]) hp_2m hp_1g 64000.

Definition test_allocator_pack_first : Test unit :=
  with_topology (four_and_four 512) (
    p ← place_vm 2 256 None true; assert_eq (node p) 0;;
    p ← place_vm 4 256 None true; assert_eq (node p) 1).
Definition test_allocator_hint : Test unit :=
  with_topology (four_and_four 512) (p ← place_vm 2 256 (Some 1) true; assert_eq (node p) 1).
Definition test_allocator_reject_when_full : Test unit :=
  with_topology (four_and_four 512) (
    place_vm 4 256 None true;; place_vm 4 256 None true;; assert_refused 1 64 None true).
Definition test_allocator_release : Test unit :=
  with_topology (four_and_four 512) (
    place_vm 4 1024 None true;;
    p ← place_vm 1 64 None true; assert_eq (node p) 1;;
    release_vm 0 4 1024 Size2M;;
    p ← place_vm 1 64 None true; assert_eq (node p) 0).
Definition test_allocator_memory_overflow : Test unit :=
  with_topology (four_and_four 256) (assert_refused 1 600 None true).
Definition test_allocator_no_hugepage_check : Test unit :=
  with_topology (four_and_four 0) (
    assert_refused 1 1024 None true;;
    p ← place_vm 1 1024 None false; assert_eq (node p) 0).
Definition test_allocator_selects_1g_pages : Test unit :=
  with_topology (four_and_four_full 512 4) (
    p ← place_vm 2 2048 None true; assert_eq (node p) 0;; assert_eq (placement_page p) Size1G).
Definition test_allocator_falls_back_to_2m : Test unit :=
  with_topology (four_and_four_full 2048 4) (
    p ← place_vm 2 1500 None true; assert_eq (placement_page p) Size2M).
Definition test_allocator_1g_exhausted_falls_back_to_2m : Test unit :=
  with_topology (four_and_four_full 2048 2) (
    p ← place_vm 1 2048 None true; assert_eq (placement_page p) Size1G;;
    p ← place_vm 1 2048 None true; assert_eq (node p) 0;; assert_eq (placement_page p) Size2M).
Definition test_allocator_release_1g_pages : Test unit :=
  with_topology (four_and_four_full 512 2) (
    place_vm 1 2048 None true;;
    release_vm 0 1 2048 Size1G;;
    p ← place_vm 1 2048 None true; assert_eq (placement_page p) Size1G).

(** The tests pass. *)
Lemma numa_tests_pass :
  Forall (λ t, passes_pure t = true)
    [test_parse_cpulist_range; test_parse_cpulist_mixed; test_parse_cpulist_single;
     test_parse_cpulist_comma_singles; test_cpuset_string; test_parse_memtotal_kb;
     test_allocator_pack_first; test_allocator_hint; test_allocator_reject_when_full;
     test_allocator_release; test_allocator_memory_overflow; test_allocator_no_hugepage_check;
     test_allocator_selects_1g_pages; test_allocator_falls_back_to_2m;
     test_allocator_1g_exhausted_falls_back_to_2m; test_allocator_release_1g_pages] ∧
  Forall (λ t, passes_on_host t = true)
    [test_from_sysfs_two_nodes; test_from_sysfs_reads_1g_hugepages_and_memtotal;
     test_from_sysfs_no_1g_hugepages_dir].
Proof. by run_tests. Qed.
