(* ===== verification/NetworkTests.v ===== *)
(** * Tests of the network crate and of the bridge

    The tests of [src/crates/aleph-network/src/] ([types.rs], [nftables/chains.rs],
    [nftables/rules.rs], [ipv6/range_allocator.rs], [ipv4/port_forward.rs]) and of
    [src/crates/aleph-compute-node/src/network/tap.rs]. *)

From S2P Require Import Prelude Strs Host HostSim Json Types NetTypes Ipv6Text Instances NftRules Testing.
From S2P Require PortForwards Ipv6 Bridge.

(** ** Protocols *)

Definition test_protocol_display_and_parse : Test unit :=
  assert_eq (print_protocol Tcp) "tcp"%string;; assert_eq (print_protocol Udp) "udp"%string;;
  p ← unwrap (protocol_from_str "tcp"); assert_eq p Tcp;;
  p ← unwrap (protocol_from_str "UDP"); assert_eq p Udp;;
  assert (is_err (protocol_from_str "invalid")).

(** ** Chains and rules *)

Definition chain_ruleset : list json :=
  [JObj [("chain"%string, JObj
    [("family", JStr "ip"); ("table", JStr "nat"); ("name", JStr "POSTROUTING"); ("handle", JNum 1);
     ("type", JStr "nat"); ("hook", JStr "postrouting"); ("prio", JNum 100);
     ("policy", JStr "accept")]%string)]].
Definition test_chain_exists : Test unit :=
  assert (chain_exists chain_ruleset "ip" "nat" "POSTROUTING");;
  assert (negb (chain_exists chain_ruleset "ip" "nat" "nonexistent"));;
  assert (negb (chain_exists chain_ruleset "ip6" "nat" "POSTROUTING")).

Definition test_add_chain_if_not_present : Test unit :=
  let ruleset := [JObj [("chain"%string,
    JObj [("family", JStr "ip"); ("table", JStr "nat"); ("name", JStr "existing")]%string)]] in
  assert_eq (length (add_chain_if_not_present ruleset "ip" "nat" "existing")) 0%nat;;
  let cmds := add_chain_if_not_present ruleset "ip" "nat" "new-chain" in
  assert_eq (length cmds) 1%nat;;
  cmd ← at_index cmds 0;
  let name : option string := (c ← json_get "add" cmd; c ← json_get "chain" c; str_field "name" c) in
  assert_eq name (Some "new-chain"%string).

Definition test_rule_jumps_to : Test unit :=
  let rule := JObj [("family", JStr "ip"); ("table", JStr "nat"); ("chain", JStr "POSTROUTING");
    ("expr", JArr [JObj [("jump", JObj [("target", JStr "aleph-supervisor-nat")])]])]%string in
  assert (rule_jumps_to rule "aleph-supervisor-nat");; assert (negb (rule_jumps_to rule "other-chain")).

Definition dport_8080_to_80 : json := JArr
  [JObj [("match", JObj [("op", JStr "==");
     ("left", JObj [("payload", JObj [("protocol", JStr "tcp"); ("field", JStr "dport")])]); ("right", JNum 8080)])];
   JObj [("dnat", JObj [("addr", JStr "172.16.0.2"); ("port", JNum 80)])]]%string.
Definition test_port_in_use : Test unit :=
  let ruleset := [JObj [("rule"%string, JObj [("family", JStr "ip"); ("table", JStr "nat");
    ("chain", JStr "aleph-supervisor-prerouting"); ("expr", dport_8080_to_80)]%string)]] in
  assert (port_in_use ruleset 8080);; assert (port_in_use ruleset 80);; assert (negb (port_in_use ruleset 9090)).

Definition test_is_dnat_rule_matching : Test unit :=
  let rule := JObj [("chain", JStr "aleph-supervisor-prerouting"); ("expr", dport_8080_to_80)]%string in
  assert (is_dnat_rule_matching rule "aleph-supervisor-prerouting" 8080 80 Tcp);;
  assert (negb (is_dnat_rule_matching rule "aleph-supervisor-prerouting" 9090 80 Tcp));;
  assert (negb (is_dnat_rule_matching rule "other-chain" 8080 80 Tcp)).

(** ** IPv6 ranges *)

Section ranges.
Let alloc_test : Type := (Ipv6.Ipv6RangeAllocator sim_net * sim)%type.

(** ["a/p".parse::<Ipv6Net>()]: the text is [ipnet]'s, address and length are what it means. *)
Definition parse_net {S} (a : string) (p : Z) : M S error sim_net :=
  addr ← expect (parse_ipv6 a); expect (net_new addr p).
(** A test on a new allocator of the pool 2001:db8::/48, with random numbers to draw. *)
Definition on_allocator (pool : sim_net) (draws : list Z) (body : Test alloc_test) : Test unit := λ s,
  ((body (Ipv6.new pool 128, mk_sim ∅ [] [] draws 0 [])).1, s).
Definition with_pool (draws : list Z) (body : Test alloc_test) : Test unit :=
  pool ← parse_net "2001:db8::" 48; on_allocator pool draws body.
Definition release_net (vm : string) : M alloc_test error (option sim_net) :=
  on_fst (λ a, let '(n, a') := Ipv6.release vm a in (Ok n, a')).
Definition allocate_net (vm : string) (n : option sim_net) : M alloc_test error sim_net :=
  run_unwrap (Ipv6.allocate vm n).

Definition test_allocate_within_pool : Test unit :=
  with_pool [] (
    addr ← parse_net "2001:db8::1" 128;
    n ← allocate_net "vm-1" (Some addr); assert_eq (net_print n) (net_print addr)).
Definition test_allocate_outside_pool : Test unit :=
  with_pool [] (
    addr ← parse_net "2001:db9::1" 128;
    e ← run_unwrap_err (Ipv6.allocate "vm-1" (Some addr)); assert_message e "not within pool").
Definition test_overlap_rejection : Test unit :=
  with_pool [] (
    addr ← parse_net "2001:db8::1" 128;
    allocate_net "vm-1" (Some addr);;
    e ← run_unwrap_err (Ipv6.allocate "vm-2" (Some addr)); assert_message e "overlaps").
Definition test_overlap_subnet : Test unit :=
  with_pool [] (
    wide ← parse_net "2001:db8:0:1::" 64;
    allocate_net "vm-1" (Some wide);;
    narrow ← parse_net "2001:db8:0:1::5" 128;
    r ← attempt (Ipv6.allocate "vm-2" (Some narrow)); assert (is_err r)).
Definition test_release_and_reuse : Test unit :=
  with_pool [] (
    addr ← parse_net "2001:db8::1" 128;
    allocate_net "vm-1" (Some addr);;
    released ← release_net "vm-1";
    assert_eq (net_print <$> released) (Some (net_print addr));;
    allocate_net "vm-2" (Some addr);; mret tt).
Definition test_random_produces_valid_address (draw : Z) : Test unit :=
  with_pool [draw] (
    result ← allocate_net "vm-1" None;
    assert_eq (prefix_len result) 128;;
    pool ← parse_net "2001:db8::" 48;
    assert ((network pool <=? net_addr result) && (net_addr result <=? broadcast pool))).
Definition test_multiple_random_no_overlap : Test unit :=
  with_pool [7; 3; 3; 99; 2 ^ 40; 2 ^ 63; 5; 3; 1; 11; 12; 13; 14; 15] (
    forM_ (range 0 10) (λ i, allocate_net ("vm-" ++ print_dec i)%str None;; mret tt);;
    a ← on_fst get;
    let addrs := net_print ∘ snd <$> map_to_list (Ipv6.allocations a) in
    assert (bool_decide (NoDup addrs))).
End ranges.

(** ** Port forwards *)

Definition with_forwards (body : Test PortForwards.PortForwardState) : Test unit := λ s, ((body PortForwards.new).1, s).
Definition forward (vm : string) (host_port vm_port : Z) : PortForward := mk_forward vm host_port vm_port Tcp.
Definition register (f : PortForward) : Test PortForwards.PortForwardState := modify (PortForwards.add f).

Definition remove_all (vm : string) : M PortForwards.PortForwardState error (list PortForward) := λ s,
  let '(fs, s') := PortForwards.remove_all_for_vm vm s in (Ok fs, s').

Definition test_port_availability : Test unit :=
  with_forwards (
    s ← get; assert (PortForwards.is_available 8080 Tcp s);;
    register (forward "vm1" 8080 80);;
    s ← get; assert (negb (PortForwards.is_available 8080 Tcp s));;
    assert (PortForwards.is_available 8080 Udp s)).
Definition test_auto_allocate : Test unit :=
  with_forwards (
    register (forward "vm1" 10000 80);;
    s ← get; port ← expect (PortForwards.auto_allocate Tcp 10000 s); assert_eq port 10001).
Definition test_list_and_remove_for_vm : Test unit :=
  with_forwards (
    register (forward "vm1" 8080 80);; register (forward "vm1" 8443 443);; register (forward "vm2" 9090 80);;
    s ← get;
    assert_eq (length (PortForwards.list_for_vm "vm1" s)) 2%nat;;
    assert_eq (length (PortForwards.list_for_vm "vm2" s)) 1%nat;;
    removed ← remove_all "vm1"; assert_eq (length removed) 2%nat;;
    s ← get;
    assert_eq (length (PortForwards.list_for_vm "vm1" s)) 0%nat;;
    assert_eq (length (PortForwards.list_for_vm "vm2" s)) 1%nat).

(** ** Addresses and reservations *)

Definition ip4 (a b c d : Z) : Ipv4Addr := from_octets (a, b, c, d).
Definition test_allocate_vm_ip : Test unit :=
  let gw := ip4 10 0 100 1 in
  assert_eq (Bridge.allocate_vm_ip gw 1) (ip4 10 0 100 2);;
  assert_eq (Bridge.allocate_vm_ip gw 5) (ip4 10 0 100 6);;
  assert_eq (Bridge.allocate_vm_ip gw 0) (ip4 10 0 100 1).
Definition test_mac_for_vm_ip : Test unit :=
  assert_eq (Bridge.mac_for_vm_ip (ip4 10 0 100 2)) "52:54:00:00:64:02"%string;;
  assert_eq (Bridge.mac_for_vm_ip (ip4 10 0 100 10)) "52:54:00:00:64:0a"%string;;
  assert_eq (Bridge.mac_for_vm_ip (ip4 192 168 1 42)) "52:54:00:a8:01:2a"%string.

Definition assert_content (path content : string) : Test sim :=
  c ← run_unwrap (io (host_read path)); assert_eq c content.
Definition assert_absent (path : string) : Test sim := e ← observe (host_exists path); assert (negb e).

Definition test_write_and_remove_dhcpv6_reservation : Test sim :=
  ipv6 ← expect (parse_ipv6 "2001:db8::5");
  run_unwrap (Bridge.write_dhcpv6_reservation "/tmp/d" "test-vm" "52:54:00:00:64:05" ipv6);;
  assert_content "/tmp/d/test-vm.v6" ("52:54:00:00:64:05,id:*,[2001:db8::5]" ++ nl)%str;;
  run_unwrap (Bridge.remove_dhcpv6_reservation "/tmp/d" "test-vm");;
  assert_absent "/tmp/d/test-vm.v6";;
  run_unwrap (Bridge.remove_dhcpv6_reservation "/tmp/d" "test-vm").
Definition test_write_and_remove_dhcp_reservation : Test sim :=
  let ip := ip4 10 0 100 5 in
  run_unwrap (Bridge.write_dhcp_reservation "/tmp/d" "test-vm" (Bridge.mac_for_vm_ip ip) ip);;
  assert_content "/tmp/d/test-vm" ("52:54:00:00:64:05,10.0.100.5" ++ nl)%str;;
  run_unwrap (Bridge.remove_dhcp_reservation "/tmp/d" "test-vm");;
  assert_absent "/tmp/d/test-vm";;
  run_unwrap (Bridge.remove_dhcp_reservation "/tmp/d" "test-vm").

(** The search stops at the second of 55536 ports, which are not worth building. *)
Lemma test_auto_allocate_passes : passes_pure test_auto_allocate = true.
Proof.
  assert (PortForwards.auto_allocate Tcp 10000 (PortForwards.add (forward "vm1" 10000 80) PortForwards.new) = Some 10001) as Ha.
  { unfold PortForwards.auto_allocate, range. rewrite (seqZ_cons 10000), (seqZ_cons (Z.succ 10000)) by lia. done. }
  unfold passes_pure, passes, test_auto_allocate, with_forwards, register, modify, get, mbind, M_bind.
  cbv beta iota. by rewrite Ha.
Qed.

(** The others pass, the one with a random address for several draws. *)
Lemma network_tests_pass :
  Forall (λ t, passes_pure t = true)
    ([test_protocol_display_and_parse; test_chain_exists; test_add_chain_if_not_present; test_rule_jumps_to;
      test_port_in_use; test_is_dnat_rule_matching; test_allocate_within_pool; test_allocate_outside_pool;
      test_overlap_rejection; test_overlap_subnet; test_release_and_reuse] ++
     [test_random_produces_valid_address 0; test_random_produces_valid_address 41;
      test_random_produces_valid_address (2 ^ 63); test_multiple_random_no_overlap;
      test_port_availability; test_list_and_remove_for_vm;
      test_allocate_vm_ip; test_mac_for_vm_ip]) ∧
  Forall (λ t, passes_on_host t = true)
    [test_write_and_remove_dhcpv6_reservation; test_write_and_remove_dhcp_reservation].
Proof. by run_tests. Qed.
