(* ===== verification/TeeTests.v ===== *)
(** * Tests of the TEE crate and of the attestation agent

    The tests of [src/crates/aleph-tee/src/] ([types.rs], [x509.rs], [none.rs] and
    [sev_snp/]) and of [src/crates/aleph-attest-agent/src/] ([attestation.rs], [tls.rs]).
    JSON text is given as the value it denotes, since reading it is [serde_json]'s. Where
    a test signs, hashes or makes a certificate, it runs on the simulated cryptography. *)

From S2P Require Import Prelude Strs Host HostSim Json Types Instances Crypto Http X509.
From S2P Require Import SevCerts Tee SevVerify Agent CryptoSim Testing.
#[local] Open Scope Z_scope.

(** ** types.rs *)

Definition test_tee_type_serialization : Test unit :=
  assert_eq (as_str (tee_type_json SevSnp)) (Some "sev-snp"%string);;
  assert_eq (as_str (tee_type_json Tdx)) (Some "tdx"%string);;
  assert_eq (as_str (tee_type_json NvidiaCc)) (Some "nvidia-cc"%string);;
  t ← expect (tee_type_of_json (JStr "sev-snp")); assert_eq t SevSnp.
Definition test_tee_type_none_serialization : Test unit :=
  assert_eq (as_str (tee_type_json TeeNone)) (Some "none"%string);;
  t ← expect (tee_type_of_json (JStr "none")); assert_eq t TeeNone.

Definition same_report (a b : AttestationReport) : Test unit :=
  assert_eq (ar_tee_type a) (ar_tee_type b);; assert_eq (ar_data a) (ar_data b);;
  assert_eq (ar_report_data a) (ar_report_data b);; assert_eq (ar_measurement a) (ar_measurement b).
Definition hex_field (k : string) (v : json) : string := default ""%string (json_get k v ≫= as_str).
Definition test_attestation_report_roundtrip : Test unit :=
  let report := mk_report SevSnp [xde; xad; xbe; xef] (replicate 64 x42) [x01; x02; x03] in
  let v := report_json report in
  deserialized ← expect (report_of_json v);
  same_report deserialized report;;
  assert (contains_str "deadbeef" (hex_field "data" v));;
  assert (contains_str (join "" (replicate 64 "42"%string)) (hex_field "report_data" v));;
  assert (contains_str "010203" (hex_field "measurement" v)).

Definition test_vm_config_deserialization : Test unit :=
  config ← expect (config_of_json (JObj
    [("vm_id", JStr "test-vm-001"); ("kernel", JStr "/boot/vmlinuz"); ("initrd", JStr "/boot/initrd.img");
     ("disks", JArr
       [JObj [("path", JStr "/images/rootfs.ext4"); ("readonly", JBool true); ("format", JStr "raw")];
        JObj [("path", JStr "/data/volume.qcow2"); ("readonly", JBool false); ("format", JStr "qcow2")]]);
     ("vcpus", JNum 4); ("memory_mb", JNum 2048);
     ("tee", JObj [("backend", JStr "sev-snp"); ("policy", JStr "0x30000")])]%string));
  assert_eq (vm_id config) "test-vm-001"%string;;
  assert_eq (kernel config) (Some "/boot/vmlinuz"%string);;
  assert_eq (initrd config) (Some "/boot/initrd.img"%string);;
  assert_eq (length (disks config)) 2%nat;;
  d ← at_index (disks config) 0;
  assert_eq (d_path d) "/images/rootfs.ext4"%string;; assert (d_readonly d);; assert_eq (d_format d) "raw"%string;;
  d ← at_index (disks config) 1;
  assert_eq (d_path d) "/data/volume.qcow2"%string;; assert (negb (d_readonly d));;
  assert_eq (d_format d) "qcow2"%string;;
  assert_eq (vcpus config) 4;; assert_eq (memory_mb config) 2048;;
  assert_eq (t_backend (tee config)) SevSnp;; assert_eq (t_policy (tee config)) (Some "0x30000"%string).
Definition test_vm_config_no_disks : Test unit :=
  config ← expect (config_of_json (JObj
    [("vm_id", JStr "test-vm-002"); ("kernel", JStr "/boot/vmlinuz"); ("initrd", JStr "/boot/initrd.img");
     ("vcpus", JNum 2); ("memory_mb", JNum 1024);
     ("tee", JObj [("backend", JStr "tdx"); ("policy", JNull)])]%string));
  assert_eq (length (disks config)) 0%nat;;
  assert_eq (t_backend (tee config)) Tdx;; assert_eq (t_policy (tee config)) None.
Definition test_disk_config_defaults : Test unit :=
  disk ← expect (disk_of_json (JObj [("path", JStr "/images/rootfs.ext4")]%string));
  assert (d_readonly disk);; assert_eq (d_format disk) "raw"%string.
Definition test_vm_config_optional_kernel : Test unit :=
  config ← expect (config_of_json (JObj
    [("vm_id", JStr "test-vm");
     ("disks", JArr [JObj [("path", JStr "/images/ubuntu.qcow2"); ("readonly", JBool false); ("format", JStr "qcow2")]]);
     ("vcpus", JNum 2); ("memory_mb", JNum 2048); ("tee", JObj [("backend", JStr "none")])]%string));
  assert_eq (kernel config) None;; assert_eq (initrd config) None;; assert_eq (t_backend (tee config)) TeeNone.
Definition test_vm_config_backward_compat_with_kernel : Test unit :=
  config ← expect (config_of_json (JObj
    [("vm_id", JStr "test-vm"); ("kernel", JStr "/boot/vmlinuz"); ("initrd", JStr "/boot/initrd.img");
     ("vcpus", JNum 2); ("memory_mb", JNum 2048);
     ("tee", JObj [("backend", JStr "sev-snp"); ("policy", JStr "0x30000")])]%string));
  k ← expect (kernel config); assert_eq k "/boot/vmlinuz"%string;;
  i ← expect (initrd config); assert_eq i "/boot/initrd.img"%string.

(** ** x509.rs *)

Definition make_test_report : AttestationReport :=
  mk_report SevSnp [xde; xad; xbe; xef; x01; x02; x03; x04] (replicate 64 x42) (replicate 48 xab).
Definition test_encode_decode_roundtrip : Test unit :=
  encoded ← unwrap (encode_attestation_extension make_test_report);
  tag ← at_index encoded 0; assert_eq tag x04;;
  decoded ← unwrap (decode_attestation_extension encoded);
  same_report decoded make_test_report.
Definition test_encode_decode_different_tee_types : Test unit :=
  forM_ [SevSnp; Tdx; NvidiaCc] (λ t,
    encoded ← unwrap (encode_attestation_extension (mk_report t [x01] (replicate 64 x00) (replicate 32 xff)));
    decoded ← unwrap (decode_attestation_extension encoded);
    assert_eq (ar_tee_type decoded) t).
Definition test_decode_invalid_der : Test unit := assert (is_err (decode_attestation_extension [xff; xff])).
Definition test_decode_invalid_json_in_octet_string : Test unit :=
  octet_string ← unwrap (ext (octets_new (to_bytes "not json")));
  der_bytes ← unwrap (ext (octets_to_der octet_string));
  assert (is_err (decode_attestation_extension der_bytes)).
Definition test_extract_from_cert_with_extension : Test sim :=
  extension_value ← unwrap (encode_attestation_extension make_test_report);
  params ← unwrap (ext (params_new ["localhost"%string]));
  key_pair ← run_unwrap (run_q generate_p384);
  cert_der ← unwrap (ext (self_signed params [(ATTESTATION_OID, extension_value)] key_pair));
  extracted ← unwrap (extract_attestation_from_cert cert_der);
  extracted ← expect extracted;
  assert_eq (ar_tee_type extracted) SevSnp;; assert_eq (ar_data extracted) (ar_data make_test_report);;
  assert_eq (ar_report_data extracted) (replicate 64 x42);; assert_eq (ar_measurement extracted) (replicate 48 xab).
Definition test_extract_from_cert_without_extension : Test sim :=
  params ← unwrap (ext (params_new ["localhost"%string]));
  key_pair ← run_unwrap (run_q generate_p384);
  cert_der ← unwrap (ext (self_signed params [] key_pair));
  extracted ← unwrap (extract_attestation_from_cert cert_der);
  assert (match extracted with None => true | Some _ => false end).
Definition test_extract_from_invalid_cert : Test unit :=
  assert (is_err (extract_attestation_from_cert [x30; x00])).

(** ** none.rs *)

Definition test_vm_config : VmConfig :=
  mk_config "test-no-tee" None None [] 2 2048 (mk_tee TeeNone None) false None None.
Definition test_no_tee_backend_type : Test unit := assert_eq (tee_type (no_tee_backend sim)) TeeNone.
Definition test_no_tee_qemu_args : Test unit :=
  assert_eq (qemu_args (no_tee_backend sim) test_vm_config) ["-cpu"; "host"]%string.
Definition test_no_tee_attestation_fails : Test sim :=
  let backend := no_tee_backend sim in
  let text := "attestation not available: VM is not running in a TEE"%string in
  e ← run_unwrap_err (get_report backend (replicate 64 x00)); assert_message e text;;
  e ← unwrap_err (parse_report backend (replicate 128 x00)); assert_message e text;;
  e ← run_unwrap_err (verify_report backend (mk_report TeeNone (replicate 64 x00) (replicate 64 x00) (replicate 48 x00)));
  assert_message e text.

(** ** sev_snp/qemu.rs *)

Definition make_config (memory_mb : Z) (policy : option string) : VmConfig :=
  mk_config "test-vm" (Some "/boot/vmlinuz"%string) (Some "/boot/initrd.img"%string) [] 2 memory_mb
    (mk_tee SevSnp policy) false None None.
Definition default_args (c : VmConfig) : list string := sev_snp_qemu_args c DEFAULT_OVMF_PATH.
(** The first argument that contains a text. *)
Definition find_arg {S} (text : string) (args : list string) : M S error string :=
  expect (List.find (contains_str text) args).
Definition assert_in (text arg : string) : Test unit := assert (contains_str text arg).
Definition assert_not_in (text arg : string) : Test unit := assert (negb (contains_str text arg)).

Definition test_sev_snp_args_with_policy : Test unit :=
  sev_arg ← find_arg "sev-snp-guest" (default_args (make_config 2048 (Some "0x50000"%string)));
  assert_in "policy=0x50000" sev_arg;; assert_in "kernel-hashes=on" sev_arg.
Definition test_sev_snp_args_default_policy : Test unit :=
  sev_arg ← find_arg "sev-snp-guest" (default_args (make_config 2048 None));
  assert_in "policy=0x30000" sev_arg;; assert_in "kernel-hashes=on" sev_arg.
Definition test_memory_backend_matches_config : Test unit :=
  mem_arg ← find_arg "memory-backend-memfd" (default_args (make_config 4096 None));
  assert_in "size=4096M" mem_arg.
Definition test_machine_arg_present : Test unit :=
  let args := default_args (make_config 1024 None) in
  assert_eq (length args) 11%nat;;
  a ← at_index args 0; assert_eq a "-cpu"%string;;
  a ← at_index args 1; assert_eq a "EPYC-v4"%string;;
  a ← at_index args 2; assert_eq a "-machine"%string;;
  a ← at_index args 3;
  assert_in "q35" a;; assert_in "confidential-guest-support=sev0" a;; assert_in "memory-backend=ram1" a.
Definition test_memory_backend_numa_binding : Test unit :=
  let config := set_hugepage_size (Some Size2M) (set_numa_node (Some 1) (make_config 2048 None)) in
  mem_arg ← find_arg "memory-backend-memfd" (default_args config);
  assert_in "host-nodes=1" mem_arg;; assert_in "policy=bind" mem_arg.
Definition test_memory_backend_no_numa : Test unit :=
  mem_arg ← find_arg "memory-backend-memfd" (default_args (set_hugepage_size (Some Size2M) (make_config 2048 None)));
  assert_not_in "host-nodes" mem_arg.
Definition test_custom_ovmf_path : Test unit :=
  let args := sev_snp_qemu_args (make_config 1024 None) "/opt/custom/OVMF.fd" in
  bios_idx ← expect (position (λ a, String.eqb a "-bios") args);
  a ← at_index args (S bios_idx); assert_eq a "/opt/custom/OVMF.fd"%string.
Definition test_memory_backend_1g_hugepages : Test unit :=
  let config := set_hugepage_size (Some Size1G) (set_numa_node (Some 0) (make_config 4096 None)) in
  mem_arg ← find_arg "memory-backend-memfd" (default_args config); assert_in "hugetlbsize=1G" mem_arg.
Definition test_memory_backend_no_hugepages : Test unit :=
  mem_arg ← find_arg "memory-backend-memfd" (default_args (set_hugepage_size None (make_config 1024 None)));
  assert_not_in "hugetlb" mem_arg.

(** ** sev_snp/certs.rs and sev_snp/verify.rs *)

Definition test_der_object_length_short_form : Test unit :=
  n ← unwrap (der_object_length [x30; x05; x01; x02; x03; x04; x05]); assert_eq n 7.
Definition test_der_object_length_long_form : Test unit :=
  n ← unwrap (der_object_length ([x30; x82; x01; x00] ++ replicate 256 x00)); assert_eq n (4 + 256).
Definition test_split_der_certs : Test unit :=
  let cert1 := [x30; x03; xaa; xbb; xcc] in let cert2 := [x30; x02; xdd; xee] in
  p ← unwrap (split_der_certs (cert1 ++ cert2));
  assert_eq p.1 cert1;; assert_eq p.2 cert2.
Definition test_split_der_certs_too_short : Test unit := assert (is_err (split_der_certs [x30])).
Definition test_tcb_params : Test unit :=
  let params := mk_tcb_params 3 0 10 169 in
  assert_eq (bl_spl params) 3;; assert_eq (tee_spl params) 0;;
  assert_eq (snp_spl params) 10;; assert_eq (ucode_spl params) 169.

Definition test_strip_leading_zeros : Test unit :=
  assert_eq (strip_leading_zeros [x00; x00; x01; x02; x03]) [x01; x02; x03];;
  assert_eq (strip_leading_zeros [x01; x02; x03]) [x01; x02; x03];;
  assert_eq (strip_leading_zeros [x00; x00; x00]) [x00];;
  assert_eq (strip_leading_zeros [x00]) [x00];; assert_eq (strip_leading_zeros [x05]) [x05].
Definition test_verify_report_signature_too_short : Test unit :=
  e ← unwrap_err (verify_report_signature (replicate 100 x00) []); assert_message e "too short".
Definition test_verify_cert_chain_invalid_certs : Test unit :=
  assert (is_err (verify_cert_chain (mk_chain [x30; x00] [x30; x00] [x30; x00]))).

(** ** sev_snp/report.rs and sev_snp/backend.rs *)

Definition test_short_input_rejected : Test unit :=
  e ← unwrap_err (parse_sev_snp_report (replicate 100 x00)); assert_message e "expected 1184".
Definition test_empty_input_rejected : Test unit := assert (is_err (parse_sev_snp_report [])).
Definition test_oversized_input_rejected : Test unit := assert (is_err (parse_sev_snp_report (replicate 2000 x00))).

(** The report of the tests; the encoder of the crate sev makes its bytes. *)
Definition encoded_report : bytes := sim_raw_report x11 (replicate 64 x42) (replicate 48 xab).
Definition test_report_data_extraction : Test unit :=
  assert_eq (length encoded_report) REPORT_SIZE;;
  parsed ← unwrap (parse_sev_snp_report encoded_report);
  assert_eq (extract_report_data parsed) (replicate 64 x42);;
  assert_eq (extract_measurement parsed) (replicate 48 xab).

Definition milan : TeeBackend sim := sev_snp_backend (new_backend "Milan").
Definition test_sev_snp_backend_tee_type : Test unit := assert_eq (tee_type milan) SevSnp.
Definition test_sev_snp_backend_product : Test unit := assert_eq (product (new_backend "Genoa")) "Genoa"%string.
Definition test_sev_snp_backend_qemu_args : Test unit :=
  let args := qemu_args milan (mk_config "test" (Some "/boot/vmlinuz"%string) (Some "/boot/initrd.img"%string)
                [] 2 2048 (mk_tee SevSnp (Some "0x30000"%string)) false None None) in
  assert (negb (bool_decide (args = [])));;
  assert (existsb (contains_str "sev-snp-guest") args);; assert (existsb (contains_str "2048M") args).
Definition test_parse_report_roundtrip : Test unit :=
  parsed ← unwrap (parse_report milan encoded_report);
  assert_eq (ar_tee_type parsed) SevSnp;; assert_eq (ar_report_data parsed) (replicate 64 x42);;
  assert_eq (ar_measurement parsed) (replicate 48 xab);; assert_eq (ar_data parsed) encoded_report.
Definition test_parse_report_invalid_data : Test unit := assert (is_err (parse_report milan (replicate 10 x00))).
Definition test_verify_report_returns_not_valid : Test sim :=
  report ← unwrap (parse_report milan encoded_report);
  result ← run_unwrap (verify_report milan report);
  assert (negb (vr_valid result));; assert_eq (vr_tee_type result) SevSnp;;
  assert_eq (vr_measurement result) (replicate 48 xab);;
  assert (contains_str "NOT cryptographically verified" (vr_summary result)).

(** ** The attestation agent *)

(** The mock backends of the agent's tests; what they leave unimplemented panics. *)
Definition mock_backend (data measurement : bytes) : TeeBackend sim :=
  let unimplemented {A} : M sim error A := λ w, (Panic "not implemented", w) in
  mk_backend SevSnp (λ report_data, mret (mk_report SevSnp data report_data measurement))
    (λ _, unimplemented) (λ _, []) (λ _, Panic "not implemented").
Definition agent_mock : TeeBackend sim := mock_backend (replicate 16 xaa) (replicate 48 xbb).
Definition tls_mock : TeeBackend sim := mock_backend [xde; xad] [xbe; xef].

Definition test_key_bound_report_uses_sha384_hash : Test sim :=
  let pubkey := to_bytes "test-public-key-bytes" in
  report ← run_unwrap (get_key_bound_report agent_mock pubkey);
  assert_eq (take 48 (ar_report_data report)) (sha384 pubkey);;
  assert_eq (drop 48 (ar_report_data report)) (replicate 16 x00).
Definition test_nonce_bound_report_short_nonce : Test sim :=
  let nonce := to_bytes "short-nonce" in
  report ← run_unwrap (get_nonce_bound_report agent_mock nonce);
  assert_eq (take (length nonce) (ar_report_data report)) nonce;;
  assert_eq (drop (length nonce) (ar_report_data report)) (replicate (64 - length nonce) x00).
Definition test_nonce_bound_report_exact_64_bytes : Test sim :=
  let nonce := replicate 64 x42 in
  report ← run_unwrap (get_nonce_bound_report agent_mock nonce); assert_eq (ar_report_data report) nonce.
Definition test_nonce_bound_report_long_nonce_is_hashed : Test sim :=
  let nonce := replicate 100 xff in
  report ← run_unwrap (get_nonce_bound_report agent_mock nonce);
  assert_eq (take 48 (ar_report_data report)) (sha384 nonce);;
  assert_eq (drop 48 (ar_report_data report)) (replicate 16 x00).

Definition test_generate_attested_tls_identity : Test sim :=
  identity ← run_unwrap (generate_attested_tls_identity tls_mock);
  assert (negb (bool_decide (cert_der identity = [])));; assert (negb (bool_decide (key_der identity = [])));;
  extracted ← unwrap (extract_attestation_from_cert (cert_der identity));
  extracted ← expect extracted;
  assert_eq (ar_tee_type extracted) SevSnp;; assert_eq (ar_data extracted) [xde; xad];;
  assert_eq (ar_measurement extracted) [xbe; xef].
(** A server library that takes any certificate. *)
#[local] Instance sim_rustls_server : RustlsServer :=
  {| ServerConfig := bytes; safe_default_protocol_versions := inr tt;
     with_single_cert certs _ := inr (concat certs) |}.
Definition test_build_rustls_config : Test sim :=
  identity ← run_unwrap (generate_attested_tls_identity tls_mock);
  assert (is_ok (build_rustls_config identity)).

(** The tests pass. *)
Lemma tee_tests_pass :
  Forall (λ t, passes_pure t = true)
    [test_tee_type_serialization; test_tee_type_none_serialization; test_attestation_report_roundtrip;
     test_vm_config_deserialization; test_vm_config_no_disks; test_disk_config_defaults;
     test_vm_config_optional_kernel; test_vm_config_backward_compat_with_kernel;
     test_encode_decode_roundtrip; test_encode_decode_different_tee_types; test_decode_invalid_der;
     test_decode_invalid_json_in_octet_string; test_extract_from_invalid_cert; test_no_tee_backend_type;
     test_no_tee_qemu_args; test_sev_snp_args_with_policy; test_sev_snp_args_default_policy;
     test_memory_backend_matches_config; test_machine_arg_present; test_memory_backend_numa_binding;
     test_memory_backend_no_numa; test_custom_ovmf_path; test_memory_backend_1g_hugepages;
     test_memory_backend_no_hugepages; test_der_object_length_short_form; test_der_object_length_long_form;
     test_split_der_certs; test_split_der_certs_too_short; test_tcb_params; test_strip_leading_zeros;
     test_verify_report_signature_too_short; test_verify_cert_chain_invalid_certs; test_short_input_rejected;
     test_empty_input_rejected; test_oversized_input_rejected; test_report_data_extraction;
     test_sev_snp_backend_tee_type; test_sev_snp_backend_product; test_sev_snp_backend_qemu_args;
     test_parse_report_roundtrip; test_parse_report_invalid_data] ∧
  Forall (λ t, passes_on_host t = true)
    [test_extract_from_cert_with_extension; test_extract_from_cert_without_extension; test_no_tee_attestation_fails; test_verify_report_returns_not_valid;
     test_key_bound_report_uses_sha384_hash; test_nonce_bound_report_short_nonce;
     test_nonce_bound_report_exact_64_bytes; test_nonce_bound_report_long_nonce_is_hashed;
     test_generate_attested_tls_identity; test_build_rustls_config].
Proof. by run_tests. Qed.
