(* ===== verification/NodeTests.v ===== *)
(** * Tests of the compute node

    The tests of [src/crates/aleph-compute-node/src/] ([systemd.rs], [hugepages.rs],
    [verity.rs], [persistence.rs], [main.rs], [qemu/args.rs]; those of [numa.rs] and
    [network/tap.rs] are in [NumaTests] and [NetworkTests]) and the integration tests
    [tests/tier1_api.rs] and [tests/persistence_integration.rs]. *)

From S2P Require Import Prelude Strs Host HostSim Json Types NetTypes Instances Crypto Tee SevVerify CryptoSim.
From S2P Require Import Verity Qemu Persistence Startup Testing.
From S2P Require Numa Hugepages Manager.
#[local] Open Scope Z_scope.

(** ** systemd.rs and main.rs *)

Definition test_unit_name : Test unit :=
  assert_eq (unit_name "vm-001") "aleph-cvm-vm-vm-001.service"%string;;
  assert_eq (unit_name "abc123") "aleph-cvm-vm-abc123.service"%string.

Definition test_parse_size_mb : Test unit :=
  forM_ ["4G"; "4GB"; "4096M"; "4096MB"; "4096"; " 4G "; "4g"; "4gb"; "4096m"; "4096mb"]%string
    (λ s, n ← unwrap (parse_size_mb s); assert_eq n 4096).
Definition test_parse_size_mb_overflow : Test unit := assert (is_err (parse_size_mb "5000000G")).

(** ** hugepages.rs *)

Definition test_compute_2m_budget_basic : Test unit := assert_eq (Hugepages.compute_2m_budget 64000 4 4096 60000) 27904.
Definition test_compute_2m_budget_1g_exceeds_cap : Test unit :=
  assert_eq (Hugepages.compute_2m_budget 64000 100 4096 60000) 0.
Definition test_compute_2m_budget_no_1g_pages : Test unit :=
  assert_eq (Hugepages.compute_2m_budget 64000 0 4096 60000) 29952.
Definition test_compute_2m_budget_headroom_exceeds_ram : Test unit :=
  assert_eq (Hugepages.compute_2m_budget 2048 0 4096 60000) 0.

Definition tmp : string := "/tmp/test".
Definition nr_hugepages (node : Z) : string :=
  (tmp ++ "/node" ++ print_dec node ++ "/hugepages/hugepages-2048kB/nr_hugepages")%str.
Definition write_text (path content : string) : Test sim := run_unwrap (io (host_write path content)).
Definition test_allocate_2m_pages_sysfs : Test sim :=
  write_text (nr_hugepages 0) ("0" ++ nl)%str;;
  actual ← run_unwrap (Hugepages.allocate_2m_pages_on_node tmp 0 100); assert_eq actual 100.
Definition hugepage_topology : Numa.NumaTopology :=
  Numa.mk_topology [Numa.mk_node 0 (list_to_set [0; 1; 2; 3]) 0 2 64000;
                    Numa.mk_node 1 (list_to_set [4; 5; 6; 7]) 0 0 64000].
Definition reserve (headroom_mb : Z) (limit : option Z) (t : Numa.NumaTopology) :
    M sim error (result error unit * Numa.NumaTopology) := run_on t (Hugepages.allocate_hugepages headroom_mb limit tmp).
Definition test_allocate_hugepages_full : Test sim :=
  forM_ (range 0 2) (λ n, write_text (nr_hugepages n) ("0" ++ nl)%str);;
  out ← reserve 4096 None hugepage_topology;
  unwrap out.1;;
  n0 ← at_index (Numa.nodes out.2) 0; assert_eq (Numa.total_2m_hugepages n0) 28928;;
  n1 ← at_index (Numa.nodes out.2) 1; assert_eq (Numa.total_2m_hugepages n1) 29952.

(** ** verity.rs *)

Definition has_text (text s : string) : Test unit := assert (contains_str text s).
Definition lacks_text (text s : string) : Test unit := assert (negb (contains_str text s)).

Definition test_build_kernel_cmdline_no_verity : Test unit :=
  let cmdline := build_kernel_cmdline None None false in
  assert_eq cmdline "console=ttyS0 root=/dev/vda ro"%string;;
  lacks_text "roothash" cmdline;; lacks_text "verity-root" cmdline.
Definition test_build_kernel_cmdline_with_verity : Test unit :=
  let cmdline := build_kernel_cmdline (Some "abc123def456"%string) None false in
  assert_eq cmdline "console=ttyS0 root=/dev/mapper/verity-root ro roothash=abc123def456"%string;;
  has_text "verity-root" cmdline;; has_text "roothash=abc123def456" cmdline;; lacks_text "/dev/vda" cmdline.
Definition test_build_kernel_cmdline_no_ip : Test unit :=
  lacks_text "ip=" (build_kernel_cmdline None None false);;
  lacks_text "ip=" (build_kernel_cmdline (Some "aabbccdd"%string) None false).
Definition test_build_kernel_cmdline_luks : Test unit :=
  let cmdline := build_kernel_cmdline None None true in
  assert_eq cmdline "console=ttyS0 luks=1"%string;; lacks_text "roothash" cmdline;; lacks_text "verity-root" cmdline.
Definition test_build_kernel_cmdline_luks_ignores_roothash : Test unit :=
  assert_eq (build_kernel_cmdline (Some "abc123"%string) None true) "console=ttyS0 luks=1"%string.
Definition test_build_kernel_cmdline_with_workload_roothash : Test unit :=
  assert_eq (build_kernel_cmdline (Some "aabb"%string) (Some "ccdd"%string) false)
    "console=ttyS0 root=/dev/mapper/verity-root ro roothash=aabb workload_roothash=ccdd"%string.
Definition test_build_kernel_cmdline_workload_without_rootfs_verity : Test unit :=
  assert_eq (build_kernel_cmdline None (Some "ccdd"%string) false)
    "console=ttyS0 root=/dev/vda ro workload_roothash=ccdd"%string.
Definition test_build_kernel_cmdline_luks_ignores_workload_roothash : Test unit :=
  assert_eq (build_kernel_cmdline (Some "aabb"%string) (Some "ccdd"%string) true) "console=ttyS0 luks=1"%string.

(** ** persistence.rs *)

Definition plain_config (id : string) (policy : option string) : VmConfig :=
  mk_config id (Some "/boot/vmlinuz"%string) (Some "/boot/initrd.img"%string) [] 2 1024 (mk_tee SevSnp policy)
    false None None.
Definition test_vm (vm_id : string) : PersistedVm sim_net :=
  mk_persisted (plain_config vm_id None) (from_octets (10, 0, 100, 2)) None "tap-test" "52:54:00:00:64:02" []
    1709500000 None.
Definition save (name : string) (vm : PersistedVm sim_net) : Test sim := run_unwrap (save_vm tmp name vm).
Definition load (dir : string) : M sim error (list (PersistedVm sim_net)) := run_unwrap (load_all_vms dir).
Definition ids (vms : list (PersistedVm sim_net)) : list string := (λ v, vm_id (pv_config v)) <$> vms.

Definition test_save_and_load_roundtrip : Test sim :=
  save "vm-001" (test_vm "vm-001");;
  loaded ← load tmp;
  assert_eq (length loaded) 1%nat;;
  v ← at_index loaded 0;
  assert_eq (vm_id (pv_config v)) "vm-001"%string;; assert_eq (pv_ip v) (from_octets (10, 0, 100, 2)).
Definition test_delete_vm : Test sim :=
  save "vm-002" (test_vm "vm-002");;
  e ← observe (host_exists (tmp ++ "/vm-002.json")%str); assert e;;
  run_unwrap (delete_vm tmp "vm-002");;
  e ← observe (host_exists (tmp ++ "/vm-002.json")%str); assert (negb e).
Definition test_delete_nonexistent_ok : Test sim := run_unwrap (delete_vm tmp "nonexistent").
Definition test_load_empty_dir : Test sim := vms ← load tmp; assert_eq (length vms) 0%nat.
Definition test_load_nonexistent_dir : Test sim :=
  vms ← load "/tmp/nonexistent-aleph-test"; assert_eq (length vms) 0%nat.
Definition test_load_skips_malformed : Test sim :=
  save "good" (test_vm "good");;
  write_text (tmp ++ "/bad.json")%str "not valid json";;
  loaded ← load tmp; assert_eq (ids loaded) ["good"%string].
Definition test_save_with_port_forwards : Test sim :=
  let vm := test_vm "vm-ports" in
  save "vm-ports" (mk_persisted (pv_config vm) (pv_ip vm) (pv_ipv6 vm) (pv_tap_name vm) (pv_mac_addr vm)
    [mk_forward "vm-ports" 8080 80 Tcp] (pv_created_at_epoch vm) (pv_numa_node vm));;
  loaded ← load tmp;
  v ← at_index loaded 0;
  assert_eq (length (pv_port_forwards v)) 1%nat;;
  f ← at_index (pv_port_forwards v) 0; assert_eq (f_host_port f) 8080.

(** ** tests/persistence_integration.rs *)

Definition numbered_vm (i : Z) : PersistedVm sim_net :=
  mk_persisted (plain_config ("vm-00" ++ print_dec i)%str (Some "0x30000"%string)) (from_octets (10, 0, 100, i + 1)) None
    ("tap-vm-00" ++ print_dec i)%str ("52:54:00:00:64:" ++ hex2 i)%str [] (1709500000 + i) None.
Definition test_persistence_roundtrip_multiple_vms : Test sim :=
  forM_ (range 1 4) (λ i, save ("vm-00" ++ print_dec i)%str (numbered_vm i));;
  loaded ← load tmp; assert_eq (length loaded) 3%nat;;
  run_unwrap (delete_vm tmp "vm-002");;
  loaded ← load tmp; assert_eq (length loaded) 2%nat;;
  assert (bool_decide ("vm-001"%string ∈ ids loaded));; assert (bool_decide ("vm-002"%string ∉ ids loaded));;
  assert (bool_decide ("vm-003"%string ∈ ids loaded)).

(** ** tests/tier1_api.rs *)

Definition mock_tee_backend : TeeBackend sim :=
  mk_backend SevSnp
    (λ report_data, mret (mk_report SevSnp (replicate 64 x00) report_data (replicate 48 xab)))
    (λ r, mret (mk_verification true (ar_tee_type r) "mock verification" (ar_measurement r)
                  (JObj [("mock"%string, JBool true)])))
    (λ _, ["-machine"; "q35"]%string)
    (λ raw, Ok (mk_report SevSnp raw (replicate 64 x00) (replicate 48 xab))).
Definition mock_manager : Manager.VmManager sim_net sim :=
  Manager.new "/tmp/aleph-cvm-test" "/tmp/aleph-cvm-test/state" "br-test" (from_octets (10, 0, 200, 1))
    {[SevSnp := mock_tee_backend]} None "eth0" None false (Numa.mk_topology []).
Definition on_manager (body : Test (Manager.VmManager sim_net sim * sim)) : Test sim := λ w,
  let '(r, (_, w')) := body (mock_manager, w) in (r, w').

Definition test_get_nonexistent_vm : Test sim :=
  on_manager (e ← run_unwrap_err (Manager.get_vm "nonexistent"); assert_message e "not found").
Definition test_delete_nonexistent_vm : Test sim :=
  on_manager (e ← run_unwrap_err (Manager.delete_vm "nonexistent"); assert_message e "not found").
Definition test_list_vms_empty : Test sim :=
  on_manager (vms ← run_unwrap Manager.list_vms; assert_eq (length vms) 0%nat).

(** ** qemu/args.rs *)

Definition TEST_CMDLINE : string := "console=ttyS0 root=/dev/vda ro".
Definition TEST_MAC : string := "52:54:00:00:64:02".
Definition make_config (disks : list DiskConfig) : VmConfig :=
  mk_config "test-vm-001" (Some "/boot/vmlinuz"%string) (Some "/boot/initrd.img"%string) disks 4 2048
    (mk_tee SevSnp (Some "0x30000"%string)) false None None.
Definition rootfs_disk (path : string) : DiskConfig := mk_disk path true "raw".
Definition command_on (config : VmConfig) (backend : TeeBackend sim) (cmdline : option string) : M unit error (list string) :=
  unwrap (build_qemu_command config (for_vm "/run/aleph-cvm" "test-vm-001") "tap0" backend TEST_MAC cmdline).
Definition command (disks : list DiskConfig) : M unit error (list string) :=
  command_on (make_config disks) (sev_snp_backend (new_backend "Genoa")) (Some TEST_CMDLINE).
(** The argument after a flag. *)
Definition after_flag (flag : string) (args : list string) : M unit error string :=
  i ← expect (position (String.eqb flag) args); at_index args (S i).
Fixpoint all_after (flag : string) (args : list string) : list string :=
  match args with
  | a :: (b :: _) as args' => if String.eqb a flag then b :: all_after flag args' else all_after flag args'
  | _ => []
  end.

Definition test_build_command_includes_kernel : Test unit :=
  args ← command [rootfs_disk "/images/rootfs.ext4"];
  k ← after_flag "-kernel" args; assert_eq k "/boot/vmlinuz"%string.
Definition test_build_command_fixed_cmdline : Test unit :=
  args ← command []; a ← after_flag "-append" args; assert_eq a TEST_CMDLINE;; lacks_text "ip=" a.
Definition test_build_command_includes_mac : Test unit :=
  args ← command [];
  device_arg ← expect (List.find (contains_str "virtio-net-pci") args);
  has_text ("mac=" ++ TEST_MAC)%str device_arg.
Definition test_build_command_includes_sev_snp : Test unit :=
  args ← command []; assert (existsb (contains_str "sev-snp-guest") args).
Definition test_build_command_no_disks : Test unit :=
  args ← command []; assert (negb (existsb (contains_str "-drive") args)).
Definition test_build_command_multiple_disks : Test unit :=
  args ← command [mk_disk "/images/rootfs.ext4" true "raw"; mk_disk "/data/volume.qcow2" false "qcow2"];
  let drive_args := all_after "-drive" args in
  assert_eq (length drive_args) 2%nat;;
  a ← at_index drive_args 0;
  has_text "rootfs.ext4" a;; has_text "format=raw" a;; has_text "readonly=on" a;;
  a ← at_index drive_args 1;
  has_text "volume.qcow2" a;; has_text "format=qcow2" a;; has_text "readonly=off" a.
Definition test_build_command_verity_cmdline : Test unit :=
  args ← command_on (make_config []) (sev_snp_backend (new_backend "Genoa"))
    (Some "console=ttyS0 root=/dev/mapper/verity-root ro roothash=abcdef1234567890"%string);
  a ← after_flag "-append" args; has_text "roothash=" a;; has_text "verity-root" a.
Definition test_qemu_paths : Test unit :=
  assert_eq (qmp_socket (for_vm "/run/aleph-cvm" "my-vm")) "/run/aleph-cvm/my-vm/qmp.sock"%string.
Definition test_build_command_disk_boot_no_kernel : Test unit :=
  let config := mk_config "test-vm-001" None None [mk_disk "/images/ubuntu.qcow2" false "qcow2"] 4 2048
    (mk_tee TeeNone None) false None None in
  args ← command_on config (no_tee_backend sim) None;
  assert (negb (existsb (String.eqb "-kernel") args));; assert (negb (existsb (String.eqb "-initrd") args));;
  assert (negb (existsb (String.eqb "-append") args));;
  b ← after_flag "-boot" args; assert_eq b "order=c"%string;;
  c ← after_flag "-cpu" args; assert_eq c "host"%string;;
  assert (negb (existsb (contains_str "sev-snp-guest") args)).

(** The tests pass. *)
Lemma node_tests_pass :
  Forall (λ t, passes_pure t = true)
    [test_unit_name; test_parse_size_mb; test_parse_size_mb_overflow; test_compute_2m_budget_basic;
     test_compute_2m_budget_1g_exceeds_cap; test_compute_2m_budget_no_1g_pages;
     test_compute_2m_budget_headroom_exceeds_ram; test_build_kernel_cmdline_no_verity;
     test_build_kernel_cmdline_with_verity; test_build_kernel_cmdline_no_ip; test_build_kernel_cmdline_luks;
     test_build_kernel_cmdline_luks_ignores_roothash; test_build_kernel_cmdline_with_workload_roothash;
     test_build_kernel_cmdline_workload_without_rootfs_verity;
     test_build_kernel_cmdline_luks_ignores_workload_roothash; test_build_command_includes_kernel;
     test_build_command_fixed_cmdline; test_build_command_includes_mac; test_build_command_includes_sev_snp;
     test_build_command_no_disks; test_build_command_multiple_disks; test_build_command_verity_cmdline;
     test_qemu_paths; test_build_command_disk_boot_no_kernel] ∧
  Forall (λ t, passes_on_host t = true)
    [test_allocate_2m_pages_sysfs; test_allocate_hugepages_full; test_save_and_load_roundtrip; test_delete_vm;
     test_delete_nonexistent_ok; test_load_empty_dir; test_load_nonexistent_dir; test_load_skips_malformed;
     test_save_with_port_forwards; test_persistence_roundtrip_multiple_vms; test_get_nonexistent_vm;
     test_delete_nonexistent_vm; test_list_vms_empty].
Proof. by run_tests. Qed.
