(* ===== verification/SchedulerTests.v ===== *)
(** * Tests of the scheduler agent and of the demonstration service

    The tests of [src/crates/aleph-scheduler-agent/src/] ([adapter.rs] and the files of
    [aleph/]) and of [src/nix/fib-service/src/main.rs]. JSON text is given as the value it
    denotes. The two tests that compare with a digest made elsewhere use a digest of the
    simulated hash. *)

From S2P Require Import Prelude Strs Host HostSim Json Types Instances Crypto CryptoSim Testing.
From S2P Require Import Messages Volumes Allocations NodeHash Adapter SchedulerProps FibService.
#[local] Open Scope Z_scope.

(** ** adapter.rs *)

Definition test_translate_port_forwards : Test unit :=
  let msg := mk_message "test_hash" VmInstance
    (mk_resources 1 128 1 [mk_port "tcp" 8080; mk_port "udp" 9090]) [] ∅ false None None None None None None in
  let forwards := translate_port_forwards msg in
  assert_eq (length forwards) 2%nat;;
  f ← at_index forwards 0;
  assert_eq (ar_vm_port f) 8080;; assert_eq (ar_protocol f) "tcp"%string;; assert_eq (ar_host_port f) 0;;
  f ← at_index forwards 1; assert_eq (ar_vm_port f) 9090;; assert_eq (ar_protocol f) "udp"%string.

(** ** messages.rs *)

Definition test_deserialize_instance_message : Test unit :=
  msg ← expect (message_of_json (JObj
    [("item_hash", JStr "abc123def456"); ("type", JStr "vm_instance");
     ("resources", JObj [("vcpus", JNum 4); ("memory", JNum 2048);
        ("published_ports", JArr [JObj [("protocol", JStr "tcp"); ("port", JNum 8080)]])]);
     ("volumes", JArr [JObj [("ref", JStr "vol_hash_1"); ("mount", JStr "/data"); ("use_latest", JBool true)]]);
     ("variables", JObj [("ENV", JStr "production")]);
     ("allow_amend", JBool true);
     ("environment", JObj [("internet", JBool true); ("hypervisor", JStr "qemu");
        ("trusted_execution", JObj [("policy", JNum 196608)])]);
     ("rootfs", JObj [("parent", JObj [("ref", JStr "rootfs_hash"); ("use_latest", JBool true)]);
        ("persistence", JStr "host"); ("size_mib", JNum 10240)])]%string));
  assert_eq (machine_type msg) VmInstance;;
  assert_eq (res_vcpus (resources msg)) 4;; assert_eq (res_memory (resources msg)) 2048;;
  assert (is_confidential msg);; assert (is_persistent msg);;
  assert_eq (sev_policy msg) (Some 196608);;
  r ← expect (rootfs msg); assert_eq (pv_ref (rf_parent r)) "rootfs_hash"%string;;
  assert_eq (length (volumes msg)) 1%nat;; assert_eq (length (published_ports (resources msg))) 1%nat.
Definition test_deserialize_program_message : Test unit :=
  msg ← expect (message_of_json (JObj
    [("item_hash", JStr "prog_hash_789"); ("type", JStr "vm_function");
     ("resources", JObj [("vcpus", JNum 1); ("memory", JNum 256); ("seconds", JNum 30)]);
     ("code", JObj [("encoding", JStr "squashfs"); ("entrypoint", JStr "main:app"); ("ref", JStr "code_hash");
        ("interface", JStr "asgi")]);
     ("runtime", JObj [("ref", JStr "runtime_hash"); ("comment", JStr "Python 3.11")])]%string));
  assert_eq (machine_type msg) VmFunction;;
  assert (negb (is_persistent msg));; assert (negb (is_confidential msg));;
  c ← expect (code msg); assert_eq (cc_entrypoint c) "main:app"%string;;
  r ← expect (runtime msg); assert_eq (ru_ref r) "runtime_hash"%string.
Definition test_machine_resources_defaults : Test unit :=
  res ← expect (resources_of_json (JObj []));
  assert_eq (res_vcpus res) 1;; assert_eq (res_memory res) 128;; assert_eq (res_seconds res) 1;;
  assert_eq (length (published_ports res)) 0%nat.
Definition test_volume_discriminated_union : Test unit :=
  vol ← expect (volume_of_json (JObj
    [("ref", JStr "abc"); ("mount", JStr "/mnt/data"); ("use_latest", JBool true)]%string));
  assert (is_read_only vol);; assert_eq (mount vol) "/mnt/data"%string;;
  vol ← expect (volume_of_json (JObj
    [("mount", JStr "/tmp"); ("ephemeral", JBool true); ("size_mib", JNum 500)]%string));
  assert (negb (is_read_only vol));;
  vol ← expect (volume_of_json (JObj
    [("mount", JStr "/data"); ("size_mib", JNum 2048); ("persistence", JStr "host")]%string));
  assert (negb (is_read_only vol)).

(** ** volumes.rs *)

Definition test_volume_category_segments : Test unit :=
  assert_eq (url_segment CatCode) "code"%string;; assert_eq (url_segment CatRuntime) "runtime"%string;;
  assert_eq (url_segment CatData) "data"%string.
Definition test_volume_category_cache_dirs : Test unit :=
  assert_eq (cache_subdir CatCode) "code"%string;; assert_eq (cache_subdir CatRuntime) "runtime"%string;;
  assert_eq (cache_subdir CatData) "data"%string.

(** A digest of 32 bytes. *)
#[local] Instance sim_sha256 : Sha256.
Proof.
  refine {| sha256 b := take 32 (reverse b ++ replicate 32 x00) |}.
  intros b. rewrite length_take, length_app, length_replicate. lia.
Defined.
Definition test_verify_hash : Test sim :=
  run_unwrap (io (host_write "/tmp/test.bin" "hello world"));;
  let expected := hex_encode (sha256 (to_bytes "hello world")) in
  ok ← run_unwrap (verify_hash "/tmp/test.bin" expected); assert ok;;
  ok ← run_unwrap (verify_hash "/tmp/test.bin" "wrong"); assert (negb ok).

(** ** allocations.rs *)

Definition hashes (l : list string) : gset string := list_to_set l.
Definition test_allocation_contains : Test unit :=
  let alloc := mk_allocation (hashes ["hash_a"%string]) (hashes ["hash_b"%string]) in
  assert (contains alloc "hash_a");; assert (contains alloc "hash_b");; assert (negb (contains alloc "hash_c")).
Definition test_allocation_all_vms : Test unit :=
  let all := all_vms (mk_allocation (hashes ["a"; "b"]%string) (hashes ["c"%string])) in
  assert_eq (size all) 3%nat;;
  assert (bool_decide ("a"%string ∈ all));; assert (bool_decide ("b"%string ∈ all));;
  assert (bool_decide ("c"%string ∈ all)).
Definition test_reconcile_start_only : Test unit :=
  let actions := reconcile (mk_allocation ∅ (hashes ["vm1"; "vm2"]%string)) ∅ in
  assert_eq (length (to_start actions)) 2%nat;; assert_eq (to_stop actions) [];; assert_eq (unchanged actions) [].
Definition test_reconcile_stop_only : Test unit :=
  let actions := reconcile (mk_allocation ∅ ∅) (hashes ["vm1"; "vm2"]%string) in
  assert_eq (to_start actions) [];; assert_eq (length (to_stop actions)) 2%nat;; assert_eq (unchanged actions) [].
Definition test_reconcile_mixed : Test unit :=
  let actions := reconcile (mk_allocation ∅ (hashes ["vm1"; "vm3"]%string)) (hashes ["vm1"; "vm2"]%string) in
  assert_eq (to_start actions) ["vm3"%string];; assert_eq (to_stop actions) ["vm2"%string];;
  assert_eq (unchanged actions) ["vm1"%string].
Definition test_verify_allocation_signature : Test unit :=
  let body := to_bytes "test payload" in
  let token_hash := sha256 (to_bytes "secret token") in
  let signature := hex_encode (hmac_sha256 token_hash body) in
  assert (verify_allocation_signature body signature token_hash);;
  assert (negb (verify_allocation_signature body "invalid" token_hash));;
  assert (negb (verify_allocation_signature (to_bytes "wrong body") signature token_hash)).
Definition test_deserialize_allocation : Test unit :=
  alloc ← expect (allocation_of_json (JObj
    [("persistent_vms", JArr [JStr "hash1"; JStr "hash2"]); ("instances", JArr [JStr "hash3"])]%string));
  assert_eq (size (persistent_vms alloc)) 2%nat;; assert_eq (size (instances alloc)) 1%nat.
Definition test_deserialize_allocation_empty : Test unit :=
  alloc ← expect (allocation_of_json (JObj []));
  assert_eq (size (persistent_vms alloc)) 0%nat;; assert_eq (size (instances alloc)) 0%nat.

(** ** node_hash.rs *)

Definition HASH_A : string := demo_hash "a"%char.
Definition HASH_B : string := demo_hash "b"%char.
Definition HASH_C : string := demo_hash "c"%char.

(** [hash.parse().expect(..)]: a post under a hash that parses. *)
Definition make_post {S} (hash : string) (content : json) : M S error PostV0 :=
  h ← unwrap (node_hash_parse hash); mret (mk_post h content).
Definition make_crn_post {S} (hash name address : string) : M S error PostV0 :=
  make_post hash (JObj [("action", JStr "create-resource-node");
    ("details", JObj [("name", JStr name); ("address", JStr address)])]%string).
Definition make_non_crn_post {S} (hash : string) : M S error PostV0 :=
  make_post hash (JObj [("action", JStr "link-resource-node"); ("details", JObj [("ccn_hash", JStr "abc123")])]%string).
(** Discovery with a client that returns the posts. *)
Definition discover (posts : list PostV0) (domain : string) : M sim error (option DiscoveredNode) :=
  run_unwrap (@discover_node_hash _ _ (posts_client posts) "0xowner" domain).
Definition assert_none {S A} (o : option A) : Test S := assert (match o with None => true | Some _ => false end).

Definition test_discover_single_match : Test sim :=
  p ← make_crn_post HASH_A "my-node" "https://my-node.example.com";
  q ← make_crn_post HASH_B "other-node" "https://other.example.com";
  result ← discover [p; q] "my-node.example.com";
  node ← expect result;
  assert_eq (hash_display (dn_hash node)) HASH_A;; assert_eq (dn_name node) "my-node"%string;;
  assert_eq (dn_address node) "https://my-node.example.com"%string.
Definition test_discover_no_match : Test sim :=
  p ← make_crn_post HASH_A "node-a" "https://a.example.com";
  q ← make_crn_post HASH_B "node-b" "https://b.example.com";
  result ← discover [p; q] "not-registered.example.com"; assert_none result.
Definition test_discover_multiple_matches_returns_none : Test sim :=
  p ← make_crn_post HASH_A "node-1" "https://same.example.com";
  q ← make_crn_post HASH_B "node-2" "https://same.example.com";
  result ← discover [p; q] "same.example.com"; assert_none result.
Definition test_discover_url_normalization : Test sim :=
  p ← make_crn_post HASH_A "my-node" "https://My-Node.Example.COM/";
  result ← discover [p] "my-node.example.com";
  node ← expect result; assert_eq (hash_display (dn_hash node)) HASH_A.
Definition test_discover_ignores_non_crn_ops : Test sim :=
  p ← make_non_crn_post HASH_A;
  q ← make_crn_post HASH_B "target" "https://target.example.com";
  r ← make_non_crn_post HASH_C;
  result ← discover [p; q; r] "target.example.com";
  node ← expect result; assert_eq (hash_display (dn_hash node)) HASH_B.
Definition test_discover_empty_response : Test sim := result ← discover [] "any.example.com"; assert_none result.

Definition test_normalize_url : Test unit :=
  assert_eq (normalize_url "https://My-Node.Example.COM/") "https://my-node.example.com"%string;;
  assert_eq (normalize_url "https://node.example.com") "https://node.example.com"%string;;
  assert_eq (normalize_url "https://NODE.COM///") "https://node.com"%string.
Definition valid_hash : string := "b93eaba554318bd074819477e48147bb7bf4121bb771a6074022b0bf412cacc0".
Definition test_node_hash_parse : Test unit :=
  hash ← unwrap (node_hash_parse valid_hash); assert_eq (hash_display hash) valid_hash;;
  assert (is_err (node_hash_parse ""));; assert (is_err (node_hash_parse "not-a-hash")).
Definition assert_cached (d : string) (hash : NodeHash) : Test sim :=
  c ← run_unwrap (read_cached_hash d); c ← expect c; assert_eq (hash_display c) (hash_display hash).
Definition test_cache_read_write : Test sim :=
  c ← run_unwrap (read_cached_hash "/tmp/state"); assert_none c;;
  hash ← unwrap (node_hash_parse valid_hash);
  run_unwrap (write_cached_hash "/tmp/state" hash);; assert_cached "/tmp/state" hash;;
  hash2 ← unwrap (node_hash_parse "0000000000000000000000000000000000000000000000000000000000000001");
  run_unwrap (write_cached_hash "/tmp/state" hash2);; assert_cached "/tmp/state" hash2.
Definition test_pid_file (process_id : Z) : Test sim :=
  run_unwrap (write_pid_file process_id "/tmp/state");;
  pid ← run_unwrap (read_pid "/tmp/state"); pid ← expect pid; assert_eq pid process_id;;
  run_unwrap (remove_pid_file "/tmp/state");;
  pid ← run_unwrap (read_pid "/tmp/state"); assert_none pid.

(** ** The demonstration service *)

Definition test_fib_base_cases : Test unit := assert_eq (fibonacci 0) 0;; assert_eq (fibonacci 1) 1.
Definition test_fib_known_values : Test unit := assert_eq (fibonacci 10) 55;; assert_eq (fibonacci 20) 6765.
Definition test_fib_large_saturates : Test unit := assert (0 <? fibonacci 100).

(** The tests pass. *)
Lemma scheduler_tests_pass :
  Forall (λ t, passes_pure t = true)
    [test_translate_port_forwards; test_deserialize_instance_message; test_deserialize_program_message;
     test_machine_resources_defaults; test_volume_discriminated_union; test_volume_category_segments;
     test_volume_category_cache_dirs; test_allocation_contains; test_allocation_all_vms;
     test_reconcile_start_only; test_reconcile_stop_only; test_reconcile_mixed;
     test_verify_allocation_signature; test_deserialize_allocation; test_deserialize_allocation_empty;
     test_normalize_url; test_node_hash_parse; test_fib_base_cases; test_fib_known_values;
     test_fib_large_saturates] ∧
  Forall (λ t, passes_on_host t = true)
    [test_verify_hash; test_discover_single_match; test_discover_no_match;
     test_discover_multiple_matches_returns_none; test_discover_url_normalization;
     test_discover_ignores_non_crn_ops; test_discover_empty_response; test_cache_read_write;
     test_pid_file 4242].
Proof. by run_tests. Qed.
